(* ===== verification/_CoqProject ===== *)
-Q . S2P
Prelude.v
GoLib.v
Shared.v
Idgen.v
TimeFormat.v
Json.v
Strconv.v
Task.v
Workflow.v
Execution.v
Approval.v
Escalation.v
Policy.v
Routing.v
RoutingSpec.v
AuditLog.v
Resilience.v
ResilienceSpec.v
Trace.v
FailureStatsCollector.v
Persistence.v
Queries.v
Ports.v
AuditService.v
Intake.v
RouteTask.v
PolicyEval.v
WorkflowService.v
ApprovalService.v
EscalationService.v
GovDecisions.v
ProcessTask.v
Inbound.v
Decorators.v
Config.v
Dto.v
Handlers.v
Wire.v
ObsLog.v
Bootstrap.v
ProgramLogic.v
PortSpecs.v
Runs.v
ServiceSpecs.v
DecoratorSpecs.v
BootSpecs.v
HandlerTrees.v
HandlerSafety.v
HandlerSpecs.v
Telemetry.v
Seam.v
System.v
ServiceEffects.v
StartEffects.v
ResolveEffects.v
Success.v
PipelineEffects.v
EndToEnd.v
Scenarios.v
