(* ===== verification/Prelude.v ===== *)
(** * agent-governance-core, verified

    The program governs the work of AI agents.  A task is submitted and classified; the routing
    engine chooses an execution strategy; the policy engine allows it, denies it or requires an
    approval; a workflow run carries it through a state machine; an execution lease with a budget
    of attempts lets an agent work; approvals, escalations, a kill switch, circuit breakers and
    an append-only audit trail surround it.  Below, "src/internal" is left out of file names.

    ** Files, in dependency order

    Foundations.  [Prelude]: errors, results with their monad, tactics, hints.  [GoLib]: what the
    sources use of Go's standard library: byte strings, hexadecimal, binary64 floats (the
    Standard Library's SpecFloat), durations and int64 wrap-around, fmt verbs, dynamic values.
    [TimeFormat]: time.RFC3339, with the proof that its calendar is right.  [Json]: decoding of a
    JSON document into a struct, strconv.Atoi, values of encoded responses.  [Strconv]:
    strconv.ParseFloat.

    Domain (domain/).  [Shared], [Task], [Workflow], [Execution], [Approval], [Escalation],
    [Policy], [Routing], [AuditLog], [Trace]: a Record per aggregate, an inductive type per enum,
    a definition per method, with the code's guards in their order; each file has the invariants
    of its aggregate over every sequence of method calls.  A Go string enum keeps the unknown
    strings a value of its type can hold.  [RoutingSpec]: theorems on the evaluator and on its
    floating point scores.

    Application (application/).  [Resilience] and [ResilienceSpec]: circuit breakers, their
    registry and listeners, and their refinement of an abstract machine.
    [FailureStatsCollector]: the statistics of adaptive routing.  [AuditService], [Intake],
    [RouteTask], [PolicyEval], [WorkflowService], [ApprovalService], [EscalationService],
    [GovDecisions], [ProcessTask]: one definition per use case.

    Adapters.  [Persistence]: what each repository of adapters/outbound/persistence writes into
    the columns of its table and rebuilds from them.  [Queries]: the filtered, paged queries.
    [Ports]: the interfaces of ports/outbound and the database behind them.  [Inbound]: the
    interfaces of ports/inbound and the facade of adapters/inbound/sdk.  [Decorators]: tracing and
    metrics.  [Dto] and [Handlers]: adapters/inbound/http.  [Config]: configuration, notifier and
    memory stub.  [Idgen]: the generator of identifiers.  [Wire]: the ports that bootstrap/wire.go puts together.  [ObsLog]: the log handler
    of infrastructure/obs/log.  [Bootstrap]: the life of the process: main.go, the order of
    construction of bootstrap/wire.go, infrastructure/observability, the instruments of
    adapters/inbound/metrics, the connection pool.  [Seam]: the exported in-memory test seam
    govhttptest.

    Proofs about the composition.  [ProgramLogic] (the judgement [safe]), [PortSpecs],
    [ServiceSpecs], [HandlerTrees], [HandlerSafety], [System]: any number of requests,
    interleaved call by call.
    [Runs], [ServiceEffects], [StartEffects], [ResolveEffects]: what a service does when it runs alone
    and nothing fails.  [Success], [PipelineEffects]: what it has done when it answers a success,
    and that it answers one.  [EndToEnd]: the pipeline, the approval and the attempts, composed.
    [DecoratorSpecs], [HandlerSpecs], [Telemetry]: the inbound adapters.  [BootSpecs]: the process.
    [Scenarios]: concrete executions.

    ** The shape of the model

    A use case, a handler, a decorated port are a [proc]: a finite tree of outbound calls ([port]),
    each continued by its answer, ending in a result or in a Go panic.  [exec] gives the answer
    and the effect of one call (a definition per repository method, [task_Save] to
    [phase_approval_Find]) on the [World]: the tables with their primary keys, foreign keys,
    unique and check constraints, the in-memory breakers and statistics, and what was reported
    outside.  A [choice] fixes what the program does not decide: the fault that hits a statement
    (it fails without effect, or takes effect and its answer is lost), the identifier generated,
    the clock, the row that comes first where there is no ORDER BY, the answer of the memory
    engine and of a callback.  [run] runs a tree alone under a sequence of choices; [System]
    interleaves the calls of any number of trees under any choices, with abandoned requests, the
    statistics collector and restarts.  Loops of the sources run over slices, so the trees are
    finite and no fuel is needed anywhere.  A transaction of the program never spans more than
    one statement, as in the sources: each statement is atomic.

    The start and the end of the process are trees of calls of another kind, of the libraries
    ([Bootstrap.lib_call]), made by threads that take turns; the requests the server answers
    meanwhile are those of [System].

    ** What the theorems show

    The system ([System]): no execution lease without an allowing decision or a resolved approval,
    one lease per run, never more than three attempts; every stored run is a legal, justified
    history; the record is append-only; no request panics.  [Scenarios] proves two races the
    code allows: two resolutions of one approval, and a killed run brought back by an attempt.

    The use cases ([ServiceEffects], [StartEffects], [ResolveEffects], [PipelineEffects]): the
    gates of policy and start; the exact effect of start, attempt, kill and approval resolution on
    the rows; and of the whole intake pipeline, with faults; without them it succeeds, and the run can
    be worked on and completed exactly as policy and approval decide ([EndToEnd]).

    The inbound adapters: decorators change neither results nor effects; a request answered 400
    changes nothing; attempts over HTTP are exactly the valid ones; listings are bounded, except
    for the audit trail; telemetry is silent when disabled and sound when enabled; the log lines
    of a request carry its trace; the test seam answers as the program can ([Seam], a simulation).

    The state machines: runs ([Workflow]: invariant, absorption, termination), tasks, approvals,
    leases, breakers (refinement, recovery, legality, isolation in the registry).

    The decision engines: policy (most restrictive rule, table of the default rules), routing
    (precedence of overrides, tie-break, the equality of the binary64 decision with exact
    arithmetic, bounds of the adaptive adjustment, validity of every decision).

    The process ([BootSpecs]): a start that fails closes the pool, a process that serves was
    completely built, and shuts down in order.

    Data: stored rows keep what decisions depend on; round trips of runs, leases, decisions and
    approvals; traceparent headers; pages of the audit trail; failure counts.

    ** Parameters

    [ULID] and [ULIDMaker]: the parser and the maker of github.com/oklog/ulid.  [Postgres]: what a TIMESTAMPTZ column keeps of an
    instant.  [Zone]: the local time zone.  [Chi]: which route of a router serves a path.
    [Wiring]: which optional dependencies are present ([Config.wiring_of] gives the program's).
    The environment variables ([Config], [Bootstrap]).
    Every theorem is for all of them; witnesses instantiate them.

    ** Not modelled

    The text of JSON documents (a document is its tree; a request that ends in trailing data is
    its first document); response headers other than traceparent; the logger, recoverer and header
    middlewares of chi; time stamps of log lines; the OpenTelemetry SDK and its exporters; the entropy
    behind identifiers (choices, resp. a byte stream); the inside of the connection pool;
    constructors that only store their arguments; the test fixtures; the widths of text columns
    and blank padding of CHAR columns (a statement they refuse is a fault); context cancellation
    inside a statement (a fault); mutexes (the calls they guard are atomic).  A callback of the embedding program is an answer; what it does with the
    facade meanwhile is another request. *)

From stdpp Require Export base tactics numbers list gmap strings option.
From stdpp Require Import options.

(** * Go errors *)

(** A Go [error] value.  [Sentinel] is a package level value made with
    [errors.New]: it is identified by its qualified name.  [Errorf] is the value
    of [fmt.Errorf] with no [%w] verb, [Wrapf] with one: the format string is kept
    as written, with the rendered arguments and the wrapped cause.  [Wrapv] is
    [fmt.Errorf(fmt, cause, shown)] for a format with [%w] then [%v]: the second error
    is printed but not wrapped. *)
Inductive error : Type :=
  | Sentinel (name msg : string)
  | Errorf (fmt : string) (args : list string)
  | Wrapf (fmt : string) (args : list string) (cause : error)
  | Wrapv (fmt : string) (cause shown : error).

#[export] Instance error_eq_dec : EqDecision error.
Proof. solve_decision. Defined.

(** [errors.Is]: the target occurs in the chain of wrapped errors. *)
Fixpoint errors_Is (err target : error) : bool :=
  bool_decide (err = target) ||
  match err with
  | Wrapf _ _ cause | Wrapv _ cause _ => errors_Is cause target
  | _ => false
  end.

(** * Results of fallible operations: Go's [(T, error)] *)

Inductive result (A : Type) : Type :=
  | Ok (a : A)
  | Err (e : error).
Arguments Ok {A} a.
Arguments Err {A} e.

#[export] Instance result_eq_dec `{EqDecision A} : EqDecision (result A).
Proof. solve_decision. Defined.

#[export] Instance result_ret : MRet result := λ A a, Ok a.
#[export] Instance result_bind : MBind result := λ A B f r,
  match r with Ok a => f a | Err e => Err e end.
#[export] Instance result_fmap : FMap result := λ A B f r,
  match r with Ok a => Ok (f a) | Err e => Err e end.

Definition is_Ok {A} (r : result A) : bool :=
  match r with Ok _ => true | Err _ => false end.

(** [if err != nil { return nil, fmt.Errorf("ctx: %w", err) }] *)
Definition wrap {A} (ctx : string) (r : result A) : result A :=
  match r with Ok a => Ok a | Err e => Err (Wrapf ctx [] e) end.

Lemma errors_Is_refl e : errors_Is e e = true.
Proof. destruct e; simpl; rewrite bool_decide_eq_true_2 by done; done. Qed.

Lemma errors_Is_wrap f a e t : errors_Is e t = true → errors_Is (Wrapf f a e) t = true.
Proof. intros H. simpl. rewrite H. apply orb_true_r. Qed.

Lemma errors_Is_wrapv f e s t : errors_Is e t = true → errors_Is (Wrapv f e s) t = true.
Proof. intros H. simpl. rewrite H. apply orb_true_r. Qed.

Arguments errors_Is : simpl never.

Lemma result_bind_Ok {A B} (f : A → result B) r b :
  (r ≫= f) = Ok b ↔ ∃ a, r = Ok a ∧ f a = Ok b.
Proof. destruct r; naive_solver. Qed.

Lemma wrap_Ok {A} ctx (r : result A) a : wrap ctx r = Ok a ↔ r = Ok a.
Proof. destruct r; naive_solver. Qed.

Lemma wrap_Err {A} ctx (r : result A) e :
  wrap ctx r = Err e ↔ ∃ e', r = Err e' ∧ e = Wrapf ctx [] e'.
Proof. destruct r; naive_solver. Qed.

(** * Automation *)

Create HintDb gov discriminated.
#[export] Hint Resolve errors_Is_refl errors_Is_wrap errors_Is_wrapv : gov.

(** Case analysis on every boolean test and match that blocks a hypothesis or the
    goal, closing the branches the equations contradict. *)
Ltac split_guards :=
  intros; simplify_eq/=; repeat (case_match || case_bool_decide || case_decide); simplify_eq/=.

(** Turns boolean equations into the propositions they decide. *)
Ltac boolify :=
  repeat match goal with
  | H : _ && _ = true |- _ => apply andb_true_iff in H as [? ?]
  | H : _ && _ = false |- _ => apply andb_false_iff in H
  | H : _ || _ = true |- _ => apply orb_true_iff in H
  | H : _ || _ = false |- _ => apply orb_false_iff in H as [? ?]
  | H : negb _ = true |- _ => apply negb_true_iff in H
  | H : negb _ = false |- _ => apply negb_false_iff in H
  | H : bool_decide _ = true |- _ => apply bool_decide_eq_true_1 in H
  | H : bool_decide _ = false |- _ => apply bool_decide_eq_false_1 in H
  | H : (_ <=? _)%Z = true |- _ => apply Z.leb_le in H
  | H : (_ <=? _)%Z = false |- _ => apply Z.leb_gt in H
  | H : (_ <? _)%Z = true |- _ => apply Z.ltb_lt in H
  | H : (_ <? _)%Z = false |- _ => apply Z.ltb_ge in H
  | H : (_ =? _)%Z = true |- _ => apply Z.eqb_eq in H
  | H : (_ =? _)%Z = false |- _ => apply Z.eqb_neq in H
  end.

(** * Checks by evaluation over a finite domain *)

Lemma forallb_in {A} (f : A → bool) l x : forallb f l = true → x ∈ l → f x = true.
Proof.
  intros H Hx. apply list_elem_of_In in Hx. by apply (proj1 (List.forallb_forall f l) H).
Qed.

Lemma forallb_seq (f : nat → bool) a n i :
  forallb f (seq a n) = true → a ≤ i < a + n → f i = true.
Proof. intros H Hi. apply (forallb_in f (seq a n)); [done|]. by apply elem_of_seq. Qed.

(** * Interfaces *)

(** A Go type [type T string] with declared constants: [of_string] is the
    conversion [T(s)], [to_string] the conversion [string(v)] (also its [String]
    method).  [known] holds of the declared constants; every other string is
    carried by a constructor of its own, so converting back is lossless. *)
Class GoEnum (A : Type) := {
  of_string : string → A;
  to_string : A → string;
  known : A → bool;
  to_of_string : ∀ s, to_string (of_string s) = s;
  of_to_string : ∀ a, known a = true → of_string (to_string a) = a;
}.

(** Discharges the two laws of an instance given by an [if] cascade. *)
Ltac solve_enum :=
  intros; cbn beta in *;
  first [ solve [ repeat case_decide; subst; reflexivity ]
        | match goal with K : _ = true |- _ =>
            match type of K with context [match ?a with _ => _ end] =>
              destruct a; solve [ discriminate K | vm_compute; reflexivity ]
            end
          end ].

(** The validating constructor [NewT(s)]: [v := T(s); if !valid[v] { error }].  Every
    [valid] map of the sources lists exactly the constants of its type. *)
Definition parse_enum `{GoEnum A} (fmt : string) (s : string) : result A :=
  let v := of_string s in if known v then Ok v else Err (Errorf fmt [s]).

Section go_enum.
Context `{GoEnum A}.

(** Distinct constants have distinct spellings. *)
Lemma to_string_inj a b :
  known a = true → known b = true → to_string a = to_string b → a = b.
Proof. intros Ha Hb E. rewrite <- (of_to_string a), <- (of_to_string b) by done. by f_equal. Qed.

(** The validating constructor accepts exactly the spellings of the constants,
    and gives the constant back. *)
Lemma parse_enum_Ok fmt s a : parse_enum fmt s = Ok a ↔ known a = true ∧ s = to_string a.
Proof.
  unfold parse_enum. split.
  - case_match eqn:E; intros [= <-]. by rewrite to_of_string.
  - intros [K ->]. by rewrite of_to_string, K.
Qed.

Lemma parse_enum_to_string fmt a : known a = true → parse_enum fmt (to_string a) = Ok a.
Proof. intros K. by apply parse_enum_Ok. Qed.
End go_enum.
#[export] Hint Resolve parse_enum_to_string : gov.
