(* ===== verification/GoLib.v ===== *)
(** The parts of the Go language and standard library the sources use: byte
    strings ([strings], [encoding/hex]), [float64] as IEEE 754 binary64, [time],
    [fmt] verbs and the dynamic values of [any]. *)

From stdpp Require Export pretty.
From stdpp Require Import options.
From Stdlib Require Export Ascii Floats.SpecFloat.
From S2P Require Import Prelude.

(** * Strings *)

(** A Go string is a sequence of bytes; so is a [string] here. *)
Definition byte_of (c : Ascii.ascii) : N := Ascii.N_of_ascii c.
Definition of_byte (n : N) : Ascii.ascii := Ascii.ascii_of_N n.

(** The three byte encodings of the [unicode.IsSpace] runes above U+00FF:
    U+1680, U+2000 to U+200A, U+2028, U+2029, U+202F, U+205F and U+3000. *)
Definition space3 (a b c : N) : bool :=
  ((a =? 225) && (b =? 154) && (c =? 128))%N
  || ((a =? 226) && (b =? 128)
      && (((128 <=? c) && (c <=? 138)) || (c =? 168) || (c =? 169) || (c =? 175)))%N
  || ((a =? 226) && (b =? 129) && (c =? 159))%N
  || ((a =? 227) && (b =? 128) && (c =? 128))%N.
Definition space2 (a b : N) : bool := ((a =? 194) && ((b =? 133) || (b =? 160)))%N.
Definition space1 (a : N) : bool := (((9 <=? a) && (a <=? 13)) || (a =? 32))%N.

(** [strings.TrimLeftFunc(s, unicode.IsSpace)] *)
Fixpoint trim_left (s : string) : string :=
  match s with
  | String a r =>
      if space1 (byte_of a) then trim_left r else
      match r with
      | String b r' =>
          if space2 (byte_of a) (byte_of b) then trim_left r' else
          match r' with
          | String c r'' =>
              if space3 (byte_of a) (byte_of b) (byte_of c) then trim_left r'' else s
          | EmptyString => s
          end
      | EmptyString => s
      end
  | EmptyString => s
  end.

(** The same from the end, on the reversed string. *)
Fixpoint trim_left_rev (s : string) : string :=
  match s with
  | String a r =>
      if space1 (byte_of a) then trim_left_rev r else
      match r with
      | String b r' =>
          if space2 (byte_of b) (byte_of a) then trim_left_rev r' else
          match r' with
          | String c r'' =>
              if space3 (byte_of c) (byte_of b) (byte_of a) then trim_left_rev r'' else s
          | EmptyString => s
          end
      | EmptyString => s
      end
  | EmptyString => s
  end.

Definition TrimSpace (s : string) : string :=
  String.rev (trim_left_rev (String.rev (trim_left s))).

Lemma TrimSpace_nonempty s : TrimSpace s ≠ "" → s ≠ "".
Proof. by intros H ->. Qed.

(** A string that starts with a visible ASCII character is not blank. *)
Definition visible (a : Ascii.ascii) : bool := ((33 <=? byte_of a) && (byte_of a <=? 126))%N.

Lemma visible_not_space a b c : visible a = true →
  space1 (byte_of a) = false ∧ space2 (byte_of a) b = false ∧ space3 (byte_of a) b c = false.
Proof.
  unfold visible, space1, space2, space3. intros V. apply andb_true_iff in V as [L U].
  apply N.leb_le in L, U. split_and!.
  - rewrite (proj2 (N.leb_gt (byte_of a) 13)), (proj2 (N.eqb_neq _ _)) by lia. by rewrite andb_false_r.
  - by rewrite (proj2 (N.eqb_neq (byte_of a) 194)) by lia.
  - by rewrite !(proj2 (N.eqb_neq (byte_of a) _)) by lia.
Qed.

Lemma rev_app_spec s t : String.rev_app s t = String.rev s +:+ t.
Proof.
  unfold String.rev. revert t. induction s as [|a s IH]; intros t; [done|]. simpl.
  rewrite (IH (String a t)), (IH (String a "")). generalize (String.rev_app s ""). clear IH.
  intros u. induction u as [|x u IH]; [done|]. exact (f_equal (String x) IH).
Qed.

Lemma trim_left_rev_stops a s : visible a = true → trim_left_rev (s +:+ String a "") ≠ "".
Proof.
  intros V. assert (H : ∀ n s, String.length s ≤ n → trim_left_rev (s +:+ String a "") ≠ "").
  { induction n as [|n IH]; intros u L.
    - destruct u; simpl in *; [|lia]. by destruct (visible_not_space a 0%N 0%N V) as (-> & _).
    - destruct u as [|x u]; simpl in *.
      + by destruct (visible_not_space a 0%N 0%N V) as (-> & _).
      + destruct (space1 _); [apply IH; lia|]. destruct u as [|y u]; simpl in *.
        * destruct (visible_not_space a (byte_of x) 0%N V) as (_ & -> & _). done.
        * destruct (space2 _ _); [apply IH; lia|]. destruct u as [|z u]; simpl in *.
          -- by destruct (visible_not_space a (byte_of y) (byte_of x) V) as (_ & _ & ->).
          -- destruct (space3 _ _ _); [apply IH; lia|done]. }
  by eapply H.
Qed.

Lemma TrimSpace_visible a s : visible a = true → TrimSpace (String a s) ≠ "".
Proof.
  intros V. unfold TrimSpace.
  assert (E : trim_left (String a s) = String a s).
  { simpl. destruct (visible_not_space a 0%N 0%N V) as (-> & _). destruct s as [|b s]; [done|].
    destruct (visible_not_space a (byte_of b) 0%N V) as (_ & -> & _). destruct s as [|c s]; [done|].
    by destruct (visible_not_space a (byte_of b) (byte_of c) V) as (_ & _ & ->). }
  rewrite E. unfold String.rev at 2. simpl. rewrite rev_app_spec. intros H.
  apply (trim_left_rev_stops a (String.rev s) V). destruct (trim_left_rev _) as [|x t]; [done|].
  exfalso. revert H. unfold String.rev. simpl. rewrite rev_app_spec. by destruct (String.rev t).
Qed.

(** [strings.Split(s, sep)] for a one byte separator. *)
Fixpoint Split (sep : Ascii.ascii) (s : string) : list string :=
  match s with
  | EmptyString => [""]
  | String c r =>
      if decide (c = sep) then "" :: Split sep r
      else match Split sep r with
           | p :: ps => String c p :: ps
           | [] => [String c ""]
           end
  end.

(** [strings.Index(s, sep)] for a one byte separator; [None] is -1. *)
Fixpoint Index (sep : Ascii.ascii) (s : string) : option nat :=
  match s with
  | EmptyString => None
  | String c r => if decide (c = sep) then Some 0 else S <$> Index sep r
  end.

(** [s[:n]] *)
Fixpoint str_take (n : nat) (s : string) : string :=
  match n, s with
  | S n, String c r => String c (str_take n r)
  | _, _ => ""
  end.

(** [strings.ReplaceAll(s, sep, "")] for a one byte separator. *)
Fixpoint RemoveAll (sep : Ascii.ascii) (s : string) : string :=
  match s with
  | EmptyString => ""
  | String c r => if decide (c = sep) then RemoveAll sep r else String c (RemoveAll sep r)
  end.

Definition lower_ascii (c : Ascii.ascii) : Ascii.ascii :=
  let n := byte_of c in if ((65 <=? n) && (n <=? 90))%N then of_byte (n + 32) else c.

(** [strings.ToLower] on ASCII letters.  The sources lower case a string only to
    test it against, or to store, lower case hexadecimal: a non ASCII rune fails
    that test before and after (no such rune has an ASCII hexadecimal digit as its
    lower case). *)
Fixpoint ToLower (s : string) : string :=
  match s with
  | EmptyString => ""
  | String c r => String (lower_ascii c) (ToLower r)
  end.

(** Every byte of [s] satisfies [p]: a [range] loop over the runes of [s] whose
    body accepts ASCII runes only rejects the same strings. *)
Fixpoint str_forallb (p : Ascii.ascii → bool) (s : string) : bool :=
  match s with
  | EmptyString => true
  | String c r => p c && str_forallb p r
  end.

(** * [encoding/hex] *)

Definition hex_digit (n : N) : Ascii.ascii :=
  if (n <? 10)%N then of_byte (48 + n) else of_byte (87 + n).

(** [hex.EncodeToString] *)
Fixpoint EncodeToString (bs : list N) : string :=
  match bs with
  | [] => ""
  | b :: bs => String (hex_digit (b / 16)) (String (hex_digit (b mod 16)) (EncodeToString bs))
  end.

Definition from_hex (c : Ascii.ascii) : option N :=
  let n := byte_of c in
  if ((48 <=? n) && (n <=? 57))%N then Some (n - 48)%N
  else if ((97 <=? n) && (n <=? 102))%N then Some (n - 87)%N
  else if ((65 <=? n) && (n <=? 70))%N then Some (n - 55)%N
  else None.

(** [hex.DecodeString]; [None] for its error. *)
Fixpoint DecodeString (s : string) : option (list N) :=
  match s with
  | EmptyString => Some []
  | String a (String b r) =>
      h ← from_hex a; l ← from_hex b; bs ← DecodeString r; Some ((h * 16 + l)%N :: bs)
  | String _ EmptyString => None
  end.

(** * [float64] *)

(** IEEE 754 binary64, round to nearest even, with the operations Go performs one
    by one (no fused multiply-add, as on amd64). *)
Abbreviation float64 := spec_float.
Definition fadd : float64 → float64 → float64 := SFadd 53 1024.
Definition fsub : float64 → float64 → float64 := SFsub 53 1024.
Definition fmul : float64 → float64 → float64 := SFmul 53 1024.
Definition fdiv : float64 → float64 → float64 := SFdiv 53 1024.
Definition flt : float64 → float64 → bool := SFltb.
Definition fle : float64 → float64 → bool := SFleb.
Definition feq : float64 → float64 → bool := SFeqb.

(** [float64(n)] *)
Definition float_of_int (n : Z) : float64 := binary_normalize 53 1024 n 0 false.

(** The constant [n / 10^k], correctly rounded (a decimal literal of the source);
    [n] and [10^k] are small enough to be represented exactly. *)
Definition dec (n : Z) (k : Z) : float64 := fdiv (float_of_int n) (float_of_int (10 ^ k)).

#[export] Instance float64_eq_dec : EqDecision float64.
Proof. solve_decision. Defined.

Definition is_nan (x : float64) : bool :=
  match x with S754_nan => true | _ => false end.
Definition is_finite (x : float64) : bool :=
  match x with S754_finite _ _ _ | S754_zero _ => true | _ => false end.

(** ** The order of floats *)

(** Comparison of floats other than NaN is the lexicographic comparison of keys:
    the class (with its sign), the exponent, the mantissa. *)
Definition fkey (x : float64) : Z * Z * Z :=
  match x with
  | S754_nan => (0, 0, 0)
  | S754_infinity s => (if s then -2 else 2, 0, 0)
  | S754_zero _ => (0, 0, 0)
  | S754_finite s m e => if s then (-1, - e, - Zpos m) else (1, e, Zpos m)
  end%Z.

Definition klt (a b : Z * Z * Z) : Prop :=
  (a.1.1 < b.1.1 ∨ a.1.1 = b.1.1 ∧ (a.1.2 < b.1.2 ∨ a.1.2 = b.1.2 ∧ a.2 < b.2))%Z.

Lemma SFcompare_key x y :
  is_nan x = false → is_nan y = false →
  match SFcompare x y with
  | Some Lt => klt (fkey x) (fkey y)
  | Some Gt => klt (fkey y) (fkey x)
  | Some Eq => fkey x = fkey y
  | None => False
  end.
Proof.
  unfold klt. destruct x as [sx|sx| |sx mx ex], y as [sy|sy| |sy my ey]; try done; intros _ _;
    try (destruct sx); try (destruct sy); cbn; try lia; try done.
  all: destruct (Z.compare_spec ex ey); subst; cbn; try lia.
  all: change (Pos.compare_cont Eq mx my) with (Pos.compare mx my);
       destruct (Pos.compare_spec mx my); subst; cbn; done || lia.
Qed.

Lemma flt_key x y :
  is_nan x = false → is_nan y = false → flt x y = true ↔ klt (fkey x) (fkey y).
Proof.
  intros Hx Hy. pose proof (SFcompare_key x y Hx Hy) as H. unfold flt, SFltb, klt in *.
  destruct (fkey x) as [[]], (fkey y) as [[]]; simpl in *.
  destruct (SFcompare x y) as [[]|]; simplify_eq; split; done || lia.
Qed.

Lemma fle_key x y :
  is_nan x = false → is_nan y = false → fle x y = true ↔ ¬ klt (fkey y) (fkey x).
Proof.
  intros Hx Hy. pose proof (SFcompare_key x y Hx Hy) as H. unfold fle, SFleb, klt in *.
  destruct (fkey x) as [[]], (fkey y) as [[]]; simpl in *.
  destruct (SFcompare x y) as [[]|]; simplify_eq; split; done || lia.
Qed.

Lemma feq_key x y :
  is_nan x = false → is_nan y = false → feq x y = true ↔ fkey x = fkey y.
Proof.
  intros Hx Hy. pose proof (SFcompare_key x y Hx Hy) as H. unfold feq, SFeqb, klt in *.
  destruct (fkey x) as [[]], (fkey y) as [[]]; simpl in *.
  destruct (SFcompare x y) as [[]|]; simplify_eq; split; try done; intros; simplify_eq; lia.
Qed.

(** * [fmt] verbs *)

Fixpoint zeros (n : nat) : string := match n with O => "" | S n => String "0"%char (zeros n) end.

(** [n] in decimal, left padded with zeros to [w] digits. *)
Definition pad_int (w : nat) (n : Z) : string :=
  let s := pretty n in zeros (w - String.length s) +:+ s.

(** [n / d] rounded to the nearest integer, ties to even. *)
Definition div_even (n d : Z) : Z :=
  let q := (n / d)%Z in let r := (n mod d)%Z in
  if (2 * r <? d)%Z then q
  else if (d <? 2 * r)%Z then (q + 1)%Z
  else if Z.even q then q else (q + 1)%Z.

(** The verb [%.<p>f]. *)
Definition fmt_fixed (p : nat) (x : float64) : string :=
  match x with
  | S754_nan => "NaN"
  | S754_infinity s => if s then "-Inf" else "+Inf"
  | S754_zero s =>
      (if s then "-" else "") +:+ "0" +:+ (if p is O then "" else "." +:+ zeros p)
  | S754_finite s m e =>
      let n := (Zpos m * 10 ^ Z.of_nat p)%Z in
      let q := if (0 <=? e)%Z then (n * 2 ^ e)%Z else div_even n (2 ^ (- e)) in
      (if s then "-" else "") +:+ pretty (q / 10 ^ Z.of_nat p)%Z
      +:+ (if p is O then "" else "." +:+ pad_int p (q mod 10 ^ Z.of_nat p))
  end.

(** * [time] *)

(** An instant, in nanoseconds since the zero [time.Time] (1 January of year 1,
    UTC); a duration, an [int64] number of nanoseconds. *)
Abbreviation Time := Z (only parsing).
Abbreviation Duration := Z (only parsing).

Definition Nanosecond : Duration := 1%Z.
Definition Microsecond : Duration := 1000%Z.
Definition Millisecond : Duration := 1000000%Z.
Definition Second : Duration := 1000000000%Z.
Definition Minute : Duration := (60 * Second)%Z.
Definition Hour : Duration := (60 * Minute)%Z.

Definition maxInt64 : Z := (2 ^ 63 - 1)%Z.
Definition minInt64 : Z := (- 2 ^ 63)%Z.

(** [int64]/[int] arithmetic wraps around. *)
Definition wrap64 (n : Z) : Z := ((n + 2 ^ 63) mod 2 ^ 64 - 2 ^ 63)%Z.

Lemma wrap64_id n : (minInt64 ≤ n ≤ maxInt64)%Z → wrap64 n = n.
Proof. unfold minInt64, maxInt64, wrap64. intros ?. rewrite Z.mod_small; lia. Qed.

(** [t.Sub(u)] saturates at the extreme durations. *)
Definition Sub (t u : Time) : Duration := Z.max minInt64 (Z.min maxInt64 (t - u)).

(** [d.Milliseconds()]: Go's division truncates toward zero. *)
Definition Milliseconds (d : Duration) : Z := Z.quot d Millisecond.

Definition IsZero (t : Time) : bool := (t =? 0)%Z.

(** Drops the trailing zeros of a digit string. *)
Definition drop_zeros (s : string) : string :=
  let fix go (r : string) :=
    match r with String "0"%char r' => go r' | _ => r end in
  String.rev (go (String.rev s)).

(** [fmtFrac]: the fraction [v mod 10^prec] with no trailing zeros, and its point. *)
Definition fmtFrac (v : Z) (prec : nat) : string :=
  let f := drop_zeros (pad_int prec (v mod 10 ^ Z.of_nat prec)) in
  if decide (f = "") then "" else "." +:+ f.

(** [d.String()] *)
Definition Duration_String (d : Duration) : string :=
  let u := Z.abs d in
  let sign := if (d <? 0)%Z then "-" else "" in
  if (u =? 0)%Z then "0s"
  else if (u <? Microsecond)%Z then sign +:+ pretty u +:+ "ns"
  else if (u <? Millisecond)%Z then sign +:+ pretty (u / 10 ^ 3)%Z +:+ fmtFrac u 3 +:+ "µs"
  else if (u <? Second)%Z then sign +:+ pretty (u / 10 ^ 6)%Z +:+ fmtFrac u 6 +:+ "ms"
  else
    let secs := (u / 10 ^ 9)%Z in
    let s := pretty (secs mod 60)%Z +:+ fmtFrac u 9 +:+ "s" in
    let mins := (secs / 60)%Z in
    if (mins =? 0)%Z then sign +:+ s else
    let m := pretty (mins mod 60)%Z +:+ "m" +:+ s in
    let hours := (mins / 60)%Z in
    if (hours =? 0)%Z then sign +:+ m else sign +:+ pretty hours +:+ "h" +:+ m.

(** * Values of type [any] *)

(** The dynamic values a [map[string]any] of the sources holds. *)
Inductive any : Type :=
  | ANil
  | ABool (b : bool)
  | AString (s : string)
  | AInt (n : Z)
  | AFloat (f : float64)
  | ASlice (l : list any)
  | AMap (m : list (string * any)).

(** The type assertion [v, _ := m[k].(string)]: the zero value when the key is
    absent or holds another type. *)
Definition get_string (m : gmap string any) (k : string) : string :=
  match m !! k with Some (AString s) => s | _ => "" end.

Example duration_string_48h : Duration_String (48 * Hour) = "48h0m0s".
Proof. vm_compute. reflexivity. Qed.
Example duration_string_frac : Duration_String 1500000000 = "1.5s".
Proof. vm_compute. reflexivity. Qed.
Example fmt_fixed_example : fmt_fixed 4 (dec 7125 4) = "0.7125".
Proof. vm_compute. reflexivity. Qed.
Example trim_space_example : TrimSpace "  a b	 " = "a b".
Proof. vm_compute. reflexivity. Qed.
Example split_example : Split "-"%char "00-a--b" = ["00"; "a"; ""; "b"].
Proof. vm_compute. reflexivity. Qed.
