(* ===== verification/Shared.v ===== *)
(** internal/domain/shared: the transversal value objects (identifiers, enums,
    timestamps). *)

From stdpp Require Import options.
From S2P Require Import Prelude GoLib.


(** * errors.go *)

Definition ErrEmptyID : error := Sentinel "shared.ErrEmptyID" "id must not be empty".
Definition ErrInvalidULID : error := Sentinel "shared.ErrInvalidULID" "id must be a valid ULID".
Definition ErrZeroTimestamp : error :=
  Sentinel "shared.ErrZeroTimestamp" "timestamp must not be zero".

(** * enums.go *)

(** Each of the following types is a Go [string] type with the constants listed
    first; the last constructor carries every other string. *)
Inductive RiskLevel :=
  | RiskLevelLow | RiskLevelMedium | RiskLevelHigh | RiskLevelCritical
  | RiskLevelOther (s : string).

#[export] Instance RiskLevel_eq_dec : EqDecision RiskLevel.
Proof. solve_decision. Defined.

#[export] Instance RiskLevel_enum : GoEnum RiskLevel := {|
  of_string s :=
    if decide (s = "low") then RiskLevelLow
    else if decide (s = "medium") then RiskLevelMedium
    else if decide (s = "high") then RiskLevelHigh
    else if decide (s = "critical") then RiskLevelCritical
    else RiskLevelOther s;
  to_string r :=
    match r with
    | RiskLevelLow => "low" | RiskLevelMedium => "medium"
    | RiskLevelHigh => "high" | RiskLevelCritical => "critical"
    | RiskLevelOther s => s
    end;
  known r := match r with RiskLevelOther _ => false | _ => true end;
  to_of_string := ltac:(solve_enum); of_to_string := ltac:(solve_enum);
|}.

Definition NewRiskLevel (s : string) : result RiskLevel := parse_enum "invalid risk level: %q" s.

Inductive Priority :=
  | PriorityLow | PriorityNormal | PriorityHigh | PriorityUrgent
  | PriorityOther (s : string).

#[export] Instance Priority_eq_dec : EqDecision Priority.
Proof. solve_decision. Defined.

#[export] Instance Priority_enum : GoEnum Priority := {|
  of_string s :=
    if decide (s = "low") then PriorityLow
    else if decide (s = "normal") then PriorityNormal
    else if decide (s = "high") then PriorityHigh
    else if decide (s = "urgent") then PriorityUrgent
    else PriorityOther s;
  to_string p :=
    match p with
    | PriorityLow => "low" | PriorityNormal => "normal"
    | PriorityHigh => "high" | PriorityUrgent => "urgent"
    | PriorityOther s => s
    end;
  known p := match p with PriorityOther _ => false | _ => true end;
  to_of_string := ltac:(solve_enum); of_to_string := ltac:(solve_enum);
|}.

Definition NewPriority (s : string) : result Priority := parse_enum "invalid priority: %q" s.

Inductive FailureStage :=
  | FailureStageRouting | FailureStagePolicy | FailureStageApproval
  | FailureStageWorkflow | FailureStageExecution | FailureStageRuntime
  | FailureStageMemoryContext | FailureStageNotification
  | FailureStageOther (s : string).

#[export] Instance FailureStage_eq_dec : EqDecision FailureStage.
Proof. solve_decision. Defined.

#[export] Instance FailureStage_enum : GoEnum FailureStage := {|
  of_string s :=
    if decide (s = "routing") then FailureStageRouting
    else if decide (s = "policy") then FailureStagePolicy
    else if decide (s = "approval") then FailureStageApproval
    else if decide (s = "workflow") then FailureStageWorkflow
    else if decide (s = "execution") then FailureStageExecution
    else if decide (s = "runtime") then FailureStageRuntime
    else if decide (s = "memory_context") then FailureStageMemoryContext
    else if decide (s = "notification") then FailureStageNotification
    else FailureStageOther s;
  to_string f :=
    match f with
    | FailureStageRouting => "routing" | FailureStagePolicy => "policy"
    | FailureStageApproval => "approval" | FailureStageWorkflow => "workflow"
    | FailureStageExecution => "execution" | FailureStageRuntime => "runtime"
    | FailureStageMemoryContext => "memory_context"
    | FailureStageNotification => "notification"
    | FailureStageOther s => s
    end;
  known f := match f with FailureStageOther _ => false | _ => true end;
  to_of_string := ltac:(solve_enum); of_to_string := ltac:(solve_enum);
|}.

Definition NewFailureStage (s : string) : result FailureStage := parse_enum "invalid failure stage: %q" s.

(** * ids.go *)

(** The identifier types are Go [string] types; the conversions between them and
    [string] are the identity. *)
Abbreviation TaskID := string (only parsing).
Abbreviation WorkflowRunID := string (only parsing).
Abbreviation RoutingDecisionID := string (only parsing).
Abbreviation PolicyDecisionID := string (only parsing).
Abbreviation ApprovalRequestID := string (only parsing).
Abbreviation ExecutionLeaseID := string (only parsing).
Abbreviation EscalationTriggerID := string (only parsing).
Abbreviation AuditEntryID := string (only parsing).
Abbreviation ActorID := string (only parsing).

(** github.com/oklog/ulid: [ParseStrict s] is [true] when the library accepts [s]. *)
Class ULID := { ParseStrict : string → bool }.

Definition validateULID `{ULID} (s : string) : result unit :=
  if decide (s = "") then Err ErrEmptyID
  else if ParseStrict s then Ok ()
  else Err (Wrapf "%w: %s" [s] ErrInvalidULID).

Definition NewTaskID `{ULID} (s : string) : result TaskID :=
  match validateULID s with Err e => Err e | Ok _ => Ok s end.
Definition NewWorkflowRunID `{ULID} (s : string) : result WorkflowRunID :=
  match validateULID s with Err e => Err e | Ok _ => Ok s end.
Definition NewRoutingDecisionID `{ULID} (s : string) : result RoutingDecisionID :=
  match validateULID s with Err e => Err e | Ok _ => Ok s end.
Definition NewPolicyDecisionID `{ULID} (s : string) : result PolicyDecisionID :=
  match validateULID s with Err e => Err e | Ok _ => Ok s end.
Definition NewApprovalRequestID `{ULID} (s : string) : result ApprovalRequestID :=
  match validateULID s with Err e => Err e | Ok _ => Ok s end.
Definition NewExecutionLeaseID `{ULID} (s : string) : result ExecutionLeaseID :=
  match validateULID s with Err e => Err e | Ok _ => Ok s end.
Definition NewEscalationTriggerID `{ULID} (s : string) : result EscalationTriggerID :=
  match validateULID s with Err e => Err e | Ok _ => Ok s end.
Definition NewAuditEntryID `{ULID} (s : string) : result AuditEntryID :=
  match validateULID s with Err e => Err e | Ok _ => Ok s end.
Definition NewActorID (s : string) : result ActorID :=
  if decide (s = "") then Err ErrEmptyID else Ok s.

(** [shared.ActorID("system")] *)
Definition systemActor : ActorID := "system".

(** * timestamp.go *)

Record Timestamp := { ts_Time : Time }.

#[export] Instance Timestamp_eq_dec : EqDecision Timestamp.
Proof. solve_decision. Defined.

Definition NewTimestamp (t : Time) : result Timestamp :=
  if IsZero t then Err ErrZeroTimestamp else Ok {| ts_Time := t |}.

(** [None] is the panic. *)
Definition MustTimestamp (t : Time) : option Timestamp :=
  match NewTimestamp t with Ok ts => Some ts | Err _ => None end.

(** * Properties *)

(** A validated identifier is the input itself, non empty and accepted by the
    ULID parser. *)
Lemma validateULID_Ok `{ULID} s : validateULID s = Ok () ↔ s ≠ "" ∧ ParseStrict s = true.
Proof. unfold validateULID. split_guards; naive_solver. Qed.

Lemma NewTaskID_Ok `{ULID} s i : NewTaskID s = Ok i ↔ i = s ∧ s ≠ "" ∧ ParseStrict s = true.
Proof. unfold NewTaskID, validateULID. split_guards; naive_solver. Qed.

