(* ===== verification/Idgen.v ===== *)
(** internal/infrastructure/idgen/ulid_generator.go: the identifiers the services draw, and the
    adapter of bootstrap/wire.go that draws the identifiers of phase decisions. The call [NewID]
    of Ports is answered with one of these strings. *)

From stdpp Require Import options.
From S2P Require Import Prelude GoLib Shared.

(** github.com/oklog/ulid: [MustNew] is [None] when it panics (the time does not fit in 48 bits
    of milliseconds, or the entropy source fails). *)
Class ULIDMaker := {
  ulid : Type;
  entropy : Type;                           (* what crypto/rand.Reader gives *)
  ulid_Timestamp : Time → Z;
  MustNew : Z → entropy → option ulid;
  ulid_String : ulid → string;
}.

(** What the library documents of the text form: it is never empty, and the parser of the
    library accepts it. *)
Class ULIDLaws `{ULID, ULIDMaker} : Prop := {
  String_nonempty u : ulid_String u ≠ "";
  String_parses u : ParseStrict (ulid_String u) = true;
}.

Section idgen.
Context `{ULIDMaker}.

(** [None] is the panic of [MustNew]. *)
Definition generate (now : Time) (rand : entropy) : option string :=
  u ← MustNew (ulid_Timestamp now) rand; Some (ulid_String u).

(** The methods of [ULIDGenerator]: the string converted to the identifier type. *)
Definition gen_TaskID (now : Time) (rand : entropy) : option TaskID := generate now rand.
Definition gen_WorkflowRunID (now : Time) (rand : entropy) : option WorkflowRunID := generate now rand.
Definition gen_RoutingDecisionID (now : Time) (rand : entropy) : option RoutingDecisionID :=
  generate now rand.
Definition gen_PolicyDecisionID (now : Time) (rand : entropy) : option PolicyDecisionID :=
  generate now rand.
Definition gen_ApprovalRequestID (now : Time) (rand : entropy) : option ApprovalRequestID :=
  generate now rand.
Definition gen_ExecutionLeaseID (now : Time) (rand : entropy) : option ExecutionLeaseID :=
  generate now rand.
Definition gen_EscalationTriggerID (now : Time) (rand : entropy) : option EscalationTriggerID :=
  generate now rand.
Definition gen_AuditEntryID (now : Time) (rand : entropy) : option AuditEntryID := generate now rand.

(** [phaseDecisionsIDAdapter]: a phase decision borrows the identifiers of policy decisions. *)
Definition NewPhaseDecisionID (now : Time) (rand : entropy) : option string :=
  gen_PolicyDecisionID now rand.
End idgen.

(** Every identifier the generator hands out is accepted, unchanged, by the constructors that
    validate the identifiers of requests: a client that sends back what a service returned is
    never refused for the form of the identifier. *)
Theorem generated_accepted `{ULIDLaws} now rand id :
  generate now rand = Some id →
  NewTaskID id = Ok id ∧ NewWorkflowRunID id = Ok id ∧ NewRoutingDecisionID id = Ok id ∧
  NewPolicyDecisionID id = Ok id ∧ NewApprovalRequestID id = Ok id ∧
  NewExecutionLeaseID id = Ok id ∧ NewEscalationTriggerID id = Ok id ∧
  NewAuditEntryID id = Ok id ∧ NewActorID id = Ok id.
Proof.
  unfold generate. intros (u & _ & [= <-])%bind_Some.
  assert (V : validateULID (ulid_String u) = Ok ()).
  { apply validateULID_Ok. split; [apply String_nonempty|apply String_parses]. }
  unfold NewTaskID, NewWorkflowRunID, NewRoutingDecisionID, NewPolicyDecisionID,
    NewApprovalRequestID, NewExecutionLeaseID, NewEscalationTriggerID, NewAuditEntryID, NewActorID.
  rewrite V, decide_False by apply String_nonempty. by split_and!.
Qed.
