(* ===== verification/TimeFormat.v ===== *)
(** [time.Time.Format] of the Go standard library, for the layout [time.RFC3339]: the only
    layout the HTTP adapter uses (its literal copy in breaker_handler.go included). *)

From stdpp Require Import options.
From S2P Require Import Prelude GoLib Shared.

#[local] Open Scope Z_scope.

(** The zone rules of the process ([time.Local]): the offset in seconds east of UTC at an
    instant given in seconds. *)
Class Zone := { zone_offset : Z → Z }.

(** * The proleptic Gregorian calendar *)

Definition isLeap (year : Z) : bool :=
  (year mod 4 =? 0) && (negb (year mod 100 =? 0) || (year mod 400 =? 0)).

Definition daysIn (month year : Z) : Z :=
  if month =? 2 then if isLeap year then 29 else 28
  else if (month =? 4) || (month =? 6) || (month =? 9) || (month =? 11) then 30 else 31.

Record Date := { dtYear : Z; dtMonth : Z; dtDay : Z }.

(** Years are counted from March and grouped in cycles of 400. *)
Definition days_per_cycle : Z := 146097.

(** The year of day [doc] of a cycle, and the day of that year. *)
Definition year_of_cycle (doc : Z) : Z := (doc - doc / 1460 + doc / 36524 - doc / 146096) / 365.
Definition year_start (yoc : Z) : Z := 365 * yoc + yoc / 4 - yoc / 100.

(** The month and the day of day [doy] of a year that starts in March. *)
Definition month_of (doy : Z) : Z :=
  let mp := (5 * doy + 2) / 153 in if mp <? 10 then mp + 3 else mp - 9.
Definition day_of (doy : Z) : Z := doy - (153 * ((5 * doy + 2) / 153) + 2) / 5 + 1.

(** The date of day [doc] of a cycle: the year is the year of the cycle. *)
Definition date_in_cycle (doc : Z) : Date :=
  let yoc := year_of_cycle doc in
  let doy := doc - year_start yoc in
  {| dtYear := if month_of doy <=? 2 then yoc + 1 else yoc; dtMonth := month_of doy; dtDay := day_of doy |}.

(** The date of a day counted from 1 January of year 1; 1 March of year 0 is 306 days before. *)
Definition date_of_days (days : Z) : Date :=
  let z := days + 306 in
  let d := date_in_cycle (z mod days_per_cycle) in
  {| dtYear := dtYear d + 400 * (z / days_per_cycle); dtMonth := dtMonth d; dtDay := dtDay d |}.

(** * The layout *)

(** [appendInt(b, n, w)] for a non negative [n]. *)
Definition two (n : Z) : string := pad_int 2 n.

Definition zone_suffix (offset : Z) : string :=
  if offset =? 0 then "Z" else
  let minutes := Z.quot offset 60 in
  let m := Z.abs minutes in
  (if minutes <? 0 then "-" else "+") +:+ two (m / 60) +:+ ":" +:+ two (m mod 60).

(** The fields of an instant at an offset. *)
Definition format_at (offset : Z) (t : Time) : string :=
  let secs := t / Second + offset in
  let d := date_of_days (secs / 86400) in
  let s := secs mod 86400 in
  (if dtYear d <? 0 then "-" else "") +:+ pad_int 4 (Z.abs (dtYear d)) +:+ "-" +:+ two (dtMonth d)
  +:+ "-" +:+ two (dtDay d) +:+ "T" +:+ two (s / 3600) +:+ ":" +:+ two (s mod 3600 / 60)
  +:+ ":" +:+ two (s mod 60) +:+ zone_suffix offset.

Section format.
Context {Zn : Zone}.

(** [t.Format(time.RFC3339)] of a time in the local zone. *)
Definition Format_RFC3339 (t : Time) : string := format_at (zone_offset (t / Second)) t.
Definition ts_Format (t : Timestamp) : string := Format_RFC3339 (ts_Time t).
End format.

(** [t.UTC().Format("2006-01-02T15:04:05Z07:00")] *)
Definition Format_UTC (t : Time) : string := format_at 0 t.

(** * The calendar is right *)

(** Days from 1 January of year 1 to a date: the days of the years before, of the months
    before, and the day of the month. *)
Definition days_before_year (year : Z) : Z :=
  let y := year - 1 in 365 * y + y / 4 - y / 100 + y / 400.

Fixpoint days_before_month (n : nat) (year : Z) : Z :=
  match n with
  | O => 0
  | S n => days_before_month n year + daysIn (Z.of_nat (S n)) year
  end.

Definition days_of_date (d : Date) : Z :=
  days_before_year (dtYear d) + days_before_month (Z.to_nat (dtMonth d) - 1) (dtYear d) + dtDay d - 1.

Definition valid_date (d : Date) : bool :=
  (1 <=? dtMonth d) && (dtMonth d <=? 12) && (1 <=? dtDay d) && (dtDay d <=? daysIn (dtMonth d) (dtYear d)).

(** Where a day lies in its cycle: the 366th day of a year is the end of a leap February. *)
Lemma year_of_cycle_spec doc :
  0 ≤ doc < days_per_cycle →
  let yoc := year_of_cycle doc in let doy := doc - year_start yoc in
  0 ≤ yoc < 400 ∧ 0 ≤ doy ≤ 365 ∧ (doy = 365 → isLeap (yoc + 1) = true).
Proof.
  intros H yoc doy. unfold days_per_cycle in H.
  assert (0 ≤ yoc < 400) by (unfold yoc, year_of_cycle; Z.to_euclidean_division_equations; lia).
  assert (0 ≤ doy ≤ 365) by (unfold doy, year_start, yoc, year_of_cycle; Z.to_euclidean_division_equations; lia).
  split_and!; [lia..|]. intros E.
  unfold isLeap. rewrite andb_true_iff, orb_true_iff, negb_true_iff, Z.eqb_neq, !Z.eqb_eq.
  unfold doy, year_start, yoc, year_of_cycle in *. Z.to_euclidean_division_equations; lia.
Qed.

(** Years of the same length have the same months. *)
Definition like (leap : bool) : Z := if leap then 4 else 1.

Lemma isLeap_like y : isLeap (like (isLeap y)) = isLeap y.
Proof. by destruct (isLeap y). Qed.
Lemma daysIn_like m y : daysIn m (like (isLeap y)) = daysIn m y.
Proof. unfold daysIn. by rewrite isLeap_like. Qed.
Lemma days_before_month_like n y : days_before_month n (like (isLeap y)) = days_before_month n y.
Proof. induction n as [|n IH]; simpl; [done|]. by rewrite IH, daysIn_like. Qed.

(** Every day of a year, by evaluation: [leap] tells the length of the calendar year it is in. *)
Definition doy_ok (leap : bool) (doy : Z) : bool :=
  let m := month_of doy in let d := day_of doy in
  ((doy =? 365) && negb leap) ||
  ((1 <=? m) && (m <=? 12) && (1 <=? d) && (d <=? daysIn m (like leap)) &&
   (days_before_month (Z.to_nat m - 1) (like leap) + d - 1
    =? if m <=? 2 then doy - 306 else doy + 59 + Z.b2z leap)).

Lemma all_doys leap doy : 0 ≤ doy ≤ 365 → doy_ok leap doy = true.
Proof.
  intros H. assert (K : forallb (λ n, doy_ok leap (Z.of_nat n)) (seq 0 366) = true)
    by (destruct leap; vm_compute; reflexivity).
  rewrite List.forallb_forall in K. specialize (K (Z.to_nat doy)).
  rewrite List.in_seq, Z2Nat.id in K by lia. apply K. lia.
Qed.

Lemma days_before_leap yoc :
  0 ≤ yoc < 400 → days_before_year yoc + Z.b2z (isLeap yoc) + 59 = year_start yoc - 306 ∧
                  days_before_year (yoc + 1) = year_start yoc.
Proof.
  intros H. unfold days_before_year, year_start, isLeap.
  destruct (yoc mod 4 =? 0) eqn:A, (yoc mod 100 =? 0) eqn:B, (yoc mod 400 =? 0) eqn:C; cbn [negb andb orb Z.b2z];
    rewrite ?Z.eqb_eq, ?Z.eqb_neq in *; Z.to_euclidean_division_equations; lia.
Qed.

Lemma date_in_cycle_correct doc :
  0 ≤ doc < days_per_cycle →
  valid_date (date_in_cycle doc) = true ∧ days_of_date (date_in_cycle doc) = doc - 306.
Proof.
  intros H. destruct (year_of_cycle_spec doc H) as (Hy & Hd & L). cbv zeta in *.
  unfold date_in_cycle. set (yoc := year_of_cycle doc) in *. set (doy := doc - year_start yoc) in *.
  set (year := if month_of doy <=? 2 then yoc + 1 else yoc).
  pose proof (all_doys (isLeap year) doy Hd) as K. unfold doy_ok in K.
  rewrite daysIn_like, days_before_month_like in K.
  destruct (days_before_leap yoc Hy) as [E1 E2].
  unfold valid_date, days_of_date; cbn [dtYear dtMonth dtDay]. fold year.
  apply orb_true_iff in K as [[E F]%andb_true_iff|[V E%Z.eqb_eq]%andb_true_iff].
  { exfalso. apply Z.eqb_eq in E. specialize (L E). revert F. unfold year. rewrite E. change (month_of 365) with 2. simpl.
    by rewrite L. }
  split; [exact V|]. revert E. unfold year in *. destruct (month_of doy <=? 2); lia.
Qed.

(** Dates repeat after 400 years. *)
Lemma isLeap_cycle y k : isLeap (y + 400 * k) = isLeap y.
Proof.
  unfold isLeap. replace (y + 400 * k) with (y + (100 * k) * 4) at 1 by lia.
  replace (y + 400 * k) with (y + (4 * k) * 100) at 1 by lia.
  replace (y + 400 * k) with (y + k * 400) by lia. by rewrite !Z.mod_add.
Qed.

Lemma daysIn_cycle m y k : daysIn m (y + 400 * k) = daysIn m y.
Proof. unfold daysIn. by rewrite isLeap_cycle. Qed.

Lemma days_of_date_cycle d k :
  days_of_date {| dtYear := dtYear d + 400 * k; dtMonth := dtMonth d; dtDay := dtDay d |}
    = days_of_date d + k * days_per_cycle ∧
  valid_date {| dtYear := dtYear d + 400 * k; dtMonth := dtMonth d; dtDay := dtDay d |} = valid_date d.
Proof.
  split; [|unfold valid_date; simpl; by rewrite daysIn_cycle].
  unfold days_of_date, days_before_year, days_per_cycle; simpl.
  replace (days_before_month (Z.to_nat (dtMonth d) - 1) (dtYear d + 400 * k))
    with (days_before_month (Z.to_nat (dtMonth d) - 1) (dtYear d)).
  2: { induction (Z.to_nat (dtMonth d) - 1)%nat as [|n IH]; [done|].
       cbn [days_before_month]. by rewrite IH, daysIn_cycle. }
  replace (dtYear d + 400 * k - 1) with (dtYear d - 1 + (100 * k) * 4) at 2 by lia.
  replace (dtYear d + 400 * k - 1) with (dtYear d - 1 + (4 * k) * 100) at 2 by lia.
  replace (dtYear d + 400 * k - 1) with (dtYear d - 1 + k * 400) at 2 by lia.
  rewrite !Z.div_add by done. lia.
Qed.

(** The calendar of formatted times is right: for every day number, [date_of_days] gives a
    month and a day that exist, and counting the days of the years and months before it
    gives the number back; so different days have different dates. *)
Theorem date_of_days_correct n :
  valid_date (date_of_days n) = true ∧ days_of_date (date_of_days n) = n.
Proof.
  unfold date_of_days. set (z := n + 306).
  pose proof (Z.mod_pos_bound z days_per_cycle eq_refl) as B.
  destruct (date_in_cycle_correct (z mod days_per_cycle) B) as [V E].
  destruct (days_of_date_cycle (date_in_cycle (z mod days_per_cycle)) (z / days_per_cycle)) as [-> ->].
  split; [done|]. rewrite E. pose proof (Z.div_mod z days_per_cycle ltac:(done)). lia.
Qed.

Example format_go_reference_time : format_at (-25200) (63271836245 * Second + 999)%Z = "2006-01-02T15:04:05-07:00".
Proof. vm_compute. reflexivity. Qed.
Example format_leap_day : Format_UTC (63844847999 * Second) = "2024-02-29T23:59:59Z".
Proof. vm_compute. reflexivity. Qed.
