(* ===== verification/Json.v ===== *)
(** encoding/json as the HTTP adapter uses it: decoding a request body into a struct, and the
    value an encoded response denotes.  The text of a document is not modelled: a [json] is
    what the scanner of the package finds in the body.  Also [strconv.Atoi]. *)

From stdpp Require Import options.
From S2P Require Import Prelude GoLib.

(** A document.  A number has its literal and its value as a [float64], [None] when it is out
    of range ([strconv.ParseFloat] fails). *)
Inductive json : Type :=
  | JNull
  | JBool (b : bool)
  | JNumber (literal : string) (x : option float64)
  | JString (s : string)
  | JArray (l : list json)
  | JObject (m : list (string * json)).

(** * Decoding into [any] *)

(** A [map[string]any] as a value of type [any]; a repeated key keeps its last value. *)
Definition any_map (m : list (string * any)) : any :=
  AMap (map_to_list (list_to_map (reverse m) : gmap string any)).

(** [None] is an error; decoding goes on after one, but the error is returned at the end. *)
Fixpoint decode_any (v : json) : option any :=
  match v with
  | JNull => Some ANil
  | JBool b => Some (ABool b)
  | JNumber _ x => AFloat <$> x
  | JString s => Some (AString s)
  | JArray l =>
      let fix go (l : list json) : option (list any) :=
        match l with
        | [] => Some []
        | v :: l => x ← decode_any v; xs ← go l; Some (x :: xs)
        end in
      ASlice <$> go l
  | JObject m =>
      let fix go (m : list (string * json)) : option (list (string * any)) :=
        match m with
        | [] => Some []
        | (k, v) :: m => x ← decode_any v; xs ← go m; Some ((k, x) :: xs)
        end in
      any_map <$> go m
  end.

(** * Decoding into a struct *)

(** A field of a struct [S]: its JSON name and the effect of decoding a value into it. *)
Record field (S : Type) := { fd_name : string; fd_decode : json → S → option S }.
Arguments fd_name {S} f.
Arguments fd_decode {S} f v s.

Declare Scope json_scope.
Delimit Scope json_scope with json.
Notation "name ↦ decode" := {| fd_name := name; fd_decode := decode |} (at level 60) : json_scope.

Definition upper_ascii (c : Ascii.ascii) : Ascii.ascii :=
  let n := byte_of c in if ((97 <=? n) && (n <=? 122))%N then of_byte (n - 32) else c.

(** [foldName]: the runes that fold to an ASCII letter are the letters themselves, U+017F (long s)
    and U+212A (the Kelvin sign); a name with any other rune equals no field name. *)
Fixpoint foldName (s : string) : string :=
  match s with
  | EmptyString => ""
  | String a r =>
      match r with
      | String b r' =>
          if ((byte_of a =? 197) && (byte_of b =? 191))%N then String "S"%char (foldName r') else
          match r' with
          | String c r'' =>
              if ((byte_of a =? 226) && (byte_of b =? 132) && (byte_of c =? 170))%N
              then String "K"%char (foldName r'') else String (upper_ascii a) (foldName r)
          | EmptyString => String (upper_ascii a) (foldName r)
          end
      | EmptyString => String (upper_ascii a) ""
      end
  end.

(** The field a key selects: the one with this name, else the first with this folded name. *)
Definition find_field {S} (fields : list (field S)) (key : string) : option (field S) :=
  match List.find (λ f, bool_decide (fd_name f = key)) fields with
  | Some f => Some f
  | None => List.find (λ f, bool_decide (foldName (fd_name f) = foldName key)) fields
  end.

(** The members in order; a key that selects no field is skipped. *)
Fixpoint decode_members {S} (fields : list (field S)) (m : list (string * json)) (s : S) : option S :=
  match m with
  | [] => Some s
  | (k, v) :: m =>
      s' ← match find_field fields k with Some f => fd_decode f v s | None => Some s end;
      decode_members fields m s'
  end.

(** [json.NewDecoder(r.Body).Decode(&s)] of a zero struct [s]: [None] is an error.  No [body]
    is a body with no document at its start; what follows the document is not read. *)
Definition Decode {S} (fields : list (field S)) (zero : S) (body : option json) : option S :=
  match body with
  | Some JNull => Some zero
  | Some (JObject m) => decode_members fields m zero
  | _ => None
  end.

(** Decoding [null] leaves a value as it is and sets a pointer or a map to nil. *)
Definition into_string {S} (upd : string → S → S) (v : json) (s : S) : option S :=
  match v with JNull => Some s | JString x => Some (upd x s) | _ => None end.
Definition into_bool {S} (upd : bool → S → S) (v : json) (s : S) : option S :=
  match v with JNull => Some s | JBool b => Some (upd b s) | _ => None end.
Definition into_string_ptr {S} (upd : option string → S → S) (v : json) (s : S) : option S :=
  match v with JNull => Some (upd None s) | JString x => Some (upd (Some x) s) | _ => None end.
Definition into_bool_ptr {S} (upd : option bool → S → S) (v : json) (s : S) : option S :=
  match v with JNull => Some (upd None s) | JBool b => Some (upd (Some b) s) | _ => None end.

(** A [map[string]any] field: members are added to the map the field holds.  A nil map and an
    empty one are not distinguished. *)
Fixpoint decode_into_map (m : list (string * json)) (acc : gmap string any) : option (gmap string any) :=
  match m with
  | [] => Some acc
  | (k, v) :: m => x ← decode_any v; decode_into_map m (<[k := x]> acc)
  end.
Definition into_map {S} (get : S → gmap string any) (upd : gmap string any → S → S) (v : json) (s : S)
    : option S :=
  match v with
  | JNull => Some (upd ∅ s)
  | JObject m => (λ x, upd x s) <$> decode_into_map m (get s)
  | _ => None
  end.

(** ** A [[]byte] field: base64 in a string, or an array of numbers *)

Definition is_base64 (c : Ascii.ascii) : bool :=
  let n := byte_of c in
  (((65 <=? n) && (n <=? 90)) || ((97 <=? n) && (n <=? 122)) || ((48 <=? n) && (n <=? 57))
   || (n =? 43) || (n =? 47))%N.

(** Groups of four digits, the last one perhaps padded. *)
Fixpoint base64_groups (s : string) : bool :=
  match s with
  | EmptyString => true
  | String a (String b (String c (String d r))) =>
      is_base64 a && is_base64 b &&
      (is_base64 c && is_base64 d && base64_groups r
       || bool_decide (r = "" ∧ d = "="%char) && (is_base64 c || bool_decide (c = "="%char)))
  | _ => false
  end.

(** [base64.StdEncoding] skips line ends. *)
Definition base64_ok (s : string) : bool := base64_groups (RemoveAll "010"%char (RemoveAll "013"%char s)).

Definition is_digit (c : Ascii.ascii) : bool := let n := byte_of c in ((48 <=? n) && (n <=? 57))%N.
Definition digit_value (c : Ascii.ascii) : Z := (Z.of_N (byte_of c) - 48)%Z.

(** Decimal digits to a number, after those already read. *)
Fixpoint digits (s : string) (acc : Z) : option Z :=
  match s with
  | EmptyString => Some acc
  | String c r => if is_digit c then digits r (10 * acc + digit_value c)%Z else None
  end.

(** [strconv.ParseUint] into a byte. *)
Definition byte_literal (literal : string) : bool :=
  match digits literal 0 with Some n => bool_decide (literal ≠ "") && (n <=? 255)%Z | None => false end.

Definition is_byte_element (v : json) : bool :=
  match v with JNull => true | JNumber literal _ => byte_literal literal | _ => false end.

(** The bytes themselves are not kept: no service reads them. *)
Definition into_bytes {S} (v : json) (s : S) : option S :=
  match v with
  | JNull => Some s
  | JString x => if base64_ok x then Some s else None
  | JArray l => if forallb is_byte_element l then Some s else None
  | _ => None
  end.

(** * strconv.Atoi *)

(** [None] is an error. *)
Definition Atoi (s : string) : option Z :=
  let '(neg, ds) := match s with
                    | String "-"%char r => (true, r) | String "+"%char r => (false, r) | _ => (false, s)
                    end in
  if decide (ds = "") then None else
  n ← digits ds 0;
  let n := if neg : bool then (- n)%Z else n in
  if ((minInt64 <=? n) && (n <=? maxInt64))%Z then Some n else None.

(** * Encoding *)

(** The value a Go value encodes to: a struct is an object with its tags as keys. *)
Class ToJSON (A : Type) := to_json : A → any.
#[export] Instance string_json : ToJSON string := AString.
#[export] Instance bool_json : ToJSON bool := ABool.
#[export] Instance int_json : ToJSON Z := AInt.
#[export] Instance float_json : ToJSON float64 := AFloat.
#[export] Instance any_json : ToJSON any := id.
#[export] Instance list_json `{ToJSON A} : ToJSON (list A) := λ l, ASlice (to_json <$> l).
#[export] Instance ptr_json `{ToJSON A} : ToJSON (option A) := λ o,
  match o with Some x => to_json x | None => ANil end.
(** A map, with its keys in some order. *)
#[export] Instance map_json `{ToJSON A} : ToJSON (gmap string A) := λ m,
  AMap (map_to_list (to_json <$> m)).

Definition member {A} `{ToJSON A} (k : string) (x : A) : list (string * any) := [(k, to_json x)].
(** A pointer with the option [omitempty]. *)
Definition omitempty {A} `{ToJSON A} (k : string) (o : option A) : list (string * any) :=
  match o with Some x => [(k, to_json x)] | None => [] end.
(** A string with the option [omitempty]. *)
Definition omitempty_string (k s : string) : list (string * any) :=
  if decide (s = "") then [] else [(k, AString s)].

(** * Lemmas *)

(** The value of a digit string is what its characters say, and it has no sign. *)
Lemma digits_nonneg s acc n : (0 ≤ acc)%Z → digits s acc = Some n → (0 ≤ n)%Z.
Proof.
  revert acc. induction s as [|c r IH]; intros acc Ha; simpl; [congruence|].
  destruct (is_digit c) eqn:D; [|done]. apply IH.
  unfold is_digit, digit_value in *. apply andb_true_iff in D as [?%N.leb_le ?%N.leb_le]. lia.
Qed.

Lemma Atoi_range s n : Atoi s = Some n → (minInt64 ≤ n ≤ maxInt64)%Z.
Proof.
  unfold Atoi. destruct (match s with EmptyString => _ | _ => _ end) as [neg ds].
  case_decide; [done|]. destruct (digits ds 0) as [m|]; [simpl|done].
  case_match eqn:E; [|done]. intros [= <-]. boolify. lia.
Qed.

(** A key that is no field name, exactly or folded, is skipped. *)
Lemma find_field_exact {S} (fields : list (field S)) f :
  NoDup (fd_name <$> fields) → f ∈ fields → find_field fields (fd_name f) = Some f.
Proof.
  intros N Hf. unfold find_field.
  assert (E : List.find (λ g, bool_decide (fd_name g = fd_name f)) fields = Some f).
  { induction fields as [|g fields IH]; [by apply elem_of_nil in Hf|]. simpl.
    rewrite fmap_cons, NoDup_cons in N. destruct N as [Ng N]. apply elem_of_cons in Hf as [->|Hf].
    - by rewrite bool_decide_eq_true_2.
    - rewrite bool_decide_eq_false_2; [by apply IH|]. intros Eg. apply Ng. rewrite Eg.
      by apply list_elem_of_fmap_2. }
  by rewrite E.
Qed.

Example atoi_examples :
  (Atoi "20", Atoi "-3", Atoi "+007", Atoi "", Atoi "-", Atoi "1_0", Atoi "9223372036854775808")
  = (Some 20, Some (-3), Some 7, None, None, None, None)%Z.
Proof. vm_compute. reflexivity. Qed.
Example base64_examples :
  (base64_ok "", base64_ok "aGk=", base64_ok "aA==", base64_ok "aGk", base64_ok "a===", base64_ok "aGk=aGk=")
  = (true, true, true, false, false, false).
Proof. vm_compute. reflexivity. Qed.
Example fold_example : foldName "ſtatuS" = "STATUS".
Proof. vm_compute. reflexivity. Qed.
