(* ===== verification/Strconv.v ===== *)
(** strconv.ParseFloat of Go's standard library, for 64 bits: the syntax of decimal and
    hexadecimal literals with underscores, and the nearest binary64 number. *)

From Stdlib Require Import SpecFloat.
From stdpp Require Import options.
From S2P Require Import Prelude GoLib.

(** * Syntax *)

Definition digit_value (hex : bool) (c : Ascii.ascii) : option Z :=
  let n := Z.of_N (byte_of (lower_ascii c)) in
  if ((48 <=? n) && (n <=? 57))%Z then Some (n - 48)%Z
  else if hex && ((97 <=? n) && (n <=? 102))%Z then Some (n - 87)%Z
  else None.

(** [readFloat], the mantissa: its digits as an integer, how many stand after the point, whether
    there was a point and a digit. *)
Record mantissa := { maValue : Z; maFraction : Z; maDot : bool; maDigits : bool }.

Fixpoint read_mantissa (hex : bool) (a : mantissa) (s : string) : mantissa * string :=
  match s with
  | EmptyString => (a, s)
  | String c r =>
      if decide (c = "_"%char) then read_mantissa hex a r
      else if decide (c = "."%char) then
        if maDot a then (a, s)
        else read_mantissa hex {| maValue := maValue a; maFraction := maFraction a; maDot := true;
                                  maDigits := maDigits a |} r
      else match digit_value hex c with
           | Some v =>
               read_mantissa hex
                 {| maValue := (maValue a * (if hex then 16 else 10) + v)%Z;
                    maFraction := (if maDot a then maFraction a + 1 else maFraction a)%Z;
                    maDot := maDot a; maDigits := true |} r
           | None => (a, s)
           end
  end.

(** The digits of the exponent, which stop counting at 10000; [None] when something follows. *)
Fixpoint read_exponent (e : Z) (s : string) : option Z :=
  match s with
  | EmptyString => Some e
  | String c r =>
      if decide (c = "_"%char) then read_exponent e r
      else match digit_value false c with
           | Some v => read_exponent (if (e <? 10000)%Z then e * 10 + v else e)%Z r
           | None => None
           end
  end.

(** After the mantissa: nothing, or the exponent sign, a first digit and the rest. *)
Definition read_tail (hex : bool) (s : string) : option Z :=
  match s with
  | EmptyString => if hex then None else Some 0%Z
  | String c r =>
      if decide (lower_ascii c = (if hex then "p"%char else "e"%char)) then
        let '(neg, r) := match r with
                         | String "+"%char r => (false, r) | String "-"%char r => (true, r) | _ => (false, r)
                         end in
        match r with
        | String d _ =>
            match digit_value false d with
            | Some _ => e ← read_exponent 0 r; Some (if neg : bool then (- e)%Z else e)
            | None => None
            end
        | EmptyString => None
        end
      else None
  end.

(** [underscoreOK], true when there is none: an underscore stands between digits, or between a base prefix and a digit. *)
Inductive saw := SawStart | SawDigit | SawUnderscore | SawOther.

Fixpoint underscores_ok (hex : bool) (last : saw) (s : string) : bool :=
  match s with
  | EmptyString => match last with SawUnderscore => false | _ => true end
  | String c r =>
      match digit_value hex c with
      | Some _ => underscores_ok hex SawDigit r
      | None =>
          if decide (c = "_"%char) then
            match last with SawDigit => underscores_ok hex SawUnderscore r | _ => false end
          else match last with SawUnderscore => false | _ => underscores_ok hex SawOther r end
      end
  end.

(** [special]: infinities, with a sign, and NaN, without. *)
Definition special (s : string) : option float64 :=
  let u := ToLower s in
  if decide (u ∈ ["inf"; "infinity"; "+inf"; "+infinity"]) then Some (S754_infinity false)
  else if decide (u ∈ ["-inf"; "-infinity"]) then Some (S754_infinity true)
  else if decide (u = "nan") then Some S754_nan
  else None.

(** * Value *)

(** The float nearest to [m * 10 ^ e]; [m] is positive. *)
Definition nearest_decimal (neg : bool) (m : Z) (e : Z) : float64 :=
  if (0 <=? e)%Z then binary_normalize 53 1024 (if neg then - (m * 10 ^ e) else m * 10 ^ e)%Z 0 neg
  else let '(q, e', l) := SFdiv_core_binary 53 1024 m 0 (10 ^ (- e)) 0 in
       binary_round_aux 53 1024 neg q e' l.

Definition nearest_hex (neg : bool) (m : Z) (e : Z) : float64 :=
  binary_normalize 53 1024 (if neg then - m else m)%Z e neg.

(** [None] is an error: of syntax, or of range when the nearest number is infinite. *)
Definition ParseFloat (s : string) : option float64 :=
  match special s with
  | Some f => Some f
  | None =>
      let '(neg, r) := match s with
                       | String "+"%char r => (false, r) | String "-"%char r => (true, r) | _ => (false, s)
                       end in
      let '(hex, r') := match r with
                        | String "0"%char (String x (String c r')) =>
                            if decide (lower_ascii x = "x"%char) then (true, String c r') else (false, r)
                        | _ => (false, r)
                        end in
      let '(a, t) := read_mantissa hex {| maValue := 0; maFraction := 0; maDot := false; maDigits := false |} r' in
      if negb (maDigits a) then None else
      e ← read_tail hex t;
      if negb (underscores_ok hex (if hex then SawDigit else SawStart) r') then None else
      let f := if (maValue a =? 0)%Z then S754_zero neg
               else if hex then nearest_hex neg (maValue a) (e - 4 * maFraction a)
               else nearest_decimal neg (maValue a) (e - maFraction a) in
      match f with S754_infinity _ => None | _ => Some f end
  end.

(** * Examples *)

Example ParseFloat_decimals :
  ParseFloat <$> ["0.25"; "1"; ".5"; "5."; "1e-1"; "0.1"; "25E-2"; "+1_0.5"; "-0"; "1e400"; "1e-400"] =
  [Some (dec 25 2); Some (dec 1 0); Some (dec 5 1); Some (dec 5 0); Some (dec 1 1); Some (dec 1 1);
   Some (dec 25 2); Some (dec 105 1); Some (S754_zero true); None; Some (S754_zero false)].
Proof. vm_compute. reflexivity. Qed.

Example ParseFloat_syntax :
  ParseFloat <$> [""; "abc"; "1.2.3"; "1e"; "1e+"; "."; "_1"; "1__0"; "1_"; "0x1"; "0x"; " 1"; "+nan"; "1f"] =
  replicate 14 None.
Proof. vm_compute. reflexivity. Qed.

Example ParseFloat_others :
  ParseFloat <$> ["0x1p-2"; "0x.8p0"; "0x_1P1"; "Inf"; "-infinity"; "NaN"] =
  [Some (dec 25 2); Some (dec 5 1); Some (dec 2 0); Some (S754_infinity false); Some (S754_infinity true);
   Some S754_nan].
Proof. vm_compute. reflexivity. Qed.

(** The nearest number: the digits of 2^53 + 1 round to even, and the least positive one is found. *)
Example ParseFloat_rounding :
  ParseFloat "9007199254740993" = ParseFloat "9007199254740992" ∧
  ParseFloat "4.94e-324" = Some (S754_finite false 1 (-1074)) ∧ ParseFloat "2.4e-324" = Some (S754_zero false) ∧
  ParseFloat "1.7976931348623157e308" = Some (S754_finite false (2 ^ 53 - 1) 971) ∧
  ParseFloat "1.7976931348623159e308" = None.
Proof. vm_compute. by split_and!. Qed.
