(* ===== verification/Task.v ===== *)
(** internal/domain/task: the Task aggregate (classification enums, intake
    lifecycle). *)

From stdpp Require Import options.
From S2P Require Import Prelude GoLib Shared.

Definition ErrEmptyTitle : error := Sentinel "task.ErrEmptyTitle" "task title must not be empty".
Definition ErrInvalidTransition : error :=
  Sentinel "task.ErrInvalidTransition" "invalid status transition".

Inductive TaskType :=
  | TypeDevelopment | TypeReview | TypeResearch | TypeRefactor | TypeBugfix | TypeDeployment
  | TypeOther (s : string).

#[export] Instance TaskType_eq_dec : EqDecision TaskType.
Proof. solve_decision. Defined.

#[export] Instance TaskType_enum : GoEnum TaskType := {|
  of_string s :=
    if decide (s = "development") then TypeDevelopment
    else if decide (s = "review") then TypeReview
    else if decide (s = "research") then TypeResearch
    else if decide (s = "refactor") then TypeRefactor
    else if decide (s = "bugfix") then TypeBugfix
    else if decide (s = "deployment") then TypeDeployment
    else TypeOther s;
  to_string t :=
    match t with
    | TypeDevelopment => "development" | TypeReview => "review"
    | TypeResearch => "research" | TypeRefactor => "refactor"
    | TypeBugfix => "bugfix" | TypeDeployment => "deployment"
    | TypeOther s => s
    end;
  known t := match t with TypeOther _ => false | _ => true end;
  to_of_string := ltac:(solve_enum); of_to_string := ltac:(solve_enum);
|}.

Definition NewTaskType (s : string) : result TaskType := parse_enum "invalid task type: %q" s.

Inductive TaskScope :=
  | ScopeFile | ScopeModule | ScopeRepo | ScopeSystem
  | ScopeOther (s : string).

#[export] Instance TaskScope_eq_dec : EqDecision TaskScope.
Proof. solve_decision. Defined.

#[export] Instance TaskScope_enum : GoEnum TaskScope := {|
  of_string s :=
    if decide (s = "file") then ScopeFile
    else if decide (s = "module") then ScopeModule
    else if decide (s = "repo") then ScopeRepo
    else if decide (s = "system") then ScopeSystem
    else ScopeOther s;
  to_string t :=
    match t with
    | ScopeFile => "file" | ScopeModule => "module"
    | ScopeRepo => "repo" | ScopeSystem => "system"
    | ScopeOther s => s
    end;
  known t := match t with ScopeOther _ => false | _ => true end;
  to_of_string := ltac:(solve_enum); of_to_string := ltac:(solve_enum);
|}.

Definition NewTaskScope (s : string) : result TaskScope := parse_enum "invalid task scope: %q" s.

Inductive TaskStatus :=
  | StatusCreated | StatusAccepted | StatusInProgress
  | StatusCompleted | StatusFailed | StatusCancelled
  | StatusOther (s : string).

#[export] Instance TaskStatus_eq_dec : EqDecision TaskStatus.
Proof. solve_decision. Defined.

#[export] Instance TaskStatus_enum : GoEnum TaskStatus := {|
  of_string s :=
    if decide (s = "created") then StatusCreated
    else if decide (s = "accepted") then StatusAccepted
    else if decide (s = "in_progress") then StatusInProgress
    else if decide (s = "completed") then StatusCompleted
    else if decide (s = "failed") then StatusFailed
    else if decide (s = "cancelled") then StatusCancelled
    else StatusOther s;
  to_string t :=
    match t with
    | StatusCreated => "created" | StatusAccepted => "accepted"
    | StatusInProgress => "in_progress" | StatusCompleted => "completed"
    | StatusFailed => "failed" | StatusCancelled => "cancelled"
    | StatusOther s => s
    end;
  known t := match t with StatusOther _ => false | _ => true end;
  to_of_string := ltac:(solve_enum); of_to_string := ltac:(solve_enum);
|}.

Definition NewTaskStatus (s : string) : result TaskStatus := parse_enum "invalid task status: %q" s.

(** The two level map of allowed transitions; [None] when the status is no key. *)
Definition validTransitions (s : TaskStatus) : option (list TaskStatus) :=
  match s with
  | StatusCreated => Some [StatusAccepted; StatusCancelled]
  | StatusAccepted => Some [StatusInProgress; StatusCancelled]
  | StatusInProgress => Some [StatusCompleted; StatusFailed; StatusCancelled]
  | _ => None
  end.

Abbreviation TaskMetadata := (gmap string any) (only parsing).

Record Task := {
  tkID : TaskID;
  tkParentTaskID : option TaskID;
  tkType : TaskType;
  tkTitle : string;
  tkScope : TaskScope;
  tkPriority : Priority;
  tkRiskLevel : RiskLevel;
  tkStatus : TaskStatus;
  tkMetadata : TaskMetadata;
  tkCreatedAt : Timestamp;
  tkUpdatedAt : Timestamp;
}.

(** The metadata map is copied in and out ([Metadata] too), so no caller shares it
    with the aggregate: a value models it. *)
Definition NewTask (id : TaskID) (parentTaskID : option TaskID) (taskType : TaskType)
    (title : string) (scope : TaskScope) (priority : Priority) (riskLevel : RiskLevel)
    (metadata : TaskMetadata) (now : Timestamp) : result Task :=
  if decide (TrimSpace title = "") then Err ErrEmptyTitle else
  Ok {| tkID := id; tkParentTaskID := parentTaskID; tkType := taskType; tkTitle := title;
        tkScope := scope; tkPriority := priority; tkRiskLevel := riskLevel;
        tkStatus := StatusCreated; tkMetadata := metadata;
        tkCreatedAt := now; tkUpdatedAt := now |}.

Definition Reconstruct (id : TaskID) (parentTaskID : option TaskID) (taskType : TaskType)
    (title : string) (scope : TaskScope) (priority : Priority) (riskLevel : RiskLevel)
    (status : TaskStatus) (metadata : TaskMetadata) (createdAt updatedAt : Timestamp) : Task :=
  {| tkID := id; tkParentTaskID := parentTaskID; tkType := taskType; tkTitle := title;
     tkScope := scope; tkPriority := priority; tkRiskLevel := riskLevel;
     tkStatus := status; tkMetadata := metadata;
     tkCreatedAt := createdAt; tkUpdatedAt := updatedAt |}.

(** The methods mutate the receiver only when they return no error. *)
Definition transitionTo (t : Task) (target : TaskStatus) (now : Timestamp) : result Task :=
  let err := Err (Wrapf "%w: cannot transition from %q to %q"
                    [to_string (tkStatus t); to_string target] ErrInvalidTransition) in
  match validTransitions (tkStatus t) with
  | None => err
  | Some allowed =>
      if decide (target ∈ allowed) then
        Ok {| tkID := tkID t; tkParentTaskID := tkParentTaskID t; tkType := tkType t;
              tkTitle := tkTitle t; tkScope := tkScope t; tkPriority := tkPriority t;
              tkRiskLevel := tkRiskLevel t; tkStatus := target; tkMetadata := tkMetadata t;
              tkCreatedAt := tkCreatedAt t; tkUpdatedAt := now |}
      else err
  end.

Definition Accept (t : Task) (now : Timestamp) : result Task := transitionTo t StatusAccepted now.
Definition Start (t : Task) (now : Timestamp) : result Task := transitionTo t StatusInProgress now.
Definition Complete (t : Task) (now : Timestamp) : result Task := transitionTo t StatusCompleted now.
Definition Fail (t : Task) (now : Timestamp) : result Task := transitionTo t StatusFailed now.
Definition Cancel (t : Task) (now : Timestamp) : result Task := transitionTo t StatusCancelled now.

(** * Lifecycle as a step relation *)

Definition task_terminal (s : TaskStatus) : bool :=
  match s with StatusCompleted | StatusFailed | StatusCancelled => true | _ => false end.

(** One successful call of a transition method. *)
Inductive task_step : Task → Task → Prop :=
  | step_accept t t' now : Accept t now = Ok t' → task_step t t'
  | step_start t t' now : Start t now = Ok t' → task_step t t'
  | step_complete t t' now : Complete t now = Ok t' → task_step t t'
  | step_fail t t' now : Fail t now = Ok t' → task_step t t'
  | step_cancel t t' now : Cancel t now = Ok t' → task_step t t'.

(** The statuses a task went through, latest first, from its creation. *)
Inductive task_history : list TaskStatus → Task → Prop :=
  | history_new id p ty title sc pr r m now t :
      NewTask id p ty title sc pr r m now = Ok t → task_history [tkStatus t] t
  | history_step h t t' : task_history h t → task_step t t' → task_history (tkStatus t' :: h) t'.

(** What a status says about the statuses before it. *)
Definition legal_history (s : TaskStatus) (h : list TaskStatus) : Prop :=
  match s with
  | StatusCreated => h = [StatusCreated]
  | StatusAccepted => h = [StatusAccepted; StatusCreated]
  | StatusInProgress => h = [StatusInProgress; StatusAccepted; StatusCreated]
  | StatusCompleted => h = [StatusCompleted; StatusInProgress; StatusAccepted; StatusCreated]
  | StatusFailed => h = [StatusFailed; StatusInProgress; StatusAccepted; StatusCreated]
  | StatusCancelled =>
      h ∈ [[StatusCancelled; StatusCreated];
           [StatusCancelled; StatusAccepted; StatusCreated];
           [StatusCancelled; StatusInProgress; StatusAccepted; StatusCreated]]
  | StatusOther _ => False
  end.

(** * Properties *)

Lemma task_transitionTo_Ok t target now t' :
  transitionTo t target now = Ok t' ↔
  (∃ allowed, validTransitions (tkStatus t) = Some allowed ∧ target ∈ allowed) ∧
  t' = {| tkID := tkID t; tkParentTaskID := tkParentTaskID t; tkType := tkType t;
          tkTitle := tkTitle t; tkScope := tkScope t; tkPriority := tkPriority t;
          tkRiskLevel := tkRiskLevel t; tkStatus := target; tkMetadata := tkMetadata t;
          tkCreatedAt := tkCreatedAt t; tkUpdatedAt := now |}.
Proof.
  unfold transitionTo. destruct (validTransitions _); [case_decide|]; naive_solver.
Qed.

Lemma task_transitionTo_Err t target now e :
  transitionTo t target now = Err e → errors_Is e ErrInvalidTransition = true.
Proof. unfold transitionTo. split_guards; auto with gov. Qed.

(** A step moves along the table and changes nothing but status and update time. *)
Lemma task_step_table t t' :
  task_step t t' →
  ∃ allowed, validTransitions (tkStatus t) = Some allowed ∧ tkStatus t' ∈ allowed.
Proof.
  destruct 1 as [??? H|??? H|??? H|??? H|??? H];
    apply task_transitionTo_Ok in H as [H ->]; done.
Qed.

Lemma NewTask_Ok id p ty title sc pr r m now t :
  NewTask id p ty title sc pr r m now = Ok t →
  TrimSpace title ≠ "" ∧ tkStatus t = StatusCreated ∧ tkID t = id ∧ tkParentTaskID t = p ∧
  tkType t = ty ∧ tkTitle t = title ∧ tkScope t = sc ∧ tkPriority t = pr ∧
  tkRiskLevel t = r ∧ tkMetadata t = m ∧ tkCreatedAt t = now ∧ tkUpdatedAt t = now.
Proof. unfold NewTask. case_decide; naive_solver. Qed.

(** However the transition methods are called after [NewTask], the sequence of
    statuses is one of the nine legal histories: in particular a task is completed
    (or failed) only by going created, accepted, in_progress first. *)
Theorem task_history_legal h t : task_history h t → legal_history (tkStatus t) h.
Proof.
  induction 1 as [id p ty title sc pr r m now t H|h t t' _ IH Hs].
  - apply NewTask_Ok in H as (_ & -> & _). reflexivity.
  - apply task_step_table in Hs as (allowed & Hv & Ht).
    destruct (tkStatus t); simplify_eq/=; set_unfold in Ht;
      destruct_or! Ht; rewrite Ht; simpl; (done || set_solver).
Qed.

Definition demo_task (s : TaskStatus) (at_ : Z) : Task :=
  {| tkID := "t"; tkParentTaskID := None; tkType := TypeBugfix; tkTitle := "fix";
     tkScope := ScopeFile; tkPriority := PriorityNormal; tkRiskLevel := RiskLevelLow;
     tkStatus := s; tkMetadata := ∅; tkCreatedAt := {| ts_Time := 1 |};
     tkUpdatedAt := {| ts_Time := at_ |} |}.

Lemma task_history_legal_witness :
  legal_history StatusCompleted
    [StatusCompleted; StatusInProgress; StatusAccepted; StatusCreated].
Proof.
  apply (task_history_legal _ (demo_task StatusCompleted 4)).
  apply (history_step [StatusInProgress; StatusAccepted; StatusCreated]
           (demo_task StatusInProgress 3) (demo_task StatusCompleted 4)).
  - apply (history_step [StatusAccepted; StatusCreated]
             (demo_task StatusAccepted 2) (demo_task StatusInProgress 3)).
    + apply (history_step [StatusCreated] (demo_task StatusCreated 1) (demo_task StatusAccepted 2)).
      * apply (history_new "t" None TypeBugfix "fix" ScopeFile PriorityNormal RiskLevelLow ∅
                 {| ts_Time := 1 |} (demo_task StatusCreated 1)). vm_compute. reflexivity.
      * apply (step_accept _ _ {| ts_Time := 2 |}). reflexivity.
    + apply (step_start _ _ {| ts_Time := 3 |}). reflexivity.
  - apply (step_complete _ _ {| ts_Time := 4 |}). reflexivity.
Defined.
