(* ===== verification/Workflow.v ===== *)
(** internal/domain/workflow: the WorkflowRun aggregate and its deterministic state
    machine. *)

From stdpp Require Import options.
From S2P Require Import Prelude GoLib Shared.

(** * status.go *)

Inductive WorkflowStatus :=
  | StatusCreated | StatusRouted | StatusPolicyChecked | StatusRunning
  | StatusAwaitingApproval | StatusApproved | StatusPaused
  | StatusCompleted | StatusFailed | StatusKilled | StatusQuarantined
  | StatusOther (s : string).

#[export] Instance WorkflowStatus_eq_dec : EqDecision WorkflowStatus.
Proof. solve_decision. Defined.

#[export] Instance WorkflowStatus_enum : GoEnum WorkflowStatus := {|
  of_string s :=
    if decide (s = "created") then StatusCreated
    else if decide (s = "routed") then StatusRouted
    else if decide (s = "policy_checked") then StatusPolicyChecked
    else if decide (s = "running") then StatusRunning
    else if decide (s = "awaiting_approval") then StatusAwaitingApproval
    else if decide (s = "approved") then StatusApproved
    else if decide (s = "paused") then StatusPaused
    else if decide (s = "completed") then StatusCompleted
    else if decide (s = "failed") then StatusFailed
    else if decide (s = "killed") then StatusKilled
    else if decide (s = "quarantined") then StatusQuarantined
    else StatusOther s;
  to_string t :=
    match t with
    | StatusCreated => "created" | StatusRouted => "routed"
    | StatusPolicyChecked => "policy_checked" | StatusRunning => "running"
    | StatusAwaitingApproval => "awaiting_approval" | StatusApproved => "approved"
    | StatusPaused => "paused" | StatusCompleted => "completed"
    | StatusFailed => "failed" | StatusKilled => "killed"
    | StatusQuarantined => "quarantined" | StatusOther s => s
    end;
  known t := match t with StatusOther _ => false | _ => true end;
  to_of_string := ltac:(solve_enum); of_to_string := ltac:(solve_enum);
|}.

(** [terminalStates[s]] *)
Definition IsTerminal (s : WorkflowStatus) : bool :=
  match s with
  | StatusCompleted | StatusFailed | StatusKilled | StatusQuarantined => true
  | _ => false
  end.

(** The two level map; [None] when the status is no key. *)
Definition transitionTable (from : WorkflowStatus) : option (list WorkflowStatus) :=
  match from with
  | StatusCreated => Some [StatusRouted]
  | StatusRouted => Some [StatusPolicyChecked]
  | StatusPolicyChecked => Some [StatusRunning; StatusAwaitingApproval; StatusFailed]
  | StatusAwaitingApproval => Some [StatusApproved; StatusFailed]
  | StatusApproved => Some [StatusRunning]
  | StatusRunning =>
      Some [StatusCompleted; StatusFailed; StatusPaused; StatusKilled; StatusQuarantined]
  | StatusPaused => Some [StatusRunning; StatusKilled]
  | _ => None
  end.

Definition IsValidTransition (from to : WorkflowStatus) : bool :=
  if bool_decide (to = StatusKilled) && negb (IsTerminal from) then true else
  match transitionTable from with
  | None => false
  | Some targets => bool_decide (to ∈ targets)
  end.

(** * transition.go *)

Record WorkflowTransition := {
  trFrom : WorkflowStatus;
  trTo : WorkflowStatus;
  trReason : string;
  trActor : ActorID;
  trTimestamp : Timestamp;
}.

#[export] Instance WorkflowTransition_eq_dec : EqDecision WorkflowTransition.
Proof. solve_decision. Defined.

(** * workflow_run.go *)

Definition ErrInvalidTransition : error :=
  Sentinel "workflow.ErrInvalidTransition" "invalid status transition".
Definition ErrTerminalState : error :=
  Sentinel "workflow.ErrTerminalState" "cannot transition from terminal state".

Record WorkflowRun := {
  wfID : WorkflowRunID;
  wfTaskID : TaskID;
  wfStatus : WorkflowStatus;
  wfRoutingDecisionID : option RoutingDecisionID;
  wfPolicyDecisionID : option PolicyDecisionID;
  wfCurrentStepIndex : Z;
  wfTransitions : list WorkflowTransition;
  wfCreatedAt : Timestamp;
  wfUpdatedAt : Timestamp;
}.

#[export] Instance WorkflowRun_eq_dec : EqDecision WorkflowRun.
Proof. solve_decision. Defined.

Definition NewWorkflowRun (id : WorkflowRunID) (taskID : TaskID) (now : Timestamp) : WorkflowRun :=
  {| wfID := id; wfTaskID := taskID; wfStatus := StatusCreated;
     wfRoutingDecisionID := None; wfPolicyDecisionID := None;
     wfCurrentStepIndex := 0; wfTransitions := [];
     wfCreatedAt := now; wfUpdatedAt := now |}.

(** The methods mutate the receiver only when they return no error: the new value
    of the receiver is the result. *)
Definition transitionTo (w : WorkflowRun) (target : WorkflowStatus) (reason : string)
    (actor : ActorID) (now : Timestamp) : result WorkflowRun :=
  if IsTerminal (wfStatus w) then
    Err (Wrapf "%w: cannot transition from %s" [to_string (wfStatus w)] ErrTerminalState)
  else if negb (IsValidTransition (wfStatus w) target) then
    Err (Wrapf "%w: %s → %s" [to_string (wfStatus w); to_string target] ErrInvalidTransition)
  else
    let transition := {| trFrom := wfStatus w; trTo := target; trReason := reason;
                         trActor := actor; trTimestamp := now |} in
    Ok {| wfID := wfID w; wfTaskID := wfTaskID w; wfStatus := target;
          wfRoutingDecisionID := wfRoutingDecisionID w;
          wfPolicyDecisionID := wfPolicyDecisionID w;
          wfCurrentStepIndex := wfCurrentStepIndex w;
          wfTransitions := wfTransitions w ++ [transition];
          wfCreatedAt := wfCreatedAt w; wfUpdatedAt := now |}.

Definition set_RoutingDecisionID (w : WorkflowRun) (rdID : RoutingDecisionID) : WorkflowRun :=
  {| wfID := wfID w; wfTaskID := wfTaskID w; wfStatus := wfStatus w;
     wfRoutingDecisionID := Some rdID; wfPolicyDecisionID := wfPolicyDecisionID w;
     wfCurrentStepIndex := wfCurrentStepIndex w; wfTransitions := wfTransitions w;
     wfCreatedAt := wfCreatedAt w; wfUpdatedAt := wfUpdatedAt w |}.

Definition set_PolicyDecisionID (w : WorkflowRun) (pdID : PolicyDecisionID) : WorkflowRun :=
  {| wfID := wfID w; wfTaskID := wfTaskID w; wfStatus := wfStatus w;
     wfRoutingDecisionID := wfRoutingDecisionID w; wfPolicyDecisionID := Some pdID;
     wfCurrentStepIndex := wfCurrentStepIndex w; wfTransitions := wfTransitions w;
     wfCreatedAt := wfCreatedAt w; wfUpdatedAt := wfUpdatedAt w |}.

Definition MarkRouted (w : WorkflowRun) (rdID : RoutingDecisionID) (reason : string)
    (actor : ActorID) (now : Timestamp) : result WorkflowRun :=
  w' ← transitionTo w StatusRouted reason actor now; Ok (set_RoutingDecisionID w' rdID).

Definition MarkPolicyChecked (w : WorkflowRun) (pdID : PolicyDecisionID)
    (actor : ActorID) (now : Timestamp) : result WorkflowRun :=
  w' ← transitionTo w StatusPolicyChecked "" actor now; Ok (set_PolicyDecisionID w' pdID).

Definition TransitionTo (w : WorkflowRun) (target : WorkflowStatus) (reason : string)
    (actor : ActorID) (now : Timestamp) : result WorkflowRun :=
  transitionTo w target reason actor now.

Definition Kill (w : WorkflowRun) (reason : string) (actor : ActorID) (now : Timestamp)
    : result WorkflowRun :=
  if IsTerminal (wfStatus w) then
    Err (Wrapf "%w: cannot kill from %s" [to_string (wfStatus w)] ErrTerminalState)
  else transitionTo w StatusKilled reason actor now.

Definition Pause (w : WorkflowRun) (reason : string) (actor : ActorID) (now : Timestamp) :=
  transitionTo w StatusPaused reason actor now.
Definition Resume (w : WorkflowRun) (reason : string) (actor : ActorID) (now : Timestamp) :=
  transitionTo w StatusRunning reason actor now.
Definition Complete (w : WorkflowRun) (reason : string) (actor : ActorID) (now : Timestamp) :=
  transitionTo w StatusCompleted reason actor now.
Definition Fail (w : WorkflowRun) (reason : string) (actor : ActorID) (now : Timestamp) :=
  transitionTo w StatusFailed reason actor now.
Definition Quarantine (w : WorkflowRun) (reason : string) (actor : ActorID) (now : Timestamp) :=
  transitionTo w StatusQuarantined reason actor now.

Definition ReconstructWorkflowRun (id : WorkflowRunID) (taskID : TaskID)
    (status : WorkflowStatus) (routingDecisionID : option RoutingDecisionID)
    (policyDecisionID : option PolicyDecisionID) (currentStepIndex : Z)
    (transitions : list WorkflowTransition) (createdAt updatedAt : Timestamp) : WorkflowRun :=
  {| wfID := id; wfTaskID := taskID; wfStatus := status;
     wfRoutingDecisionID := routingDecisionID; wfPolicyDecisionID := policyDecisionID;
     wfCurrentStepIndex := currentStepIndex; wfTransitions := transitions;
     wfCreatedAt := createdAt; wfUpdatedAt := updatedAt |}.

(** * The operations as labels of a step relation *)

Inductive wf_op :=
  | OpMarkRouted (rdID : RoutingDecisionID) (reason : string)
  | OpMarkPolicyChecked (pdID : PolicyDecisionID)
  | OpTransitionTo (target : WorkflowStatus) (reason : string)
  | OpKill (reason : string)
  | OpPause (reason : string)
  | OpResume (reason : string)
  | OpComplete (reason : string)
  | OpFail (reason : string)
  | OpQuarantine (reason : string).

Definition apply_op (w : WorkflowRun) (op : wf_op) (actor : ActorID) (now : Timestamp)
    : result WorkflowRun :=
  match op with
  | OpMarkRouted rdID reason => MarkRouted w rdID reason actor now
  | OpMarkPolicyChecked pdID => MarkPolicyChecked w pdID actor now
  | OpTransitionTo target reason => TransitionTo w target reason actor now
  | OpKill reason => Kill w reason actor now
  | OpPause reason => Pause w reason actor now
  | OpResume reason => Resume w reason actor now
  | OpComplete reason => Complete w reason actor now
  | OpFail reason => Fail w reason actor now
  | OpQuarantine reason => Quarantine w reason actor now
  end.

(** The runs reachable from [NewWorkflowRun] by successful calls of the methods. *)
Inductive reachable : WorkflowRun → Prop :=
  | reachable_new id taskID now : reachable (NewWorkflowRun id taskID now)
  | reachable_op w op actor now w' :
      reachable w → apply_op w op actor now = Ok w' → reachable w'.

(** [ts] is a chain of valid transitions leading from [from] to [to]. *)
Fixpoint valid_chain (from : WorkflowStatus) (ts : list WorkflowTransition)
    (to : WorkflowStatus) : Prop :=
  match ts with
  | [] => from = to
  | t :: ts => trFrom t = from ∧ IsTerminal from = false ∧
               IsValidTransition from (trTo t) = true ∧ valid_chain (trTo t) ts to
  end.

(** The number of transitions into [paused]. *)
Definition pauses (ts : list WorkflowTransition) : nat :=
  length (filter (λ t, trTo t = StatusPaused) ts).

(** An upper bound on the transitions left, pauses aside. *)
Definition rank (s : WorkflowStatus) : nat :=
  match s with
  | StatusCreated => 6 | StatusRouted => 5 | StatusPolicyChecked => 4
  | StatusAwaitingApproval => 3 | StatusApproved => 2 | StatusPaused => 2
  | StatusRunning => 1 | StatusOther _ => 1
  | StatusCompleted | StatusFailed | StatusKilled | StatusQuarantined => 0
  end.

(** * Lemmas *)

Lemma IsValidTransition_spec from to :
  IsValidTransition from to = true ↔
  (to = StatusKilled ∧ IsTerminal from = false) ∨
  (∃ targets, transitionTable from = Some targets ∧ to ∈ targets).
Proof.
  unfold IsValidTransition. case_bool_decide as K; simpl.
  - subst. destruct (IsTerminal from) eqn:T; simpl; [|naive_solver].
    destruct from; simplify_eq/=; naive_solver.
  - destruct (transitionTable from) as [l|]; [rewrite bool_decide_eq_true|]; naive_solver.
Qed.

(** No transition leaves a terminal state. *)
Lemma terminal_no_transition from to : IsTerminal from = true → IsValidTransition from to = false.
Proof. unfold IsValidTransition. destruct from; try discriminate; simpl; by case_bool_decide. Qed.

Lemma transitionTo_Ok w target reason actor now w' :
  transitionTo w target reason actor now = Ok w' ↔
  IsTerminal (wfStatus w) = false ∧ IsValidTransition (wfStatus w) target = true ∧
  w' = {| wfID := wfID w; wfTaskID := wfTaskID w; wfStatus := target;
          wfRoutingDecisionID := wfRoutingDecisionID w;
          wfPolicyDecisionID := wfPolicyDecisionID w;
          wfCurrentStepIndex := wfCurrentStepIndex w;
          wfTransitions := wfTransitions w ++
            [{| trFrom := wfStatus w; trTo := target; trReason := reason;
                trActor := actor; trTimestamp := now |}];
          wfCreatedAt := wfCreatedAt w; wfUpdatedAt := now |}.
Proof.
  unfold transitionTo.
  destruct (IsTerminal _), (IsValidTransition _ _); simpl; naive_solver.
Qed.

Lemma valid_chain_snoc from ts s t :
  valid_chain from ts s → trFrom t = s → IsTerminal s = false →
  IsValidTransition s (trTo t) = true → valid_chain from (ts ++ [t]) (trTo t).
Proof.
  revert from. induction ts as [|u ts IH]; intros from; simpl.
  - intros -> ???. naive_solver.
  - intros (? & ? & ? & ?) ???. naive_solver.
Qed.

(** What every successful method call does: it appends one valid transition out of
    a non terminal status, sets the status, and leaves identity and creation time. *)
Lemma apply_op_Ok w op actor now w' :
  apply_op w op actor now = Ok w' →
  ∃ t, wfTransitions w' = wfTransitions w ++ [t] ∧ trFrom t = wfStatus w ∧
       trTo t = wfStatus w' ∧ trActor t = actor ∧ trTimestamp t = now ∧
       IsTerminal (wfStatus w) = false ∧ IsValidTransition (wfStatus w) (wfStatus w') = true ∧
       wfID w' = wfID w ∧ wfTaskID w' = wfTaskID w ∧ wfCreatedAt w' = wfCreatedAt w ∧
       wfUpdatedAt w' = now.
Proof.
  destruct op; simpl; unfold MarkRouted, MarkPolicyChecked, TransitionTo, Kill, Pause, Resume,
    Complete, Fail, Quarantine; intros H.
  1,2: apply result_bind_Ok in H as (w0 & H & [= <-]); apply transitionTo_Ok in H as (? & ? & ->);
       eexists; naive_solver.
  2: destruct (IsTerminal (wfStatus w)); [done|].
  all: apply transitionTo_Ok in H as (? & ? & ->); eexists; naive_solver.
Qed.

(** The targets of the table are declared statuses. *)
Lemma valid_target_known from to : IsValidTransition from to = true → known to = true.
Proof.
  intros V. apply IsValidTransition_spec in V as [[-> _]|(l & Hl & Hin)]; [done|].
  destruct from; simplify_eq/=; set_unfold in Hin; destruct_or? Hin; by subst.
Qed.

(** No method moves the step index. *)
Lemma apply_op_step_index w op actor now w' :
  apply_op w op actor now = Ok w' → wfCurrentStepIndex w' = wfCurrentStepIndex w.
Proof.
  destruct op; simpl; unfold MarkRouted, MarkPolicyChecked, TransitionTo, Kill, Pause, Resume,
    Complete, Fail, Quarantine, transitionTo; intros H; split_guards; done.
Qed.

Lemma apply_op_terminal w op actor now :
  IsTerminal (wfStatus w) = true →
  ∃ e, apply_op w op actor now = Err e ∧ errors_Is e ErrTerminalState = true.
Proof.
  intros T. destruct op; simpl; unfold MarkRouted, MarkPolicyChecked, TransitionTo, Kill, Pause,
    Resume, Complete, Fail, Quarantine, transitionTo; rewrite T; simpl; eauto with gov.
Qed.

Lemma pauses_snoc ts t : pauses (ts ++ [t]) = pauses ts + (if decide (trTo t = StatusPaused) then 1 else 0).
Proof. unfold pauses. rewrite list.filter_app, length_app, filter_cons. by case_decide. Qed.

(** A valid transition out of a non terminal status lowers the rank, but for the
    pause, which raises it by one. *)
Lemma rank_step from to :
  IsTerminal from = false → IsValidTransition from to = true →
  S (rank to) ≤ rank from + (if decide (to = StatusPaused) then 2 else 0).
Proof.
  intros T V. apply IsValidTransition_spec in V as [[-> _]|(l & Hl & Hin)].
  - destruct from; simpl in *; try discriminate; lia.
  - destruct from; simplify_eq/=; set_unfold in Hin; destruct_or? Hin; subst; simpl; lia.
Qed.

Lemma reachable_chain w : reachable w → valid_chain StatusCreated (wfTransitions w) (wfStatus w).
Proof.
  induction 1 as [|w op actor now w' _ IH H]; [done|].
  apply apply_op_Ok in H as (t & -> & ? & Ht & _ & _ & ? & ? & _).
  rewrite <- Ht. eapply valid_chain_snoc; [done..|]. by rewrite Ht.
Qed.

Lemma reachable_rank w :
  reachable w → length (wfTransitions w) + rank (wfStatus w) ≤ 6 + 2 * pauses (wfTransitions w).
Proof.
  induction 1 as [|w op actor now w' _ IH H]; [done|].
  apply apply_op_Ok in H as (t & -> & _ & Ht & _ & _ & T & V & _).
  rewrite length_app, pauses_snoc, Ht. pose proof (rank_step _ _ T V). simpl.
  case_decide; lia.
Qed.

(** The statuses a chain visits after its start. *)
Lemma chain_through_gates ts s :
  valid_chain StatusCreated ts s →
  ts = [] ∨ (∃ t, ts = [t] ∧ trTo t = StatusRouted) ∨
  (∃ t u us, ts = t :: u :: us ∧ trTo t = StatusRouted ∧ trTo u ∈ [StatusPolicyChecked; StatusKilled]) ∨
  (∃ t, ts = [t] ∧ trTo t = StatusKilled).
Proof.
  assert (Hc : ∀ to, IsValidTransition StatusCreated to = true → to = StatusRouted ∨ to = StatusKilled).
  { intros to V. apply IsValidTransition_spec in V as [[-> _]|(l & [= <-] & Hin)]; set_solver. }
  assert (Hr : ∀ to, IsValidTransition StatusRouted to = true →
    to ∈ [StatusPolicyChecked; StatusKilled]).
  { intros to V. apply IsValidTransition_spec in V as [[-> _]|(l & [= <-] & Hin)]; set_solver. }
  destruct ts as [|t [|u us]]; simpl.
  - auto.
  - intros (_ & _ & V & _). destruct (Hc _ V); naive_solver.
  - intros (_ & _ & V & _ & Tt & Vu & _). right. destruct (Hc _ V) as [E|E]; rewrite E in *.
    + right. left. exists t, u, us. auto.
    + discriminate.
Qed.

(** The transition after a transition into [s] leaves [s] validly. *)
Lemma chain_next from ts to l t u r :
  valid_chain from ts to → ts = l ++ t :: u :: r →
  trFrom u = trTo t ∧ IsTerminal (trTo t) = false ∧ IsValidTransition (trTo t) (trTo u) = true.
Proof.
  intros H ->. revert from H. induction l as [|v l IH]; intros from; simpl; naive_solver.
Qed.

(** * Theorems *)

(** C19: the state machine has no shortcut.  Whatever sequence of methods was called on a
    run since [NewWorkflowRun], its recorded transitions form a chain of valid
    transitions from created to its current status; if they are not only a kill of
    a created or routed run, the first two are into routed and policy_checked; and a run that
    waited for an approval left that state only to approved, failed or killed. *)
Theorem workflow_no_bypass w :
  reachable w →
  valid_chain StatusCreated (wfTransitions w) (wfStatus w) ∧
  (wfStatus w ∉ [StatusCreated; StatusRouted; StatusKilled] →
   ∃ t u us, wfTransitions w = t :: u :: us ∧
             trTo t = StatusRouted ∧ trTo u = StatusPolicyChecked) ∧
  (∀ l t u r, wfTransitions w = l ++ t :: u :: r → trTo t = StatusAwaitingApproval →
   trTo u ∈ [StatusApproved; StatusFailed; StatusKilled]).
Proof.
  intros H. apply reachable_chain in H. split_and!; [done| |].
  - intros Hs. pose proof (chain_through_gates _ _ H)
      as [E|[(t & E & Ht)|[(t & u & us & E & Ht & Hu)|(t & E & Ht)]]];
      rewrite E in *; simpl in H.
    1, 2, 4: destruct Hs; set_unfold; intuition congruence.
    exists t, u, us. split_and!; [done..|].
    apply elem_of_cons in Hu as [?|Hu]; [done|]. apply list_elem_of_singleton in Hu.
    rewrite Hu in H. destruct Hs. destruct us; set_unfold; simpl in H; intuition congruence.
  - intros l t u r E Ht. destruct (chain_next _ _ _ _ _ _ _ H E) as (_ & _ & V).
    rewrite Ht in V. apply IsValidTransition_spec in V as [[-> _]|(tg & [= <-] & Hin)]; set_solver.
Qed.

(** C20: terminal states are absorbing: on a completed, failed, killed or quarantined
    run every method fails with [ErrTerminalState]; on every other run [Kill]
    succeeds, ends in killed and appends exactly one transition that records the
    previous status, the reason, the actor and the time. *)
Theorem workflow_terminal_absorbing_kill_live w reason actor now :
  if IsTerminal (wfStatus w) then
    ∀ op actor' now', ∃ e, apply_op w op actor' now' = Err e ∧
                           errors_Is e ErrTerminalState = true
  else ∃ w', Kill w reason actor now = Ok w' ∧ wfStatus w' = StatusKilled ∧
       wfTransitions w' = wfTransitions w ++
         [{| trFrom := wfStatus w; trTo := StatusKilled; trReason := reason;
             trActor := actor; trTimestamp := now |}].
Proof.
  destruct (IsTerminal (wfStatus w)) eqn:T.
  - intros. by apply apply_op_terminal.
  - unfold Kill. rewrite T. unfold transitionTo. rewrite T.
    rewrite (proj2 (IsValidTransition_spec _ _)) by auto. simpl. eauto.
Qed.

(** C21: termination: with [p] pauses, a run makes at most [6 + 2 p] transitions, so
    every run that is not paused forever again reaches a state with no transition
    left; the bound counts the rank of the current status as transitions still possible. *)
Theorem workflow_bounded_transitions w :
  reachable w → length (wfTransitions w) + rank (wfStatus w) ≤ 6 + 2 * pauses (wfTransitions w).
Proof. apply reachable_rank. Qed.

(** * Concrete runs *)

Definition demo_ts (n : Z) : Timestamp := {| ts_Time := n |}.

(** created, routed, policy_checked, awaiting_approval, approved, running, paused,
    running, completed. *)
Definition demo_ops : list wf_op :=
  [OpMarkRouted "rd" "simple"; OpMarkPolicyChecked "pd";
   OpTransitionTo StatusAwaitingApproval "policy requires approval";
   OpTransitionTo StatusApproved "ok"; OpTransitionTo StatusRunning "start";
   OpPause "hold"; OpResume "go"; OpComplete "done"].

Definition run_ops (ops : list wf_op) (w : WorkflowRun) : result WorkflowRun :=
  foldl (λ r op, r ≫= λ w, apply_op w op systemActor (demo_ts 2)) (Ok w) ops.

Definition demo_run : WorkflowRun :=
  match run_ops demo_ops (NewWorkflowRun "wf" "task" (demo_ts 1)) with
  | Ok w => w | Err _ => NewWorkflowRun "wf" "task" (demo_ts 1)
  end.

Lemma run_ops_reachable ops w w' : reachable w → run_ops ops w = Ok w' → reachable w'.
Proof.
  revert w. unfold run_ops. induction ops as [|op ops IH]; simpl; intros w R E; [naive_solver|].
  destruct (apply_op w op systemActor (demo_ts 2)) as [w1|e] eqn:E1.
  - eapply IH; [|exact E]. by econstructor.
  - exfalso. clear -E. induction ops; simplify_eq/=; auto.
Qed.

Lemma demo_run_reachable : reachable demo_run.
Proof. eapply (run_ops_reachable demo_ops); [constructor|]. vm_compute. reflexivity. Qed.

Lemma workflow_no_bypass_witness :
  wfStatus demo_run = StatusCompleted ∧
  ∃ t u us, wfTransitions demo_run = t :: u :: us ∧
            trTo t = StatusRouted ∧ trTo u = StatusPolicyChecked.
Proof.
  split; [reflexivity|]. apply (workflow_no_bypass demo_run demo_run_reachable).
  vm_compute. intros H. repeat (inversion H as [|??? H']; subst; clear H; rename H' into H).
Defined.

Lemma workflow_bounded_transitions_witness :
  length (wfTransitions demo_run) = 8 ∧
  length (wfTransitions demo_run) + rank (wfStatus demo_run)
    ≤ 6 + 2 * pauses (wfTransitions demo_run).
Proof. split; [reflexivity|]. apply (workflow_bounded_transitions demo_run demo_run_reachable). Defined.
