(* ===== verification/Execution.v ===== *)
(** internal/domain/execution: attempt results (attempt.go) and execution leases
    (execution_lease.go). *)

From stdpp Require Import options.
From S2P Require Import Prelude GoLib Shared.

(** * attempt.go *)

Inductive AttemptStatus :=
  | AttemptStatusSuccess | AttemptStatusFailure | AttemptStatusRetry
  | AttemptStatusOther (s : string).

#[export] Instance AttemptStatus_eq_dec : EqDecision AttemptStatus.
Proof. solve_decision. Defined.

#[export] Instance AttemptStatus_enum : GoEnum AttemptStatus := {|
  of_string s :=
    if decide (s = "success") then AttemptStatusSuccess
    else if decide (s = "failure") then AttemptStatusFailure
    else if decide (s = "retry") then AttemptStatusRetry
    else AttemptStatusOther s;
  to_string t :=
    match t with
    | AttemptStatusSuccess => "success" | AttemptStatusFailure => "failure"
    | AttemptStatusRetry => "retry" | AttemptStatusOther s => s
    end;
  known t := match t with AttemptStatusOther _ => false | _ => true end;
  to_of_string := ltac:(solve_enum); of_to_string := ltac:(solve_enum);
|}.

Definition ErrFailureFieldsOnSuccess : error :=
  Sentinel "execution.ErrFailureFieldsOnSuccess" "success result must not have failure fields".
Definition ErrMissingFailureStage : error :=
  Sentinel "execution.ErrMissingFailureStage" "failure/retry result must have failure stage".
Definition ErrMissingFailureCode : error :=
  Sentinel "execution.ErrMissingFailureCode" "failure/retry result must have failure code".
Definition ErrEmptyFailureCode : error :=
  Sentinel "execution.ErrEmptyFailureCode" "failure code must not be empty".
Definition ErrMissingRetryable : error :=
  Sentinel "execution.ErrMissingRetryable" "failure/retry result must have retryable flag".

(** A nil pointer field is [None]. *)
Record AttemptResult := {
  arStatus : AttemptStatus;
  arFailureStage : option FailureStage;
  arFailureCode : option string;
  arRetryable : option bool;
  arToolName : option string;
  arStrategyUsed : option string;
  arAgentRole : option string;
  arDetail : option string;
}.

Definition NewSuccessResult : AttemptResult :=
  {| arStatus := AttemptStatusSuccess; arFailureStage := None; arFailureCode := None;
     arRetryable := None; arToolName := None; arStrategyUsed := None; arAgentRole := None;
     arDetail := None |}.

Definition NewFailureResult (stage : FailureStage) (code : string) (retryable : bool)
    : result AttemptResult :=
  if decide (code = "") then Err ErrEmptyFailureCode else
  Ok {| arStatus := AttemptStatusFailure; arFailureStage := Some stage;
        arFailureCode := Some code; arRetryable := Some retryable; arToolName := None;
        arStrategyUsed := None; arAgentRole := None; arDetail := None |}.

Definition NewRetryResult (stage : FailureStage) (code : string) : result AttemptResult :=
  if decide (code = "") then Err ErrEmptyFailureCode else
  Ok {| arStatus := AttemptStatusRetry; arFailureStage := Some stage;
        arFailureCode := Some code; arRetryable := Some true; arToolName := None;
        arStrategyUsed := None; arAgentRole := None; arDetail := None |}.

(** The methods have value receivers: they return a changed copy. *)
Definition WithToolName (a : AttemptResult) (name : string) : AttemptResult :=
  {| arStatus := arStatus a; arFailureStage := arFailureStage a; arFailureCode := arFailureCode a;
     arRetryable := arRetryable a; arToolName := Some name; arStrategyUsed := arStrategyUsed a;
     arAgentRole := arAgentRole a; arDetail := arDetail a |}.

Definition WithStrategy (a : AttemptResult) (s : string) : AttemptResult :=
  {| arStatus := arStatus a; arFailureStage := arFailureStage a; arFailureCode := arFailureCode a;
     arRetryable := arRetryable a; arToolName := arToolName a; arStrategyUsed := Some s;
     arAgentRole := arAgentRole a; arDetail := arDetail a |}.

Definition WithAgentRole (a : AttemptResult) (role : string) : AttemptResult :=
  {| arStatus := arStatus a; arFailureStage := arFailureStage a; arFailureCode := arFailureCode a;
     arRetryable := arRetryable a; arToolName := arToolName a; arStrategyUsed := arStrategyUsed a;
     arAgentRole := Some role; arDetail := arDetail a |}.

Definition WithDetail (a : AttemptResult) (detail : string) : AttemptResult :=
  {| arStatus := arStatus a; arFailureStage := arFailureStage a; arFailureCode := arFailureCode a;
     arRetryable := arRetryable a; arToolName := arToolName a; arStrategyUsed := arStrategyUsed a;
     arAgentRole := arAgentRole a; arDetail := Some detail |}.

Definition is_nil {A} (o : option A) : bool := match o with None => true | Some _ => false end.

Definition Validate (a : AttemptResult) : result unit :=
  match arStatus a with
  | AttemptStatusSuccess =>
      if negb (is_nil (arFailureStage a)) || negb (is_nil (arFailureCode a))
         || negb (is_nil (arRetryable a))
      then Err (Wrapf "%w" [] ErrFailureFieldsOnSuccess) else Ok ()
  | AttemptStatusFailure | AttemptStatusRetry =>
      if is_nil (arFailureStage a) then Err (Wrapf "%w" [] ErrMissingFailureStage) else
      match arFailureCode a with
      | None => Err (Wrapf "%w" [] ErrMissingFailureCode)
      | Some code =>
          if decide (code = "") then Err (Wrapf "%w" [] ErrEmptyFailureCode)
          else if is_nil (arRetryable a) then Err (Wrapf "%w" [] ErrMissingRetryable)
          else Ok ()
      end
  | AttemptStatusOther s => Err (Errorf "unknown attempt status: %q" [s])
  end.

(** * execution_lease.go *)

Inductive LeaseStatus :=
  | LeaseStatusActive | LeaseStatusExhausted | LeaseStatusRevoked
  | LeaseStatusOther (s : string).

#[export] Instance LeaseStatus_eq_dec : EqDecision LeaseStatus.
Proof. solve_decision. Defined.

#[export] Instance LeaseStatus_enum : GoEnum LeaseStatus := {|
  of_string s :=
    if decide (s = "active") then LeaseStatusActive
    else if decide (s = "exhausted") then LeaseStatusExhausted
    else if decide (s = "revoked") then LeaseStatusRevoked
    else LeaseStatusOther s;
  to_string t :=
    match t with
    | LeaseStatusActive => "active" | LeaseStatusExhausted => "exhausted"
    | LeaseStatusRevoked => "revoked" | LeaseStatusOther s => s
    end;
  known t := match t with LeaseStatusOther _ => false | _ => true end;
  to_of_string := ltac:(solve_enum); of_to_string := ltac:(solve_enum);
|}.

Definition ErrLeaseNotActive : error := Sentinel "execution.ErrLeaseNotActive" "lease is not active".
Definition ErrInvalidTimeoutBudget : error :=
  Sentinel "execution.ErrInvalidTimeoutBudget" "timeout budget must be greater than zero".
Definition ErrInvalidRetryBudget : error :=
  Sentinel "execution.ErrInvalidRetryBudget" "retry budget max attempts must be greater than zero".

Record RetryBudget := { rbMaxAttempts : Z }.

#[export] Instance RetryBudget_eq_dec : EqDecision RetryBudget.
Proof. solve_decision. Defined.

Definition NewRetryBudget (max : Z) : result RetryBudget :=
  if (max <=? 0)%Z then Err (Wrapf "%w: got %d" [pretty max] ErrInvalidRetryBudget)
  else Ok {| rbMaxAttempts := max |}.

Record ExecutionLease := {
  elID : ExecutionLeaseID;
  elWorkflowRunID : WorkflowRunID;
  elTimeoutBudget : Duration;
  elRetryBudget : RetryBudget;
  elAttemptsUsed : Z;
  elTimeElapsed : Duration;
  elStatus : LeaseStatus;
  elCreatedAt : Timestamp;
}.

#[export] Instance ExecutionLease_eq_dec : EqDecision ExecutionLease.
Proof. solve_decision. Defined.

Definition NewExecutionLease (id : ExecutionLeaseID) (workflowRunID : WorkflowRunID)
    (timeoutBudget : Duration) (retryBudget : RetryBudget) (createdAt : Timestamp)
    : result ExecutionLease :=
  if (timeoutBudget <=? 0)%Z then Err ErrInvalidTimeoutBudget else
  Ok {| elID := id; elWorkflowRunID := workflowRunID; elTimeoutBudget := timeoutBudget;
        elRetryBudget := retryBudget; elAttemptsUsed := 0; elTimeElapsed := 0;
        elStatus := LeaseStatusActive; elCreatedAt := createdAt |}.

Definition HasRetryBudget (l : ExecutionLease) : bool :=
  bool_decide (elStatus l = LeaseStatusActive)
  && (elAttemptsUsed l <? rbMaxAttempts (elRetryBudget l))%Z.

Definition RecordAttempt (l : ExecutionLease) : result ExecutionLease :=
  if decide (elStatus l = LeaseStatusActive) then
    let used := wrap64 (elAttemptsUsed l + 1) in
    Ok {| elID := elID l; elWorkflowRunID := elWorkflowRunID l;
          elTimeoutBudget := elTimeoutBudget l; elRetryBudget := elRetryBudget l;
          elAttemptsUsed := used; elTimeElapsed := elTimeElapsed l;
          elStatus := if (rbMaxAttempts (elRetryBudget l) <=? used)%Z
                      then LeaseStatusExhausted else elStatus l;
          elCreatedAt := elCreatedAt l |}
  else Err (Wrapf "%w: status is %s" [to_string (elStatus l)] ErrLeaseNotActive).

Definition UpdateTimeElapsed (l : ExecutionLease) (elapsed : Duration) : ExecutionLease :=
  {| elID := elID l; elWorkflowRunID := elWorkflowRunID l;
     elTimeoutBudget := elTimeoutBudget l; elRetryBudget := elRetryBudget l;
     elAttemptsUsed := elAttemptsUsed l; elTimeElapsed := elapsed;
     elStatus := elStatus l; elCreatedAt := elCreatedAt l |}.

Definition Revoke (l : ExecutionLease) : result ExecutionLease :=
  if decide (elStatus l = LeaseStatusActive) then
    Ok {| elID := elID l; elWorkflowRunID := elWorkflowRunID l;
          elTimeoutBudget := elTimeoutBudget l; elRetryBudget := elRetryBudget l;
          elAttemptsUsed := elAttemptsUsed l; elTimeElapsed := elTimeElapsed l;
          elStatus := LeaseStatusRevoked; elCreatedAt := elCreatedAt l |}
  else Err (Wrapf "%w: status is %s" [to_string (elStatus l)] ErrLeaseNotActive).

Definition ReconstructExecutionLease (id : ExecutionLeaseID) (workflowRunID : WorkflowRunID)
    (timeoutBudget : Duration) (retryBudget : RetryBudget) (attemptsUsed : Z)
    (timeElapsed : Duration) (status : LeaseStatus) (createdAt : Timestamp) : ExecutionLease :=
  {| elID := id; elWorkflowRunID := workflowRunID; elTimeoutBudget := timeoutBudget;
     elRetryBudget := retryBudget; elAttemptsUsed := attemptsUsed; elTimeElapsed := timeElapsed;
     elStatus := status; elCreatedAt := createdAt |}.

(** * Lease lifecycle *)

Inductive lease_reachable (max : Z) : ExecutionLease → Prop :=
  | lease_new id wf tb rb now l :
      NewRetryBudget max = Ok rb → NewExecutionLease id wf tb rb now = Ok l → lease_reachable max l
  | lease_record l l' : lease_reachable max l → RecordAttempt l = Ok l' → lease_reachable max l'
  | lease_elapsed l d : lease_reachable max l → lease_reachable max (UpdateTimeElapsed l d)
  | lease_revoke l l' : lease_reachable max l → Revoke l = Ok l' → lease_reachable max l'.

(** The lease invariant: the budgets are positive and the attempt counter agrees
    with the status. *)
Definition lease_inv (l : ExecutionLease) : Prop :=
  (0 < elTimeoutBudget l)%Z ∧ (0 ≤ elAttemptsUsed l ≤ rbMaxAttempts (elRetryBudget l))%Z ∧
  (rbMaxAttempts (elRetryBudget l) ≤ maxInt64)%Z ∧
  match elStatus l with
  | LeaseStatusActive | LeaseStatusRevoked => (elAttemptsUsed l < rbMaxAttempts (elRetryBudget l))%Z
  | LeaseStatusExhausted => elAttemptsUsed l = rbMaxAttempts (elRetryBudget l)
  | LeaseStatusOther _ => False
  end.

(** [n] calls of [RecordAttempt] in a row. *)
Fixpoint record_attempts (n : nat) (l : ExecutionLease) : result ExecutionLease :=
  match n with O => Ok l | S n => l' ← record_attempts n l; RecordAttempt l' end.

(** * Lemmas *)

Lemma RecordAttempt_inv l l' : lease_inv l → RecordAttempt l = Ok l' → lease_inv l'.
Proof.
  unfold lease_inv, RecordAttempt. intros (? & ? & ? & Hs) E. case_decide as D; simplify_eq/=.
  rewrite D in Hs. rewrite wrap64_id by (unfold minInt64, maxInt64 in *; lia).
  destruct (_ <=? _)%Z eqn:C; boolify; [|rewrite D]; lia.
Qed.

Lemma lease_reachable_inv max l : (max ≤ maxInt64)%Z → lease_reachable max l → lease_inv l.
Proof.
  intros Hmax. induction 1 as [id wf tb rb now l Hrb Hl|l l' _ IH H|l d _ IH|l l' _ IH H].
  - unfold NewRetryBudget, NewExecutionLease in *. split_guards. boolify.
    unfold lease_inv; simpl. lia.
  - by eapply RecordAttempt_inv.
  - exact IH.
  - revert IH. unfold lease_inv, Revoke in *. case_decide as D; simplify_eq/=. rewrite D. lia.
Qed.

Lemma lease_budget_fixed max l : lease_reachable max l → rbMaxAttempts (elRetryBudget l) = max.
Proof.
  induction 1 as [id wf tb rb now l Hrb Hl|l l' _ IH H|l d _ IH|l l' _ IH H].
  - unfold NewRetryBudget, NewExecutionLease in *. by split_guards.
  - unfold RecordAttempt in H. by split_guards.
  - exact IH.
  - unfold Revoke in H. by split_guards.
Qed.

Lemma record_attempts_spec l n :
  elStatus l = LeaseStatusActive → elAttemptsUsed l = 0%Z →
  (0 < rbMaxAttempts (elRetryBudget l) ≤ maxInt64)%Z →
  if (Z.of_nat n <=? rbMaxAttempts (elRetryBudget l))%Z then
    ∃ l', record_attempts n l = Ok l' ∧ elAttemptsUsed l' = Z.of_nat n ∧
      elRetryBudget l' = elRetryBudget l ∧
      elStatus l' = (if (Z.of_nat n =? rbMaxAttempts (elRetryBudget l))%Z
                     then LeaseStatusExhausted else LeaseStatusActive)
  else ∃ e, record_attempts n l = Err e ∧ errors_Is e ErrLeaseNotActive = true.
Proof.
  intros Hs Hu Hm. induction n as [|n IH].
  - case_match eqn:C; boolify; [|lia]. exists l. split_and!; [done..|].
    case_match eqn:C2; boolify; [lia|done].
  - rewrite Nat2Z.inj_succ. cbn [record_attempts].
    destruct (_ <=? _)%Z eqn:C1 in IH; boolify.
    + destruct IH as (l' & -> & Hu' & Hb & Hs'). cbn [mbind result_bind]. unfold RecordAttempt.
      rewrite Hs', Hu', Hb. destruct (Z.of_nat n =? _)%Z eqn:C2; boolify.
      * rewrite (proj2 (Z.leb_gt _ _)) by lia. simpl. eauto with gov.
      * rewrite wrap64_id by (unfold minInt64, maxInt64 in *; lia).
        rewrite (proj2 (Z.leb_le (Z.succ _) _)) by lia.
        rewrite decide_True by done. eexists. split; [reflexivity|].
        cbn [elAttemptsUsed elStatus elRetryBudget]. split_and!; [lia|done|].
        destruct (_ <=? _)%Z eqn:?, (_ =? _)%Z eqn:?; boolify; (done || lia).
    + destruct IH as (e & -> & He). rewrite (proj2 (Z.leb_gt _ _)) by lia. simpl. eauto.
Qed.

(** * Theorems *)

(** The lease invariant: on every lease obtained from the validated constructors by any
    calls of [RecordAttempt], [UpdateTimeElapsed] and [Revoke], the budget never
    changes, the attempts used never exceed it (the counter cannot overflow), the
    lease is exhausted exactly when they are equal, and [HasRetryBudget] holds exactly
    of the active leases. *)
Theorem lease_invariant max l :
  (max ≤ maxInt64)%Z → lease_reachable max l →
  lease_inv l ∧ rbMaxAttempts (elRetryBudget l) = max ∧
  (elStatus l = LeaseStatusExhausted ↔ elAttemptsUsed l = max) ∧
  (HasRetryBudget l = true ↔ elStatus l = LeaseStatusActive).
Proof.
  intros Hmax R. pose proof (lease_reachable_inv _ _ Hmax R) as Hinv.
  pose proof (lease_budget_fixed _ _ R) as Hb. split; [done|]. split; [done|].
  unfold HasRetryBudget. rewrite andb_true_iff, bool_decide_eq_true, Z.ltb_lt, <- Hb.
  destruct Hinv as (_ & ? & _ & Hs).
  destruct (elStatus l); (done || split; split; intros; destruct_and?; done || lia).
Qed.

(** A fresh lease grants exactly its budget: the first [max] calls of
    [RecordAttempt] succeed and count, the lease is exhausted from the last of them on, and
    every call after that fails with [ErrLeaseNotActive]. *)
Theorem lease_grants_exactly_budget id wf tb max rb now l n :
  (max ≤ maxInt64)%Z → NewRetryBudget max = Ok rb → NewExecutionLease id wf tb rb now = Ok l →
  if (Z.of_nat n <=? max)%Z then
    ∃ l', record_attempts n l = Ok l' ∧ elAttemptsUsed l' = Z.of_nat n ∧
      elStatus l' = (if (Z.of_nat n =? max)%Z then LeaseStatusExhausted else LeaseStatusActive)
  else ∃ e, record_attempts n l = Err e ∧ errors_Is e ErrLeaseNotActive = true.
Proof.
  unfold NewRetryBudget, NewExecutionLease. intros Hmax Hrb Hl.
  destruct (max <=? 0)%Z eqn:?, (tb <=? 0)%Z eqn:?; simplify_eq. boolify.
  match goal with |- context [record_attempts n ?l] =>
    pose proof (record_attempts_spec l n eq_refl eq_refl) as H end.
  simpl in H. specialize (H ltac:(lia)). case_match; naive_solver.
Qed.

Definition fresh_lease (max : Z) : ExecutionLease :=
  {| elID := "l"; elWorkflowRunID := "w"; elTimeoutBudget := 300;
     elRetryBudget := {| rbMaxAttempts := max |}; elAttemptsUsed := 0; elTimeElapsed := 0;
     elStatus := LeaseStatusActive; elCreatedAt := {| ts_Time := 5 |} |}.

Lemma lease_invariant_witness :
  ∃ l, lease_reachable 3 l ∧ lease_inv l ∧ elAttemptsUsed l = 1%Z.
Proof.
  set (l := {| elID := "l"; elWorkflowRunID := "w"; elTimeoutBudget := 300; elRetryBudget :=
    {| rbMaxAttempts := 3 |}; elAttemptsUsed := 1; elTimeElapsed := 0;
    elStatus := LeaseStatusActive; elCreatedAt := {| ts_Time := 5 |} |}).
  assert (R : lease_reachable 3 l).
  { apply (lease_record 3 (fresh_lease 3)); [|reflexivity].
    by apply (lease_new 3 "l" "w" 300 {| rbMaxAttempts := 3 |} {| ts_Time := 5 |}). }
  exists l. split; [exact R|]. split; [|reflexivity].
  apply (lease_invariant 3 l); [vm_compute; discriminate|exact R].
Defined.

Lemma lease_grants_exactly_budget_witness :
  ∃ e, record_attempts 4 (fresh_lease 3) = Err e ∧ errors_Is e ErrLeaseNotActive = true.
Proof.
  apply (lease_grants_exactly_budget "l" "w" 300 3 {| rbMaxAttempts := 3 |} {| ts_Time := 5 |} _ 4);
    [vm_compute; discriminate|reflexivity..].
Defined.

(** Attempt results: what the constructors return always validates, whatever
    optional fields are set on it afterwards; and [Validate] accepts exactly the
    success results with no failure field and the failure and retry results that carry
    a stage, a non empty code and the retryable flag. *)
Theorem attempt_result_valid :
  (∀ a tool strategy role detail, Validate a = Ok () →
     Validate (WithDetail (WithAgentRole (WithStrategy (WithToolName a tool) strategy) role) detail)
     = Ok ()) ∧
  Validate NewSuccessResult = Ok () ∧
  (∀ stage code retryable,
     match NewFailureResult stage code retryable with
     | Ok a => Validate a = Ok () ∧ arStatus a = AttemptStatusFailure
     | Err e => code = "" ∧ e = ErrEmptyFailureCode
     end) ∧
  (∀ stage code,
     match NewRetryResult stage code with
     | Ok a => Validate a = Ok () ∧ arStatus a = AttemptStatusRetry ∧ arRetryable a = Some true
     | Err e => code = "" ∧ e = ErrEmptyFailureCode
     end) ∧
  (∀ a, Validate a = Ok () ↔
     (arStatus a = AttemptStatusSuccess ∧
      arFailureStage a = None ∧ arFailureCode a = None ∧ arRetryable a = None) ∨
     (arStatus a ∈ [AttemptStatusFailure; AttemptStatusRetry] ∧
      is_Some (arFailureStage a) ∧ is_Some (arRetryable a) ∧
      ∃ code, arFailureCode a = Some code ∧ code ≠ "")).
Proof.
  split_and!.
  - done.
  - done.
  - intros. unfold NewFailureResult. case_decide; [done|]. unfold Validate; simpl.
    by rewrite decide_False.
  - intros. unfold NewRetryResult. case_decide; [done|]. unfold Validate; simpl.
    by rewrite decide_False.
  - intros [s fs fc r t st ro d]; unfold Validate; simpl.
    destruct s, fs, fc, r; simpl; try case_decide; set_unfold; unfold is_Some; naive_solver.
Qed.
