(* ===== verification/Approval.v ===== *)
(** internal/domain/approval: the ApprovalRequest aggregate. *)

From stdpp Require Import options.
From S2P Require Import Prelude GoLib Shared.

Definition ErrEmptyReason : error :=
  Sentinel "approval.ErrEmptyReason" "approval reason must not be empty".
Definition ErrNotPending : error :=
  Sentinel "approval.ErrNotPending" "approval request is not in pending status".

Inductive ApprovalStatus :=
  | StatusPending | StatusApproved | StatusDenied | StatusExpired
  | StatusOther (s : string).

#[export] Instance ApprovalStatus_eq_dec : EqDecision ApprovalStatus.
Proof. solve_decision. Defined.

#[export] Instance ApprovalStatus_enum : GoEnum ApprovalStatus := {|
  of_string s :=
    if decide (s = "pending") then StatusPending
    else if decide (s = "approved") then StatusApproved
    else if decide (s = "denied") then StatusDenied
    else if decide (s = "expired") then StatusExpired
    else StatusOther s;
  to_string t :=
    match t with
    | StatusPending => "pending" | StatusApproved => "approved"
    | StatusDenied => "denied" | StatusExpired => "expired" | StatusOther s => s
    end;
  known t := match t with StatusOther _ => false | _ => true end;
  to_of_string := ltac:(solve_enum); of_to_string := ltac:(solve_enum);
|}.

Definition NewApprovalStatus (s : string) : result ApprovalStatus :=
  parse_enum "invalid approval status: %q" s.

Definition IsTerminal (s : ApprovalStatus) : bool :=
  bool_decide (s = StatusApproved) || bool_decide (s = StatusDenied)
  || bool_decide (s = StatusExpired).

Record ApproverSpec := { asRole : string; asActorID : option ActorID }.

#[export] Instance ApproverSpec_eq_dec : EqDecision ApproverSpec.
Proof. solve_decision. Defined.

Record ApprovalResolution := {
  resResolvedBy : ActorID;
  resResolvedAt : Timestamp;
  resReason : string;
  resStatus : ApprovalStatus;
}.

#[export] Instance ApprovalResolution_eq_dec : EqDecision ApprovalResolution.
Proof. solve_decision. Defined.

Record ApprovalRequest := {
  apID : ApprovalRequestID;
  apTaskID : TaskID;
  apWorkflowRunID : WorkflowRunID;
  apReason : string;
  apRequiredApprover : ApproverSpec;
  apStatus : ApprovalStatus;
  apResolution : option ApprovalResolution;
  apExpiresAt : option Timestamp;
  apCreatedAt : Timestamp;
}.

#[export] Instance ApprovalRequest_eq_dec : EqDecision ApprovalRequest.
Proof. solve_decision. Defined.

Definition NewApprovalRequest (id : ApprovalRequestID) (taskID : TaskID)
    (workflowRunID : WorkflowRunID) (reason : string) (requiredApprover : ApproverSpec)
    (expiresAt : option Timestamp) (now : Timestamp) : result ApprovalRequest :=
  if decide (TrimSpace reason = "") then Err ErrEmptyReason else
  Ok {| apID := id; apTaskID := taskID; apWorkflowRunID := workflowRunID; apReason := reason;
        apRequiredApprover := requiredApprover; apStatus := StatusPending; apResolution := None;
        apExpiresAt := expiresAt; apCreatedAt := now |}.

Definition ReconstructApprovalRequest (id : ApprovalRequestID) (taskID : TaskID)
    (workflowRunID : WorkflowRunID) (reason : string) (requiredApprover : ApproverSpec)
    (status : ApprovalStatus) (resolution : option ApprovalResolution)
    (expiresAt : option Timestamp) (createdAt : Timestamp) : ApprovalRequest :=
  {| apID := id; apTaskID := taskID; apWorkflowRunID := workflowRunID; apReason := reason;
     apRequiredApprover := requiredApprover; apStatus := status; apResolution := resolution;
     apExpiresAt := expiresAt; apCreatedAt := createdAt |}.

Definition resolve (ar : ApprovalRequest) (resolvedBy : ActorID) (reason : string)
    (status : ApprovalStatus) (now : Timestamp) : result ApprovalRequest :=
  if decide (apStatus ar = StatusPending) then
    Ok {| apID := apID ar; apTaskID := apTaskID ar; apWorkflowRunID := apWorkflowRunID ar;
          apReason := apReason ar; apRequiredApprover := apRequiredApprover ar;
          apStatus := status;
          apResolution := Some {| resResolvedBy := resolvedBy; resResolvedAt := now;
                                  resReason := reason; resStatus := status |};
          apExpiresAt := apExpiresAt ar; apCreatedAt := apCreatedAt ar |}
  else Err (Wrapf "%w: current status is %q" [to_string (apStatus ar)] ErrNotPending).

Definition Approve (ar : ApprovalRequest) (resolvedBy : ActorID) (reason : string)
    (now : Timestamp) : result ApprovalRequest := resolve ar resolvedBy reason StatusApproved now.
Definition Deny (ar : ApprovalRequest) (resolvedBy : ActorID) (reason : string)
    (now : Timestamp) : result ApprovalRequest := resolve ar resolvedBy reason StatusDenied now.
Definition Expire (ar : ApprovalRequest) (now : Timestamp) : result ApprovalRequest :=
  resolve ar systemActor "expired" StatusExpired now.

(** * Lifecycle *)

Inductive ap_op :=
  | OpApprove (by_ : ActorID) (reason : string)
  | OpDeny (by_ : ActorID) (reason : string)
  | OpExpire.

Definition apply_op (ar : ApprovalRequest) (op : ap_op) (now : Timestamp)
    : result ApprovalRequest :=
  match op with
  | OpApprove b reason => Approve ar b reason now
  | OpDeny b reason => Deny ar b reason now
  | OpExpire => Expire ar now
  end.

Inductive reachable : ApprovalRequest → Prop :=
  | reachable_new id t w reason spec exp now ar :
      NewApprovalRequest id t w reason spec exp now = Ok ar → reachable ar
  | reachable_op ar op now ar' : reachable ar → apply_op ar op now = Ok ar' → reachable ar'.

(** The request is pending with no resolution, or resolved: its resolution carries
    its status, and the status is terminal. *)
Definition approval_inv (ar : ApprovalRequest) : Prop :=
  TrimSpace (apReason ar) ≠ "" ∧
  match apResolution ar with
  | None => apStatus ar = StatusPending
  | Some r => resStatus r = apStatus ar ∧ IsTerminal (apStatus ar) = true
  end.

(** The status and the resolver an operation stands for. *)
Definition op_outcome (op : ap_op) : ApprovalStatus * ActorID * string :=
  match op with
  | OpApprove b reason => (StatusApproved, b, reason)
  | OpDeny b reason => (StatusDenied, b, reason)
  | OpExpire => (StatusExpired, systemActor, "expired")
  end.

(** * Lemmas *)

Lemma apply_op_spec ar op now :
  apply_op ar op now =
  resolve ar (op_outcome op).1.2 (op_outcome op).2 (op_outcome op).1.1 now.
Proof. by destruct op. Qed.

Lemma resolve_Ok ar b reason st now ar' :
  resolve ar b reason st now = Ok ar' →
  apStatus ar = StatusPending ∧ apStatus ar' = st ∧
  apResolution ar' = Some {| resResolvedBy := b; resResolvedAt := now;
                             resReason := reason; resStatus := st |} ∧
  apID ar' = apID ar ∧ apTaskID ar' = apTaskID ar ∧ apWorkflowRunID ar' = apWorkflowRunID ar ∧
  apReason ar' = apReason ar ∧ apRequiredApprover ar' = apRequiredApprover ar ∧
  apExpiresAt ar' = apExpiresAt ar ∧ apCreatedAt ar' = apCreatedAt ar.
Proof. unfold resolve. case_decide; naive_solver. Qed.

Lemma resolve_not_pending ar b reason st now :
  apStatus ar ≠ StatusPending →
  ∃ e, resolve ar b reason st now = Err e ∧ errors_Is e ErrNotPending = true.
Proof. intros H. unfold resolve. rewrite decide_False by done. eauto with gov. Qed.

Lemma op_outcome_terminal op : IsTerminal (op_outcome op).1.1 = true.
Proof. by destruct op. Qed.

Lemma reachable_inv ar : reachable ar → approval_inv ar.
Proof.
  induction 1 as [???????? H|ar op now ar' _ IH H].
  - unfold NewApprovalRequest in H. by case_decide; simplify_eq/=.
  - rewrite apply_op_spec in H. apply resolve_Ok in H as (_ & Hs & Hr & _ & _ & _ & Hre & _).
    unfold approval_inv. rewrite Hre, Hr, Hs. split; [apply IH|].
    split; [done|apply op_outcome_terminal].
Qed.

(** * Theorems *)

(** C32: an approval request is resolved at most once, and its resolution is what the one
    successful call said.  On every request reachable from the constructor the
    resolution is present exactly in a terminal status and carries that status; on a
    pending request each of approve, deny and expire succeeds and records the resolver,
    reason and time; on a resolved request all three fail with [ErrNotPending]. *)
Theorem approval_single_resolution ar op now :
  reachable ar →
  approval_inv ar ∧
  match apResolution ar with
  | None => ∃ ar', apply_op ar op now = Ok ar' ∧ reachable ar' ∧
      apStatus ar' = (op_outcome op).1.1 ∧
      apResolution ar' = Some {| resResolvedBy := (op_outcome op).1.2; resResolvedAt := now;
                                 resReason := (op_outcome op).2;
                                 resStatus := (op_outcome op).1.1 |}
  | Some _ => ∃ e, apply_op ar op now = Err e ∧ errors_Is e ErrNotPending = true
  end.
Proof.
  intros R. pose proof (reachable_inv _ R) as Hinv. split; [done|]. destruct Hinv as [_ Hr].
  destruct (apResolution ar) as [r|] eqn:E.
  - destruct Hr as [_ Ht]. rewrite apply_op_spec. apply resolve_not_pending.
    intros P. by rewrite P in Ht.
  - destruct (apply_op ar op now) as [ar'|e] eqn:Ha.
    + exists ar'. split; [done|]. split; [by econstructor|].
      rewrite apply_op_spec in Ha. by apply resolve_Ok in Ha as (_ & ? & ? & _).
    + rewrite apply_op_spec in Ha. unfold resolve in Ha. by rewrite decide_True in Ha.
Qed.

Definition demo_request : ApprovalRequest :=
  {| apID := "a"; apTaskID := "t"; apWorkflowRunID := "w"; apReason := "critical";
     apRequiredApprover := {| asRole := "human"; asActorID := None |};
     apStatus := StatusPending; apResolution := None; apExpiresAt := None;
     apCreatedAt := {| ts_Time := 7 |} |}.

Lemma approval_single_resolution_witness :
  ∃ ar', apply_op demo_request (OpDeny "alice" "no") {| ts_Time := 9 |} = Ok ar' ∧
         reachable ar' ∧ apStatus ar' = StatusDenied ∧
         apResolution ar' = Some {| resResolvedBy := "alice"; resResolvedAt := {| ts_Time := 9 |};
                                    resReason := "no"; resStatus := StatusDenied |}.
Proof.
  apply (approval_single_resolution demo_request (OpDeny "alice" "no") {| ts_Time := 9 |}).
  eapply (reachable_new "a" "t" "w" "critical" {| asRole := "human"; asActorID := None |} None
            {| ts_Time := 7 |}). vm_compute. reflexivity.
Defined.
