(* ===== verification/Escalation.v ===== *)
(** internal/domain/escalation: the EscalationTrigger aggregate. *)

From stdpp Require Import options.
From S2P Require Import Prelude GoLib Shared.

Definition ErrNotPending : error :=
  Sentinel "escalation.ErrNotPending" "escalation trigger is not in pending status".
Definition ErrNotTriggered : error :=
  Sentinel "escalation.ErrNotTriggered" "escalation trigger is not in triggered status".

Inductive EscalationTarget :=
  | TargetHuman | TargetSeniorAgent | TargetAdmin
  | TargetOther (s : string).

#[export] Instance EscalationTarget_eq_dec : EqDecision EscalationTarget.
Proof. solve_decision. Defined.

#[export] Instance EscalationTarget_enum : GoEnum EscalationTarget := {|
  of_string s :=
    if decide (s = "human") then TargetHuman
    else if decide (s = "senior_agent") then TargetSeniorAgent
    else if decide (s = "admin") then TargetAdmin
    else TargetOther s;
  to_string t :=
    match t with
    | TargetHuman => "human" | TargetSeniorAgent => "senior_agent"
    | TargetAdmin => "admin" | TargetOther s => s
    end;
  known t := match t with TargetOther _ => false | _ => true end;
  to_of_string := ltac:(solve_enum); of_to_string := ltac:(solve_enum);
|}.

Definition NewEscalationTarget (s : string) : result EscalationTarget :=
  parse_enum "invalid escalation target: %q" s.

Inductive EscalationStatus :=
  | StatusPending | StatusTriggered | StatusResolved
  | StatusOther (s : string).

#[export] Instance EscalationStatus_eq_dec : EqDecision EscalationStatus.
Proof. solve_decision. Defined.

#[export] Instance EscalationStatus_enum : GoEnum EscalationStatus := {|
  of_string s :=
    if decide (s = "pending") then StatusPending
    else if decide (s = "triggered") then StatusTriggered
    else if decide (s = "resolved") then StatusResolved
    else StatusOther s;
  to_string t :=
    match t with
    | StatusPending => "pending" | StatusTriggered => "triggered"
    | StatusResolved => "resolved" | StatusOther s => s
    end;
  known t := match t with StatusOther _ => false | _ => true end;
  to_of_string := ltac:(solve_enum); of_to_string := ltac:(solve_enum);
|}.

Record EscalationCondition := { ecType : string; ecParameters : gmap string any }.

Record EscalationTrigger := {
  etID : EscalationTriggerID;
  etTaskID : TaskID;
  etCondition : EscalationCondition;
  etTarget : EscalationTarget;
  etStatus : EscalationStatus;
  etTriggeredAt : option Timestamp;
  etCreatedAt : Timestamp;
}.

Definition NewEscalationTrigger (id : EscalationTriggerID) (taskID : TaskID)
    (condition : EscalationCondition) (target : EscalationTarget) (now : Timestamp)
    : EscalationTrigger :=
  {| etID := id; etTaskID := taskID; etCondition := condition; etTarget := target;
     etStatus := StatusPending; etTriggeredAt := None; etCreatedAt := now |}.

Definition ReconstructEscalationTrigger (id : EscalationTriggerID) (taskID : TaskID)
    (condition : EscalationCondition) (target : EscalationTarget) (status : EscalationStatus)
    (triggeredAt : option Timestamp) (createdAt : Timestamp) : EscalationTrigger :=
  {| etID := id; etTaskID := taskID; etCondition := condition; etTarget := target;
     etStatus := status; etTriggeredAt := triggeredAt; etCreatedAt := createdAt |}.

Definition Trigger (et : EscalationTrigger) (now : Timestamp) : result EscalationTrigger :=
  if decide (etStatus et = StatusPending) then
    Ok {| etID := etID et; etTaskID := etTaskID et; etCondition := etCondition et;
          etTarget := etTarget et; etStatus := StatusTriggered; etTriggeredAt := Some now;
          etCreatedAt := etCreatedAt et |}
  else Err (Wrapf "%w: current status is %q" [to_string (etStatus et)] ErrNotPending).

Definition Resolve (et : EscalationTrigger) : result EscalationTrigger :=
  if decide (etStatus et = StatusTriggered) then
    Ok {| etID := etID et; etTaskID := etTaskID et; etCondition := etCondition et;
          etTarget := etTarget et; etStatus := StatusResolved;
          etTriggeredAt := etTriggeredAt et; etCreatedAt := etCreatedAt et |}
  else Err (Wrapf "%w: current status is %q" [to_string (etStatus et)] ErrNotTriggered).

(** * Lifecycle *)

(** The successful calls made on a trigger since its creation, in order: the
    argument of [Trigger], or [None] for [Resolve]. *)
Inductive esc_run : EscalationTrigger → list (option Timestamp) → EscalationTrigger → Prop :=
  | esc_start et : esc_run et [] et
  | esc_trigger et l et' now et'' :
      esc_run et l et' → Trigger et' now = Ok et'' → esc_run et (l ++ [Some now]) et''
  | esc_resolve et l et' et'' :
      esc_run et l et' → Resolve et' = Ok et'' → esc_run et (l ++ [None]) et''.

Lemma Trigger_Ok et now et' :
  Trigger et now = Ok et' →
  etStatus et = StatusPending ∧ etStatus et' = StatusTriggered ∧ etTriggeredAt et' = Some now ∧
  etTarget et' = etTarget et ∧ etTaskID et' = etTaskID et ∧ etID et' = etID et.
Proof. unfold Trigger. case_decide; naive_solver. Qed.

Lemma Resolve_Ok et et' :
  Resolve et = Ok et' →
  etStatus et = StatusTriggered ∧ etStatus et' = StatusResolved ∧
  etTriggeredAt et' = etTriggeredAt et ∧
  etTarget et' = etTarget et ∧ etTaskID et' = etTaskID et ∧ etID et' = etID et.
Proof. unfold Resolve. case_decide; naive_solver. Qed.

(** The life of an escalation is pending, triggered, resolved, in this order and with
    no other path: the successful calls on a new trigger are none, one [Trigger], or one
    [Trigger] followed by one [Resolve]; its status says which, and the trigger time
    is the argument of that [Trigger] from then on. *)
Theorem escalation_lifecycle id taskID condition target now calls et :
  esc_run (NewEscalationTrigger id taskID condition target now) calls et →
  etTarget et = target ∧ etTaskID et = taskID ∧ etID et = id ∧
  match calls with
  | [] => etStatus et = StatusPending ∧ etTriggeredAt et = None
  | [Some at_] => etStatus et = StatusTriggered ∧ etTriggeredAt et = Some at_
  | [Some at_; None] => etStatus et = StatusResolved ∧ etTriggeredAt et = Some at_
  | _ => False
  end.
Proof.
  remember (NewEscalationTrigger id taskID condition target now) as et0 eqn:E0.
  induction 1 as [et|et l et' at_ et'' _ IH H|et l et' et'' _ IH H]; subst.
  - done.
  - apply Trigger_Ok in H as (Hp & -> & -> & -> & -> & ->).
    destruct (IH eq_refl) as (-> & -> & -> & Hc). split_and!; [done..|].
    destruct l as [|[x|] [|[y|] [|]]]; simpl in *; destruct_and?; congruence || done.
  - apply Resolve_Ok in H as (Hp & -> & -> & -> & -> & ->).
    destruct (IH eq_refl) as (-> & -> & -> & Hc). split_and!; [done..|].
    destruct l as [|[x|] [|[y|] [|]]]; simpl in *; destruct_and?; congruence || done.
Qed.

Definition demo_trigger (st : EscalationStatus) (at_ : option Timestamp) : EscalationTrigger :=
  {| etID := "e"; etTaskID := "t"; etCondition := {| ecType := "manual"; ecParameters := ∅ |};
     etTarget := TargetHuman; etStatus := st; etTriggeredAt := at_;
     etCreatedAt := {| ts_Time := 3 |} |}.

Lemma escalation_lifecycle_witness :
  etTriggeredAt (demo_trigger StatusResolved (Some {| ts_Time := 4 |})) = Some {| ts_Time := 4 |}.
Proof.
  apply (escalation_lifecycle "e" "t" {| ecType := "manual"; ecParameters := ∅ |} TargetHuman
           {| ts_Time := 3 |} [Some {| ts_Time := 4 |}; None]).
  apply (esc_resolve _ [Some {| ts_Time := 4 |}] (demo_trigger StatusTriggered (Some {| ts_Time := 4 |})));
    [|reflexivity].
  apply (esc_trigger _ [] (demo_trigger StatusPending None)); [apply esc_start|reflexivity].
Defined.
