(* ===== verification/Policy.v ===== *)
(** internal/domain/policy: outcomes, the rule interface, the default rules, the
    evaluator, the sensitivity table and the PolicyDecision aggregate. *)

From stdpp Require Import options.
From S2P Require Import Prelude GoLib Shared Task.

(** * outcome.go *)

(** A Go [int] type. *)
Abbreviation PolicyOutcome := Z (only parsing).
Definition OutcomeAllow : PolicyOutcome := 0%Z.
Definition OutcomeAllowWithConstraints : PolicyOutcome := 1%Z.
Definition OutcomeRequireApproval : PolicyOutcome := 2%Z.
Definition OutcomeDeny : PolicyOutcome := 3%Z.

Definition outcomeNames : gmap Z string :=
  list_to_map [(OutcomeAllow, "allow"); (OutcomeAllowWithConstraints, "allow_with_constraints");
               (OutcomeRequireApproval, "require_approval"); (OutcomeDeny, "deny")].

(** The [String] method of an outcome. *)
Definition Outcome_String (o : PolicyOutcome) : string :=
  match outcomeNames !! o with Some name => name | None => "unknown" end.

Definition Restrictiveness (o : PolicyOutcome) : Z := o.

Record PolicyConstraint := { pcType : string; pcValue : string; pcReason : string }.
Record ApprovalRequirement := {
  aqApproverRole : string;
  aqReason : string;
  aqTimeoutSecs : option Z;
}.
Record RuleEvaluation := {
  reRuleID : string;
  rePassed : bool;
  reOutcome : option PolicyOutcome;
  reReason : string;
}.

#[export] Instance PolicyConstraint_eq_dec : EqDecision PolicyConstraint.
Proof. solve_decision. Defined.
#[export] Instance ApprovalRequirement_eq_dec : EqDecision ApprovalRequirement.
Proof. solve_decision. Defined.
#[export] Instance RuleEvaluation_eq_dec : EqDecision RuleEvaluation.
Proof. solve_decision. Defined.

(** * rule.go *)

Record PolicyContext := { pxTask : Task; pxAction : string }.

(** The interface: its two methods. *)
Record PolicyRule := { prID : string; prEvaluate : PolicyContext → RuleEvaluation }.

(** * rules.go *)

Definition riskCriticalRequiresApproval : PolicyRule := {|
  prID := "risk_critical_requires_approval";
  prEvaluate ctx :=
    if decide (tkRiskLevel (pxTask ctx) = RiskLevelCritical) then
      {| reRuleID := "risk_critical_requires_approval"; rePassed := false;
         reOutcome := Some OutcomeRequireApproval;
         reReason := "critical risk level requires approval" |}
    else {| reRuleID := "risk_critical_requires_approval"; rePassed := true; reOutcome := None;
            reReason := "risk level is not critical" |};
|}.

Definition deploymentRequiresApproval : PolicyRule := {|
  prID := "deployment_requires_approval";
  prEvaluate ctx :=
    if decide (tkType (pxTask ctx) = TypeDeployment) then
      {| reRuleID := "deployment_requires_approval"; rePassed := false;
         reOutcome := Some OutcomeRequireApproval;
         reReason := "deployment tasks require approval" |}
    else {| reRuleID := "deployment_requires_approval"; rePassed := true; reOutcome := None;
            reReason := "task is not a deployment" |};
|}.

Definition systemScopeRequiresApproval : PolicyRule := {|
  prID := "system_scope_requires_approval";
  prEvaluate ctx :=
    if decide (tkScope (pxTask ctx) = ScopeSystem) then
      {| reRuleID := "system_scope_requires_approval"; rePassed := false;
         reOutcome := Some OutcomeRequireApproval;
         reReason := "system scope requires approval" |}
    else {| reRuleID := "system_scope_requires_approval"; rePassed := true; reOutcome := None;
            reReason := "task scope is not system" |};
|}.

Definition destructiveActionDeny : PolicyRule := {|
  prID := "destructive_action_deny";
  prEvaluate ctx :=
    if decide (pxAction ctx = "data_deletion") then
      {| reRuleID := "destructive_action_deny"; rePassed := false;
         reOutcome := Some OutcomeDeny; reReason := "data deletion is denied" |}
    else {| reRuleID := "destructive_action_deny"; rePassed := true; reOutcome := None;
            reReason := "action is not destructive" |};
|}.

Definition fileScopeLowRiskAllow : PolicyRule := {|
  prID := "file_scope_low_risk_allow";
  prEvaluate ctx :=
    if decide (tkScope (pxTask ctx) = ScopeFile ∧ tkRiskLevel (pxTask ctx) = RiskLevelLow) then
      {| reRuleID := "file_scope_low_risk_allow"; rePassed := true;
         reOutcome := Some OutcomeAllow; reReason := "file scope with low risk is allowed" |}
    else {| reRuleID := "file_scope_low_risk_allow"; rePassed := true; reOutcome := None;
            reReason := "not file scope with low risk" |};
|}.

Definition il2NoApplyWithoutTasksDone : PolicyRule := {|
  prID := "il2_no_apply_without_tasks_done";
  prEvaluate ctx :=
    if decide (pxAction ctx ≠ "sdd_apply") then
      {| reRuleID := "il2_no_apply_without_tasks_done"; rePassed := true; reOutcome := None;
         reReason := "action is not sdd_apply; IL2 does not apply" |}
    else
      let tasksStatus := get_string (tkMetadata (pxTask ctx)) "tasks_phase_status" in
      if decide (tasksStatus = "done") then
        {| reRuleID := "il2_no_apply_without_tasks_done"; rePassed := true; reOutcome := None;
           reReason := "tasks phase is done; IL2 satisfied" |}
      else
        {| reRuleID := "il2_no_apply_without_tasks_done"; rePassed := false;
           reOutcome := Some OutcomeDeny;
           reReason := "tasks phase not DONE; IL2 blocks sdd_apply until tasks phase status is done" |};
|}.

Definition DefaultRules : list PolicyRule :=
  [riskCriticalRequiresApproval; deploymentRequiresApproval; systemScopeRequiresApproval;
   destructiveActionDeny; fileScopeLowRiskAllow; il2NoApplyWithoutTasksDone].

(** * evaluator.go *)

Record EvaluatorResult := {
  erOutcome : PolicyOutcome;
  erConstraints : list PolicyConstraint;
  erApprovalRequirement : option ApprovalRequirement;
  erRulesEvaluated : list RuleEvaluation;
  erReason : string;
}.

(** The variables of the loop of [EvaluatePolicy] and one iteration of it. *)
Definition policy_step (ctx : PolicyContext)
    (st : PolicyOutcome * list RuleEvaluation * string) (rule : PolicyRule)
    : PolicyOutcome * list RuleEvaluation * string :=
  let '(mostRestrictive, evals, reason) := st in
  let eval := prEvaluate rule ctx in
  match reOutcome eval with
  | Some o =>
      if (Restrictiveness mostRestrictive <? Restrictiveness o)%Z
      then (o, evals ++ [eval], reReason eval)
      else (mostRestrictive, evals ++ [eval], reason)
  | None => (mostRestrictive, evals ++ [eval], reason)
  end.

Definition EvaluatePolicy (rules : list PolicyRule) (ctx : PolicyContext) : EvaluatorResult :=
  let '(mostRestrictive, evals, reason) :=
    foldl (policy_step ctx) (OutcomeAllow, [], "") rules in
  let '(mostRestrictive, reason) :=
    if decide (mostRestrictive = OutcomeAllow) then
      (OutcomeAllowWithConstraints,
       "no rule explicitly allowed; defaulting to allow with timeout constraint")
    else (mostRestrictive, reason) in
  {| erOutcome := mostRestrictive;
     erConstraints :=
       if decide (mostRestrictive = OutcomeAllowWithConstraints) then
         [{| pcType := "timeout"; pcValue := "300s"; pcReason := "default timeout constraint" |}]
       else [];
     erApprovalRequirement :=
       if decide (mostRestrictive = OutcomeRequireApproval) then
         Some {| aqApproverRole := "human"; aqReason := reason; aqTimeoutSecs := None |}
       else None;
     erRulesEvaluated := evals;
     erReason := reason |}.

(** * policy_decision.go *)

Definition ErrEmptyAction : error :=
  Sentinel "policy.ErrEmptyAction" "evaluated action must not be empty".
Definition ErrMissingConstraints : error :=
  Sentinel "policy.ErrMissingConstraints"
    "allow_with_constraints outcome requires at least one constraint".
Definition ErrMissingApproval : error :=
  Sentinel "policy.ErrMissingApproval" "require_approval outcome requires an approval requirement".
Definition ErrEmptyReason : error := Sentinel "policy.ErrEmptyReason" "reason must not be empty".

Record PolicyDecision := {
  pdID : PolicyDecisionID;
  pdTaskID : TaskID;
  pdEvaluatedAction : string;
  pdOutcome : PolicyOutcome;
  pdConstraints : list PolicyConstraint;
  pdApprovalRequirement : option ApprovalRequirement;
  pdRulesEvaluated : list RuleEvaluation;
  pdReason : string;
  pdCreatedAt : Timestamp;
}.

#[export] Instance PolicyDecision_eq_dec : EqDecision PolicyDecision.
Proof. solve_decision. Defined.

(** The slices are copied in and out, so they are values. *)
Definition NewPolicyDecision (id : PolicyDecisionID) (taskID : TaskID) (evaluatedAction : string)
    (outcome : PolicyOutcome) (constraints : list PolicyConstraint)
    (approvalRequirement : option ApprovalRequirement) (rulesEvaluated : list RuleEvaluation)
    (reason : string) (createdAt : Timestamp) : result PolicyDecision :=
  if decide (evaluatedAction = "") then Err ErrEmptyAction
  else if decide (reason = "") then Err ErrEmptyReason
  else if decide (outcome = OutcomeAllowWithConstraints ∧ constraints = [])
  then Err ErrMissingConstraints
  else if decide (outcome = OutcomeRequireApproval ∧ approvalRequirement = None)
  then Err ErrMissingApproval
  else Ok {| pdID := id; pdTaskID := taskID; pdEvaluatedAction := evaluatedAction;
             pdOutcome := outcome; pdConstraints := constraints;
             pdApprovalRequirement := approvalRequirement; pdRulesEvaluated := rulesEvaluated;
             pdReason := reason; pdCreatedAt := createdAt |}.

Definition Reconstruct (id : PolicyDecisionID) (taskID : TaskID) (evaluatedAction : string)
    (outcome : PolicyOutcome) (constraints : list PolicyConstraint)
    (approvalRequirement : option ApprovalRequirement) (rulesEvaluated : list RuleEvaluation)
    (reason : string) (createdAt : Timestamp) : PolicyDecision :=
  {| pdID := id; pdTaskID := taskID; pdEvaluatedAction := evaluatedAction;
     pdOutcome := outcome; pdConstraints := constraints;
     pdApprovalRequirement := approvalRequirement; pdRulesEvaluated := rulesEvaluated;
     pdReason := reason; pdCreatedAt := createdAt |}.

(** * sensitivity.go *)

Definition sensitiveActions : gset string :=
  {["shell_execution"; "git_push"; "external_api_call"; "deployment"; "data_deletion"]}.

Definition IsActionSensitive (action : string) : bool := bool_decide (action ∈ sensitiveActions).

(** * Specification *)

(** The first evaluation whose outcome is the maximum of [0] and all outcomes, when
    that maximum is positive. *)
Definition restrictiveness_of (e : RuleEvaluation) : Z := default 0%Z (reOutcome e).

(** [e] decides the evaluations [evals]: no evaluation is more restrictive, and every
    one before it is less so. *)
Definition decides (e : RuleEvaluation) (evals : list RuleEvaluation) : Prop :=
  (0 < restrictiveness_of e)%Z ∧
  ∃ before after, evals = before ++ e :: after ∧
    Forall (λ x, restrictiveness_of x < restrictiveness_of e)%Z before ∧
    Forall (λ x, restrictiveness_of x ≤ restrictiveness_of e)%Z after.

(** * Lemmas *)

(** The loop invariant: after some rules, the accumulator holds their evaluations
    and the first most restrictive of them. *)
Lemma policy_loop ctx rules :
  let '(o, evals, reason) := foldl (policy_step ctx) (OutcomeAllow, [], "") rules in
  evals = (λ r, prEvaluate r ctx) <$> rules ∧
  ((o = OutcomeAllow ∧ reason = "" ∧ Forall (λ x, restrictiveness_of x ≤ 0)%Z evals) ∨
   (∃ e, decides e evals ∧ reOutcome e = Some o ∧ reReason e = reason)).
Proof.
  induction rules as [|r rules IH] using rev_ind; simpl; [naive_solver|].
  rewrite foldl_app. destruct (foldl _ _ rules) as [[o evals] reason].
  destruct IH as [-> IH]. simpl. set (e := prEvaluate r ctx).
  assert (Hsnoc : ∀ d, decides d ((λ r, prEvaluate r ctx) <$> rules) →
    (restrictiveness_of e ≤ restrictiveness_of d)%Z →
    decides d (((λ r, prEvaluate r ctx) <$> rules) ++ [e])).
  { intros d (Hd & b & a & -> & Hb & Ha) Hle. split; [done|]. exists b, (a ++ [e]).
    rewrite <- app_assoc. split_and!; [done..|]. apply Forall_app; auto. }
  assert (Hmax : ∀ d x, decides d ((λ r, prEvaluate r ctx) <$> rules) →
    x ∈ ((λ r, prEvaluate r ctx) <$> rules) → (restrictiveness_of x ≤ restrictiveness_of d)%Z).
  { intros d x (_ & b & a & -> & Hb & Ha) Hx. rewrite Forall_forall in Hb, Ha.
    apply elem_of_app in Hx as [Hx|Hx]; [apply Hb in Hx; lia|].
    apply elem_of_cons in Hx as [->|Hx]; [lia|auto]. }
  assert (Hnew : (∀ x, x ∈ ((λ r, prEvaluate r ctx) <$> rules) →
      (restrictiveness_of x < restrictiveness_of e)%Z) → (0 < restrictiveness_of e)%Z →
    decides e (((λ r, prEvaluate r ctx) <$> rules) ++ [e])).
  { intros Hlt Hp. split; [done|]. exists ((λ r, prEvaluate r ctx) <$> rules), [].
    split_and!; [done| |constructor]. by apply Forall_forall. }
  assert (Hall : Forall (λ x, restrictiveness_of x ≤ 0)%Z ((λ r, prEvaluate r ctx) <$> rules) →
     ∀ x, x ∈ ((λ r, prEvaluate r ctx) <$> rules) → (restrictiveness_of x ≤ 0)%Z).
  { intros H. by apply Forall_forall. }
  rewrite fmap_app. unfold policy_step. simpl. fold e. unfold Restrictiveness.
  destruct (reOutcome e) as [oe|] eqn:Ee; [destruct (o <? oe)%Z eqn:Hc; boolify|].
  all: assert (Her : restrictiveness_of e = default 0%Z (reOutcome e)) by done;
       rewrite Ee in Her; simpl in Her; split; [done|].
  - right. exists e. split; [|done].
    destruct IH as [(-> & _ & Hz)|(d & Hd & Hdo & _)].
    + apply Hnew; [|unfold OutcomeAllow in *; lia]. intros x Hx.
      pose proof (Hall Hz x Hx). unfold OutcomeAllow in *. lia.
    + assert (restrictiveness_of d = o) by (unfold restrictiveness_of; by rewrite Hdo).
      pose proof (proj1 Hd). apply Hnew; [|lia].
      intros x Hx. pose proof (Hmax d x Hd Hx). lia.
  - destruct IH as [(-> & -> & Hz)|(d & Hd & Hdo & Hdr)].
    + left. split_and!; [done..|]. apply Forall_app_2; [done|]. constructor; [|constructor].
      unfold OutcomeAllow in *. lia.
    + right. exists d. assert (restrictiveness_of d = o) by (unfold restrictiveness_of; by rewrite Hdo).
      split; [|done]. apply Hsnoc; [done|lia].
  - destruct IH as [(-> & -> & Hz)|(d & Hd & Hdo & Hdr)].
    + left. split_and!; [done..|]. apply Forall_app_2; [done|]. constructor; [lia|constructor].
    + right. exists d. split; [|done]. apply Hsnoc; [done|]. pose proof (proj1 Hd). lia.
Qed.

Lemma decides_pos e evals o : decides e evals → reOutcome e = Some o → (0 < o)%Z.
Proof. intros [H _] E. unfold restrictiveness_of in H. by rewrite E in H. Qed.

(** The default rules evaluated on a context, as a decision table. *)
Definition must_deny (ctx : PolicyContext) : bool :=
  bool_decide (pxAction ctx = "data_deletion") ||
  bool_decide (pxAction ctx = "sdd_apply") &&
  negb (bool_decide (get_string (tkMetadata (pxTask ctx)) "tasks_phase_status" = "done")).
Definition must_approve (ctx : PolicyContext) : bool :=
  bool_decide (tkRiskLevel (pxTask ctx) = RiskLevelCritical) ||
  bool_decide (tkType (pxTask ctx) = TypeDeployment) ||
  bool_decide (tkScope (pxTask ctx) = ScopeSystem).

(** A rule that always gives the evaluation [e]. *)
Definition const_rule (e : RuleEvaluation) : PolicyRule := {| prID := reRuleID e; prEvaluate _ := e |}.

(** The result depends on the rules through their evaluations only. *)
Lemma EvaluatePolicy_evaluations rules ctx ctx' :
  EvaluatePolicy rules ctx = EvaluatePolicy ((λ r, const_rule (prEvaluate r ctx)) <$> rules) ctx'.
Proof.
  unfold EvaluatePolicy. generalize (OutcomeAllow, @nil RuleEvaluation, "").
  induction rules as [|r rules IH]; intros st; [done|]. apply (IH (policy_step ctx st r)).
Qed.

Lemma DefaultRules_result ctx :
  erOutcome (EvaluatePolicy DefaultRules ctx) =
    (if must_deny ctx then OutcomeDeny
     else if must_approve ctx then OutcomeRequireApproval
     else OutcomeAllowWithConstraints) ∧
  TrimSpace (erReason (EvaluatePolicy DefaultRules ctx)) ≠ "".
Proof.
  rewrite (EvaluatePolicy_evaluations _ ctx {| pxTask := pxTask ctx; pxAction := "" |}).
  unfold must_deny, must_approve. rewrite !bool_decide_decide. cbn [fmap list_fmap DefaultRules].
  unfold riskCriticalRequiresApproval, deploymentRequiresApproval, systemScopeRequiresApproval,
    destructiveActionDeny, fileScopeLowRiskAllow, il2NoApplyWithoutTasksDone, prEvaluate.
  generalize {| pxTask := pxTask ctx; pxAction := "" |} as ctx'.
  destruct (decide (pxAction ctx = "data_deletion")) as [E1|E1],
    (decide (pxAction ctx = "sdd_apply")) as [E2|E2]; [congruence|..];
  destruct (decide (pxAction ctx ≠ "sdd_apply")); try congruence;
  destruct (decide (tkRiskLevel _ = _)), (decide (tkType _ = _)), (decide (tkScope _ = ScopeSystem)),
    (decide (_ ∧ _)); try (destruct (decide (get_string _ _ = _))); by vm_compute.
Qed.

Lemma EvaluatePolicy_shape rules ctx :
  let r := EvaluatePolicy rules ctx in
  (erOutcome r = OutcomeAllowWithConstraints → erConstraints r ≠ []) ∧
  (erOutcome r = OutcomeRequireApproval → erApprovalRequirement r ≠ None).
Proof.
  unfold EvaluatePolicy. destruct (foldl _ _ rules) as [[o evals] reason].
  destruct (decide (o = OutcomeAllow)); simpl; repeat case_decide; naive_solver.
Qed.

(** * Theorems *)

(** C23: [EvaluatePolicy] is the specification "the most restrictive outcome wins", for every
    list of rules: all rules are evaluated, in order; when some outcome is positive,
    the result has the outcome and the reason of the first most restrictive rule;
    otherwise it is allow_with_constraints with the default reason. *)
Theorem EvaluatePolicy_most_restrictive rules ctx :
  let r := EvaluatePolicy rules ctx in
  erRulesEvaluated r = (λ rule, prEvaluate rule ctx) <$> rules ∧
  ((∃ e, decides e (erRulesEvaluated r) ∧ reOutcome e = Some (erOutcome r) ∧
         reReason e = erReason r) ∨
   (Forall (λ e, restrictiveness_of e ≤ 0)%Z (erRulesEvaluated r) ∧
    erOutcome r = OutcomeAllowWithConstraints ∧
    erReason r = "no rule explicitly allowed; defaulting to allow with timeout constraint")).
Proof.
  unfold EvaluatePolicy. pose proof (policy_loop ctx rules) as H.
  destruct (foldl _ _ rules) as [[o evals] reason]. destruct H as [Hev H].
  case_decide as D; simpl; (split; [done|]).
  - right. destruct H as [(_ & _ & H)|(e & He & Ho & _)]; [done|].
    pose proof (decides_pos _ _ _ He Ho). unfold OutcomeAllow in *. lia.
  - left. destruct H as [(? & _)|H]; [done|]. exact H.
Qed.

(** C24: the default policy, as a decision table over task and action: deny exactly for
    data_deletion and for sdd_apply without the tasks phase done (a missing or non
    string status counts as not done); otherwise require approval exactly for critical risk,
    deployments and system scope; otherwise allow with constraints. *)
Theorem default_policy_table ctx :
  erOutcome (EvaluatePolicy DefaultRules ctx) =
    (if must_deny ctx then OutcomeDeny
     else if must_approve ctx then OutcomeRequireApproval
     else OutcomeAllowWithConstraints).
Proof. apply DefaultRules_result. Qed.

(** The result of the default policy always makes a valid PolicyDecision: for a non
    empty action the aggregate constructor accepts it, and the decision carries the
    outcome, at least one constraint when constrained and an approver when approval is
    required. *)
Theorem default_policy_decision_valid id taskID ctx now :
  pxAction ctx ≠ "" →
  let r := EvaluatePolicy DefaultRules ctx in
  ∃ d, NewPolicyDecision id taskID (pxAction ctx) (erOutcome r) (erConstraints r)
         (erApprovalRequirement r) (erRulesEvaluated r) (erReason r) now = Ok d ∧
       pdOutcome d = erOutcome r ∧ pdTaskID d = taskID ∧
       (pdOutcome d = OutcomeAllowWithConstraints → pdConstraints d ≠ []) ∧
       (pdOutcome d = OutcomeRequireApproval → is_Some (pdApprovalRequirement d)).
Proof.
  intros Ha r. pose proof (EvaluatePolicy_shape DefaultRules ctx) as [Hc Hq].
  pose proof (DefaultRules_result ctx) as [_ Hr%TrimSpace_nonempty]. fold r in Hc, Hq, Hr.
  unfold NewPolicyDecision. rewrite !decide_False by naive_solver.
  eexists. split; [reflexivity|]. simpl. split_and!; [done..|].
  intros E. by apply not_eq_None_Some, Hq.
Qed.

Definition demo_task : Task :=
  {| tkID := "t"; tkParentTaskID := None; tkType := TypeDevelopment; tkTitle := "x";
     tkScope := ScopeFile; tkPriority := PriorityNormal; tkRiskLevel := RiskLevelCritical;
     tkStatus := StatusCreated; tkMetadata := ∅; tkCreatedAt := {| ts_Time := 1 |};
     tkUpdatedAt := {| ts_Time := 1 |} |}.

Lemma default_policy_decision_valid_witness :
  let ctx := {| pxTask := demo_task; pxAction := "code_edit" |} in
  let r := EvaluatePolicy DefaultRules ctx in
  erOutcome r = OutcomeRequireApproval ∧
  ∃ d, NewPolicyDecision "d" "t" "code_edit" (erOutcome r) (erConstraints r)
         (erApprovalRequirement r) (erRulesEvaluated r) (erReason r) {| ts_Time := 2 |} = Ok d ∧
       pdOutcome d = erOutcome r ∧ pdTaskID d = "t" ∧
       (pdOutcome d = OutcomeAllowWithConstraints → pdConstraints d ≠ []) ∧
       (pdOutcome d = OutcomeRequireApproval → is_Some (pdApprovalRequirement d)).
Proof.
  intros ctx r. split; [reflexivity|].
  apply (default_policy_decision_valid "d" "t" ctx {| ts_Time := 2 |}). discriminate.
Defined.
