(* ===== verification/Routing.v ===== *)
(** internal/domain/routing: strategies, scoring rules, adaptive adjustment, the three
    phase evaluator and the RoutingDecision aggregate. *)

From stdpp Require Import options.
From S2P Require Import Prelude GoLib Shared Task.

(** * strategy.go *)

Inductive RoutingStrategy :=
  | StrategyDirect | StrategyDecompose | StrategyCollaborate | StrategyEscalate
  | StrategyOther (s : string).

#[export] Instance RoutingStrategy_eq_dec : EqDecision RoutingStrategy.
Proof. solve_decision. Defined.

#[export] Instance RoutingStrategy_enum : GoEnum RoutingStrategy := {|
  of_string s :=
    if decide (s = "direct") then StrategyDirect
    else if decide (s = "decompose") then StrategyDecompose
    else if decide (s = "collaborate") then StrategyCollaborate
    else if decide (s = "escalate") then StrategyEscalate
    else StrategyOther s;
  to_string t :=
    match t with
    | StrategyDirect => "direct" | StrategyDecompose => "decompose"
    | StrategyCollaborate => "collaborate" | StrategyEscalate => "escalate"
    | StrategyOther s => s
    end;
  known t := match t with StrategyOther _ => false | _ => true end;
  to_of_string := ltac:(solve_enum); of_to_string := ltac:(solve_enum);
|}.

(** Keys of Go maps. *)
Definition strategy_code (s : RoutingStrategy) : unit + (unit + (unit + (unit + string))) :=
  match s with
  | StrategyDirect => inl () | StrategyDecompose => inr (inl ())
  | StrategyCollaborate => inr (inr (inl ())) | StrategyEscalate => inr (inr (inr (inl ())))
  | StrategyOther s => inr (inr (inr (inr s)))
  end.
Definition strategy_decode (c : unit + (unit + (unit + (unit + string)))) : RoutingStrategy :=
  match c with
  | inl _ => StrategyDirect | inr (inl _) => StrategyDecompose
  | inr (inr (inl _)) => StrategyCollaborate | inr (inr (inr (inl _))) => StrategyEscalate
  | inr (inr (inr (inr s))) => StrategyOther s
  end.
#[export] Instance RoutingStrategy_countable : Countable RoutingStrategy.
Proof. apply (inj_countable' strategy_code strategy_decode). by intros []. Defined.

Definition NewRoutingStrategy (s : string) : result RoutingStrategy :=
  parse_enum "invalid routing strategy: %q" s.

Inductive AgentRole :=
  | RoleImplementer | RoleReviewer | RoleResearcher | RoleArchitect | RoleHuman
  | RoleOther (s : string).

#[export] Instance AgentRole_eq_dec : EqDecision AgentRole.
Proof. solve_decision. Defined.

#[export] Instance AgentRole_enum : GoEnum AgentRole := {|
  of_string s :=
    if decide (s = "implementer") then RoleImplementer
    else if decide (s = "reviewer") then RoleReviewer
    else if decide (s = "researcher") then RoleResearcher
    else if decide (s = "architect") then RoleArchitect
    else if decide (s = "human") then RoleHuman
    else RoleOther s;
  to_string t :=
    match t with
    | RoleImplementer => "implementer" | RoleReviewer => "reviewer"
    | RoleResearcher => "researcher" | RoleArchitect => "architect"
    | RoleHuman => "human" | RoleOther s => s
    end;
  known t := match t with RoleOther _ => false | _ => true end;
  to_of_string := ltac:(solve_enum); of_to_string := ltac:(solve_enum);
|}.

Definition NewAgentRole (s : string) : result AgentRole := parse_enum "invalid agent role: %q" s.

Record AdaptiveAdjustment := {
  aaRawAdjustment : float64;
  aaConfidence : float64;
  aaFinalAdjustment : float64;
  aaFailureRate : float64;
  aaSampleSize : Z;
  aaGranularity : string;
  aaWindow : string;
}.

#[export] Instance AdaptiveAdjustment_eq_dec : EqDecision AdaptiveAdjustment.
Proof. solve_decision. Defined.

Record StrategyEvaluation := {
  seStrategy : RoutingStrategy;
  seScore : float64;
  seAdjustedScore : float64;
  seFactorScores : gmap string float64;
  seOverridden : bool;
  seReason : string;
  seAdaptiveAdjustment : option AdaptiveAdjustment;
}.

Record RoutingConstraint := { rcType : string; rcValue : string }.

(** * failure_stats.go *)

Record StatsKey := { skStrategy : RoutingStrategy; skRole : string; skCategory : string }.

#[export] Instance StatsKey_eq_dec : EqDecision StatsKey.
Proof. solve_decision. Defined.
#[export] Instance StatsKey_countable : Countable StatsKey.
Proof.
  apply (inj_countable' (λ k, (skStrategy k, skRole k, skCategory k))
           (λ '(s, r, c), {| skStrategy := s; skRole := r; skCategory := c |})).
  by intros [].
Defined.

Record FailureRate := { frTotal : Z; frFailures : Z; frRate : float64 }.

(** A nil map is [None]. *)
Record FailureStats := {
  fsByStrategyRoleCategory : option (gmap StatsKey FailureRate);
  fsByStrategyCategory : option (gmap StatsKey FailureRate);
  fsByStrategy : option (gmap RoutingStrategy FailureRate);
  fsComputedAt : Time;
  fsWindow : Duration;
}.

(** * rules.go *)

Record MemoryContext := { mcSimilarTaskFailureRate : float64; mcHasRelevantHeuristics : bool }.

Definition WeightRiskLevel : float64 := dec 30 2.
Definition WeightTaskScope : float64 := dec 25 2.
Definition WeightTaskType : float64 := dec 20 2.
Definition WeightTaskPriority : float64 := dec 10 2.
Definition WeightMemorySimilar : float64 := dec 10 2.
Definition WeightMemoryHeuristics : float64 := dec 5 2.

(** The scores are decimal literals with one digit: [d n] is the literal [n/10].  The
    tables of literals are kept in tenths. *)
Definition d (n : Z) : float64 := dec n 1.

Definition riskTenths (risk : RiskLevel) (strategy : RoutingStrategy) : Z :=
  match strategy, risk with
  | StrategyDirect, RiskLevelLow => 9
  | StrategyDirect, RiskLevelMedium => 6
  | StrategyDirect, RiskLevelHigh => 3
  | StrategyDirect, RiskLevelCritical => 1
  | StrategyDecompose, RiskLevelLow => 4
  | StrategyDecompose, RiskLevelMedium => 7
  | StrategyDecompose, RiskLevelHigh => 8
  | StrategyDecompose, RiskLevelCritical => 5
  | StrategyEscalate, RiskLevelLow => 1
  | StrategyEscalate, RiskLevelMedium => 4
  | StrategyEscalate, RiskLevelHigh => 7
  | StrategyEscalate, RiskLevelCritical => 10
  | _, _ => 5
  end%Z.

Definition scoreRiskLevel (risk : RiskLevel) (strategy : RoutingStrategy) : float64 :=
  d (riskTenths risk strategy).

Definition scopeTenths (scope : TaskScope) (strategy : RoutingStrategy) : Z :=
  match strategy, scope with
  | StrategyDirect, ScopeFile => 9
  | StrategyDirect, ScopeModule => 7
  | StrategyDirect, ScopeRepo => 4
  | StrategyDirect, ScopeSystem => 2
  | StrategyDecompose, ScopeFile => 3
  | StrategyDecompose, ScopeModule => 6
  | StrategyDecompose, ScopeRepo => 8
  | StrategyDecompose, ScopeSystem => 7
  | StrategyEscalate, ScopeFile => 1
  | StrategyEscalate, ScopeModule => 3
  | StrategyEscalate, ScopeRepo => 5
  | StrategyEscalate, ScopeSystem => 8
  | _, _ => 5
  end%Z.

Definition scoreTaskScope (scope : TaskScope) (strategy : RoutingStrategy) : float64 :=
  d (scopeTenths scope strategy).

Definition typeTenths (tt : TaskType) (strategy : RoutingStrategy) : Z :=
  match strategy, tt with
  | StrategyDirect, TypeBugfix => 8
  | StrategyDirect, TypeDevelopment => 7
  | StrategyDirect, TypeReview => 6
  | StrategyDirect, TypeResearch => 5
  | StrategyDirect, TypeRefactor => 4
  | StrategyDirect, TypeDeployment => 2
  | StrategyDecompose, TypeBugfix => 3
  | StrategyDecompose, TypeDevelopment => 6
  | StrategyDecompose, TypeReview => 4
  | StrategyDecompose, TypeResearch => 7
  | StrategyDecompose, TypeRefactor => 8
  | StrategyDecompose, TypeDeployment => 5
  | StrategyEscalate, TypeBugfix => 2
  | StrategyEscalate, TypeDevelopment => 3
  | StrategyEscalate, TypeReview => 4
  | StrategyEscalate, TypeResearch => 3
  | StrategyEscalate, TypeRefactor => 4
  | StrategyEscalate, TypeDeployment => 9
  | _, _ => 5
  end%Z.

Definition scoreTaskType (tt : TaskType) (strategy : RoutingStrategy) : float64 :=
  d (typeTenths tt strategy).

Definition priorityTenths (p : Priority) (strategy : RoutingStrategy) : Z :=
  match strategy, p with
  | StrategyDirect, PriorityLow => 7
  | StrategyDirect, PriorityNormal => 7
  | StrategyDirect, PriorityHigh => 5
  | StrategyDirect, PriorityUrgent => 4
  | StrategyDecompose, PriorityLow => 5
  | StrategyDecompose, PriorityNormal => 5
  | StrategyDecompose, PriorityHigh => 6
  | StrategyDecompose, PriorityUrgent => 5
  | StrategyEscalate, PriorityLow => 2
  | StrategyEscalate, PriorityNormal => 3
  | StrategyEscalate, PriorityHigh => 6
  | StrategyEscalate, PriorityUrgent => 8
  | _, _ => 5
  end%Z.

Definition scoreTaskPriority (p : Priority) (strategy : RoutingStrategy) : float64 :=
  d (priorityTenths p strategy).

Definition scoreMemorySimilarTasks (ctx : option MemoryContext) (strategy : RoutingStrategy)
    : float64 :=
  match ctx with
  | None => d 5
  | Some ctx =>
      match strategy with
      | StrategyDirect => fsub (d 10) (mcSimilarTaskFailureRate ctx)
      | StrategyDecompose => fadd (d 5) (fmul (mcSimilarTaskFailureRate ctx) (d 3))
      | StrategyEscalate => mcSimilarTaskFailureRate ctx
      | _ => d 5
      end
  end.

Definition scoreMemoryHeuristics (ctx : option MemoryContext) (strategy : RoutingStrategy)
    : float64 :=
  match ctx with
  | None => d 5
  | Some ctx =>
      if mcHasRelevantHeuristics ctx then
        match strategy with
        | StrategyDirect => d 8
        | StrategyDecompose => d 6
        | StrategyEscalate => d 3
        | _ => d 5
        end
      else d 5
  end.

(** * adaptive.go *)

Definition MaxPenalty : float64 := dec 15 2.
Definition MaxBonus : float64 := dec 5 2.
Definition BaselineFailureRate : float64 := dec 20 2.
Definition MinSamples : Z := 5%Z.
Definition FullConfidenceAt : Z := 30%Z.

Definition evaluatedStrategies : list RoutingStrategy :=
  [StrategyDirect; StrategyDecompose; StrategyEscalate].

Definition defaultRoles : gmap RoutingStrategy AgentRole :=
  list_to_map [(StrategyDirect, RoleImplementer); (StrategyDecompose, RoleArchitect);
               (StrategyEscalate, RoleHuman)].

(** [defaultRoleMapping[s]]: the zero value, the empty string, when [s] is no key. *)
Definition defaultRoleMapping (s : RoutingStrategy) : AgentRole :=
  default (RoleOther "") (defaultRoles !! s).

(** The loops over the maps add [int]s, so their unspecified order does not show. *)
Definition sum_rates (p : StatsKey → bool) (m : gmap StatsKey FailureRate) : FailureRate :=
  let '(total, failures) :=
    map_fold (λ k v '(t, f),
      if p k then (wrap64 (t + frTotal v), wrap64 (f + frFailures v))%Z else (t, f))
      (0%Z, 0%Z) m in
  {| frTotal := total; frFailures := failures;
     frRate := if (0 <? total)%Z then fdiv (float_of_int failures) (float_of_int total)
               else S754_zero false |}.

Definition aggregateByStrategyAndRole (m : gmap StatsKey FailureRate)
    (strategy : RoutingStrategy) (role : string) : FailureRate :=
  sum_rates (λ k, bool_decide (skStrategy k = strategy) && bool_decide (skRole k = role)) m.

Definition aggregateByStrategyFromMap (m : gmap StatsKey FailureRate)
    (strategy : RoutingStrategy) : FailureRate :=
  sum_rates (λ k, bool_decide (skStrategy k = strategy)) m.

Definition clampValue (value min max : float64) : float64 :=
  if flt value min then min else if flt max value then max else value.

(** Go evaluates the constant [1.0 - BaselineFailureRate] exactly, so it is 0.8. *)
Definition computeRawAdjustment (failureRate : float64) : float64 :=
  let deviation := fsub BaselineFailureRate failureRate in
  let raw :=
    if fle (S754_zero false) deviation
    then fmul (fdiv deviation BaselineFailureRate) MaxBonus
    else fmul (fdiv deviation (d 8)) MaxPenalty in
  clampValue raw (SFopp MaxPenalty) MaxBonus.

Definition computeConfidence (samples : Z) : float64 :=
  if (samples <=? MinSamples)%Z then S754_zero false
  else if (FullConfidenceAt <=? samples)%Z then d 10
  else fdiv (float_of_int (samples - MinSamples)) (float_of_int (FullConfidenceAt - MinSamples)).

Definition buildAdjustment (fr : FailureRate) (granularity : string) (window : Duration)
    : AdaptiveAdjustment :=
  let raw := computeRawAdjustment (frRate fr) in
  let conf := computeConfidence (frTotal fr) in
  {| aaRawAdjustment := raw; aaConfidence := conf; aaFinalAdjustment := fmul raw conf;
     aaFailureRate := frRate fr; aaSampleSize := frTotal fr; aaGranularity := granularity;
     aaWindow := Duration_String window |}.

Definition computeAdjustment (strategy : RoutingStrategy) (stats : option FailureStats)
    : option AdaptiveAdjustment :=
  match stats with
  | None => None
  | Some stats =>
      let role := to_string (defaultRoleMapping strategy) in
      let level3 :=
        m ← fsByStrategy stats; fr ← m !! strategy;
        if (MinSamples <=? frTotal fr)%Z
        then Some (buildAdjustment fr "strategy" (fsWindow stats)) else None in
      let level2 :=
        match fsByStrategyCategory stats with
        | Some m =>
            let agg := aggregateByStrategyFromMap m strategy in
            if (MinSamples <=? frTotal agg)%Z
            then Some (buildAdjustment agg "strategy_category" (fsWindow stats)) else level3
        | None => level3
        end in
      match fsByStrategyRoleCategory stats with
      | Some m =>
          let agg := aggregateByStrategyAndRole m strategy role in
          if (MinSamples <=? frTotal agg)%Z
          then Some (buildAdjustment agg "strategy_role_category" (fsWindow stats)) else level2
      | None => level2
      end
  end.

Definition set_adjusted (e : StrategyEvaluation) (score : float64)
    (adj : option AdaptiveAdjustment) : StrategyEvaluation :=
  {| seStrategy := seStrategy e; seScore := seScore e; seAdjustedScore := score;
     seFactorScores := seFactorScores e; seOverridden := seOverridden e; seReason := seReason e;
     seAdaptiveAdjustment := adj |}.

(** The body of the loop. *)
Definition applyAdaptiveAdjustment (stats : option FailureStats) (eval : StrategyEvaluation)
    : StrategyEvaluation :=
  match stats with
  | None => set_adjusted eval (seScore eval) (seAdaptiveAdjustment eval)
  | Some _ =>
      match computeAdjustment (seStrategy eval) stats with
      | None => set_adjusted eval (seScore eval) (seAdaptiveAdjustment eval)
      | Some adj =>
          let adjusted := fadd (seScore eval) (aaFinalAdjustment adj) in
          set_adjusted eval
            (clampValue adjusted (fsub (seScore eval) MaxPenalty) (fadd (seScore eval) MaxBonus))
            (Some adj)
      end
  end.

Definition applyAdaptiveAdjustments (evals : list StrategyEvaluation)
    (stats : option FailureStats) : list StrategyEvaluation :=
  applyAdaptiveAdjustment stats <$> evals.

Definition ExtractCategory (code : string) : string :=
  match Index "/"%char code with Some idx => str_take idx code | None => code end.

(** * evaluator.go *)

Record EvaluatorInput := {
  eiTask : Task;
  eiMemoryContext : option MemoryContext;
  eiFailureStats : option FailureStats;
}.

Record EvaluatorResult := {
  erEvaluations : list StrategyEvaluation;
  erSelectedStrategy : RoutingStrategy;
  erSelectedRole : AgentRole;
  erReason : string;
}.

Definition overrideResult (strategy : RoutingStrategy) (reason : string) : EvaluatorResult :=
  {| erEvaluations := [{| seStrategy := strategy; seScore := d 10; seAdjustedScore := d 10;
                          seFactorScores := ∅; seOverridden := true; seReason := reason;
                          seAdaptiveAdjustment := None |}];
     erSelectedStrategy := strategy; erSelectedRole := defaultRoleMapping strategy;
     erReason := reason |}.

Definition checkOverrides (t : Task) : option EvaluatorResult :=
  if decide (tkRiskLevel t = RiskLevelCritical) then
    Some (overrideResult StrategyEscalate "[override] risk_level is critical")
  else if decide (tkScope t = ScopeSystem ∧ tkType t = TypeDeployment) then
    Some (overrideResult StrategyEscalate "[override] system-scope deployment")
  else
    match tkMetadata t !! "force_strategy" with
    | Some (AString forceStr) =>
        match NewRoutingStrategy forceStr with
        | Ok strategy =>
            Some (overrideResult strategy ("[override] force_strategy=" +:+ to_string strategy))
        | Err _ => None
        end
    | _ => None
    end.

Definition factor_scores (t : Task) (memCtx : option MemoryContext) (strategy : RoutingStrategy)
    : gmap string float64 :=
  list_to_map
    [("risk_level", scoreRiskLevel (tkRiskLevel t) strategy);
     ("task_scope", scoreTaskScope (tkScope t) strategy);
     ("task_type", scoreTaskType (tkType t) strategy);
     ("task_priority", scoreTaskPriority (tkPriority t) strategy);
     ("memory_similar_tasks", scoreMemorySimilarTasks memCtx strategy);
     ("memory_heuristics", scoreMemoryHeuristics memCtx strategy)].

(** The weighted sum, associated to the left as Go does. *)
Definition weighted (risk scope type_ prio similar heur : float64) : float64 :=
  fadd (fadd (fadd (fadd (fadd (fmul risk WeightRiskLevel) (fmul scope WeightTaskScope))
    (fmul type_ WeightTaskType)) (fmul prio WeightTaskPriority))
    (fmul similar WeightMemorySimilar)) (fmul heur WeightMemoryHeuristics).

Definition scoreStrategy (t : Task) (memCtx : option MemoryContext) (strategy : RoutingStrategy)
    : StrategyEvaluation :=
  let score :=
    weighted (scoreRiskLevel (tkRiskLevel t) strategy) (scoreTaskScope (tkScope t) strategy)
      (scoreTaskType (tkType t) strategy) (scoreTaskPriority (tkPriority t) strategy)
      (scoreMemorySimilarTasks memCtx strategy) (scoreMemoryHeuristics memCtx strategy) in
  {| seStrategy := strategy; seScore := score; seAdjustedScore := score;
     seFactorScores := factor_scores t memCtx strategy; seOverridden := false;
     seReason := to_string strategy +:+ " scored " +:+ fmt_fixed 4 score;
     seAdaptiveAdjustment := None |}.

Definition scoreStrategies (t : Task) (memCtx : option MemoryContext) : list StrategyEvaluation :=
  scoreStrategy t memCtx <$> evaluatedStrategies.

(** [simplicity[s]] *)
Definition simplicity (s : RoutingStrategy) : Z :=
  match s with
  | StrategyDirect => 0 | StrategyDecompose => 1 | StrategyEscalate => 2 | _ => 0
  end.

(** One iteration of the loop of [tiebreak]. *)
Definition better (best e : StrategyEvaluation) : StrategyEvaluation :=
  if flt (seAdjustedScore best) (seAdjustedScore e) then e
  else if feq (seAdjustedScore e) (seAdjustedScore best)
          && (simplicity (seStrategy e) <? simplicity (seStrategy best))%Z then e
  else best.

(** [None] is the panic of [evals[0]] on an empty slice. *)
Definition tiebreak (evals : list StrategyEvaluation) : option StrategyEvaluation :=
  match evals with [] => None | e :: es => Some (foldl better e es) end.

Definition score_reason (selected : StrategyEvaluation) : string :=
  match seAdaptiveAdjustment selected with
  | None =>
      "score-based: " +:+ to_string (seStrategy selected) +:+ " scored "
      +:+ fmt_fixed 4 (seScore selected)
  | Some adj =>
      "[adaptive] score-based: " +:+ to_string (seStrategy selected) +:+ " scored "
      +:+ fmt_fixed 4 (seScore selected) +:+ " → adjusted to "
      +:+ fmt_fixed 4 (seAdjustedScore selected) +:+ " (failure_rate="
      +:+ fmt_fixed 2 (aaFailureRate adj) +:+ ", confidence="
      +:+ fmt_fixed 2 (aaConfidence adj) +:+ ")"
  end.

Definition Evaluate (input : EvaluatorInput) : option EvaluatorResult :=
  match checkOverrides (eiTask input) with
  | Some result => Some result
  | None =>
      let evals := scoreStrategies (eiTask input) (eiMemoryContext input) in
      let evals := applyAdaptiveAdjustments evals (eiFailureStats input) in
      selected ← tiebreak evals;
      Some {| erEvaluations := evals; erSelectedStrategy := seStrategy selected;
              erSelectedRole := defaultRoleMapping (seStrategy selected);
              erReason := score_reason selected |}
  end.

(** * routing_decision.go *)

Definition ErrMissingTaskID : error :=
  Sentinel "routing.ErrMissingTaskID" "routing decision must reference a task".
Definition ErrNoEvaluations : error :=
  Sentinel "routing.ErrNoEvaluations" "routing decision must have at least one evaluated strategy".
Definition ErrEmptyReason : error :=
  Sentinel "routing.ErrEmptyReason" "routing decision must have a reason".

Record RoutingDecision := {
  rdID : RoutingDecisionID;
  rdTaskID : TaskID;
  rdEvaluatedStrategies : list StrategyEvaluation;
  rdSelectedStrategy : RoutingStrategy;
  rdSelectedAgentRole : AgentRole;
  rdReason : string;
  rdConstraints : list RoutingConstraint;
  rdCreatedAt : Timestamp;
}.

(** Slices and factor maps are copied, so they are values. *)
Definition NewRoutingDecision (id : RoutingDecisionID) (taskID : TaskID)
    (evaluated : list StrategyEvaluation) (selectedStrategy : RoutingStrategy)
    (selectedAgentRole : AgentRole) (reason : string) (constraints : list RoutingConstraint)
    (createdAt : Timestamp) : result RoutingDecision :=
  if decide (taskID = "") then Err ErrMissingTaskID
  else if decide (length evaluated = 0) then Err ErrNoEvaluations
  else if decide (reason = "") then Err ErrEmptyReason
  else Ok {| rdID := id; rdTaskID := taskID; rdEvaluatedStrategies := evaluated;
             rdSelectedStrategy := selectedStrategy; rdSelectedAgentRole := selectedAgentRole;
             rdReason := reason; rdConstraints := constraints; rdCreatedAt := createdAt |}.

Definition Reconstruct (id : RoutingDecisionID) (taskID : TaskID)
    (evaluated : list StrategyEvaluation) (selectedStrategy : RoutingStrategy)
    (selectedAgentRole : AgentRole) (reason : string) (constraints : list RoutingConstraint)
    (createdAt : Timestamp) : RoutingDecision :=
  {| rdID := id; rdTaskID := taskID; rdEvaluatedStrategies := evaluated;
     rdSelectedStrategy := selectedStrategy; rdSelectedAgentRole := selectedAgentRole;
     rdReason := reason; rdConstraints := constraints; rdCreatedAt := createdAt |}.

