(* ===== verification/RoutingSpec.v ===== *)
(** Theorems on internal/domain/routing: the evaluator, its floating point scores and
    the adaptive adjustment. *)

From stdpp Require Import options.
From S2P Require Import Prelude GoLib Shared Task Routing.

(** * Specification of scoring *)

(** The memory contexts the service passes: none (memory disabled or failing), or the
    empty context of the memory stub, possibly with heuristics. *)
Definition memory_of (k : option bool) : option MemoryContext :=
  h ← k; Some {| mcSimilarTaskFailureRate := S754_zero false; mcHasRelevantHeuristics := h |}.

Definition similarTenths (k : option bool) (s : RoutingStrategy) : Z :=
  match k, s with
  | Some _, StrategyDirect => 10 | Some _, StrategyEscalate => 0 | _, _ => 5
  end.
Definition heuristicsTenths (k : option bool) (s : RoutingStrategy) : Z :=
  match k, s with
  | Some true, StrategyDirect => 8 | Some true, StrategyDecompose => 6
  | Some true, StrategyEscalate => 3 | _, _ => 5
  end.

(** The weighted score in exact arithmetic, in thousandths. *)
Definition exact_score (r : RiskLevel) (sc : TaskScope) (ty : TaskType) (p : Priority)
    (k : option bool) (s : RoutingStrategy) : Z :=
  30 * riskTenths r s + 25 * scopeTenths sc s + 20 * typeTenths ty s
  + 10 * priorityTenths p s + 10 * similarTenths k s + 5 * heuristicsTenths k s.

(** Highest exact score, ties to the simpler strategy. *)
Definition exact_strategy (r : RiskLevel) (sc : TaskScope) (ty : TaskType) (p : Priority)
    (k : option bool) : RoutingStrategy :=
  let score := exact_score r sc ty p k in
  if ((score StrategyDecompose <=? score StrategyDirect)
      && (score StrategyEscalate <=? score StrategyDirect))%Z then StrategyDirect
  else if (score StrategyEscalate <=? score StrategyDecompose)%Z then StrategyDecompose
  else StrategyEscalate.

Definition float_scores (r : RiskLevel) (sc : TaskScope) (ty : TaskType) (p : Priority)
    (m : option MemoryContext) (s : RoutingStrategy) : float64 :=
  weighted (scoreRiskLevel r s) (scoreTaskScope sc s) (scoreTaskType ty s)
    (scoreTaskPriority p s) (scoreMemorySimilarTasks m s) (scoreMemoryHeuristics m s).

(** The choice of [tiebreak] on three scores in the order of [evaluatedStrategies]. *)
Definition float_strategy (f : RoutingStrategy → float64) : RoutingStrategy :=
  let best := if flt (f StrategyDirect) (f StrategyDecompose) then StrategyDecompose
              else StrategyDirect in
  if flt (f best) (f StrategyEscalate) then StrategyEscalate else best.

Definition risks : list RiskLevel :=
  [RiskLevelLow; RiskLevelMedium; RiskLevelHigh; RiskLevelCritical].
Definition scopes : list TaskScope := [ScopeFile; ScopeModule; ScopeRepo; ScopeSystem].
Definition types : list TaskType :=
  [TypeDevelopment; TypeReview; TypeResearch; TypeRefactor; TypeBugfix; TypeDeployment].
Definition priorities : list Priority :=
  [PriorityLow; PriorityNormal; PriorityHigh; PriorityUrgent].
Definition memories : list (option bool) := [None; Some false; Some true].

(** [f] holds at every point of the validated domain. *)
Definition on_domain (f : RiskLevel → TaskScope → TaskType → Priority → option bool → bool) : bool :=
  forallb (λ r, forallb (λ sc, forallb (λ ty, forallb (λ p, forallb (λ k, f r sc ty p k)
    memories) priorities) types) scopes) risks.

Definition scoring_agrees (r : RiskLevel) (sc : TaskScope) (ty : TaskType) (p : Priority)
    (k : option bool) : bool :=
  bool_decide (float_strategy (float_scores r sc ty p (memory_of k)) = exact_strategy r sc ty p k).

(** * Lemmas *)

Lemma on_domain_at f r sc ty p k :
  on_domain f = true → known r = true → known sc = true → known ty = true → known p = true →
  f r sc ty p k = true.
Proof.
  intros H Hr Hs Ht Hp.
  assert (r ∈ risks) by (clear H; destruct r; done || (repeat constructor)).
  assert (sc ∈ scopes) by (clear H; destruct sc; done || (repeat constructor)).
  assert (ty ∈ types) by (clear H; destruct ty; done || (repeat constructor)).
  assert (p ∈ priorities) by (clear H; destruct p; done || (repeat constructor)).
  assert (k ∈ memories) by (clear H; destruct k as [[]|]; repeat constructor).
  unfold on_domain in H. apply (forallb_in _ _ r) in H; [|done].
  apply (forallb_in _ _ sc) in H; [|done]. apply (forallb_in _ _ ty) in H; [|done].
  apply (forallb_in _ _ p) in H; [|done]. by apply (forallb_in _ _ k) in H.
Qed.

(** Checked by evaluation. *)
Lemma scoring_agrees_everywhere : on_domain scoring_agrees = true.
Proof. vm_compute. reflexivity. Qed.

Lemma scoring_agrees_at r sc ty p k :
  known r = true → known sc = true → known ty = true → known p = true →
  float_strategy (float_scores r sc ty p (memory_of k)) = exact_strategy r sc ty p k.
Proof.
  intros Hr Hs Ht Hp.
  pose proof (on_domain_at scoring_agrees r sc ty p k scoring_agrees_everywhere Hr Hs Ht Hp) as H.
  revert H. unfold scoring_agrees. generalize (float_strategy (float_scores r sc ty p (memory_of k))).
  generalize (exact_strategy r sc ty p k). intros a b. apply bool_decide_eq_true_1.
Qed.

(** Every score and every factor of the domain is a finite number. *)
Definition scoring_finite (r : RiskLevel) (sc : TaskScope) (ty : TaskType) (p : Priority)
    (k : option bool) : bool :=
  forallb (λ s, is_finite (float_scores r sc ty p (memory_of k) s)) evaluatedStrategies.

Lemma scoring_finite_everywhere : on_domain scoring_finite = true.
Proof. vm_compute. reflexivity. Qed.

Lemma factors_finite t k s x :
  s ∈ evaluatedStrategies → x ∈ (map_to_list (factor_scores t (memory_of k) s)).*2 → is_finite x = true.
Proof.
  intros Hs Hx. apply list_elem_of_fmap in Hx as ([i y] & -> & Hy%elem_of_map_to_list).
  apply elem_of_list_to_map_2 in Hy. rewrite !elem_of_cons, elem_of_nil in Hy.
  assert (E : s = StrategyDirect ∨ s = StrategyDecompose ∨ s = StrategyEscalate) by (set_unfold in Hs; naive_solver).
  destruct_or! Hy; simplify_eq; destruct_or! E; subst s; simpl.
  all: try by destruct (tkRiskLevel t).
  all: try by destruct (tkScope t).
  all: try by destruct (tkType t).
  all: try by destruct (tkPriority t).
  all: by destruct k as [[]|].
Qed.

Lemma Evaluate_evaluations t m stats r :
  Evaluate {| eiTask := t; eiMemoryContext := m; eiFailureStats := stats |} = Some r →
  checkOverrides t = Some r ∨ erEvaluations r = applyAdaptiveAdjustments (scoreStrategies t m) stats.
Proof.
  unfold Evaluate. cbn [eiTask eiMemoryContext eiFailureStats].
  destruct (checkOverrides t) as [r'|]; [by left|]. right. revert H.
  generalize (applyAdaptiveAdjustments (scoreStrategies t m) stats). intros evals E.
  destruct (tiebreak evals); [|done]. by injection E as <-.
Qed.

(** Without statistics, an evaluation of a task of the domain can be stored as JSON. *)
Lemma Evaluate_finite t k r e :
  known (tkRiskLevel t) = true → known (tkScope t) = true → known (tkType t) = true →
  known (tkPriority t) = true →
  Evaluate {| eiTask := t; eiMemoryContext := memory_of k; eiFailureStats := None |} = Some r →
  e ∈ erEvaluations r →
  is_finite (seScore e) = true ∧ is_finite (seAdjustedScore e) = true ∧ seAdaptiveAdjustment e = None ∧
  ∀ x, x ∈ (map_to_list (seFactorScores e)).*2 → is_finite x = true.
Proof.
  intros Hr Hsc Hty Hp E He. apply Evaluate_evaluations in E as [E|E].
  - assert (∃ s reason, r = overrideResult s reason) as (s & reason & ->).
    { unfold checkOverrides in E. repeat case_match; simplify_eq; eauto. }
    apply list_elem_of_singleton in He as ->. split_and!; try (vm_compute; reflexivity).
    intros x Hx. by apply elem_of_nil in Hx.
  - rewrite E in He. apply list_elem_of_fmap in He as (e0 & -> & He).
    apply list_elem_of_fmap in He as (s & -> & Hs).
    pose proof (on_domain_at scoring_finite _ _ _ _ k scoring_finite_everywhere Hr Hsc Hty Hp) as Fi.
    apply (forallb_in _ _ s) in Fi; [|done]. split_and!; [exact Fi|exact Fi|done|].
    intros x Hx. by apply (factors_finite t k s).
Qed.

Lemma tiebreak_three (f : RoutingStrategy → StrategyEvaluation) :
  (∀ s, seStrategy (f s) = s) →
  ∃ e, tiebreak (f <$> evaluatedStrategies) = Some e ∧
       seStrategy e = float_strategy (λ s, seAdjustedScore (f s)).
Proof.
  intros Hf. eexists. split; [reflexivity|]. simpl. unfold better, float_strategy.
  destruct (flt (seAdjustedScore (f StrategyDirect)) (seAdjustedScore (f StrategyDecompose))).
  - rewrite !Hf. case_match; [done|]. by rewrite andb_false_r.
  - rewrite !Hf, andb_false_r. case_match; [done|]. by rewrite Hf, andb_false_r.
Qed.

Lemma tiebreak_scored t m stats :
  ∃ e, tiebreak (applyAdaptiveAdjustments (scoreStrategies t m) stats) = Some e ∧
    seStrategy e = float_strategy (λ s,
      seAdjustedScore (applyAdaptiveAdjustment stats (scoreStrategy t m s))).
Proof.
  unfold applyAdaptiveAdjustments, scoreStrategies. rewrite <- list_fmap_compose.
  apply (tiebreak_three (applyAdaptiveAdjustment stats ∘ scoreStrategy t m)).
  intros s. simpl. unfold applyAdaptiveAdjustment. by repeat case_match.
Qed.

Lemma checkOverrides_shape t r :
  checkOverrides t = Some r →
  ∃ s reason, r = overrideResult s reason ∧ reason ≠ "" ∧ known s = true.
Proof.
  unfold checkOverrides. intros H. repeat case_decide; simplify_eq; [eauto 10..|].
  destruct (tkMetadata t !! _) as [[]|]; simplify_eq.
  destruct (NewRoutingStrategy s) as [st|] eqn:E; simplify_eq.
  apply parse_enum_Ok in E as [K _]. eauto 10.
Qed.

Lemma Evaluate_shape input :
  ∃ r, Evaluate input = Some r ∧ erEvaluations r ≠ [] ∧ erReason r ≠ "" ∧
       erSelectedRole r = defaultRoleMapping (erSelectedStrategy r).
Proof.
  unfold Evaluate. destruct (checkOverrides (eiTask input)) as [r|] eqn:E.
  - apply checkOverrides_shape in E as (s & reason & -> & ? & _). eauto 10.
  - destruct (tiebreak_scored (eiTask input) (eiMemoryContext input) (eiFailureStats input))
      as (e & -> & _). simpl. eexists. split; [reflexivity|]. simpl. split_and!; try done.
    unfold score_reason. by case_match.
Qed.

Lemma Evaluate_known input r : Evaluate input = Some r → known (erSelectedStrategy r) = true.
Proof.
  destruct input as [t m stats]. intros E. destruct (checkOverrides t) as [r'|] eqn:Ov.
  - unfold Evaluate in E. cbn [eiTask] in E. rewrite Ov in E. injection E as <-.
    by apply checkOverrides_shape in Ov as (s & reason & -> & _ & K).
  - destruct (tiebreak_scored t m stats) as (e & Te & Se). revert E. unfold Evaluate.
    cbn [eiTask eiMemoryContext eiFailureStats]. rewrite Ov. cbv zeta. rewrite Te. intros [= <-].
    cbn [erSelectedStrategy]. rewrite Se. unfold float_strategy. by repeat case_match.
Qed.

Lemma better_cases b e : better b e = b ∨ better b e = e.
Proof. unfold better. repeat case_match; auto. Qed.

(** [a] is no worse a choice than [b]. *)
Definition at_least (a b : StrategyEvaluation) : Prop :=
  flt (seAdjustedScore a) (seAdjustedScore b) = false ∧
  (feq (seAdjustedScore a) (seAdjustedScore b) = true →
   (simplicity (seStrategy a) ≤ simplicity (seStrategy b))%Z).

Lemma at_least_key a b :
  is_nan (seAdjustedScore a) = false → is_nan (seAdjustedScore b) = false →
  at_least a b ↔
  ¬ klt (fkey (seAdjustedScore a)) (fkey (seAdjustedScore b)) ∧
  (fkey (seAdjustedScore a) = fkey (seAdjustedScore b) →
   (simplicity (seStrategy a) ≤ simplicity (seStrategy b))%Z).
Proof.
  intros Ha Hb. unfold at_least. rewrite <- (flt_key _ _ Ha Hb), <- (feq_key _ _ Ha Hb).
  by rewrite not_true_iff_false.
Qed.

Lemma at_least_trans a b c :
  is_nan (seAdjustedScore a) = false → is_nan (seAdjustedScore b) = false →
  is_nan (seAdjustedScore c) = false → at_least a b → at_least b c → at_least a c.
Proof.
  intros Ha Hb Hc. rewrite !at_least_key by done. unfold klt.
  destruct (fkey (seAdjustedScore a)) as [[a1 a2] a3], (fkey (seAdjustedScore b)) as [[b1 b2] b3],
    (fkey (seAdjustedScore c)) as [[c1 c2] c3]; simpl.
  intros [H1 H2] [H3 H4]. split; [lia|]. intros [= -> -> ->].
  destruct (decide ((c1, c2, c3) = (b1, b2, b3))) as [[= -> -> ->]|E].
  - specialize (H2 eq_refl). specialize (H4 eq_refl). lia.
  - exfalso. apply E. f_equal; [f_equal|]; lia.
Qed.

Lemma better_at_least b e :
  is_nan (seAdjustedScore b) = false → is_nan (seAdjustedScore e) = false →
  at_least (better b e) b ∧ at_least (better b e) e.
Proof.
  intros Hb He. assert (is_nan (seAdjustedScore (better b e)) = false)
    by (destruct (better_cases b e) as [->| ->]; done).
  rewrite !at_least_key by done.
  unfold better. destruct (flt _ _) eqn:E1.
  { apply flt_key in E1; [|done..]. unfold klt in *.
    split; split; (intros E; rewrite E in *; lia) || lia. }
  assert (N1 : ¬ klt (fkey (seAdjustedScore b)) (fkey (seAdjustedScore e))).
  { intros E. apply (flt_key _ _ Hb He) in E. congruence. }
  destruct (feq _ _) eqn:E2; simpl.
  - apply feq_key in E2; [|done..]. rewrite E2 in *.
    destruct (_ <? _)%Z eqn:E3; boolify; unfold klt; rewrite ?E2; split; split; intros; lia.
  - assert (N2 : fkey (seAdjustedScore e) ≠ fkey (seAdjustedScore b)).
    { intros E. apply (feq_key _ _ He Hb) in E. congruence. }
    unfold klt in *. split; split; try lia; intros; congruence.
Qed.

Lemma better_foldl b es :
  Forall (λ e, is_nan (seAdjustedScore e) = false) (b :: es) →
  foldl better b es ∈ b :: es ∧ Forall (at_least (foldl better b es)) (b :: es).
Proof.
  revert b. induction es as [|e es IH]; intros b HF; simpl.
  - apply Forall_cons in HF as [Hb _]. split; [set_solver|]. apply Forall_singleton.
    rewrite (at_least_key _ _ Hb Hb). unfold klt. split; lia.
  - apply Forall_cons in HF as [Hb HF]. apply Forall_cons in HF as [He HF].
    assert (Hn : is_nan (seAdjustedScore (better b e)) = false)
      by (destruct (better_cases b e) as [->| ->]; done).
    destruct (IH (better b e)) as [Hin Hall]; [by constructor|].
    split; [destruct (better_cases b e) as [E|E]; rewrite E in *; set_solver|].
    apply Forall_cons in Hall as [Hbe Hes].
    destruct (better_at_least b e Hb He) as [H1 H2].
    assert (is_nan (seAdjustedScore (foldl better (better b e) es)) = false).
    { assert (HF' : Forall (λ e, is_nan (seAdjustedScore e) = false) (better b e :: es)) by auto.
      rewrite Forall_forall in HF'. by apply HF'. }
    constructor; [by eapply at_least_trans, H1|]. constructor; [by eapply at_least_trans, H2|done].
Qed.

Lemma clampValue_range v lo hi :
  is_nan v = false → is_nan lo = false → is_nan hi = false → fle lo hi = true →
  fle lo (clampValue v lo hi) = true ∧ fle (clampValue v lo hi) hi = true ∧
  (fle lo v = true → fle v hi = true → clampValue v lo hi = v).
Proof.
  intros Hv Hlo Hhi Hle. unfold clampValue.
  destruct (flt v lo) eqn:E1; [|destruct (flt hi v) eqn:E2].
  all: rewrite ?fle_key in * by done.
  all: try (apply flt_key in E1; [|done..]); try (apply flt_key in E2; [|done..]).
  all: try (apply not_true_iff_false in E1; rewrite flt_key in E1 by done).
  all: try (apply not_true_iff_false in E2; rewrite flt_key in E2 by done).
  all: unfold klt in *; split_and!; intros; try done; lia.
Qed.

(** The granularity level that has enough samples, as a specification of the cascade. *)
Definition level (strategy : RoutingStrategy) (stats : FailureStats) : option (FailureRate * string) :=
  let enough (g : string) (o : option FailureRate) :=
    fr ← o; if (MinSamples <=? frTotal fr)%Z then Some (fr, g) else None in
  let l1 := enough "strategy_role_category"
    ((λ m, aggregateByStrategyAndRole m strategy (to_string (defaultRoleMapping strategy)))
     <$> fsByStrategyRoleCategory stats) in
  let l2 := enough "strategy_category"
    ((λ m, aggregateByStrategyFromMap m strategy) <$> fsByStrategyCategory stats) in
  let l3 := enough "strategy" (m ← fsByStrategy stats; m !! strategy) in
  match l1, l2 with Some x, _ => Some x | None, Some x => Some x | None, None => l3 end.

(** The ramp of [computeConfidence], sample by sample. *)
Definition ramp_sorted : bool :=
  forallb (λ i, forallb (λ j,
    bool_decide (j < i) || fle (computeConfidence (Z.of_nat i)) (computeConfidence (Z.of_nat j)))
    (seq 0 31)) (seq 0 31).

Lemma ramp_sorted_true : ramp_sorted = true.
Proof. vm_compute. reflexivity. Qed.

(** [computeConfidence] is constant outside of [0, 30]. *)
Lemma confidence_clamp n : computeConfidence n = computeConfidence (Z.of_nat (Z.to_nat (Z.max 0 (Z.min 30 n)))).
Proof.
  unfold computeConfidence, MinSamples, FullConfidenceAt. rewrite Z2Nat.id by lia.
  repeat case_match; boolify; try lia; try done. do 3 f_equal. lia.
Qed.

Lemma confidence_monotone n m :
  (n ≤ m)%Z → fle (computeConfidence n) (computeConfidence m) = true.
Proof.
  intros H. rewrite (confidence_clamp n), (confidence_clamp m). pose proof ramp_sorted_true as R.
  unfold ramp_sorted in R.
  apply (forallb_in _ _ (Z.to_nat (Z.max 0 (Z.min 30 n)))) in R; [|apply elem_of_seq; lia].
  apply (forallb_in _ _ (Z.to_nat (Z.max 0 (Z.min 30 m)))) in R; [|apply elem_of_seq; lia].
  apply orb_true_iff in R as [R|R]; [|exact R]. apply bool_decide_eq_true in R. lia.
Qed.

(** * Theorems *)

(** C25: hard overrides come before any score, in this order: critical risk, then a system
    scope deployment, go to escalate; then a valid force_strategy in the metadata is
    obeyed; an override ignores memory and failure statistics; and with no override the
    strategy is chosen among the three scored ones. *)
Theorem routing_override_precedence t mem stats :
  ∃ r, Evaluate {| eiTask := t; eiMemoryContext := mem; eiFailureStats := stats |} = Some r ∧
  if decide (tkRiskLevel t = RiskLevelCritical ∨ tkScope t = ScopeSystem ∧ tkType t = TypeDeployment)
  then erSelectedStrategy r = StrategyEscalate ∧ erSelectedRole r = RoleHuman
  else match NewRoutingStrategy (get_string (tkMetadata t) "force_strategy") with
       | Ok s => erSelectedStrategy r = s ∧ erReason r = "[override] force_strategy=" +:+ to_string s
       | Err _ => erSelectedStrategy r ∈ evaluatedStrategies ∧ length (erEvaluations r) = 3
       end.
Proof.
  unfold Evaluate, get_string. simpl eiTask. unfold checkOverrides.
  destruct (decide (_ ∨ _)) as [D|D].
  { destruct (decide (tkRiskLevel t = RiskLevelCritical)); [eauto|].
    destruct (decide (_ ∧ _)); [eauto|]. naive_solver. }
  rewrite !decide_False by naive_solver. cbn [eiMemoryContext eiFailureStats].
  destruct (tiebreak_scored t mem stats) as (e & He & Hs). rewrite He. cbn [mbind option_bind].
  assert (Hin : seStrategy e ∈ evaluatedStrategies).
  { rewrite Hs. unfold float_strategy. repeat case_match; set_solver. }
  destruct (tkMetadata t !! "force_strategy") as [[]|]; try (eexists; split; [reflexivity|done]).
  destruct (NewRoutingStrategy s); eexists; (split; [reflexivity|done]).
Qed.

(** C26: the binary64 scores choose what exact arithmetic chooses.  For every validated
    task with no override, with or without the memory stub and its heuristics flag and
    no failure statistics, the strategy selected by comparing the rounded weighted sums
    is the one with the highest exact weighted score, ties going to the simpler
    strategy: rounding never changes the decision. *)
Theorem routing_scores_exact t k r :
  known (tkRiskLevel t) = true → known (tkScope t) = true → known (tkType t) = true →
  known (tkPriority t) = true → checkOverrides t = None →
  Evaluate {| eiTask := t; eiMemoryContext := memory_of k; eiFailureStats := None |} = Some r →
  erSelectedStrategy r =
    exact_strategy (tkRiskLevel t) (tkScope t) (tkType t) (tkPriority t) k.
Proof.
  intros Hr Hs Ht Hp Ho. unfold Evaluate. cbn [eiTask eiMemoryContext eiFailureStats].
  rewrite Ho. destruct (tiebreak_scored t (memory_of k) None) as (e & -> & He).
  intros E. apply (inj Some) in E. rewrite <- E. cbn [erSelectedStrategy]. rewrite He.
  by apply scoring_agrees_at.
Qed.

(** [tiebreak] is optimal: on any non empty list of evaluations whose adjusted scores
    are numbers it returns one of them, none has a higher adjusted score, and none with an
    equal score has a simpler strategy. *)
Theorem tiebreak_optimal evals :
  evals ≠ [] → Forall (λ e, is_nan (seAdjustedScore e) = false) evals →
  ∃ best, tiebreak evals = Some best ∧ best ∈ evals ∧
    ∀ e, e ∈ evals →
      flt (seAdjustedScore best) (seAdjustedScore e) = false ∧
      (feq (seAdjustedScore best) (seAdjustedScore e) = true →
       (simplicity (seStrategy best) ≤ simplicity (seStrategy e))%Z).
Proof.
  destruct evals as [|b es]; [done|]. intros _ HF. exists (foldl better b es).
  split; [done|]. destruct (better_foldl b es HF) as [Hin Hall]. split; [done|].
  by apply Forall_forall.
Qed.

(** C27: the adaptive cascade: an evaluation is adjusted exactly when some granularity has
    at least [MinSamples] samples, and then with the finest such one: strategy, role
    and category, then strategy and category, then strategy; its score is untouched, its
    adjusted score stays within [MaxPenalty] below and [MaxBonus] above the score. *)
Theorem adaptive_cascade_bounded stats e :
  let e' := applyAdaptiveAdjustment (Some stats) e in
  seScore e' = seScore e ∧ seStrategy e' = seStrategy e ∧
  match level (seStrategy e) stats with
  | None => seAdjustedScore e' = seScore e
  | Some (fr, g) =>
      seAdaptiveAdjustment e' = Some (buildAdjustment fr g (fsWindow stats)) ∧
      let lo := fsub (seScore e) MaxPenalty in let hi := fadd (seScore e) MaxBonus in
      let v := fadd (seScore e) (aaFinalAdjustment (buildAdjustment fr g (fsWindow stats))) in
      (is_nan v = false → is_nan lo = false → is_nan hi = false → fle lo hi = true →
       fle lo (seAdjustedScore e') = true ∧ fle (seAdjustedScore e') hi = true ∧
       (fle lo v = true → fle v hi = true → seAdjustedScore e' = v))
  end.
Proof.
  unfold applyAdaptiveAdjustment, computeAdjustment, level. cbv zeta.
  destruct (fsByStrategyRoleCategory stats), (fsByStrategyCategory stats);
    cbn [mbind option_bind fmap option_fmap option_map];
    repeat (destruct (MinSamples <=? frTotal (aggregateByStrategyAndRole _ _ _))%Z);
    repeat (destruct (MinSamples <=? frTotal (aggregateByStrategyFromMap _ _))%Z);
    try destruct (fsByStrategy stats) as [g3|]; cbn [mbind option_bind];
    try destruct (g3 !! seStrategy e); cbn [mbind option_bind];
    try destruct (MinSamples <=? frTotal _)%Z; cbn; split_and!; try done;
    intros; by apply clampValue_range.
Qed.

(** The adaptive arithmetic: the raw adjustment is the full bonus at failure rate 0,
    nothing at the baseline and the full penalty at rate 1, and whenever it is a number it
    lies in [-MaxPenalty, MaxBonus]; the confidence is 0 up to [MinSamples], 1 from
    [FullConfidenceAt] on, and never decreases with more samples. *)
Theorem adaptive_arithmetic :
  computeRawAdjustment (S754_zero false) = MaxBonus ∧
  computeRawAdjustment BaselineFailureRate = S754_zero false ∧
  computeRawAdjustment (dec 1 0) = SFopp MaxPenalty ∧
  (∀ rate, is_nan (computeRawAdjustment rate) = false →
     fle (SFopp MaxPenalty) (computeRawAdjustment rate) = true ∧
     fle (computeRawAdjustment rate) MaxBonus = true) ∧
  (∀ n, (n ≤ MinSamples)%Z → computeConfidence n = S754_zero false) ∧
  (∀ n, (FullConfidenceAt ≤ n)%Z → computeConfidence n = dec 1 0) ∧
  (∀ n m, (n ≤ m)%Z → fle (computeConfidence n) (computeConfidence m) = true).
Proof.
  split_and!; [vm_compute; reflexivity..| | | |apply confidence_monotone].
  - intros rate. unfold computeRawAdjustment. generalize (fsub BaselineFailureRate rate) as dev.
    intros dev Hn. match type of Hn with is_nan (clampValue ?v _ _) = _ => set (raw := v) in * end.
    assert (is_nan raw = false).
    { clearbody raw. revert Hn. unfold clampValue. destruct raw; done. }
    destruct (clampValue_range raw (SFopp MaxPenalty) MaxBonus) as (? & ? & _); done.
  - intros n Hn. unfold computeConfidence. by rewrite (proj2 (Z.leb_le _ _)).
  - intros n Hn. unfold computeConfidence. rewrite (proj2 (Z.leb_gt _ _)) by (unfold MinSamples, FullConfidenceAt in *; lia).
    by rewrite (proj2 (Z.leb_le _ _)).
Qed.

(** C28: every routing evaluation makes a valid decision: [Evaluate] never panics, and for
    a non empty task id the aggregate constructor accepts its result, with the strategy's
    default role as the selected role. *)
Theorem routing_decision_valid id taskID input now :
  taskID ≠ "" →
  ∃ r dcn, Evaluate input = Some r ∧
    NewRoutingDecision id taskID (erEvaluations r) (erSelectedStrategy r) (erSelectedRole r)
      (erReason r) [] now = Ok dcn ∧
    rdSelectedAgentRole dcn = defaultRoleMapping (rdSelectedStrategy dcn).
Proof.
  intros Ht. destruct (Evaluate_shape input) as (r & E & He & Hr & Hrole).
  unfold NewRoutingDecision. exists r. rewrite !decide_False; try done.
  - eexists. split; [done|]. split; [reflexivity|done].
  - by destruct (erEvaluations r).
Qed.

(** * Witnesses *)

Definition demo_task : Task :=
  {| tkID := "t"; tkParentTaskID := None; tkType := TypeRefactor; tkTitle := "x";
     tkScope := ScopeRepo; tkPriority := PriorityNormal; tkRiskLevel := RiskLevelHigh;
     tkStatus := StatusCreated; tkMetadata := ∅; tkCreatedAt := {| ts_Time := 1 |};
     tkUpdatedAt := {| ts_Time := 1 |} |}.

Definition demo_input : EvaluatorInput :=
  {| eiTask := demo_task; eiMemoryContext := memory_of (Some false); eiFailureStats := None |}.

Lemma routing_scores_exact_witness :
  ∃ r, Evaluate demo_input = Some r ∧ erSelectedStrategy r = StrategyDecompose.
Proof.
  destruct (Evaluate demo_input) as [r|] eqn:E; [|exfalso; vm_compute in E; discriminate].
  exists r. split; [reflexivity|].
  apply (routing_scores_exact demo_task (Some false) r); [reflexivity..|exact E].
Defined.

Definition demo_evals : list StrategyEvaluation := scoreStrategies demo_task None.

Lemma tiebreak_optimal_witness : ∃ best, tiebreak demo_evals = Some best ∧ best ∈ demo_evals.
Proof.
  destruct (tiebreak_optimal demo_evals) as (best & E & Hin & _).
  - discriminate.
  - repeat constructor; vm_compute; reflexivity.
  - exists best. split; [exact E|exact Hin].
Defined.

Lemma routing_decision_valid_witness :
  ∃ r dcn, Evaluate demo_input = Some r ∧
    NewRoutingDecision "d" "t" (erEvaluations r) (erSelectedStrategy r) (erSelectedRole r)
      (erReason r) [] {| ts_Time := 2 |} = Ok dcn ∧
    rdSelectedAgentRole dcn = defaultRoleMapping (rdSelectedStrategy dcn).
Proof. apply (routing_decision_valid "d" "t" demo_input {| ts_Time := 2 |}). discriminate. Defined.
