(* ===== verification/AuditLog.v ===== *)
(** internal/domain/audit: the audit context builder and the append-only AuditEntry. *)

From stdpp Require Import options.
From S2P Require Import Prelude GoLib Shared.

(** * audit_context.go *)

(** A [map[string]any].  The builder methods write into the receiver and return it;
    every use in the sources is a linear chain, so a value models it. *)
Abbreviation AuditContext := (gmap string any) (only parsing).

Definition NewAuditContext : AuditContext := ∅.

(** What OpenTelemetry knows of the span in the context: trace and span id when the
    span context is valid. *)
Definition SpanContext := option (string * string).

Definition WithTraceInfo (c : AuditContext) (span : SpanContext) : AuditContext :=
  match span with
  | Some (traceID, spanID) => <["span_id" := AString spanID]> (<["trace_id" := AString traceID]> c)
  | None => c
  end.

Definition WithFailure (c : AuditContext) (stage code : string) (retryable : bool) : AuditContext :=
  <["retryable" := ABool retryable]> (<["failure_code" := AString code]>
    (<["failure_stage" := AString stage]> c)).

Definition WithToolName (c : AuditContext) (name : string) : AuditContext :=
  <["tool_name" := AString name]> c.

Definition WithStrategy (c : AuditContext) (strategy : string) : AuditContext :=
  <["strategy_used" := AString strategy]> c.

Definition WithAgentRole (c : AuditContext) (role : string) : AuditContext :=
  <["agent_role" := AString role]> c.

Definition WithLeaseState (c : AuditContext) (attemptsUsed retryBudget timeElapsedMs : Z)
    : AuditContext :=
  <["time_elapsed_ms" := AInt timeElapsedMs]> (<["retry_budget" := AInt retryBudget]>
    (<["attempts_used" := AInt attemptsUsed]> c)).

Definition Set_ (c : AuditContext) (key : string) (value : any) : AuditContext :=
  <[key := value]> c.

(** * audit_entry.go *)

Definition ErrEmptyAction : error := Sentinel "audit.ErrEmptyAction" "audit action must not be empty".
Definition ErrEmptyOutcome : error :=
  Sentinel "audit.ErrEmptyOutcome" "audit outcome must not be empty".

Record AuditEntry := {
  aeID : AuditEntryID;
  aeTaskID : option TaskID;
  aeWorkflowRunID : option WorkflowRunID;
  aeActor : ActorID;
  aeAction : string;
  aeOutcome : string;
  aeContext : AuditContext;
  aeCreatedAt : Timestamp;
}.

Definition NewAuditEntry (id : AuditEntryID) (actor : ActorID) (action outcome : string)
    (ctx : AuditContext) (now : Timestamp) : result AuditEntry :=
  if decide (TrimSpace action = "") then Err ErrEmptyAction
  else if decide (TrimSpace outcome = "") then Err ErrEmptyOutcome
  else Ok {| aeID := id; aeTaskID := None; aeWorkflowRunID := None; aeActor := actor;
             aeAction := action; aeOutcome := outcome; aeContext := ctx; aeCreatedAt := now |}.

Definition ReconstructAuditEntry (id : AuditEntryID) (taskID : option TaskID)
    (workflowRunID : option WorkflowRunID) (actor : ActorID) (action outcome : string)
    (ctx : AuditContext) (createdAt : Timestamp) : AuditEntry :=
  {| aeID := id; aeTaskID := taskID; aeWorkflowRunID := workflowRunID; aeActor := actor;
     aeAction := action; aeOutcome := outcome; aeContext := ctx; aeCreatedAt := createdAt |}.

Definition WithTaskID (ae : AuditEntry) (id : TaskID) : AuditEntry :=
  {| aeID := aeID ae; aeTaskID := Some id; aeWorkflowRunID := aeWorkflowRunID ae;
     aeActor := aeActor ae; aeAction := aeAction ae; aeOutcome := aeOutcome ae;
     aeContext := aeContext ae; aeCreatedAt := aeCreatedAt ae |}.

Definition WithWorkflowRunID (ae : AuditEntry) (id : WorkflowRunID) : AuditEntry :=
  {| aeID := aeID ae; aeTaskID := aeTaskID ae; aeWorkflowRunID := Some id;
     aeActor := aeActor ae; aeAction := aeAction ae; aeOutcome := aeOutcome ae;
     aeContext := aeContext ae; aeCreatedAt := aeCreatedAt ae |}.

(** * Lemmas *)

Lemma NewAuditEntry_Ok id actor action outcome ctx now ae :
  NewAuditEntry id actor action outcome ctx now = Ok ae ↔
  TrimSpace action ≠ "" ∧ TrimSpace outcome ≠ "" ∧
  ae = {| aeID := id; aeTaskID := None; aeWorkflowRunID := None; aeActor := actor;
          aeAction := action; aeOutcome := outcome; aeContext := ctx; aeCreatedAt := now |}.
Proof. unfold NewAuditEntry. repeat case_decide; naive_solver. Qed.
