(* ===== verification/Resilience.v ===== *)
(** internal/application/resilience: the circuit breaker, the registry of breakers,
    their snapshots and the transition listeners. *)

From stdpp Require Import options.
From S2P Require Import Prelude GoLib Shared AuditLog.

(** * breaker.go *)

Definition ConsecutiveFailuresThreshold : Z := 3%Z.
Definition RatioFailureThreshold : float64 := dec 5 1.
Definition RatioWindowSize : nat := 20.
Definition RatioMinSamples : nat := 5.
Definition OpenCooldown : Duration := (60 * Second)%Z.
Definition HalfOpenProbeSuccesses : Z := 3%Z.

(** Only the constants are ever assigned to a [BreakerState] or a [TripReason]. *)
Inductive BreakerState := StateClosed | StateOpen | StateHalfOpen.

#[export] Instance BreakerState_eq_dec : EqDecision BreakerState.
Proof. solve_decision. Defined.

Definition state_string (s : BreakerState) : string :=
  match s with StateClosed => "closed" | StateOpen => "open" | StateHalfOpen => "half_open" end.

(** [TripReasonNone] is the empty string. *)
Inductive TripReason := TripReasonConsecutive | TripReasonRatio | TripReasonNone.

#[export] Instance TripReason_eq_dec : EqDecision TripReason.
Proof. solve_decision. Defined.

Definition reason_string (r : TripReason) : string :=
  match r with
  | TripReasonConsecutive => "consecutive" | TripReasonRatio => "ratio" | TripReasonNone => ""
  end.

Record BreakerKey := { bkToolName : string; bkAgentRole : string }.

#[export] Instance BreakerKey_eq_dec : EqDecision BreakerKey.
Proof. solve_decision. Defined.
#[export] Instance BreakerKey_countable : Countable BreakerKey.
Proof.
  apply (inj_countable' (λ k, (bkToolName k, bkAgentRole k))
           (λ '(t, r), {| bkToolName := t; bkAgentRole := r |})). by intros [].
Defined.

Record CircuitBreaker := {
  cbKey : BreakerKey;
  cbState : BreakerState;
  cbOpenedAt : option Time;
  cbConsecutiveFailures : Z;
  cbConsecutiveSuccesses : Z;
  cbRingBuffer : list bool;
  cbUpdatedAt : Time;
}.

#[export] Instance CircuitBreaker_eq_dec : EqDecision CircuitBreaker.
Proof. solve_decision. Defined.

Record StateTransition := {
  stKey : BreakerKey;
  stFrom : BreakerState;
  stTo : BreakerState;
  stTripReason : TripReason;
  stConsecutiveFailures : Z;
  stConsecutiveSuccesses : Z;
  stFailureRate : float64;
  stSampleSize : nat;
  stAt : Time;
}.

(** [now] is [time.Now()]. *)
Definition NewCircuitBreaker (key : BreakerKey) (now : Time) : CircuitBreaker :=
  {| cbKey := key; cbState := StateClosed; cbOpenedAt := None; cbConsecutiveFailures := 0;
     cbConsecutiveSuccesses := 0; cbRingBuffer := []; cbUpdatedAt := now |}.

Definition appendToRingBuffer (ring : list bool) (isFailure : bool) : list bool :=
  (if bool_decide (RatioWindowSize ≤ length ring) then drop 1 ring else ring) ++ [isFailure].

(** The loops that count the failures of the ring buffer. *)
Definition count_failures (ring : list bool) : nat :=
  foldl (λ n isFailure, if (isFailure : bool) then S n else n) 0 ring.

Definition ratio (failures samples : nat) : float64 :=
  fdiv (float_of_int (Z.of_nat failures)) (float_of_int (Z.of_nat samples)).

Definition failureRate (ring : list bool) : float64 :=
  if decide (length ring = 0) then S754_zero false
  else ratio (count_failures ring) (length ring).

(** [None] is [("", false)]. *)
Definition evaluateTrip (b : CircuitBreaker) : option TripReason :=
  if (ConsecutiveFailuresThreshold <=? cbConsecutiveFailures b)%Z then Some TripReasonConsecutive
  else
    let sampleSize := length (cbRingBuffer b) in
    if bool_decide (RatioMinSamples ≤ sampleSize) then
      let failures := count_failures (cbRingBuffer b) in
      let rate := ratio failures sampleSize in
      if flt RatioFailureThreshold rate then Some TripReasonRatio else None
    else None.

Definition makeTransition (b : CircuitBreaker) (from to : BreakerState) (reason : TripReason)
    (at_ : Time) : StateTransition :=
  {| stKey := cbKey b; stFrom := from; stTo := to; stTripReason := reason;
     stConsecutiveFailures := cbConsecutiveFailures b;
     stConsecutiveSuccesses := cbConsecutiveSuccesses b;
     stFailureRate := failureRate (cbRingBuffer b);
     stSampleSize := length (cbRingBuffer b); stAt := at_ |}.

(** Assignments to the fields a transition changes. *)
Definition set_state (b : CircuitBreaker) (s : BreakerState) (openedAt : option Time) (cs : Z)
    : CircuitBreaker :=
  {| cbKey := cbKey b; cbState := s; cbOpenedAt := openedAt;
     cbConsecutiveFailures := cbConsecutiveFailures b; cbConsecutiveSuccesses := cs;
     cbRingBuffer := cbRingBuffer b; cbUpdatedAt := cbUpdatedAt b |}.

(** The bookkeeping at the start of [Observe]: update time, ring buffer, counters. *)
Definition record_observation (b : CircuitBreaker) (success : bool) (at_ : Time) : CircuitBreaker :=
  {| cbKey := cbKey b; cbState := cbState b; cbOpenedAt := cbOpenedAt b;
     cbConsecutiveFailures := if success then 0%Z else wrap64 (cbConsecutiveFailures b + 1);
     cbConsecutiveSuccesses :=
       if success then
         if decide (cbState b = StateHalfOpen) then wrap64 (cbConsecutiveSuccesses b + 1) else 0%Z
       else 0%Z;
     cbRingBuffer := appendToRingBuffer (cbRingBuffer b) (negb success);
     cbUpdatedAt := at_ |}.

Definition Observe (b0 : CircuitBreaker) (success : bool) (at_ : Time)
    : CircuitBreaker * option StateTransition :=
  let from := cbState b0 in
  let b := record_observation b0 success at_ in
  match cbState b with
  | StateClosed =>
      match evaluateTrip b with
      | Some tripReason =>
          let b := set_state b StateOpen (Some at_) (cbConsecutiveSuccesses b) in
          (b, Some (makeTransition b from StateOpen tripReason at_))
      | None => (b, None)
      end
  | StateOpen =>
      match cbOpenedAt b with
      | Some openedAt =>
          if (OpenCooldown <=? Sub at_ openedAt)%Z then
            let b := set_state b StateHalfOpen (cbOpenedAt b) (if success then 1 else 0) in
            if negb success then
              let b := set_state b StateOpen (Some at_) 0 in
              (b, Some (makeTransition b StateHalfOpen StateOpen TripReasonNone at_))
            else if (HalfOpenProbeSuccesses <=? cbConsecutiveSuccesses b)%Z then
              let b := set_state b StateClosed None 0 in
              (b, Some (makeTransition b from StateClosed TripReasonNone at_))
            else (b, Some (makeTransition b from StateHalfOpen TripReasonNone at_))
          else (b, None)
      | None => (b, None)
      end
  | StateHalfOpen =>
      if negb success then
        let b := set_state b StateOpen (Some at_) 0 in
        (b, Some (makeTransition b from StateOpen TripReasonNone at_))
      else if (HalfOpenProbeSuccesses <=? cbConsecutiveSuccesses b)%Z then
        let b := set_state b StateClosed None (cbConsecutiveSuccesses b) in
        let transition := makeTransition b from StateClosed TripReasonNone at_ in
        (set_state b StateClosed None 0, Some transition)
      else (b, None)
  end.

(** * snapshot.go *)

Record BreakerSnapshot := {
  bsToolName : string;
  bsAgentRole : string;
  bsState : BreakerState;
  bsOpenedAt : option Time;
  bsConsecutiveFailures : Z;
  bsConsecutiveSuccesses : Z;
  bsFailureRate : float64;
  bsSampleSize : nat;
  bsUpdatedAt : Time;
}.

Record BreakerFilter := {
  bfState : option BreakerState;
  bfToolName : option string;
  bfAgentRole : option string;
}.

(** * registry.go *)

(** The mutex makes every method atomic; the state is the map. *)
Abbreviation CircuitBreakerRegistry := (gmap BreakerKey CircuitBreaker) (only parsing).

Definition NewCircuitBreakerRegistry : CircuitBreakerRegistry := ∅.

Definition snapshot (b : CircuitBreaker) : BreakerSnapshot :=
  {| bsToolName := bkToolName (cbKey b); bsAgentRole := bkAgentRole (cbKey b);
     bsState := cbState b; bsOpenedAt := cbOpenedAt b;
     bsConsecutiveFailures := cbConsecutiveFailures b;
     bsConsecutiveSuccesses := cbConsecutiveSuccesses b;
     bsFailureRate :=
       if bool_decide (0 < length (cbRingBuffer b))
       then ratio (count_failures (cbRingBuffer b)) (length (cbRingBuffer b)) else S754_zero false;
     bsSampleSize := length (cbRingBuffer b); bsUpdatedAt := cbUpdatedAt b |}.

Definition Get (r : CircuitBreakerRegistry) (tool role : string) : option BreakerSnapshot :=
  snapshot <$> r !! {| bkToolName := tool; bkAgentRole := role |}.

(** [filter.F != nil && b.F != *filter.F] *)
Definition differs {A} `{EqDecision A} (o : option A) (x : A) : bool :=
  match o with Some y => negb (bool_decide (x = y)) | None => false end.

(** The order of the result is that of an iteration over the map: unspecified in Go, the
    order of [map_to_list] here; the theorems do not depend on it. *)
Definition List_ (r : CircuitBreakerRegistry) (filter : BreakerFilter) : list BreakerSnapshot :=
  snapshot <$> List.filter (λ b,
    negb (differs (bfState filter) (cbState b)
          || differs (bfToolName filter) (bkToolName (cbKey b))
          || differs (bfAgentRole filter) (bkAgentRole (cbKey b)))) (map_to_list r).*2.

(** * observe.go *)

(** The registry's [Observe]; [now] is the clock of [NewCircuitBreaker].  The listener is
    called with the transition, if any, after the lock is released. *)
Definition Registry_Observe (r : CircuitBreakerRegistry) (tool role : string) (success : bool)
    (at_ now : Time) : CircuitBreakerRegistry * option StateTransition :=
  if decide (tool = "" ∨ role = "") then (r, None) else
  let key := {| bkToolName := tool; bkAgentRole := role |} in
  let b := match r !! key with Some b => b | None => NewCircuitBreaker key now end in
  let '(b, transition) := Observe b success at_ in
  (<[key := b]> r, transition).

(** * audit_listener.go *)

Definition actionAndOutcome (t : StateTransition) : string * string :=
  match stFrom t, stTo t with
  | StateClosed, StateOpen => ("circuit_breaker_opened", reason_string (stTripReason t))
  | StateOpen, StateHalfOpen => ("circuit_breaker_half_opened", "cooldown_elapsed")
  | StateHalfOpen, StateClosed => ("circuit_breaker_closed", "probes_successful")
  | StateHalfOpen, StateOpen => ("circuit_breaker_opened", "probe_failed")
  | f, t' => ("circuit_breaker_transition", state_string f +:+ "_to_" +:+ state_string t')
  end.

(** The arguments of the one [recorder.Record] call of the listener (its error is
    dropped): action, outcome, context; the actor is system and there is no task or
    workflow. *)
Definition AuditListener (t : StateTransition) : string * string * AuditContext :=
  let '(action, outcome) := actionAndOutcome t in
  let actx := Set_ (Set_ (Set_ (Set_ NewAuditContext "tool_name" (AString (bkToolName (stKey t))))
    "agent_role" (AString (bkAgentRole (stKey t)))) "from_state" (AString (state_string (stFrom t))))
    "to_state" (AString (state_string (stTo t))) in
  let actx :=
    if decide (stFrom t = StateClosed ∧ stTo t = StateOpen) then
      Set_ (Set_ (Set_ (Set_ actx "consecutive_failures" (AInt (stConsecutiveFailures t)))
        "failure_rate" (AFloat (stFailureRate t))) "sample_size" (AInt (Z.of_nat (stSampleSize t))))
        "trip_reason" (AString (reason_string (stTripReason t)))
    else actx in
  let actx :=
    if decide (stTo t = StateClosed)
    then Set_ actx "consecutive_successes" (AInt (stConsecutiveSuccesses t)) else actx in
  (action, outcome, actx).

(** * metrics_listener.go *)

(** The counter increments of the listener: instrument and attributes. *)
Definition MetricsListener (t : StateTransition) : list (string * list (string * string)) :=
  [("Transitions", [("tool_name", bkToolName (stKey t)); ("agent_role", bkAgentRole (stKey t));
                    ("from", state_string (stFrom t)); ("to", state_string (stTo t))])] ++
  (if decide (stFrom t = StateClosed ∧ stTo t = StateOpen) then
     [("Trips", [("tool_name", bkToolName (stKey t)); ("agent_role", bkAgentRole (stKey t));
                 ("trip_reason", reason_string (stTripReason t))])]
   else []).
