(* ===== verification/ResilienceSpec.v ===== *)
(** Theorems on internal/application/resilience: the breaker refines a small abstract
    machine over the history of observations; recovery; the registry. *)

From stdpp Require Import options.
From S2P Require Import Prelude GoLib Shared AuditLog Resilience.

(** * The abstract breaker *)

(** [true] is a failure, oldest first, as in the ring buffer. *)
Abbreviation history := (list bool) (only parsing).

Definition window (h : history) : history := drop (length h - RatioWindowSize) h.
Definition failures (h : history) : nat := length (List.filter id h).

(** The number of failures since the last success. *)
Fixpoint leading_failures (h : history) : nat :=
  match h with true :: h => S (leading_failures h) | _ => 0 end.
Definition trailing_failures (h : history) : nat := leading_failures (reverse h).

(** When a closed breaker trips: three failures in a row, or at least five samples in the
    window with a strict majority of failures. *)
Definition should_trip (h : history) : option TripReason :=
  if bool_decide (3 ≤ trailing_failures h) then Some TripReasonConsecutive
  else if bool_decide (5 ≤ length (window h) ∧ length (window h) < 2 * failures (window h))
  then Some TripReasonRatio else None.

Inductive phase := PClosed | POpen (since : Time) | PHalfOpen (probes : nat).

(** One observation, [h] being the history that includes it. *)
Definition spec_step (h : history) (p : phase) (success : bool) (at_ : Time) : phase :=
  match p with
  | PClosed => match should_trip h with Some _ => POpen at_ | None => PClosed end
  | POpen since =>
      if (OpenCooldown <=? Sub at_ since)%Z
      then (if success then PHalfOpen 1 else POpen at_) else POpen since
  | PHalfOpen probes =>
      if success then (if bool_decide (3 ≤ S probes) then PClosed else PHalfOpen (S probes))
      else POpen at_
  end.

Definition observe_all (b : CircuitBreaker) (obs : list (bool * Time)) : CircuitBreaker :=
  foldl (λ b '(success, at_), (Observe b success at_).1) b obs.

Definition spec_all (obs : list (bool * Time)) : history * phase :=
  foldl (λ '(h, p) '(success, at_),
    let h := h ++ [negb success] in (h, spec_step h p success at_)) ([], PClosed) obs.

Definition phase_of (b : CircuitBreaker) : phase :=
  match cbState b, cbOpenedAt b with
  | StateClosed, _ => PClosed
  | StateOpen, Some t => POpen t
  | StateOpen, None => POpen 0
  | StateHalfOpen, _ => PHalfOpen (Z.to_nat (cbConsecutiveSuccesses b))
  end.

(** The breaker's own invariant. *)
Definition breaker_inv (b : CircuitBreaker) : Prop :=
  length (cbRingBuffer b) ≤ RatioWindowSize ∧
  match cbState b with
  | StateClosed =>
      cbOpenedAt b = None ∧ (0 ≤ cbConsecutiveFailures b < 3)%Z ∧ cbConsecutiveSuccesses b = 0%Z
  | StateOpen => is_Some (cbOpenedAt b) ∧ cbConsecutiveSuccesses b = 0%Z
  | StateHalfOpen =>
      is_Some (cbOpenedAt b) ∧ cbConsecutiveFailures b = 0%Z ∧
      (1 ≤ cbConsecutiveSuccesses b ≤ 2)%Z
  end.

(** The simulation relation. *)
Definition simulates (b : CircuitBreaker) (h : history) (p : phase) : Prop :=
  breaker_inv b ∧ cbRingBuffer b = window h ∧
  cbConsecutiveFailures b = Z.of_nat (trailing_failures h) ∧ phase_of b = p.

(** * Lemmas *)

Lemma count_failures_spec ring : count_failures ring = failures ring.
Proof.
  unfold count_failures, failures.
  assert (H : ∀ n, foldl (λ n isFailure, if (isFailure : bool) then S n else n) n ring
                   = n + length (List.filter id ring)).
  { induction ring as [|[] ring IH]; intros n; simpl; [lia| |]; rewrite IH; lia. }
  apply (H 0).
Qed.

Lemma failures_le ring : failures ring ≤ length ring.
Proof. unfold failures. induction ring as [|[] ring IH]; simpl; lia. Qed.

Lemma window_le h : length (window h) ≤ RatioWindowSize.
Proof. unfold window. rewrite length_drop. lia. Qed.

Lemma window_snoc h x : appendToRingBuffer (window h) x = window (h ++ [x]).
Proof.
  unfold appendToRingBuffer, window. rewrite length_drop, length_app. unfold RatioWindowSize.
  simpl length. case_bool_decide.
  - rewrite drop_drop, drop_app_le by lia. do 2 f_equal. lia.
  - rewrite !(proj2 (Nat.sub_0_le _ _)) by lia. done.
Qed.

Lemma trailing_snoc h x :
  trailing_failures (h ++ [x]) = if (x : bool) then S (trailing_failures h) else 0.
Proof. unfold trailing_failures. rewrite reverse_snoc. by destruct x. Qed.

Lemma trailing_le h : trailing_failures h ≤ length h.
Proof.
  unfold trailing_failures. rewrite <- (length_reverse h). generalize (reverse h).
  intros l. induction l as [|[] l IH]; simpl; lia.
Qed.

(** The float comparison of the ratio is the integer majority, for every window. *)
Definition ratio_agrees : bool :=
  forallb (λ n, forallb (λ f,
    Bool.eqb (flt RatioFailureThreshold (ratio f n)) (bool_decide (n < 2 * f))) (seq 0 21))
    (seq 1 20).

Lemma ratio_agrees_true : ratio_agrees = true.
Proof. vm_compute. reflexivity. Qed.

Lemma ratio_majority f n :
  1 ≤ n ≤ 20 → f ≤ n → flt RatioFailureThreshold (ratio f n) = bool_decide (n < 2 * f).
Proof.
  intros Hn Hf. pose proof ratio_agrees_true as H. unfold ratio_agrees in H.
  rewrite List.forallb_forall in H. specialize (H n). rewrite List.in_seq in H.
  specialize (H ltac:(lia)). rewrite List.forallb_forall in H. specialize (H f).
  rewrite List.in_seq in H. apply Bool.eqb_prop, H. lia.
Qed.

Lemma evaluateTrip_spec b h :
  cbRingBuffer b = window h → cbConsecutiveFailures b = Z.of_nat (trailing_failures h) →
  evaluateTrip b = should_trip h.
Proof.
  intros Hr Hc. unfold evaluateTrip, should_trip. rewrite Hr, Hc, count_failures_spec.
  unfold ConsecutiveFailuresThreshold, RatioMinSamples.
  destruct (3 <=? _)%Z eqn:E; boolify.
  - by rewrite (bool_decide_eq_true_2 (3 ≤ trailing_failures h)) by lia.
  - rewrite (bool_decide_eq_false_2 (3 ≤ trailing_failures h)) by lia.
    pose proof (window_le h). pose proof (failures_le (window h)). unfold RatioWindowSize in *.
    case_bool_decide as C1.
    + rewrite ratio_majority by lia. repeat case_bool_decide; try done; lia.
    + by rewrite bool_decide_eq_false_2 by lia.
Qed.

Lemma simulates_new key now : simulates (NewCircuitBreaker key now) [] PClosed.
Proof. unfold simulates, breaker_inv; simpl. split_and!; done || lia. Qed.

Lemma simulates_step b h p success at_ :
  (Z.of_nat (length h) < maxInt64)%Z → simulates b h p →
  simulates (Observe b success at_).1 (h ++ [negb success])
    (spec_step (h ++ [negb success]) p success at_).
Proof.
  intros Hlen (Hinv & Hring & Hcf & <-). pose proof (trailing_le h) as Htl.
  set (h' := h ++ [negb success]). set (b' := record_observation b success at_).
  assert (Hring' : cbRingBuffer b' = window h') by (simpl; by rewrite Hring, window_snoc).
  assert (Hcf' : cbConsecutiveFailures b' = Z.of_nat (trailing_failures h')).
  { subst b' h'. simpl. rewrite trailing_snoc, Hcf. destruct success; simpl negb; cbn iota; [done|].
    unfold wrap64, maxInt64 in *. rewrite Z.mod_small; lia. }
  pose proof (evaluateTrip_spec b' h' Hring' Hcf') as Htrip.
  assert (Hle : length (cbRingBuffer b') ≤ RatioWindowSize) by (rewrite Hring'; apply window_le).
  destruct Hinv as [_ Hinv]. unfold Observe. fold b'. cbv zeta.
  assert (Est : cbState b' = cbState b) by done.
  assert (Eo : cbOpenedAt b' = cbOpenedAt b) by done.
  assert (Ecs : cbConsecutiveSuccesses b' =
    if success then if decide (cbState b = StateHalfOpen)
      then wrap64 (cbConsecutiveSuccesses b + 1) else 0%Z else 0%Z) by done.
  assert (Hcf0 : success = true → cbConsecutiveFailures b' = 0%Z) by (by intros ->).
  clearbody b' h'. unfold simulates, breaker_inv, phase_of in *. rewrite Est.
  destruct (cbState b) eqn:Es; cbn [spec_step].
  - (* closed *)
    destruct Hinv as (Ho & Hc & Hs). rewrite <- Htrip.
    assert (Hs' : cbConsecutiveSuccesses b' = 0%Z) by (rewrite Ecs; by destruct success).
    destruct (evaluateTrip b') eqn:Et; cbn [fst set_state cbRingBuffer cbState cbOpenedAt
      cbConsecutiveFailures cbConsecutiveSuccesses].
    + split_and!; eauto.
    + rewrite Est, Eo. split_and!; try done; [lia|].
      unfold evaluateTrip, ConsecutiveFailuresThreshold in Et.
      destruct (3 <=? cbConsecutiveFailures b')%Z eqn:E3; boolify; [done|exact E3].
  - (* open *)
    destruct Hinv as ([t Ht] & Hs). rewrite Eo, Ht. cbn [spec_step].
    destruct (OpenCooldown <=? Sub at_ t)%Z eqn:Ec.
    + destruct success; simpl; rewrite ?Eo, ?Ht; split_and!; eauto; lia.
    + cbn [fst]. rewrite Est, Eo, Ht. split_and!; eauto. rewrite Ecs. by destruct success.
  - (* half open *)
    destruct Hinv as (Ho & Hc & Hs).
    destruct success; [|simpl; split_and!; eauto].
    assert (Hs' : cbConsecutiveSuccesses b' = (cbConsecutiveSuccesses b + 1)%Z).
    { rewrite Ecs, decide_True by done. unfold wrap64. rewrite Z.mod_small; lia. }
    cbn [negb]. unfold HalfOpenProbeSuccesses. rewrite Hs'.
    destruct (3 <=? _)%Z eqn:E3; boolify.
    + rewrite bool_decide_eq_true_2 by lia. simpl. rewrite <- Hcf', Hcf0 by done.
      split_and!; try done; lia.
    + rewrite bool_decide_eq_false_2 by lia. cbn [fst].
      rewrite Est, Eo, Hs', <- Hcf', Hcf0 by done. split_and!; try done; try lia. f_equal. lia.
Qed.

Lemma simulates_all key now obs :
  (Z.of_nat (length obs) ≤ maxInt64)%Z →
  let '(h, p) := spec_all obs in
  h = (λ o, negb o.1) <$> obs ∧ simulates (observe_all (NewCircuitBreaker key now) obs) h p.
Proof.
  unfold spec_all, observe_all. induction obs as [|[success at_] obs IH] using rev_ind; intros Hlen.
  - split; [done|apply simulates_new].
  - rewrite length_app in Hlen. simpl in Hlen. rewrite !foldl_app. simpl.
    destruct (foldl _ ([], PClosed) obs) as [h p]. destruct IH as [Hh IH]; [lia|].
    rewrite fmap_app, Hh. split; [done|]. apply simulates_step; [|by rewrite <- Hh].
    rewrite length_fmap. lia.
Qed.

Lemma open_success b t0 t1 :
  cbState b = StateOpen → cbOpenedAt b = Some t0 → (OpenCooldown ≤ Sub t1 t0)%Z →
  cbState (Observe b true t1).1 = StateHalfOpen ∧
  cbConsecutiveSuccesses (Observe b true t1).1 = 1%Z.
Proof.
  intros Hs Ho Hc. unfold Observe, record_observation. simpl. rewrite Hs, Ho.
  by rewrite (proj2 (Z.leb_le _ _) Hc).
Qed.

Lemma half_open_success b t :
  cbState b = StateHalfOpen →
  (cbConsecutiveSuccesses b = 1%Z →
     cbState (Observe b true t).1 = StateHalfOpen ∧
     cbConsecutiveSuccesses (Observe b true t).1 = 2%Z) ∧
  (cbConsecutiveSuccesses b = 2%Z →
     cbState (Observe b true t).1 = StateClosed ∧ cbOpenedAt (Observe b true t).1 = None).
Proof.
  intros Hs. unfold Observe, record_observation. simpl. rewrite Hs. simpl.
  split; intros ->; simpl; by rewrite ?Hs.
Qed.

(** * The registry as independent breakers *)

(** A call of the registry's [Observe]. *)
Record observation := {
  obTool : string; obRole : string; obSuccess : bool; obAt : Time; obNow : Time;
}.

Definition observation_key (o : observation) : BreakerKey :=
  {| bkToolName := obTool o; bkAgentRole := obRole o |}.

Definition registry_all (obs : list observation) : gmap BreakerKey CircuitBreaker :=
  foldl (λ r o, (Registry_Observe r (obTool o) (obRole o) (obSuccess o) (obAt o) (obNow o)).1)
    NewCircuitBreakerRegistry obs.

(** The observations of one breaker. *)
Definition of_key (key : BreakerKey) (obs : list observation) : list observation :=
  filter (λ o, observation_key o = key) obs.

(** The breaker made by its own observations. *)
Definition breaker_alone (key : BreakerKey) (obs : list observation) : option CircuitBreaker :=
  match obs with
  | [] => None
  | o :: _ => Some (observe_all (NewCircuitBreaker key (obNow o))
                      ((λ o, (obSuccess o, obAt o)) <$> obs))
  end.

Lemma breaker_alone_snoc key obs o :
  breaker_alone key (obs ++ [o]) =
  Some (Observe (default (NewCircuitBreaker key (obNow o)) (breaker_alone key obs))
          (obSuccess o) (obAt o)).1.
Proof.
  destruct obs as [|o1 obs]; [done|]. simpl. unfold observe_all.
  rewrite fmap_app, foldl_app. done.
Qed.

Lemma registry_lookup obs key :
  bkToolName key ≠ "" → bkAgentRole key ≠ "" →
  registry_all obs !! key = breaker_alone key (of_key key obs).
Proof.
  intros Ht Hr. unfold registry_all, of_key.
  induction obs as [|o obs IH] using rev_ind; [done|].
  rewrite foldl_app, list.filter_app, filter_cons, filter_nil. simpl.
  match type of IH with ?r !! _ = _ => set (reg := r) in * end. clearbody reg.
  unfold Registry_Observe. destruct (decide (obTool o = "" ∨ obRole o = "")) as [D|D]; simpl.
  - rewrite decide_False, app_nil_r; [done|]. intros <-. simpl in *. naive_solver.
  - fold (observation_key o). destruct (decide (observation_key o = key)) as [<-|N].
    + rewrite breaker_alone_snoc, IH. destruct (breaker_alone _ _); simpl;
        destruct (Observe _ _ _); simpl; by rewrite lookup_insert_eq.
    + rewrite app_nil_r. destruct (Observe _ _ _); simpl. by rewrite lookup_insert_ne.
Qed.

(** * Theorems *)

(** C29: refinement: after any sequence of (fewer than 2^63) observations a breaker is in
    the state of the abstract machine that sees the history only: its ring buffer is
    the last 20 observations, its failure counter the failures since the last success,
    it trips exactly on three failures in a row or on a strict majority of failures
    among at least five samples (the float64 ratio decides this exactly), it stays open
    until the cooldown has elapsed, and closes after three successful probes; and its
    fields satisfy the breaker invariant. *)
Theorem breaker_refines_spec key now obs :
  (Z.of_nat (length obs) ≤ maxInt64)%Z →
  let b := observe_all (NewCircuitBreaker key now) obs in
  let h := (λ o, negb o.1) <$> obs in
  phase_of b = (spec_all obs).2 ∧ cbRingBuffer b = window h ∧
  cbConsecutiveFailures b = Z.of_nat (trailing_failures h) ∧ breaker_inv b.
Proof.
  intros Hlen. pose proof (simulates_all key now obs Hlen) as H.
  destruct (spec_all obs) as [h p]. destruct H as [-> (Hinv & Hring & Hcf & Hp)]. auto.
Qed.

(** Every reported transition is legal and is the breaker's new state: closed to open
    with a trip reason, open to half open on a success, half open to open on a failure
    (also when the failure is the first observation after the cooldown), half open to
    closed on a success; when none is reported the state is unchanged; and the audit
    entry the listener makes of it has a non blank action and outcome. *)
Theorem breaker_transitions_legal b success at_ :
  let '(b', tr) := Observe b success at_ in
  match tr with
  | None => cbState b' = cbState b
  | Some t =>
      cbState b' = stTo t ∧ stKey t = cbKey b ∧ stAt t = at_ ∧
      match cbState b, stFrom t, stTo t with
      | StateClosed, StateClosed, StateOpen => stTripReason t ≠ TripReasonNone
      | StateOpen, StateOpen, StateHalfOpen => success = true
      | StateOpen, StateHalfOpen, StateOpen => success = false
      | StateHalfOpen, StateHalfOpen, StateOpen => success = false
      | StateHalfOpen, StateHalfOpen, StateClosed => success = true
      | _, _, _ => False
      end ∧
      TrimSpace (AuditListener t).1.1 ≠ "" ∧ TrimSpace (AuditListener t).1.2 ≠ ""
  end.
Proof.
  unfold Observe. cbv zeta. change (cbState (record_observation b success at_)) with (cbState b).
  change (cbOpenedAt (record_observation b success at_)) with (cbOpenedAt b).
  destruct (cbState b) eqn:Es.
  - destruct (evaluateTrip _) as [[]|] eqn:Et; simpl; [repeat (done || split)..| |exact Es].
    unfold evaluateTrip in Et. repeat case_match; simplify_eq.
  - destruct (cbOpenedAt b); simpl; [|done]. destruct (_ <=? _)%Z; simpl; [|done].
    destruct success; repeat (done || split).
  - destruct success; simpl; [|repeat (done || split)].
    destruct (_ <=? _)%Z; simpl; repeat (done || split).
Qed.

(** C30: recovery: an open breaker whose cooldown has elapsed at the next observation is
    closed by three successes in a row, through half open, whatever the state of its
    counters and window. *)
Theorem breaker_recovers b t0 t1 t2 t3 :
  cbState b = StateOpen → cbOpenedAt b = Some t0 → (OpenCooldown ≤ Sub t1 t0)%Z →
  cbState (observe_all b [(true, t1)]) = StateHalfOpen ∧
  cbState (observe_all b [(true, t1); (true, t2)]) = StateHalfOpen ∧
  cbState (observe_all b [(true, t1); (true, t2); (true, t3)]) = StateClosed ∧
  cbOpenedAt (observe_all b [(true, t1); (true, t2); (true, t3)]) = None.
Proof.
  intros Hs Ho Hc. destruct (open_success b t0 t1 Hs Ho Hc) as [H1 C1].
  destruct (half_open_success (Observe b true t1).1 t2 H1) as [H2 _]. specialize (H2 C1).
  destruct H2 as [H2 C2].
  destruct (half_open_success (Observe (Observe b true t1).1 true t2).1 t3 H2) as [_ H3].
  destruct (H3 C2) as [H4 H5]. split_and!; [exact H1|exact H2|exact H4|exact H5].
Qed.

(** C31: isolation: in a registry, the breaker of a tool and a role is what its own
    observations alone make of it, in their order, however the observations of other
    pairs are interleaved; a pair never observed has no breaker. *)
Theorem registry_isolation obs key :
  bkToolName key ≠ "" → bkAgentRole key ≠ "" →
  registry_all obs !! key = breaker_alone key (of_key key obs).
Proof. apply registry_lookup. Qed.

(** A closed breaker can open on a success.  The window is kept while the breaker
    recovers: after three failures, two more while open, and a full recovery, the next
    success finds five failures among nine samples and trips the breaker again. *)
Theorem breaker_success_can_trip :
  let obs := [(false, 1); (false, 2); (false, 3); (false, 4); (false, 5);
              (true, 3 + OpenCooldown); (true, 4 + OpenCooldown); (true, 5 + OpenCooldown)]%Z in
  let b := observe_all (NewCircuitBreaker {| bkToolName := "shell"; bkAgentRole := "dev" |} 0) obs in
  cbState b = StateClosed ∧
  ∃ b' t, Observe b true (6 + OpenCooldown)%Z = (b', Some t) ∧ cbState b' = StateOpen ∧
          stTripReason t = TripReasonRatio.
Proof. split; [vm_compute; reflexivity|]. do 2 eexists. split; [vm_compute; reflexivity|done]. Qed.

(** * Witnesses *)

Definition demo_key : BreakerKey := {| bkToolName := "shell"; bkAgentRole := "dev" |}.

Lemma breaker_refines_spec_witness :
  phase_of (observe_all (NewCircuitBreaker demo_key 0) [(false, 1); (false, 2); (false, 3)]%Z)
  = POpen 3.
Proof.
  destruct (breaker_refines_spec demo_key 0 [(false, 1); (false, 2); (false, 3)]%Z) as [H _];
    [vm_compute; discriminate|]. rewrite H. vm_compute. reflexivity.
Defined.

Lemma breaker_recovers_witness :
  let b := observe_all (NewCircuitBreaker demo_key 0) [(false, 1); (false, 2); (false, 3)]%Z in
  cbState b = StateOpen ∧
  cbState (observe_all b [(true, 3 + OpenCooldown); (true, 4 + OpenCooldown);
                          (true, 5 + OpenCooldown)]%Z) = StateClosed.
Proof.
  split; [reflexivity|].
  apply (breaker_recovers _ 3 (3 + OpenCooldown) (4 + OpenCooldown) (5 + OpenCooldown));
    [reflexivity|reflexivity|vm_compute; discriminate].
Defined.

Definition demo_obs : list observation :=
  [{| obTool := "shell"; obRole := "dev"; obSuccess := false; obAt := 1; obNow := 1 |};
   {| obTool := "git"; obRole := "dev"; obSuccess := true; obAt := 2; obNow := 2 |};
   {| obTool := "shell"; obRole := "dev"; obSuccess := true; obAt := 3; obNow := 3 |}].

Lemma registry_isolation_witness :
  registry_all demo_obs !! demo_key
  = Some (observe_all (NewCircuitBreaker demo_key 1) [(false, 1); (true, 3)]%Z).
Proof.
  rewrite (registry_isolation demo_obs demo_key); [reflexivity|discriminate|discriminate].
Defined.
