(* ===== verification/Trace.v ===== *)
(** internal/domain/trace (W3C traceparent values and their context) and
    internal/adapters/inbound/http/middleware/trace.go (propagation per request). *)

From stdpp Require Import options.
From S2P Require Import Prelude GoLib.

(** * Randomness *)

(** An [io.Reader] is the bytes it still has; [io.ReadFull] takes [n] of them, or
    consumes what is left and fails. *)
Abbreviation Reader := (list N) (only parsing).

Definition io_EOF : error := Sentinel "io.EOF" "EOF".
Definition io_ErrUnexpectedEOF : error := Sentinel "io.ErrUnexpectedEOF" "unexpected EOF".

Definition ReadFull (r : Reader) (n : nat) : result (list N) * Reader :=
  if decide (n ≤ length r) then (Ok (take n r), drop n r)
  else (Err (if decide (length r = 0) then io_EOF else io_ErrUnexpectedEOF), []).

(** * trace.go *)

Definition ErrInvalidTraceparent : error :=
  Sentinel "trace.ErrInvalidTraceparent" "trace: invalid traceparent header".

Record Trace := { tcTraceID : string; tcSpanID : string; tcSampled : bool }.

#[export] Instance Trace_eq_dec : EqDecision Trace.
Proof. solve_decision. Defined.

Definition New (rand : Reader) : result Trace * Reader :=
  match ReadFull rand 16 with
  | (Err err, rand) => (Err (Wrapf "trace.New: read trace_id: %w" [] err), rand)
  | (Ok traceBytes, rand) =>
      match ReadFull rand 8 with
      | (Err err, rand) => (Err (Wrapf "trace.New: read span_id: %w" [] err), rand)
      | (Ok spanBytes, rand) =>
          (Ok {| tcTraceID := EncodeToString traceBytes; tcSpanID := EncodeToString spanBytes;
                 tcSampled := true |}, rand)
      end
  end.

Definition is_hex_char (c : Ascii.ascii) : bool :=
  let n := byte_of c in
  (((48 <=? n) && (n <=? 57)) || ((97 <=? n) && (n <=? 102)) || ((65 <=? n) && (n <=? 70)))%N.

Definition isHex (s : string) : bool :=
  str_forallb is_hex_char s && bool_decide (0 < String.length s).

Definition allZeros (s : string) : bool := str_forallb (λ c, bool_decide (c = "0"%char)) s.

Definition validateHex (s : string) (expectedLen : nat) (field : string) : result unit :=
  if decide (String.length s ≠ expectedLen) then
    Err (Wrapf "%w: %s must be %d hex chars, got %d"
           [field; pretty expectedLen; pretty (String.length s)] ErrInvalidTraceparent)
  else if negb (isHex s) then
    Err (Wrapf "%w: %s contains non-hex characters" [field] ErrInvalidTraceparent)
  else Ok ().

Definition Parse (traceparent : string) : result Trace :=
  match Split "-"%char traceparent with
  | [version; traceID; spanID; flags] =>
      if decide (version ≠ "00") then
        Err (Wrapf "%w: unsupported version %q" [version] ErrInvalidTraceparent)
      else
        _ ← validateHex traceID 32 "trace_id";
        if allZeros traceID then
          Err (Wrapf "%w: trace_id must not be all zeros" [] ErrInvalidTraceparent)
        else
          _ ← validateHex spanID 16 "span_id";
          if allZeros spanID then
            Err (Wrapf "%w: span_id must not be all zeros" [] ErrInvalidTraceparent)
          else if decide (String.length flags ≠ 2) then
            Err (Wrapf "%w: flags must be 2 hex chars" [] ErrInvalidTraceparent)
          else
            match DecodeString flags with
            | Some (flagByte :: _) =>
                Ok {| tcTraceID := ToLower traceID; tcSpanID := ToLower spanID;
                      tcSampled := negb (N.land flagByte 1 =? 0)%N |}
            | _ => Err (Wrapf "%w: flags not valid hex: %s" [flags] ErrInvalidTraceparent)
            end
  | parts =>
      Err (Wrapf "%w: expected 4 segments, got %d" [pretty (length parts)] ErrInvalidTraceparent)
  end.

(** The [String] method. *)
Definition Trace_String (t : Trace) : string :=
  let flags := if tcSampled t then "01" else "00" in
  "00-" +:+ tcTraceID t +:+ "-" +:+ tcSpanID t +:+ "-" +:+ flags.

Definition WithNewSpan (t : Trace) (rand : Reader) : result Trace * Reader :=
  match ReadFull rand 8 with
  | (Err err, rand) => (Err (Wrapf "trace.WithNewSpan: read span_id: %w" [] err), rand)
  | (Ok spanBytes, rand) =>
      (Ok {| tcTraceID := tcTraceID t; tcSpanID := EncodeToString spanBytes;
             tcSampled := tcSampled t |}, rand)
  end.

(** [for i, b := range []byte(id) { out[i%16] ^= b }] *)
Fixpoint xor_spread (i : nat) (id : string) (out : list N) : list N :=
  match id with
  | EmptyString => out
  | String c id => xor_spread (S i) id (alter (λ o, N.lxor o (byte_of c)) (i mod 16) out)
  end.

Definition normaliseRequestID (id : string) : string :=
  let stripped := ToLower (RemoveAll "-"%char id) in
  if bool_decide (String.length stripped = 32) && isHex stripped && negb (allZeros stripped)
  then stripped
  else
    let out := xor_spread 0 id (replicate 16 0%N) in
    let out := if allZeros (EncodeToString out) then <[15 := 1%N]> out else out in
    EncodeToString out.

Definition FromRequestID (requestID : string) (rand : Reader) : result Trace * Reader :=
  let traceID := normaliseRequestID requestID in
  match ReadFull rand 8 with
  | (Err err, rand) => (Err (Wrapf "trace.FromRequestID: read span_id: %w" [] err), rand)
  | (Ok spanBytes, rand) =>
      (Ok {| tcTraceID := traceID; tcSpanID := EncodeToString spanBytes; tcSampled := true |}, rand)
  end.

(** * context.go *)

(** A [context.Context], as far as this key goes: the innermost value stored under it. *)
Record Context := { cxTrace : option Trace }.

Definition NewContext (ctx : Context) (t : Trace) : Context := {| cxTrace := Some t |}.
Definition FromContext (ctx : Context) : option Trace := cxTrace ctx.

Definition ChildSpan (ctx : Context) (rand : Reader) : Context * result Trace * Reader :=
  let '(child, rand) :=
    match FromContext ctx with
    | Some parent => WithNewSpan parent rand
    | None => New rand
    end in
  match child with
  | Err err => (ctx, Err err, rand)
  | Ok child => (NewContext ctx child, Ok child, rand)
  end.

(** * middleware/trace.go *)

(** The headers of a request that matter here; [""] when absent ([Header.Get]). *)
Record Request := { rqTraceparent : string; rqXRequestID : string; rqContext : Context }.

Definition traceFromRequest (r : Request) (rand : Reader) : result Trace * Reader :=
  if decide (rqTraceparent r ≠ "") then (Parse (rqTraceparent r), rand)
  else if decide (rqXRequestID r ≠ "") then FromRequestID (rqXRequestID r) rand
  else New rand.

(** What the next handler sees: its request context and the Traceparent header already
    set on the response, if any.  (The warning logged on the error path is not
    modelled.) *)
Definition TraceW3C (r : Request) (rand : Reader) : (Context * option string) * Reader :=
  let inject (t : Trace) (rand : Reader) :=
    ((NewContext (rqContext r) t, Some (Trace_String t)), rand) in
  match traceFromRequest r rand with
  | (Ok t, rand) => inject t rand
  | (Err _, rand) =>
      match New rand with
      | (Ok fresh, rand) => inject fresh rand
      | (Err _, rand) => ((rqContext r, None), rand)
      end
  end.

(** * Specification *)

(** [0-9a-f] *)
Definition is_lower_hex (c : Ascii.ascii) : bool :=
  let n := byte_of c in (((48 <=? n) && (n <=? 57)) || ((97 <=? n) && (n <=? 102)))%N.

(** A valid identifier of [n] lower case hexadecimal digits, not all zero. *)
Definition valid_id (n : nat) (s : string) : Prop :=
  String.length s = n ∧ str_forallb is_lower_hex s = true ∧ allZeros s = false.

Definition valid_trace (t : Trace) : Prop :=
  valid_id 32 (tcTraceID t) ∧ valid_id 16 (tcSpanID t).

(** * Lemmas *)

Lemma str_forallb_impl (p q : Ascii.ascii → bool) s :
  (∀ c, p c = true → q c = true) → str_forallb p s = true → str_forallb q s = true.
Proof. intros H. induction s; simpl; [done|]. rewrite !andb_true_iff. naive_solver. Qed.

Lemma lower_hex_hex c : is_lower_hex c = true → is_hex_char c = true.
Proof. unfold is_lower_hex, is_hex_char. intros ->. done. Qed.

Lemma ascii_all (p : Ascii.ascii → bool) :
  forallb (λ n, p (of_byte (N.of_nat n))) (seq 0 256) = true → ∀ c, p c = true.
Proof.
  intros H c. rewrite List.forallb_forall in H. specialize (H (N.to_nat (byte_of c))).
  rewrite List.in_seq, N2Nat.id in H. unfold of_byte, byte_of in *.
  rewrite Ascii.ascii_N_embedding in H. apply H.
  pose proof (Ascii.N_ascii_bounded c). lia.
Qed.

Lemma lower_lower_hex c : is_lower_hex c = true → lower_ascii c = c.
Proof.
  assert (K : ∀ c, negb (is_lower_hex c) || bool_decide (lower_ascii c = c) = true)
    by (apply ascii_all; vm_compute; reflexivity).
  intros H. specialize (K c). rewrite H in K. by apply bool_decide_eq_true in K.
Qed.

Lemma hex_lower c : is_hex_char c = true → is_lower_hex (lower_ascii c) = true.
Proof.
  assert (K : ∀ c, negb (is_hex_char c) || is_lower_hex (lower_ascii c) = true)
    by (apply ascii_all; vm_compute; reflexivity).
  intros H. specialize (K c). by rewrite H in K.
Qed.

Lemma lower_zero c : bool_decide (lower_ascii c = "0"%char) = bool_decide (c = "0"%char).
Proof.
  assert (K : ∀ c, Bool.eqb (bool_decide (lower_ascii c = "0"%char))
                     (bool_decide (c = "0"%char)) = true)
    by (apply ascii_all; vm_compute; reflexivity).
  apply Bool.eqb_prop, K.
Qed.

Lemma ToLower_length s : String.length (ToLower s) = String.length s.
Proof. induction s; simpl; auto. Qed.

Lemma ToLower_id s : str_forallb is_lower_hex s = true → ToLower s = s.
Proof.
  induction s; simpl; [done|]. rewrite andb_true_iff. intros [H1 H2].
  rewrite lower_lower_hex by done. f_equal. auto.
Qed.

Lemma ToLower_hex s : str_forallb is_hex_char s = true → str_forallb is_lower_hex (ToLower s) = true.
Proof.
  induction s; simpl; [done|]. rewrite !andb_true_iff. intros [H1 H2]. auto using hex_lower.
Qed.

Lemma ToLower_zeros s : allZeros (ToLower s) = allZeros s.
Proof. unfold allZeros. induction s as [|c s IH]; simpl; [done|]. by rewrite IH, lower_zero. Qed.

Lemma isHex_str s : isHex s = true → str_forallb is_hex_char s = true.
Proof. unfold isHex. rewrite andb_true_iff. tauto. Qed.

Lemma Split_no_sep s : str_forallb is_hex_char s = true → Split "-"%char s = [s].
Proof.
  induction s as [|c s IH]; simpl; [done|]. rewrite andb_true_iff. intros [Hc Hs].
  rewrite decide_False; [by rewrite IH|]. intros ->. discriminate Hc.
Qed.

Lemma Split_cons_sep s r :
  str_forallb is_hex_char s = true →
  Split "-"%char (s +:+ String "-"%char r) = s :: Split "-"%char r.
Proof.
  induction s as [|c s IH]; simpl; [done|]. rewrite andb_true_iff. intros [Hc Hs].
  rewrite decide_False; [by rewrite IH|]. intros ->. discriminate Hc.
Qed.

Lemma validateHex_Ok s n f :
  validateHex s n f = Ok () ↔ String.length s = n ∧ isHex s = true.
Proof. unfold validateHex. case_decide; [naive_solver|]. destruct (isHex s); naive_solver. Qed.

Lemma valid_id_isHex n s : 0 < n → valid_id n s → isHex s = true.
Proof.
  intros Hn (Hl & Hh & _). unfold isHex. rewrite (str_forallb_impl _ _ _ lower_hex_hex Hh).
  simpl. apply bool_decide_eq_true. lia.
Qed.

Lemma valid_id_ToLower n s :
  String.length s = n → isHex s = true → allZeros s = false → valid_id n (ToLower s).
Proof.
  intros Hl Hh Hz. split_and!; [by rewrite ToLower_length|by apply ToLower_hex, isHex_str|].
  by rewrite ToLower_zeros.
Qed.

(** Hexadecimal digits, one by one. *)
Lemma hex_digit_spec n :
  (n < 16)%N → is_lower_hex (hex_digit n) = true ∧ (hex_digit n = "0"%char ↔ n = 0%N).
Proof.
  intros Hn.
  assert (K : forallb (λ n, is_lower_hex (hex_digit (N.of_nat n)) &&
      Bool.eqb (bool_decide (hex_digit (N.of_nat n) = "0"%char)) (N.of_nat n =? 0)%N) (seq 0 16)
      = true) by (vm_compute; reflexivity).
  rewrite List.forallb_forall in K. specialize (K (N.to_nat n)).
  rewrite List.in_seq, N2Nat.id, andb_true_iff in K. destruct K as [K1 K2]; [lia|].
  split; [done|]. apply Bool.eqb_prop in K2. rewrite <- N.eqb_eq, <- K2. by rewrite bool_decide_eq_true.
Qed.

Definition is_byte (b : N) : Prop := (b < 256)%N.

Lemma byte_digits b : is_byte b → (b / 16 < 16)%N ∧ (b mod 16 < 16)%N.
Proof. unfold is_byte. intros H. split; [apply N.Div0.div_lt_upper_bound|apply N.mod_lt]; lia. Qed.

Lemma Encode_length bs : String.length (EncodeToString bs) = 2 * length bs.
Proof. induction bs; simpl; lia. Qed.

Lemma Encode_lower bs : Forall is_byte bs → str_forallb is_lower_hex (EncodeToString bs) = true.
Proof.
  induction 1 as [|b bs Hb _ IH]; [done|]. destruct (byte_digits b Hb) as [H1 H2].
  cbn [EncodeToString str_forallb]. rewrite IH, (proj1 (hex_digit_spec _ H1)).
  by rewrite (proj1 (hex_digit_spec _ H2)).
Qed.

Lemma Encode_zeros bs :
  Forall is_byte bs → allZeros (EncodeToString bs) = true ↔ Forall (λ b, b = 0%N) bs.
Proof.
  unfold allZeros. induction 1 as [|b bs Hb _ IH]; [done|].
  destruct (byte_digits b Hb) as [H1 H2]. cbn [EncodeToString str_forallb].
  rewrite !andb_true_iff, IH, Forall_cons, !bool_decide_eq_true.
  rewrite (proj2 (hex_digit_spec _ H1)), (proj2 (hex_digit_spec _ H2)).
  pose proof (N.div_mod b 16 ltac:(done)). split; [intros (E1 & E2 & ?); split; [lia|done]|].
  intros [-> ?]. done.
Qed.

Lemma lxor_byte a b : is_byte a → is_byte b → is_byte (N.lxor a b).
Proof.
  unfold is_byte. change 256%N with (2 ^ 8)%N. intros Ha Hb.
  replace (N.lxor a b) with ((N.lxor a b) mod 2 ^ 8)%N; [apply N.mod_lt; lia|].
  apply N.bits_inj. intros i. destruct (decide (i < 8)%N) as [Hi|Hi].
  - by rewrite N.mod_pow2_bits_low.
  - rewrite N.mod_pow2_bits_high by lia. rewrite N.lxor_spec.
    rewrite <- (N.mod_small a (2 ^ 8)), <- (N.mod_small b (2 ^ 8)) by done.
    by rewrite !N.mod_pow2_bits_high by lia.
Qed.

Lemma byte_of_is_byte c : is_byte (byte_of c).
Proof. apply Ascii.N_ascii_bounded. Qed.

Lemma xor_spread_bytes id : ∀ i out,
  Forall is_byte out →
  Forall is_byte (xor_spread i id out) ∧ length (xor_spread i id out) = length out.
Proof.
  induction id as [|c id IH]; intros i out Ho; cbn [xor_spread]; [done|].
  destruct (IH (S i) (alter (λ o, N.lxor o (byte_of c)) (i mod 16) out)) as [H1 H2].
  - apply Forall_alter; [done|]. intros x _ Hx. apply lxor_byte; [done|apply byte_of_is_byte].
  - split; [done|]. by rewrite H2, length_alter.
Qed.

Lemma normaliseRequestID_valid id : valid_id 32 (normaliseRequestID id).
Proof.
  unfold normaliseRequestID. cbv zeta. destruct (_ && _ && _) eqn:E.
  { apply andb_true_iff in E as [E Ez]. apply andb_true_iff in E as [El Eh].
    apply bool_decide_eq_true in El. apply negb_true_iff in Ez. split_and!; [done| |done].
    apply isHex_str in Eh. clear -Eh. revert Eh. generalize (RemoveAll "-"%char id).
    intros s. induction s as [|c s IH]; simpl; [done|]. rewrite !andb_true_iff. intros [H1 H2].
    split; [|auto].
    assert (K : ∀ c, negb (is_hex_char (lower_ascii c)) || is_lower_hex (lower_ascii c) = true)
      by (apply ascii_all; vm_compute; reflexivity).
    specialize (K c). by rewrite H1 in K. }
  destruct (xor_spread_bytes id 0 (replicate 16 0%N)) as [Hb Hl].
  { apply Forall_replicate. by unfold is_byte. }
  rewrite length_replicate in Hl. generalize dependent (xor_spread 0 id (replicate 16 0%N)).
  intros out Hb Hl. destruct (allZeros (EncodeToString out)) eqn:Z.
  - assert (Hb' : Forall is_byte (<[15:=1%N]> out))
      by (apply Forall_insert; [done|by unfold is_byte]).
    split_and!; [by rewrite Encode_length, length_insert, Hl|by apply Encode_lower|].
    apply not_true_iff_false. rewrite Encode_zeros by done. intros HF.
    rewrite Forall_lookup in HF.
    assert (Hin : <[15:=1%N]> out !! 15 = Some 1%N) by (apply list_lookup_insert_eq; lia).
    by apply HF in Hin.
  - split_and!; [by rewrite Encode_length, Hl|by apply Encode_lower|done].
Qed.

Lemma Parse_Ok s t : Parse s = Ok t → valid_trace t.
Proof.
  unfold Parse. destruct (Split _ s) as [|v [|tid [|sid [|fl [|]]]]]; try done.
  case_decide; [done|]. destruct (validateHex tid 32 "trace_id") as [[]|] eqn:E1; [|done].
  simpl. destruct (allZeros tid) eqn:Z1; [done|].
  destruct (validateHex sid 16 "span_id") as [[]|] eqn:E2; [|done].
  simpl. destruct (allZeros sid) eqn:Z2; [done|]. case_decide; [done|].
  apply validateHex_Ok in E1 as [L1 H1]. apply validateHex_Ok in E2 as [L2 H2].
  destruct (DecodeString fl) as [[|]|]; [done| |done]. intros [= <-].
  split; by apply valid_id_ToLower.
Qed.

Lemma Parse_String_valid t : valid_trace t → Parse (Trace_String t) = Ok t.
Proof.
  intros [Ht Hs]. pose proof (valid_id_isHex 32 _ ltac:(lia) Ht) as Hxt.
  pose proof (valid_id_isHex 16 _ ltac:(lia) Hs) as Hxs. unfold Trace_String. cbv zeta.
  set (fl := if tcSampled t then "01" else "00").
  change ("00-" +:+ tcTraceID t +:+ "-" +:+ tcSpanID t +:+ "-" +:+ fl)
    with ("00" +:+ String "-"%char (tcTraceID t +:+ String "-"%char
            (tcSpanID t +:+ String "-"%char fl))).
  unfold Parse. rewrite !Split_cons_sep by (done || by apply isHex_str).
  rewrite Split_no_sep by (subst fl; by destruct (tcSampled t)).
  destruct Ht as (Lt & HLt & Zt), Hs as (Ls & HLs & Zs).
  rewrite decide_False by auto. rewrite (proj2 (validateHex_Ok _ _ _)) by done. simpl.
  rewrite Zt, (proj2 (validateHex_Ok _ _ _)) by done. simpl. rewrite Zs.
  rewrite !ToLower_id by done. subst fl. by destruct t as [? ? []].
Qed.

Lemma New_fails rand e rand' : New rand = (Err e, rand') → rand' = [].
Proof.
  unfold New, ReadFull. repeat case_decide; naive_solver.
Qed.

(** * Theorems *)


(** The trace id made of any X-Request-ID is valid: 32 lower case hexadecimal digits,
    not all zero; so a request with that header and no Traceparent, given eight random bytes
    that are not all zero, gets a trace that other services accept. *)
Theorem request_id_trace_valid id rand :
  valid_id 32 (normaliseRequestID id) ∧
  (8 ≤ length rand → Forall is_byte rand → ¬ Forall (λ b, b = 0%N) (take 8 rand) →
   ∃ t, (FromRequestID id rand).1 = Ok t ∧ tcTraceID t = normaliseRequestID id ∧
        Parse (Trace_String t) = Ok t).
Proof.
  split; [apply normaliseRequestID_valid|]. intros Hl Hb Hz. unfold FromRequestID, ReadFull.
  rewrite decide_True by done. simpl. eexists. split; [done|]. split; [done|].
  assert (Hb' : Forall is_byte (take 8 rand)) by (by apply Forall_take).
  apply Parse_String_valid. split; [apply normaliseRequestID_valid|]. simpl. split_and!.
  - rewrite Encode_length, length_take. lia.
  - by apply Encode_lower.
  - apply not_true_iff_false. by rewrite Encode_zeros.
Qed.

(** The middleware propagates: a request with an acceptable Traceparent is handled in
    a context that carries exactly that trace (case normalised), the response echoes it,
    and no randomness is consumed; with an unacceptable one it is handled like a
    request with no trace header: a fresh trace, never a rejection. *)
Theorem middleware_propagates r rand :
  rqTraceparent r ≠ "" →
  match Parse (rqTraceparent r) with
  | Ok t => TraceW3C r rand = ((NewContext (rqContext r) t, Some (Trace_String t)), rand)
  | Err _ =>
      TraceW3C r rand =
      TraceW3C {| rqTraceparent := ""; rqXRequestID := ""; rqContext := rqContext r |} rand
  end.
Proof.
  intros H. unfold TraceW3C, traceFromRequest. rewrite decide_True by done.
  destruct (Parse (rqTraceparent r)) as [t|e]; [done|]. simpl.
  destruct (New rand) as [[t|e'] rand'] eqn:E; [done|]. apply New_fails in E as ->. done.
Qed.

(** * Witnesses *)

Definition demo_request (h : string) : Request :=
  {| rqTraceparent := h; rqXRequestID := ""; rqContext := {| cxTrace := None |} |}.

Lemma middleware_propagates_witness :
  TraceW3C (demo_request "00-4BF92F3577B34DA6A3CE929D0E0E4736-00f067aa0ba902b7-01") [1%N] =
  ((NewContext {| cxTrace := None |}
      {| tcTraceID := "4bf92f3577b34da6a3ce929d0e0e4736"; tcSpanID := "00f067aa0ba902b7";
         tcSampled := true |},
    Some "00-4bf92f3577b34da6a3ce929d0e0e4736-00f067aa0ba902b7-01"), [1%N]).
Proof.
  pose proof (middleware_propagates
    (demo_request "00-4BF92F3577B34DA6A3CE929D0E0E4736-00f067aa0ba902b7-01") [1%N]
    ltac:(discriminate)) as H.
  vm_compute in H. vm_compute. exact H.
Defined.
