(* ===== verification/FailureStatsCollector.v ===== *)
(** internal/application/routing/failure_stats_collector.go and failure_stats_store.go:
    aggregation of the audit trail into the statistics of adaptive routing. *)

From stdpp Require Import options.
From S2P Require Import Prelude GoLib Shared AuditLog Routing.

(** * failure_stats_store.go *)

(** The atomic pointer: [None] before the first [Update]. *)
Abbreviation FailureStatsStore := (option FailureStats) (only parsing).

Definition NewFailureStatsStore : FailureStatsStore := None.
Definition Store_Get (s : FailureStatsStore) : option FailureStats := s.
Definition Store_Update (s : FailureStatsStore) (stats : FailureStats) : FailureStatsStore :=
  Some stats.

(** * failure_stats_collector.go *)

Definition DefaultRefreshInterval : Duration := (5 * Minute)%Z.
Definition DefaultStatsWindow : Duration := (48 * Hour)%Z.

Definition zero_rate : FailureRate :=
  {| frTotal := 0; frFailures := 0; frRate := S754_zero false |}.

(** [fr := m[k]; fr.Total++; if isFailure { fr.Failures++ }; m[k] = fr] *)
Definition count_in `{Countable K} (m : gmap K FailureRate) (k : K) (isFailure : bool)
    : gmap K FailureRate :=
  let fr := default zero_rate (m !! k) in
  <[k := {| frTotal := wrap64 (frTotal fr + 1);
            frFailures := if isFailure then wrap64 (frFailures fr + 1) else frFailures fr;
            frRate := frRate fr |}]> m.

Record buckets := {
  byStratRoleCat : gmap StatsKey FailureRate;
  byStratCat : gmap StatsKey FailureRate;
  byStrat : gmap RoutingStrategy FailureRate;
}.

(** What the loop reads of an entry. *)
Definition strategyRaw (entry : AuditEntry) : string := get_string (aeContext entry) "strategy_used".
Definition entry_role (entry : AuditEntry) : string := get_string (aeContext entry) "agent_role".
Definition entry_category (entry : AuditEntry) : string :=
  ExtractCategory (get_string (aeContext entry) "failure_code").
Definition isFailure (entry : AuditEntry) : bool :=
  bool_decide (aeOutcome entry = "failure") || bool_decide (aeOutcome entry = "retry").

(** One iteration of the loop over the entries. *)
Definition count_entry (b : buckets) (entry : AuditEntry) : buckets :=
  if decide (strategyRaw entry = "") then b else
  let strategy : RoutingStrategy := of_string (strategyRaw entry) in
  let role := entry_role entry in
  let category := entry_category entry in
  {| byStrat := count_in (byStrat b) strategy (isFailure entry);
     byStratCat :=
       if decide (category ≠ "") then
         count_in (byStratCat b) {| skStrategy := strategy; skRole := ""; skCategory := category |}
           (isFailure entry)
       else byStratCat b;
     byStratRoleCat :=
       if decide (role ≠ "" ∧ category ≠ "") then
         count_in (byStratRoleCat b)
           {| skStrategy := strategy; skRole := role; skCategory := category |} (isFailure entry)
       else byStratRoleCat b |}.

(** The loops that compute the rates. *)
Definition compute_rate (v : FailureRate) : FailureRate :=
  if (0 <? frTotal v)%Z then
    {| frTotal := frTotal v; frFailures := frFailures v;
       frRate := fdiv (float_of_int (frFailures v)) (float_of_int (frTotal v)) |}
  else v.

Definition empty_buckets : buckets := {| byStratRoleCat := ∅; byStratCat := ∅; byStrat := ∅ |}.

(** The statistics of the queried entries. *)
Definition build_stats (entries : list AuditEntry) (now : Time) (window : Duration) : FailureStats :=
  let b := foldl count_entry empty_buckets entries in
  {| fsByStrategyRoleCategory := Some (compute_rate <$> byStratRoleCat b);
     fsByStrategyCategory := Some (compute_rate <$> byStratCat b);
     fsByStrategy := Some (compute_rate <$> byStrat b);
     fsComputedAt := now; fsWindow := window |}.

(** The filter of the query: action and cutoff ([Limit] is 0: none). *)
Definition refresh_filter (now : Time) (window : Duration) : string * Time :=
  ("attempt_registered", (now - window)%Z).

(** [refresh], given the answer of the repository: an error leaves the store. *)
Definition refresh (store : FailureStatsStore) (queried : result (list AuditEntry)) (now : Time)
    (window : Duration) : FailureStatsStore :=
  match queried with
  | Err _ => store
  | Ok entries => Store_Update store (build_stats entries now window)
  end.

(** What a refresh finds: the answer of its query, and the time it reads after it. *)
Record reading := { rgQueried : result (list AuditEntry); rgNow : Time }.

(** What the loop of [Start] receives: a tick of its ticker or the end of its context.  When both
    are ready Go chooses one. *)
Inductive wake := Tick (r : reading) | ContextDone.

Definition refresh_on (window : Duration) (store : FailureStatsStore) (r : reading) : FailureStatsStore :=
  refresh store (rgQueried r) (rgNow r) window.

(** The store, and whether the loop has returned. *)
Fixpoint collector_loop (window : Duration) (store : FailureStatsStore) (ws : list wake)
    : FailureStatsStore * bool :=
  match ws with
  | [] => (store, false)
  | ContextDone :: _ => (store, true)
  | Tick r :: ws => collector_loop window (refresh_on window store r) ws
  end.

(** An immediate refresh, then the loop. *)
Definition Start (window : Duration) (store : FailureStatsStore) (first : reading) (ws : list wake)
    : FailureStatsStore * bool :=
  collector_loop window (refresh_on window store first) ws.

(** * Specification *)

(** The bucket of an entry at each level, if it has one. *)
Definition strat_key (e : AuditEntry) : option RoutingStrategy :=
  if decide (strategyRaw e = "") then None else Some (of_string (strategyRaw e)).
Definition cat_key (e : AuditEntry) : option StatsKey :=
  s ← strat_key e;
  if decide (entry_category e ≠ "") then
    Some {| skStrategy := s; skRole := ""; skCategory := entry_category e |}
  else None.
Definition role_cat_key (e : AuditEntry) : option StatsKey :=
  s ← strat_key e;
  if decide (entry_role e ≠ "" ∧ entry_category e ≠ "") then
    Some {| skStrategy := s; skRole := entry_role e; skCategory := entry_category e |}
  else None.

Section bucket.
Context `{Countable K} (key_of : AuditEntry → option K).

Definition bucket_step (m : gmap K FailureRate) (e : AuditEntry) : gmap K FailureRate :=
  match key_of e with Some k => count_in m k (isFailure e) | None => m end.

Definition at_key (k : K) (e : AuditEntry) : bool := bool_decide (key_of e = Some k).

(** The entries of the bucket [k] and the failures among them. *)
Definition total_of (k : K) (entries : list AuditEntry) : nat :=
  length (List.filter (at_key k) entries).
Definition failures_of (k : K) (entries : list AuditEntry) : nat :=
  length (List.filter (λ e, at_key k e && isFailure e) entries).

Lemma total_snoc k l e : total_of k (l ++ [e]) = total_of k l + (if at_key k e then 1 else 0).
Proof. unfold total_of. rewrite List.filter_app, length_app. simpl. by destruct (at_key k e). Qed.

Lemma failures_snoc k l e :
  failures_of k (l ++ [e]) = failures_of k l + (if at_key k e && isFailure e then 1 else 0).
Proof. unfold failures_of. rewrite List.filter_app, length_app. simpl. by destruct (_ && _). Qed.

Lemma failures_le_total k l : failures_of k l ≤ total_of k l.
Proof.
  unfold failures_of, total_of. induction l as [|e l IH]; simpl; [done|].
  destruct (at_key k e), (isFailure e); simpl; lia.
Qed.

Lemma total_le k l : total_of k l ≤ length l.
Proof. unfold total_of. induction l as [|e l IH]; simpl; [done|]. case_match; simpl; lia. Qed.

(** A bucket counts its entries and the failures among them. *)
Lemma bucket_counts entries k :
  (Z.of_nat (length entries) ≤ maxInt64)%Z →
  foldl bucket_step ∅ entries !! k =
  if decide (total_of k entries = 0) then None
  else Some {| frTotal := Z.of_nat (total_of k entries);
               frFailures := Z.of_nat (failures_of k entries); frRate := S754_zero false |}.
Proof.
  induction entries as [|e entries IH] using rev_ind; intros Hlen; [done|].
  rewrite length_app in Hlen. simpl in Hlen. specialize (IH ltac:(lia)).
  rewrite foldl_app, total_snoc, failures_snoc. simpl.
  pose proof (failures_le_total k entries). pose proof (total_le k entries).
  generalize dependent (foldl bucket_step ∅ entries). intros m IH. unfold bucket_step, at_key.
  destruct (key_of e) as [k'|]; [|by rewrite bool_decide_eq_false_2, !Nat.add_0_r].
  destruct (decide (k' = k)) as [->|Hk].
  - unfold count_in. rewrite bool_decide_eq_true_2, lookup_insert_eq, decide_False by (done || lia).
    rewrite IH. unfold wrap64, maxInt64 in *. f_equal. cbn [andb].
    destruct (decide (total_of k entries = 0)) as [Z0|Z0]; cbn [from_option id frTotal frFailures frRate zero_rate].
    + destruct (isFailure e); f_equal; rewrite ?Z.mod_small; lia.
    + destruct (isFailure e); f_equal; rewrite ?Z.mod_small; lia.
  - unfold count_in. rewrite lookup_insert_ne by done.
    rewrite bool_decide_eq_false_2 by congruence. by rewrite !Nat.add_0_r.
Qed.
End bucket.

Lemma buckets_fold entries :
  let b := foldl count_entry empty_buckets entries in
  byStrat b = foldl (bucket_step strat_key) ∅ entries ∧
  byStratCat b = foldl (bucket_step cat_key) ∅ entries ∧
  byStratRoleCat b = foldl (bucket_step role_cat_key) ∅ entries.
Proof.
  induction entries as [|e entries IH] using rev_ind; [done|].
  rewrite !foldl_app. cbn zeta in *. destruct IH as (E1 & E2 & E3). cbn [foldl].
  rewrite <- E1, <- E2, <- E3. unfold count_entry, bucket_step, role_cat_key, cat_key, strat_key.
  destruct (decide (strategyRaw e = "")); [done|]. cbn [mbind option_bind].
  split_and!; cbn [byStrat byStratCat byStratRoleCat]; repeat case_decide; done.
Qed.

(** What the statistics hold for one bucket: nothing without entries, else the counts and
    their quotient. *)
Definition expected `{Countable K} (key_of : AuditEntry → option K) (k : K)
    (entries : list AuditEntry) : option FailureRate :=
  if decide (total_of key_of k entries = 0) then None
  else Some {| frTotal := Z.of_nat (total_of key_of k entries);
               frFailures := Z.of_nat (failures_of key_of k entries);
               frRate := fdiv (float_of_int (Z.of_nat (failures_of key_of k entries)))
                              (float_of_int (Z.of_nat (total_of key_of k entries))) |}.

Lemma rate_counts `{Countable K} (key_of : AuditEntry → option K) entries k :
  (Z.of_nat (length entries) ≤ maxInt64)%Z →
  (compute_rate <$> foldl (bucket_step key_of) ∅ entries) !! k = expected key_of k entries.
Proof.
  intros Hlen. rewrite lookup_fmap, bucket_counts by done. unfold expected.
  case_decide as Z0; [done|]. simpl. unfold compute_rate. cbn [frTotal frFailures].
  by rewrite (proj2 (Z.ltb_lt _ _)) by lia.
Qed.

(** The audit entries [RegisterAttempt] writes: a failure code is recorded with failures
    and retries only. *)
Definition code_only_on_failure (e : AuditEntry) : Prop :=
  get_string (aeContext e) "failure_code" ≠ "" → isFailure e = true.

Lemma category_code e : entry_category e ≠ "" → get_string (aeContext e) "failure_code" ≠ "".
Proof. unfold entry_category. intros H E. by rewrite E in H. Qed.

Lemma all_failures `{Countable K} (key_of : AuditEntry → option K) k entries :
  Forall code_only_on_failure entries →
  (∀ e k, key_of e = Some k → entry_category e ≠ "") →
  failures_of key_of k entries = total_of key_of k entries.
Proof.
  intros HF Hcat. unfold failures_of, total_of. induction HF as [|e l He _ IH]; simpl; [done|].
  destruct (at_key key_of k e) eqn:E; simpl; [|done]. apply bool_decide_eq_true in E.
  rewrite (He (category_code _ (Hcat _ _ E))). simpl. by rewrite IH.
Qed.

Lemma cat_key_category e k : cat_key e = Some k → entry_category e ≠ "".
Proof. unfold cat_key. destruct (strat_key e); simpl; [case_decide|]; naive_solver. Qed.
Lemma role_cat_key_category e k : role_cat_key e = Some k → entry_category e ≠ "".
Proof. unfold role_cat_key. destruct (strat_key e); simpl; [case_decide|]; naive_solver. Qed.

(** A float divided by itself is one. *)
Lemma fdiv_same s m e : fdiv (S754_finite s m e) (S754_finite s m e) = dec 1 0.
Proof.
  unfold fdiv, SFdiv, SFdiv_core_binary.
  replace (Zdigits2 (Z.pos m) + e - (Zdigits2 (Z.pos m) + e))%Z with 0%Z by lia.
  replace (e - e)%Z with 0%Z by lia. rewrite xorb_nilpotent.
  change (Z.min (fexp 53 1024 0) 0) with (-53)%Z. cbv zeta.
  change (0 - -53)%Z with 53%Z. cbv iota. rewrite Z.shiftl_mul_pow2 by lia.
  destruct (Z.div_eucl _ _) as [q r] eqn:E.
  assert (q = 2 ^ 53)%Z as ->.
  { transitivity (2 ^ 53 * Z.pos m / Z.pos m)%Z; [|by apply Z.div_mul].
    unfold Z.div. by rewrite Z.mul_comm, E. }
  assert (r = 0)%Z as ->.
  { transitivity (2 ^ 53 * Z.pos m mod Z.pos m)%Z; [|by apply Z.mod_mul].
    unfold Z.modulo. by rewrite Z.mul_comm, E. }
  replace (new_location (Z.pos m) 0) with loc_Exact; [vm_compute; reflexivity|].
  unfold new_location, new_location_even, new_location_odd. by destruct (Z.even _).
Qed.

Definition is_positive (x : float64) : bool :=
  match x with S754_finite false _ _ => true | _ => false end.

(** Counts up to 4096 are positive floats. *)
Definition count_positive (n : nat) : bool := is_positive (float_of_int (Z.of_nat n)).

Lemma counts_positive : forallb count_positive (seq 1 4096) = true.
Proof. vm_compute. reflexivity. Qed.

Lemma ratio_one n :
  1 ≤ n ≤ 4096 → fdiv (float_of_int (Z.of_nat n)) (float_of_int (Z.of_nat n)) = dec 1 0.
Proof.
  intros Hn. pose proof (forallb_seq _ _ _ n counts_positive ltac:(lia)) as H.
  unfold count_positive in H. generalize dependent (float_of_int (Z.of_nat n)). intros x H.
  destruct x as [| | |[] m e]; try done. apply fdiv_same.
Qed.

(** * Theorems *)

(** C37: the collector counts: after [refresh] with the entries of the window the published
    statistics hold, for each bucket of each granularity, exactly the number of entries of
    the bucket, the number of failures and retries among them and the float64 quotient,
    and nothing for a bucket with no entry; a failed query leaves the statistics as they were. *)
Theorem collector_counts store entries now window :
  (Z.of_nat (length entries) ≤ maxInt64)%Z →
  (∀ e, refresh store (Err e) now window = store) ∧
  ∃ stats m1 m2 m3,
    refresh store (Ok entries) now window = Some stats ∧
    fsByStrategyRoleCategory stats = Some m1 ∧ fsByStrategyCategory stats = Some m2 ∧
    fsByStrategy stats = Some m3 ∧ fsWindow stats = window ∧ fsComputedAt stats = now ∧
    (∀ k, m1 !! k = expected role_cat_key k entries) ∧
    (∀ k, m2 !! k = expected cat_key k entries) ∧
    (∀ k, m3 !! k = expected strat_key k entries).
Proof.
  intros Hlen. split; [done|]. destruct (buckets_fold entries) as (E1 & E2 & E3).
  do 4 eexists. split; [reflexivity|]. cbn [Store_Update build_stats fsByStrategyRoleCategory
    fsByStrategyCategory fsByStrategy fsWindow fsComputedAt].
  rewrite E1, E2, E3. split_and!; try done; intros k; by apply rate_counts.
Qed.

(** The readings before the end of the context, and what a successful one publishes. *)
Fixpoint received (ws : list wake) : list reading :=
  match ws with Tick r :: ws => r :: received ws | _ => [] end.
Definition published (window : Duration) (r : reading) : option FailureStats :=
  match rgQueried r with Ok entries => Some (build_stats entries (rgNow r) window) | Err _ => None end.

Lemma collector_loop_last window ws store :
  (collector_loop window store ws).1 =
  match last (omap (published window) (received ws)) with Some st => Some st | None => store end.
Proof.
  revert store. induction ws as [|[r|] ws IH]; intros store; simpl; [done| |done]. rewrite IH.
  unfold refresh_on, refresh, published. destruct (rgQueried r) as [entries|e]; simpl; [|done].
  rewrite last_cons. by destruct (last _).
Qed.

(** The store of a running collector always holds what the last successful query gives: a query
    that fails keeps the statistics of the one before, and nothing is published once the
    context has ended. *)
Theorem collector_keeps_last window store first ws :
  (Start window store first ws).1 =
  match last (omap (published window) (first :: received ws)) with Some st => Some st | None => store end.
Proof. apply (collector_loop_last window (Tick first :: ws)). Qed.

(** The category buckets hold failures only.  When a failure code is recorded with
    failures and retries alone, as RegisterAttempt does, every bucket of the two finer
    granularities has as many failures as entries, so its rate is 1 and its raw
    adjustment is the full penalty (for up to 4096 entries), whatever share of the attempts of the
    strategy succeeded. *)
Theorem category_buckets_only_failures entries k fr :
  (Z.of_nat (length entries) ≤ maxInt64)%Z → Forall code_only_on_failure entries →
  expected cat_key k entries = Some fr ∨ expected role_cat_key k entries = Some fr →
  frFailures fr = frTotal fr ∧
  ((frTotal fr ≤ 4096)%Z → frRate fr = dec 1 0 ∧
     computeRawAdjustment (frRate fr) = SFopp MaxPenalty).
Proof.
  intros Hlen HF H.
  assert (E : ∃ n, n ≠ 0 ∧ fr = {| frTotal := Z.of_nat n; frFailures := Z.of_nat n;
    frRate := fdiv (float_of_int (Z.of_nat n)) (float_of_int (Z.of_nat n)) |}).
  { unfold expected in H. destruct H as [H|H]; case_decide; simplify_eq;
      (rewrite all_failures; [by eexists|done|]);
      eauto using cat_key_category, role_cat_key_category. }
  destruct E as (n & Hn & ->). cbn [frTotal frFailures frRate]. split; [done|]. intros Hle.
  rewrite ratio_one by lia. split; [done|]. vm_compute. reflexivity.
Qed.

(** * Witnesses *)

Definition demo_entry (outcome code : string) : AuditEntry :=
  {| aeID := "a"; aeTaskID := None; aeWorkflowRunID := None; aeActor := "system";
     aeAction := "attempt_registered"; aeOutcome := outcome;
     aeContext := list_to_map ([("strategy_used", AString "direct"); ("agent_role", AString "dev")]
       ++ (if decide (code = "") then [] else [("failure_code", AString code)]));
     aeCreatedAt := {| ts_Time := 1 |} |}.

(** Two failures of one category among five attempts. *)
Definition demo_entries : list AuditEntry :=
  [demo_entry "success" ""; demo_entry "failure" "tool/timeout"; demo_entry "success" "";
   demo_entry "retry" "tool/oom"; demo_entry "success" ""].

Definition demo_cat : StatsKey :=
  {| skStrategy := StrategyDirect; skRole := ""; skCategory := "tool" |}.

Lemma category_buckets_only_failures_witness :
  ∃ fr, expected cat_key demo_cat demo_entries = Some fr ∧ frTotal fr = 2%Z ∧
        frFailures fr = frTotal fr.
Proof.
  destruct (expected cat_key demo_cat demo_entries) as [fr|] eqn:E;
    [|exfalso; vm_compute in E; discriminate].
  exists fr. split; [reflexivity|]. split.
  - vm_compute in E. injection E as <-. reflexivity.
  - apply (category_buckets_only_failures demo_entries demo_cat fr).
    + vm_compute. discriminate.
    + repeat constructor; intros ?; try reflexivity; exfalso; vm_compute in *; congruence.
    + left. exact E.
Defined.

Lemma collector_counts_witness :
  ∃ stats m, refresh None (Ok demo_entries) 9 DefaultStatsWindow = Some stats ∧
    fsByStrategy stats = Some m ∧
    m !! StrategyDirect = expected strat_key StrategyDirect demo_entries.
Proof.
  destruct (collector_counts None demo_entries 9 DefaultStatsWindow)
    as (_ & stats & m1 & m2 & m3 & E & _ & _ & E3 & _ & _ & _ & _ & H3);
    [vm_compute; discriminate|].
  exists stats, m3. split; [exact E|]. split; [exact E3|apply H3].
Defined.
