(* ===== verification/Persistence.v ===== *)
(** internal/adapters/outbound/persistence: what each repository writes into the columns of
    its table (migrations/postgres) and rebuilds from them.

    A row is a record of columns.  Text columns hold the string conversions of the Go
    values, a TIMESTAMPTZ column what PostgreSQL keeps of an instant, a JSONB column the
    value its document denotes; strings are assumed to be valid UTF-8 with no NUL byte,
    which encoding/json and PostgreSQL preserve. *)

From stdpp Require Import options.
From S2P Require Import Prelude GoLib Shared Task Workflow Execution Approval Escalation Policy.
From S2P Require Import Routing AuditLog.

(** PostgreSQL and its driver: the instant read back from a TIMESTAMPTZ column. *)
Class Postgres := { timestamptz : Time → Time }.

(** * encoding/json on dynamic values *)

(** What [json.Unmarshal] into [any] gives of what [json.Marshal] wrote: every number is a
    [float64]; [None] is the error of [Marshal] on NaN and infinities. *)
Fixpoint json_value (v : any) : option any :=
  match v with
  | ANil => Some ANil
  | ABool b => Some (ABool b)
  | AString s => Some (AString s)
  | AInt n => Some (AFloat (float_of_int n))
  | AFloat f => if is_finite f then Some (AFloat f) else None
  | ASlice l =>
      let fix go (l : list any) : option (list any) :=
        match l with
        | [] => Some []
        | v :: l => v' ← json_value v; l' ← go l; Some (v' :: l')
        end in
      ASlice <$> go l
  | AMap m =>
      let fix go (m : list (string * any)) : option (list (string * any)) :=
        match m with
        | [] => Some []
        | (k, v) :: m => v' ← json_value v; m' ← go m; Some ((k, v') :: m')
        end in
      AMap <$> go m
  end.

(** The same for a [map[string]any]. *)
Definition json_map (m : gmap string any) : option (gmap string any) :=
  if decide (map_Forall (λ _ v, is_Some (json_value v)) m) then Some (omap json_value m) else None.

Definition json_error : error := Sentinel "json.UnsupportedValueError" "json: unsupported value".

(** INTEGER columns are 32 bits wide. *)
Definition int4 (n : Z) : bool := ((- 2 ^ 31 <=? n) && (n <=? 2 ^ 31 - 1))%Z.
Definition int4_error : error := Sentinel "pgx.EncodeError" "value is out of range for int4".

Section persistence.
Context {PG : Postgres}.

Definition ts_column (t : Timestamp) : Time := timestamptz (ts_Time t).
Definition ts_scan (t : Time) : Timestamp := {| ts_Time := t |}.

(** * pg_task_repo.go *)

Record TaskRow := {
  tasks_id : string; tasks_parent_task_id : option string; tasks_type : string;
  tasks_title : string; tasks_scope : string; tasks_priority : string;
  tasks_risk_level : string; tasks_status : string; tasks_metadata : gmap string any;
  tasks_created_at : Time; tasks_updated_at : Time;
}.

(** The arguments of the INSERT of [Save]. *)
Definition taskToRow (t : Task) : result TaskRow :=
  match json_map (tkMetadata t) with
  | None => Err (Wrapf "marshaling task metadata: %w" [] json_error)
  | Some metadata =>
      Ok {| tasks_id := tkID t; tasks_parent_task_id := tkParentTaskID t;
            tasks_type := to_string (tkType t); tasks_title := tkTitle t;
            tasks_scope := to_string (tkScope t); tasks_priority := to_string (tkPriority t);
            tasks_risk_level := to_string (tkRiskLevel t); tasks_status := to_string (tkStatus t);
            tasks_metadata := metadata; tasks_created_at := ts_column (tkCreatedAt t);
            tasks_updated_at := ts_column (tkUpdatedAt t) |}
  end.

Definition scanTask (r : TaskRow) : Task :=
  Task.Reconstruct (tasks_id r) (tasks_parent_task_id r) (of_string (tasks_type r)) (tasks_title r)
    (of_string (tasks_scope r)) (of_string (tasks_priority r)) (of_string (tasks_risk_level r))
    (of_string (tasks_status r)) (tasks_metadata r) (ts_scan (tasks_created_at r))
    (ts_scan (tasks_updated_at r)).

(** The UPDATE of [UpdateStatus]. *)
Definition updateTaskRow (r : TaskRow) (t : Task) : TaskRow :=
  {| tasks_id := tasks_id r; tasks_parent_task_id := tasks_parent_task_id r;
     tasks_type := tasks_type r; tasks_title := tasks_title r; tasks_scope := tasks_scope r;
     tasks_priority := tasks_priority r; tasks_risk_level := tasks_risk_level r;
     tasks_status := to_string (tkStatus t); tasks_metadata := tasks_metadata r;
     tasks_created_at := tasks_created_at r; tasks_updated_at := ts_column (tkUpdatedAt t) |}.

(** * pg_workflow_run_repo.go *)

(** The timestamp is formatted with nanoseconds and an offset, which denotes the instant
    exactly. *)
Record transitionJSON := {
  tj_from : string; tj_to : string; tj_reason : string; tj_actor : string; tj_timestamp : Time;
}.

Definition marshalTransitions (transitions : list WorkflowTransition) : list transitionJSON :=
  (λ t, {| tj_from := to_string (trFrom t); tj_to := to_string (trTo t); tj_reason := trReason t;
           tj_actor := trActor t; tj_timestamp := ts_Time (trTimestamp t) |}) <$> transitions.

Definition unmarshalTransition (item : transitionJSON) : result WorkflowTransition :=
  match NewTimestamp (tj_timestamp item) with
  | Err e => Err (Wrapf "parsing transition timestamp: %w" [] e)
  | Ok t => Ok {| trFrom := of_string (tj_from item); trTo := of_string (tj_to item);
                  trReason := tj_reason item; trActor := tj_actor item; trTimestamp := t |}
  end.

Fixpoint unmarshalTransitions (data : list transitionJSON) : result (list WorkflowTransition) :=
  match data with
  | [] => Ok []
  | item :: data => t ← unmarshalTransition item; ts ← unmarshalTransitions data; Ok (t :: ts)
  end.

Record WorkflowRow := {
  wf_id : string; wf_task_id : string; wf_status : string; wf_routing_decision_id : option string;
  wf_policy_decision_id : option string; wf_current_step_index : Z;
  wf_transitions : list transitionJSON; wf_created_at : Time; wf_updated_at : Time;
}.

Definition workflowToRow (wf : WorkflowRun) : result WorkflowRow :=
  if negb (int4 (wfCurrentStepIndex wf))
  then Err (Wrapf "inserting workflow run: %w" [] int4_error)
  else Ok {| wf_id := wfID wf; wf_task_id := wfTaskID wf; wf_status := to_string (wfStatus wf);
             wf_routing_decision_id := wfRoutingDecisionID wf;
             wf_policy_decision_id := wfPolicyDecisionID wf;
             wf_current_step_index := wfCurrentStepIndex wf;
             wf_transitions := marshalTransitions (wfTransitions wf);
             wf_created_at := ts_column (wfCreatedAt wf);
             wf_updated_at := ts_column (wfUpdatedAt wf) |}.

Definition scanWorkflowRun (r : WorkflowRow) : result WorkflowRun :=
  transitions ← unmarshalTransitions (wf_transitions r);
  Ok (ReconstructWorkflowRun (wf_id r) (wf_task_id r) (of_string (wf_status r))
        (wf_routing_decision_id r) (wf_policy_decision_id r) (wf_current_step_index r)
        transitions (ts_scan (wf_created_at r)) (ts_scan (wf_updated_at r))).

(** The UPDATE statement: identity, task and creation time are not among its columns. *)
Definition updateWorkflowRow (r : WorkflowRow) (wf : WorkflowRun) : result WorkflowRow :=
  if negb (int4 (wfCurrentStepIndex wf))
  then Err (Wrapf "updating workflow run: %w" [] int4_error)
  else Ok {| wf_id := wf_id r; wf_task_id := wf_task_id r; wf_status := to_string (wfStatus wf);
             wf_routing_decision_id := wfRoutingDecisionID wf;
             wf_policy_decision_id := wfPolicyDecisionID wf;
             wf_current_step_index := wfCurrentStepIndex wf;
             wf_transitions := marshalTransitions (wfTransitions wf);
             wf_created_at := wf_created_at r; wf_updated_at := ts_column (wfUpdatedAt wf) |}.

(** * pg_execution_lease_repo.go *)

Record LeaseRow := {
  lease_id : string; lease_workflow_run_id : string; lease_timeout_budget_ms : Z;
  lease_retry_budget : Z; lease_attempts_used : Z; lease_time_elapsed_ms : Z;
  lease_status : string; lease_created_at : Time;
}.

Definition leaseToRow (l : ExecutionLease) : result LeaseRow :=
  if negb (int4 (rbMaxAttempts (elRetryBudget l)) && int4 (elAttemptsUsed l))
  then Err (Wrapf "inserting execution lease: %w" [] int4_error)
  else Ok {| lease_id := elID l; lease_workflow_run_id := elWorkflowRunID l;
             lease_timeout_budget_ms := Milliseconds (elTimeoutBudget l);
             lease_retry_budget := rbMaxAttempts (elRetryBudget l);
             lease_attempts_used := elAttemptsUsed l;
             lease_time_elapsed_ms := Milliseconds (elTimeElapsed l);
             lease_status := to_string (elStatus l);
             lease_created_at := ts_column (elCreatedAt l) |}.

Definition scanExecutionLease (r : LeaseRow) : ExecutionLease :=
  ReconstructExecutionLease (lease_id r) (lease_workflow_run_id r)
    (wrap64 (lease_timeout_budget_ms r * Millisecond))
    {| rbMaxAttempts := lease_retry_budget r |} (lease_attempts_used r)
    (wrap64 (lease_time_elapsed_ms r * Millisecond)) (of_string (lease_status r))
    (ts_scan (lease_created_at r)).

Definition updateLeaseRow (r : LeaseRow) (l : ExecutionLease) : result LeaseRow :=
  if negb (int4 (rbMaxAttempts (elRetryBudget l)) && int4 (elAttemptsUsed l))
  then Err (Wrapf "updating execution lease: %w" [] int4_error)
  else Ok {| lease_id := lease_id r; lease_workflow_run_id := lease_workflow_run_id r;
             lease_timeout_budget_ms := Milliseconds (elTimeoutBudget l);
             lease_retry_budget := rbMaxAttempts (elRetryBudget l);
             lease_attempts_used := elAttemptsUsed l;
             lease_time_elapsed_ms := Milliseconds (elTimeElapsed l);
             lease_status := to_string (elStatus l);
             lease_created_at := lease_created_at r |}.

(** * pg_routing_decision_repo.go *)

Record RoutingRow := {
  rd_id : string; rd_task_id : string; rd_evaluated_strategies : list StrategyEvaluation;
  rd_selected_strategy : string; rd_selected_agent_role : string; rd_reason : string;
  rd_constraints : list RoutingConstraint; rd_created_at : Time;
}.

(** The floats of the JSON document of the evaluations: each must be finite. *)
Definition evaluation_floats (e : StrategyEvaluation) : list float64 :=
  seScore e :: seAdjustedScore e :: (map_to_list (seFactorScores e)).*2 ++
  match seAdaptiveAdjustment e with
  | Some a => [aaRawAdjustment a; aaConfidence a; aaFinalAdjustment a; aaFailureRate a]
  | None => []
  end.

Definition routingToRow (rd : RoutingDecision) : result RoutingRow :=
  if forallb (λ e, forallb is_finite (evaluation_floats e)) (rdEvaluatedStrategies rd) then
    Ok {| rd_id := rdID rd; rd_task_id := rdTaskID rd;
          rd_evaluated_strategies := rdEvaluatedStrategies rd;
          rd_selected_strategy := to_string (rdSelectedStrategy rd);
          rd_selected_agent_role := to_string (rdSelectedAgentRole rd); rd_reason := rdReason rd;
          rd_constraints := rdConstraints rd; rd_created_at := ts_column (rdCreatedAt rd) |}
  else Err (Wrapf "marshaling evaluated strategies: %w" [] json_error).

Definition scanRoutingDecision (r : RoutingRow) : RoutingDecision :=
  Routing.Reconstruct (rd_id r) (rd_task_id r) (rd_evaluated_strategies r)
    (of_string (rd_selected_strategy r)) (of_string (rd_selected_agent_role r)) (rd_reason r)
    (rd_constraints r) (ts_scan (rd_created_at r)).

(** * pg_policy_decision_repo.go *)

Definition policyOutcomeToString (o : PolicyOutcome) : string := Outcome_String o.

Definition policyOutcomeFromString (s : string) : PolicyOutcome :=
  if decide (s = "allow") then OutcomeAllow
  else if decide (s = "allow_with_constraints") then OutcomeAllowWithConstraints
  else if decide (s = "require_approval") then OutcomeRequireApproval
  else if decide (s = "deny") then OutcomeDeny
  else OutcomeAllow.

Record ruleEvalJSON := {
  rj_rule_id : string; rj_passed : bool; rj_outcome : option string; rj_reason : string;
}.

Definition marshalRuleEvaluations (evals : list RuleEvaluation) : list ruleEvalJSON :=
  (λ e, {| rj_rule_id := reRuleID e; rj_passed := rePassed e;
           rj_outcome := Outcome_String <$> reOutcome e; rj_reason := reReason e |}) <$> evals.

Definition unmarshalRuleEvaluations (items : list ruleEvalJSON) : list RuleEvaluation :=
  (λ i, {| reRuleID := rj_rule_id i; rePassed := rj_passed i;
           reOutcome := policyOutcomeFromString <$> rj_outcome i; reReason := rj_reason i |}) <$> items.

Record PolicyRow := {
  pd_id : string; pd_task_id : string; pd_evaluated_action : string; pd_outcome : string;
  pd_constraints : list PolicyConstraint; pd_approval_requirement : option ApprovalRequirement;
  pd_rules_evaluated : list ruleEvalJSON; pd_reason : string; pd_created_at : Time;
}.

Definition policyToRow (pd : PolicyDecision) : PolicyRow :=
  {| pd_id := pdID pd; pd_task_id := pdTaskID pd; pd_evaluated_action := pdEvaluatedAction pd;
     pd_outcome := policyOutcomeToString (pdOutcome pd); pd_constraints := pdConstraints pd;
     pd_approval_requirement := pdApprovalRequirement pd;
     pd_rules_evaluated := marshalRuleEvaluations (pdRulesEvaluated pd); pd_reason := pdReason pd;
     pd_created_at := ts_column (pdCreatedAt pd) |}.

Definition scanPolicyDecision (r : PolicyRow) : PolicyDecision :=
  Policy.Reconstruct (pd_id r) (pd_task_id r) (pd_evaluated_action r)
    (policyOutcomeFromString (pd_outcome r)) (pd_constraints r) (pd_approval_requirement r)
    (unmarshalRuleEvaluations (pd_rules_evaluated r)) (pd_reason r) (ts_scan (pd_created_at r)).

(** * pg_approval_request_repo.go *)

Record ApprovalRow := {
  ar_id : string; ar_task_id : string; ar_workflow_run_id : string; ar_reason : string;
  ar_required_approver : ApproverSpec; ar_status : string;
  ar_resolution : option ApprovalResolution; ar_expires_at : option Time; ar_created_at : Time;
}.

Definition nullableTimestamp (t : option Timestamp) : option Time := ts_column <$> t.

Definition approvalToRow (req : ApprovalRequest) : ApprovalRow :=
  {| ar_id := apID req; ar_task_id := apTaskID req; ar_workflow_run_id := apWorkflowRunID req;
     ar_reason := apReason req; ar_required_approver := apRequiredApprover req;
     ar_status := to_string (apStatus req); ar_resolution := apResolution req;
     ar_expires_at := nullableTimestamp (apExpiresAt req);
     ar_created_at := ts_column (apCreatedAt req) |}.

Definition scanApprovalRequest (r : ApprovalRow) : ApprovalRequest :=
  ReconstructApprovalRequest (ar_id r) (ar_task_id r) (ar_workflow_run_id r) (ar_reason r)
    (ar_required_approver r) (of_string (ar_status r)) (ar_resolution r)
    (ts_scan <$> ar_expires_at r) (ts_scan (ar_created_at r)).

Definition updateApprovalRow (r : ApprovalRow) (req : ApprovalRequest) : ApprovalRow :=
  {| ar_id := ar_id r; ar_task_id := ar_task_id r; ar_workflow_run_id := ar_workflow_run_id r;
     ar_reason := ar_reason r; ar_required_approver := ar_required_approver r;
     ar_status := to_string (apStatus req); ar_resolution := apResolution req;
     ar_expires_at := ar_expires_at r; ar_created_at := ar_created_at r |}.

(** * pg_escalation_trigger_repo.go *)

Record EscalationRow := {
  es_id : string; es_task_id : string; es_condition : EscalationCondition; es_target : string;
  es_status : string; es_triggered_at : option Time; es_created_at : Time;
}.

Definition escalationToRow (t : EscalationTrigger) : result EscalationRow :=
  match json_map (ecParameters (etCondition t)) with
  | None => Err (Wrapf "marshaling escalation condition: %w" [] json_error)
  | Some params =>
      Ok {| es_id := etID t; es_task_id := etTaskID t;
            es_condition := {| ecType := ecType (etCondition t); ecParameters := params |};
            es_target := to_string (etTarget t); es_status := to_string (etStatus t);
            es_triggered_at := ts_column <$> etTriggeredAt t;
            es_created_at := ts_column (etCreatedAt t) |}
  end.

Definition scanEscalationTrigger (r : EscalationRow) : EscalationTrigger :=
  ReconstructEscalationTrigger (es_id r) (es_task_id r) (es_condition r) (of_string (es_target r))
    (of_string (es_status r)) (ts_scan <$> es_triggered_at r) (ts_scan (es_created_at r)).

Definition updateEscalationRow (r : EscalationRow) (t : EscalationTrigger) : EscalationRow :=
  {| es_id := es_id r; es_task_id := es_task_id r; es_condition := es_condition r;
     es_target := es_target r; es_status := to_string (etStatus t);
     es_triggered_at := ts_column <$> etTriggeredAt t; es_created_at := es_created_at r |}.

(** * pg_audit_entry_repo.go *)

Record AuditRow := {
  ae_id : string; ae_task_id : option string; ae_workflow_run_id : option string;
  ae_actor : string; ae_action : string; ae_outcome : string; ae_context : gmap string any;
  ae_created_at : Time;
}.

Definition auditToRow (e : AuditEntry) : result AuditRow :=
  match json_map (aeContext e) with
  | None => Err (Wrapf "marshaling audit context: %w" [] json_error)
  | Some ctx =>
      Ok {| ae_id := aeID e; ae_task_id := aeTaskID e; ae_workflow_run_id := aeWorkflowRunID e;
            ae_actor := aeActor e; ae_action := aeAction e; ae_outcome := aeOutcome e;
            ae_context := ctx; ae_created_at := ts_column (aeCreatedAt e) |}
  end.

Definition scanAuditEntry (r : AuditRow) : AuditEntry :=
  ReconstructAuditEntry (ae_id r) (ae_task_id r) (ae_workflow_run_id r) (ae_actor r) (ae_action r)
    (ae_outcome r) (ae_context r) (ts_scan (ae_created_at r)).

End persistence.

(** * What a record becomes when it is stored and read back *)

Section roundtrip.
Context {PG : Postgres}.

Definition pg_ts (t : Timestamp) : Timestamp := ts_scan (ts_column t).

(** The enumerated fields hold declared constants. *)
Definition task_known (t : Task) : bool :=
  known (tkType t) && known (tkScope t) && known (tkPriority t) && known (tkRiskLevel t)
  && known (tkStatus t).

Definition transition_storable (t : WorkflowTransition) : bool :=
  known (trFrom t) && known (trTo t) && negb (IsZero (ts_Time (trTimestamp t))).

(** The run with the given creation time and a stored update time. *)
Definition stored_run (created : Timestamp) (w : WorkflowRun) : WorkflowRun :=
  ReconstructWorkflowRun (wfID w) (wfTaskID w) (wfStatus w) (wfRoutingDecisionID w)
    (wfPolicyDecisionID w) (wfCurrentStepIndex w) (wfTransitions w) created (pg_ts (wfUpdatedAt w)).

(** A duration cut to whole milliseconds. *)
Definition trunc_ms (d : Duration) : Duration := (Z.quot d Millisecond * Millisecond)%Z.

Definition stored_lease (created : Timestamp) (l : ExecutionLease) : ExecutionLease :=
  ReconstructExecutionLease (elID l) (elWorkflowRunID l) (trunc_ms (elTimeoutBudget l))
    (elRetryBudget l) (elAttemptsUsed l) (trunc_ms (elTimeElapsed l)) (elStatus l) created.

Definition is_outcome (o : PolicyOutcome) : bool := ((0 <=? o) && (o <=? 3))%Z.

(** * Lemmas *)

#[local] Arguments of_string : simpl never.
#[local] Arguments to_string : simpl never.
#[local] Arguments known : simpl never.

Lemma json_value_string v v' s : json_value v = Some v' → v' = AString s ↔ v = AString s.
Proof.
  destruct v; simpl; intros E; try (case_match; simplify_eq/=; naive_solver);
    try (simplify_eq/=; naive_solver); apply fmap_Some in E as (? & _ & ->); naive_solver.
Qed.

Lemma json_map_lookup m m' k : json_map m = Some m' → m' !! k = m !! k ≫= json_value.
Proof. unfold json_map. case_decide; intros [= <-]. apply lookup_omap. Qed.

(** JSON keeps every string entry and makes no other entry a string. *)
Lemma json_map_string m m' k s :
  json_map m = Some m' → m' !! k = Some (AString s) ↔ m !! k = Some (AString s).
Proof.
  intros H. rewrite (json_map_lookup _ _ _ H). destruct (m !! k) as [v|]; simpl; [|done].
  destruct (json_value v) as [v'|] eqn:E.
  - pose proof (json_value_string v v' s E). naive_solver.
  - split; [done|]. intros [= ->]. done.
Qed.

Lemma string_entry {A} (m m' : gmap string any) k (f : string → A) (z : A) :
  (∀ s, m' !! k = Some (AString s) ↔ m !! k = Some (AString s)) →
  match m' !! k with Some (AString s) => f s | _ => z end =
  match m !! k with Some (AString s) => f s | _ => z end.
Proof.
  intros H. destruct (m !! k) as [[]|] eqn:E, (m' !! k) as [[]|] eqn:E'; try done;
    repeat match goal with s : string |- _ => pose proof (H s); clear s end; naive_solver.
Qed.

Lemma of_to_known {A} `{GoEnum A} (a : A) : known a = true → of_string (to_string a) = a.
Proof. apply of_to_string. Qed.

Lemma scanTask_taskToRow t r :
  task_known t = true → taskToRow t = Ok r →
  ∃ m, json_map (tkMetadata t) = Some m ∧
    scanTask r = Task.Reconstruct (tkID t) (tkParentTaskID t) (tkType t) (tkTitle t) (tkScope t)
      (tkPriority t) (tkRiskLevel t) (tkStatus t) m (pg_ts (tkCreatedAt t)) (pg_ts (tkUpdatedAt t)).
Proof.
  unfold task_known, taskToRow. intros K E. boolify. case_match eqn:Hm; simplify_eq.
  eexists. split; [done|]. unfold scanTask; simpl. by rewrite !of_to_known by done.
Qed.

Lemma unmarshal_marshal_transitions ts :
  forallb transition_storable ts = true → unmarshalTransitions (marshalTransitions ts) = Ok ts.
Proof.
  induction ts as [|t ts IH]; simpl; [done|]. unfold transition_storable at 1. intros H. boolify.
  unfold unmarshalTransition, NewTimestamp; simpl.
  destruct (IsZero _); [done|]. simpl.
  fold (marshalTransitions ts). rewrite IH by done. simpl. rewrite !of_to_known by done.
  by destruct t as [???? []].
Qed.

Lemma scan_stored w r :
  known (wfStatus w) = true → forallb transition_storable (wfTransitions w) = true →
  wf_status r = to_string (wfStatus w) → wf_transitions r = marshalTransitions (wfTransitions w) →
  scanWorkflowRun r = Ok (ReconstructWorkflowRun (wf_id r) (wf_task_id r) (wfStatus w)
    (wf_routing_decision_id r) (wf_policy_decision_id r) (wf_current_step_index r)
    (wfTransitions w) (ts_scan (wf_created_at r)) (ts_scan (wf_updated_at r))).
Proof.
  intros K T Es Et. unfold scanWorkflowRun. rewrite Et, unmarshal_marshal_transitions by done.
  simpl. by rewrite Es, of_to_known.
Qed.

Lemma reachable_storable w :
  Workflow.reachable w →
  Forall (λ t, ts_Time (trTimestamp t) ≠ 0%Z) (wfTransitions w) →
  known (wfStatus w) = true ∧ forallb transition_storable (wfTransitions w) = true ∧
  wfCurrentStepIndex w = 0%Z.
Proof.
  intros R. induction R as [|w op actor now w' R IH H]; [done|]. intros Hts.
  pose proof (apply_op_Ok _ _ _ _ _ H) as (t & Et & Hf & Ht & _ & _ & _ & V & _).
  rewrite Et in *. apply Forall_app in Hts as [Hts Hz]. rewrite Forall_singleton in Hz.
  destruct (IH Hts) as (K & S & I).
  pose proof (valid_target_known _ _ V) as K'.
  split_and!; [done| |by rewrite (apply_op_step_index _ _ _ _ _ H)].
  rewrite forallb_app, S. simpl. unfold transition_storable. rewrite Hf, Ht, K, K'. simpl.
  unfold IsZero. by rewrite (proj2 (Z.eqb_neq _ _) Hz).
Qed.

Lemma trunc_ms_range d : (minInt64 ≤ d ≤ maxInt64)%Z → wrap64 (Milliseconds d * Millisecond) = trunc_ms d.
Proof.
  intros H. unfold Milliseconds. apply wrap64_id. unfold trunc_ms, Millisecond, minInt64, maxInt64 in *.
  pose proof (Z.quot_rem' d 1000000). pose proof (Z.rem_bound_abs d 1000000 ltac:(lia)).
  destruct (Z_le_gt_dec 0 d).
  - pose proof (Z.rem_nonneg d 1000000 ltac:(lia) ltac:(lia)). lia.
  - pose proof (Z.rem_nonpos d 1000000 ltac:(lia) ltac:(lia)). lia.
Qed.

Lemma outcome_roundtrip o :
  is_outcome o = true → policyOutcomeFromString (policyOutcomeToString o) = o.
Proof.
  unfold is_outcome. intros H. boolify.
  assert (o = 0 ∨ o = 1 ∨ o = 2 ∨ o = 3)%Z as [->|[->|[->| ->]]] by lia; reflexivity.
Qed.

Lemma rules_roundtrip evals :
  Forall (λ e, from_option is_outcome true (reOutcome e) = true) evals →
  unmarshalRuleEvaluations (marshalRuleEvaluations evals) = evals.
Proof.
  unfold unmarshalRuleEvaluations, marshalRuleEvaluations. intros H. rewrite <- list_fmap_compose.
  rewrite <- (list_fmap_id evals) at 2. apply list_fmap_ext. intros i e Hi. simpl.
  pose proof (proj1 (Forall_lookup _ _) H i e Hi) as He. simpl in He.
  destruct e as [rid p [o|] rs]; simpl in *; [|done]. do 2 f_equal. by apply outcome_roundtrip.
Qed.

(** The columns of a lease that [Save] and [Update] both write. *)
Record lease_columns (l : ExecutionLease) (r : LeaseRow) : Prop := {
  lc_timeout : lease_timeout_budget_ms r = Milliseconds (elTimeoutBudget l);
  lc_budget : lease_retry_budget r = rbMaxAttempts (elRetryBudget l);
  lc_used : lease_attempts_used r = elAttemptsUsed l;
  lc_elapsed : lease_time_elapsed_ms r = Milliseconds (elTimeElapsed l);
  lc_status : lease_status r = to_string (elStatus l);
}.

(** A lease in the range of the columns, its timeout at least a millisecond. *)
Record lease_storable (l : ExecutionLease) : Prop := {
  ls_inv : lease_inv l;
  ls_budget : int4 (rbMaxAttempts (elRetryBudget l)) = true;
  ls_timeout : (Millisecond ≤ elTimeoutBudget l ≤ maxInt64)%Z;
  ls_elapsed : (0 ≤ elTimeElapsed l ≤ maxInt64)%Z;
}.

Lemma lease_int4 l :
  lease_storable l → int4 (rbMaxAttempts (elRetryBudget l)) && int4 (elAttemptsUsed l) = true.
Proof.
  intros [(_ & Ha & _ & _) H4 _ _]. unfold int4 in *. boolify. rewrite !andb_true_iff, !Z.leb_le. lia.
Qed.

Lemma leaseToRow_ok l :
  lease_storable l → ∃ r, leaseToRow l = Ok r ∧ lease_columns l r ∧ lease_id r = elID l ∧
    lease_workflow_run_id r = elWorkflowRunID l ∧ lease_created_at r = ts_column (elCreatedAt l).
Proof. intros H. unfold leaseToRow. rewrite lease_int4 by done. simpl. eexists. by split_and!. Qed.

Lemma updateLeaseRow_ok l r :
  lease_storable l → ∃ r', updateLeaseRow r l = Ok r' ∧ lease_columns l r' ∧
    lease_id r' = lease_id r ∧ lease_workflow_run_id r' = lease_workflow_run_id r ∧
    lease_created_at r' = lease_created_at r.
Proof. intros H. unfold updateLeaseRow. rewrite lease_int4 by done. simpl. eexists. by split_and!. Qed.

Lemma trunc_ms_bounds d : (0 ≤ d)%Z → (0 ≤ trunc_ms d ≤ d)%Z ∧ (Millisecond ≤ d → Millisecond ≤ trunc_ms d)%Z.
Proof.
  unfold trunc_ms, Millisecond. intros H. pose proof (Z.quot_rem' d 1000000).
  pose proof (Z.rem_bound_pos d 1000000). pose proof (Z.quot_pos d 1000000). lia.
Qed.

Lemma scan_lease l r :
  lease_storable l → lease_columns l r →
  scanExecutionLease r =
    ReconstructExecutionLease (lease_id r) (lease_workflow_run_id r) (trunc_ms (elTimeoutBudget l))
      (elRetryBudget l) (elAttemptsUsed l) (trunc_ms (elTimeElapsed l)) (elStatus l)
      (ts_scan (lease_created_at r)) ∧
  lease_storable (scanExecutionLease r).
Proof.
  intros [Hi H4 Ht He] [E1 E2 E3 E4 E5].
  assert (Hk : known (elStatus l) = true) by (destruct Hi as (_ & _ & _ & Hs); by destruct (elStatus l)).
  pose proof (trunc_ms_bounds (elTimeoutBudget l)). pose proof (trunc_ms_bounds (elTimeElapsed l)).
  unfold scanExecutionLease. rewrite E1, E2, E3, E4, E5, of_to_known, !trunc_ms_range
    by (done || unfold minInt64, maxInt64, Millisecond in *; lia).
  split; [f_equal; by destruct (elRetryBudget l)|].
  destruct Hi as (Hp & Ha & Hmax & Hs).
  split; simpl; [unfold lease_inv, Millisecond in *; simpl; split_and!; (done || lia)|done|lia|lia].
Qed.

Lemma RecordAttempt_storable l l' : lease_storable l → RecordAttempt l = Ok l' → lease_storable l'.
Proof.
  intros [Hi H4 Ht He] E. pose proof (RecordAttempt_inv _ _ Hi E).
  unfold RecordAttempt in E. case_decide; simplify_eq. by split.
Qed.

Lemma trunc_ms_idem d : trunc_ms (trunc_ms d) = trunc_ms d.
Proof. unfold trunc_ms. by rewrite Z.quot_mul. Qed.

(** * Theorems *)

(** What is decided of a stored task is what is decided of the task. *)
Lemma stored_policy t r action :
  task_known t = true → taskToRow t = Ok r →
  EvaluatePolicy DefaultRules {| pxTask := scanTask r; pxAction := action |} =
  EvaluatePolicy DefaultRules {| pxTask := t; pxAction := action |}.
Proof.
  intros K E. destruct (scanTask_taskToRow _ _ K E) as (m & Hm & ->).
  assert (Hk : ∀ k s, m !! k = Some (AString s) ↔ tkMetadata t !! k = Some (AString s))
    by (intros; by apply json_map_string).
  rewrite (EvaluatePolicy_evaluations _ _ {| pxTask := t; pxAction := action |}).
  rewrite (EvaluatePolicy_evaluations _ {| pxTask := t; pxAction := action |}
             {| pxTask := t; pxAction := action |}).
  simpl. unfold get_string. by rewrite (string_entry _ _ "tasks_phase_status" (λ s, s) "" (Hk _)).
Qed.

Lemma stored_routing t r mem stats :
  task_known t = true → taskToRow t = Ok r →
  Evaluate {| eiTask := scanTask r; eiMemoryContext := mem; eiFailureStats := stats |} =
  Evaluate {| eiTask := t; eiMemoryContext := mem; eiFailureStats := stats |}.
Proof.
  intros K E. destruct (scanTask_taskToRow _ _ K E) as (m & Hm & ->).
  assert (Hk : ∀ k s, m !! k = Some (AString s) ↔ tkMetadata t !! k = Some (AString s))
    by (intros; by apply json_map_string).
  unfold Evaluate, checkOverrides; simpl. by rewrite (string_entry _ _ "force_strategy" _ None (Hk _)).
Qed.



(** A lease survives the database up to whole milliseconds: a lease that satisfies the
    lease invariant, with budgets in the range of the columns, is stored, and the lease read
    back has the same attempt counter, budget and status, so the same answer of
    [HasRetryBudget], and satisfies the invariant again when its timeout is at least one
    millisecond; a recorded attempt is stored by [Update] the same way. *)
Theorem lease_persistence l :
  lease_inv l → int4 (rbMaxAttempts (elRetryBudget l)) = true →
  (Millisecond ≤ elTimeoutBudget l ≤ maxInt64)%Z → (0 ≤ elTimeElapsed l ≤ maxInt64)%Z →
  ∃ r, leaseToRow l = Ok r ∧
    scanExecutionLease r = stored_lease (pg_ts (elCreatedAt l)) l ∧
    HasRetryBudget (scanExecutionLease r) = HasRetryBudget l ∧ lease_inv (scanExecutionLease r) ∧
    ∀ l', RecordAttempt (scanExecutionLease r) = Ok l' →
      ∃ r', updateLeaseRow r l' = Ok r' ∧ scanExecutionLease r' = l'.
Proof.
  intros Hi H4 Ht He. assert (S : lease_storable l) by done.
  destruct (leaseToRow_ok l S) as (r & Er & C & E1 & E2 & E3). exists r. split; [done|].
  pose proof (scan_lease _ _ S C) as [Es Ss].
  assert (Es' : scanExecutionLease r = stored_lease (pg_ts (elCreatedAt l)) l).
  { rewrite Es, E1, E2, E3. done. }
  split; [done|]. split; [by rewrite Es'|]. split; [apply Ss|].
  intros l' Hl'. pose proof (RecordAttempt_storable _ _ Ss Hl') as S'.
  destruct (updateLeaseRow_ok l' r S') as (r' & Er' & C' & F1 & F2 & F3). exists r'. split; [done|].
  rewrite (proj1 (scan_lease _ _ S' C')), F1, F2, F3.
  rewrite Es in Hl'. unfold RecordAttempt in Hl'. case_decide; [|done].
  injection Hl' as <-. unfold ReconstructExecutionLease; simpl. by rewrite !trunc_ms_idem.
Qed.

Definition stored_approval (a : ApprovalRequest) : ApprovalRequest :=
  ReconstructApprovalRequest (apID a) (apTaskID a) (apWorkflowRunID a) (apReason a)
    (apRequiredApprover a) (apStatus a) (apResolution a) (pg_ts <$> apExpiresAt a)
    (pg_ts (apCreatedAt a)).

Lemma approval_inv_known a : approval_inv a → known (apStatus a) = true.
Proof.
  intros [_ H]. destruct (apResolution a); [|by rewrite H]. destruct H as [_ H].
  by destruct (apStatus a).
Qed.

(** C35: governance records survive the database.  A policy decision whose outcomes are
    declared constants is read back with its outcome, constraints, approval
    requirement and rule evaluations; an approval request satisfying its invariant is read back
    with its status and resolution, and resolving the request read back, then [Update],
    stores exactly that resolution.  A row whose outcome is none of the four declared
    spellings is read back as allow. *)
Theorem governance_records_persistence pd a :
  is_outcome (pdOutcome pd) = true →
  Forall (λ e, from_option is_outcome true (reOutcome e) = true) (pdRulesEvaluated pd) →
  approval_inv a →
  scanPolicyDecision (policyToRow pd) =
    Policy.Reconstruct (pdID pd) (pdTaskID pd) (pdEvaluatedAction pd) (pdOutcome pd)
      (pdConstraints pd) (pdApprovalRequirement pd) (pdRulesEvaluated pd) (pdReason pd)
      (pg_ts (pdCreatedAt pd)) ∧
  scanApprovalRequest (approvalToRow a) = stored_approval a ∧
  (∀ op now a', Approval.apply_op (stored_approval a) op now = Ok a' →
     scanApprovalRequest (updateApprovalRow (approvalToRow a) a') = a') ∧
  (∀ r, pd_outcome r ∉ ["allow"; "allow_with_constraints"; "require_approval"; "deny"] →
     pdOutcome (scanPolicyDecision r) = OutcomeAllow).
Proof.
  intros Ho Hr Ha. pose proof (approval_inv_known _ Ha) as Hk. split_and!.
  - unfold scanPolicyDecision. simpl. by rewrite outcome_roundtrip, rules_roundtrip.
  - unfold scanApprovalRequest, stored_approval, nullableTimestamp. simpl.
    rewrite of_to_known by done. f_equal. by destruct (apExpiresAt a).
  - intros op now a' H. rewrite apply_op_spec in H.
    apply resolve_Ok in H as (_ & Hs & Hres & Hid & Ht & Hw & Hre & Hap & Hex & Hc).
    unfold scanApprovalRequest. simpl. rewrite Hs, of_to_known by (by destruct op).
    destruct a' as [i tk w rs ra st re ex cr]; simpl in *. subst.
    unfold ReconstructApprovalRequest. f_equal. unfold nullableTimestamp. by destruct (apExpiresAt a).
  - intros r Hn. simpl. unfold policyOutcomeFromString.
    by repeat (rewrite decide_False by set_solver).
Qed.
End roundtrip.

(** * Concrete rows *)

(** A database that keeps microseconds. *)
Definition micro_pg : Postgres := {| timestamptz t := (t / 1000 * 1000)%Z |}.

Definition demo_stored_task : Task :=
  {| tkID := "t"; tkParentTaskID := None; tkType := TypeBugfix; tkTitle := "fix";
     tkScope := ScopeFile; tkPriority := PriorityNormal; tkRiskLevel := RiskLevelLow;
     tkStatus := Task.StatusCreated;
     tkMetadata := {["force_strategy" := AString "decompose"; "size" := AInt 3]};
     tkCreatedAt := {| ts_Time := 5001 |}; tkUpdatedAt := {| ts_Time := 5001 |} |}.



Definition demo_lease : ExecutionLease :=
  {| elID := "l"; elWorkflowRunID := "w"; elTimeoutBudget := 300 * Second;
     elRetryBudget := {| rbMaxAttempts := 3 |}; elAttemptsUsed := 1; elTimeElapsed := 0;
     elStatus := LeaseStatusActive; elCreatedAt := {| ts_Time := 5 |} |}.

Lemma lease_persistence_witness :
  ∃ r, leaseToRow (PG := micro_pg) demo_lease = Ok r ∧ HasRetryBudget (scanExecutionLease r) = true.
Proof.
  destruct (lease_persistence (PG := micro_pg) demo_lease) as (r & E & _ & H & _).
  - unfold lease_inv, demo_lease, Second, maxInt64; simpl; lia.
  - reflexivity.
  - unfold demo_lease, Millisecond, Second, maxInt64; simpl; lia.
  - unfold demo_lease, maxInt64; simpl; lia.
  - exists r. split; [exact E|exact H].
Defined.

Definition demo_decision : PolicyDecision :=
  {| pdID := "p"; pdTaskID := "t"; pdEvaluatedAction := "deploy"; pdOutcome := OutcomeDeny;
     pdConstraints := []; pdApprovalRequirement := None;
     pdRulesEvaluated := [{| reRuleID := "r"; rePassed := false; reOutcome := Some OutcomeDeny;
                             reReason := "no" |}];
     pdReason := "no"; pdCreatedAt := {| ts_Time := 3000 |} |}.

Lemma governance_records_persistence_witness :
  scanPolicyDecision (policyToRow (PG := micro_pg) demo_decision) = demo_decision.
Proof.
  pose proof (governance_records_persistence (PG := micro_pg) demo_decision demo_request) as H.
  apply H; [reflexivity|repeat constructor|split; [vm_compute; discriminate|reflexivity]].
Defined.
