(* ===== verification/Queries.v ===== *)
(** The read side of the persistence adapter: [Query] of pg_audit_entry_repo.go and [List] of
    pg_workflow_run_repo.go, a filtered SELECT with COUNT over the whole result, newest first,
    and LIMIT and OFFSET when the limit is positive. *)

From stdpp Require Import sorting options.
From S2P Require Import Prelude GoLib Shared Workflow AuditLog FailureStatsCollector Persistence.

Record AuditFilter := {
  afTaskID : option TaskID; afWorkflowRunID : option WorkflowRunID; afActor : option ActorID;
  afAction : option string; afCreatedAfter : option Time; afCreatedBefore : option Time;
  afLimit : Z; afOffset : Z;
}.

Record WorkflowListFilter := {
  wlStatus : option WorkflowStatus; wlTaskID : option TaskID; wlLimit : Z; wlOffset : Z;
}.

Definition offset_error : error := Sentinel "pgconn.PgError" "OFFSET must not be negative".

(** [LIMIT l OFFSET o] when [l > 0], no clause otherwise. *)
Definition paginate {A} (limit offset : Z) (l : list A) : list A :=
  if (0 <? limit)%Z then take (Z.to_nat limit) (drop (Z.to_nat offset) l) else l.

(** [total] of the loop over the rows: the window count of the first row, 0 with no row. *)
Definition total_count {A} (page matching : list A) : Z :=
  match page with [] => 0%Z | _ => Z.of_nat (length matching) end.

(** One condition of the WHERE clause, present when its filter is. *)
Definition cond {A} (f : option A) (P : A → bool) : bool :=
  match f with Some x => P x | None => true end.

Section queries.
Context {PG : Postgres}.

Definition audit_where (f : AuditFilter) (r : AuditRow) : bool :=
  cond (afTaskID f) (λ t, bool_decide (ae_task_id r = Some t)) &&
  cond (afWorkflowRunID f) (λ w, bool_decide (ae_workflow_run_id r = Some w)) &&
  cond (afActor f) (λ a, bool_decide (ae_actor r = a)) &&
  cond (afAction f) (λ a, bool_decide (ae_action r = a)) &&
  cond (afCreatedAfter f) (λ t, (timestamptz t <? ae_created_at r)%Z) &&
  cond (afCreatedBefore f) (λ t, (ae_created_at r <? timestamptz t)%Z).

(** [ORDER BY created_at DESC]; rows with the same time come in no specified order. *)
Definition newer (r s : AuditRow) : Prop := (ae_created_at s ≤ ae_created_at r)%Z.
#[export] Instance newer_dec : RelDecision newer.
Proof. intros r s. unfold newer. apply _. Defined.

Definition audit_matching (f : AuditFilter) (rows : list AuditRow) : list AuditRow :=
  merge_sort newer (List.filter (audit_where f) rows).

Definition Query (f : AuditFilter) (rows : list AuditRow) : result (list AuditEntry * Z) :=
  if (0 <? afLimit f)%Z && (afOffset f <? 0)%Z
  then Err (Wrapf "querying audit entries: %w" [] offset_error)
  else
    let matching := audit_matching f rows in
    let page := paginate (afLimit f) (afOffset f) matching in
    Ok (scanAuditEntry <$> page, total_count page matching).

Definition wf_where (f : WorkflowListFilter) (r : WorkflowRow) : bool :=
  cond (wlStatus f) (λ s, bool_decide (wf_status r = to_string s)) &&
  cond (wlTaskID f) (λ t, bool_decide (wf_task_id r = t)).

Definition wf_newer (r s : WorkflowRow) : Prop := (wf_updated_at s ≤ wf_updated_at r)%Z.
#[export] Instance wf_newer_dec : RelDecision wf_newer.
Proof. intros r s. unfold wf_newer. apply _. Defined.

Definition wf_matching (f : WorkflowListFilter) (rows : list WorkflowRow) : list WorkflowRow :=
  merge_sort wf_newer (List.filter (wf_where f) rows).

Fixpoint scan_runs (rows : list WorkflowRow) : result (list WorkflowRun) :=
  match rows with
  | [] => Ok []
  | r :: rows => w ← scanWorkflowRun r; l ← scan_runs rows; Ok (w :: l)
  end.

(** The rows are those of the table, in the order the plan yields them. *)
Definition List_ (f : WorkflowListFilter) (rows : list WorkflowRow)
    : result (list WorkflowRun * Z) :=
  if (0 <? wlLimit f)%Z && (wlOffset f <? 0)%Z
  then Err (Wrapf "listing workflow runs: %w" [] offset_error)
  else
    let matching := wf_matching f rows in
    let page := paginate (wlLimit f) (wlOffset f) matching in
    ws ← scan_runs page;
    Ok (ws, total_count page matching).

(** * Lemmas *)

Lemma paginate_pages {A} (l : list A) (limit : Z) n :
  (0 < limit)%Z → length l ≤ n * Z.to_nat limit →
  mjoin ((λ k, paginate limit (Z.of_nat k * limit) l) <$> seq 0 n) = l.
Proof.
  intros Hl. unfold paginate. rewrite (proj2 (Z.ltb_lt _ _) Hl).
  set (L := Z.to_nat limit). assert (HL : 0 < L) by (unfold L; lia).
  assert (E : ∀ k, Z.to_nat (Z.of_nat k * limit) = k * L) by (intros; unfold L; lia).
  assert (G : ∀ n a, mjoin ((λ k, take L (drop (Z.to_nat (Z.of_nat k * limit)) l)) <$> seq a n)
              = take (n * L) (drop (a * L) l)).
  { intros m. induction m as [|m IH]; intros a; [done|]. cbn [seq fmap list_fmap mjoin list_join].
    rewrite IH, E. replace (S a * L) with (a * L + L) by lia. rewrite <- drop_drop.
    change (S m * L) with (L + m * L). by rewrite take_take_drop. }
  intros Hn. rewrite G. simpl. apply take_ge. done.
Qed.

End queries.

Definition demo_audit (id : string) (t : Time) : AuditRow :=
  {| ae_id := id; ae_task_id := Some "t"; ae_workflow_run_id := None; ae_actor := "system";
     ae_action := "task_submitted"; ae_outcome := "created"; ae_context := ∅; ae_created_at := t |}.

Definition demo_filter (limit offset : Z) : AuditFilter :=
  {| afTaskID := Some "t"; afWorkflowRunID := None; afActor := None; afAction := None;
     afCreatedAfter := None; afCreatedBefore := None; afLimit := limit; afOffset := offset |}.

Definition demo_trail : list AuditRow := [demo_audit "a" 1; demo_audit "b" 3; demo_audit "c" 2].

