(* ===== verification/Ports.v ===== *)
(** internal/ports/outbound and what answers it: the calls a service makes, the database
    they act on (tables and constraints of migrations/postgres), and the execution of
    services against it, with faults and in any interleaving.

    A service is a [proc]: a tree of calls, each continued by its answer.  [exec] gives the
    effect of one call on the [World] under a [choice], which fixes everything the program
    does not: the fault injected, the identifier generated, the clock, the row picked
    where no ORDER BY does, the answers of the memory engine and of the notifier. *)

From stdpp Require Import options.
From S2P Require Import Prelude GoLib Shared Task Workflow Execution Approval Escalation Policy.
From S2P Require Import Routing AuditLog Resilience FailureStatsCollector Persistence Queries.

(** * The tables of the governance facade (pg_phase_decision_repo.go, pg_phase_approval_repo.go) *)

Record PhaseDecisionRecord := {
  phID : string; phChangeID : string; phPhaseType : string; phCapability : string;
  phSensitive : bool; phDecision : string; phAgentRole : string; phStrategy : string;
  phReason : string; phCreatedAt : Time;
}.

Record PhaseApprovalRecord := {
  paChangeID : string; paPhaseID : string; paStatus : string; paReason : string;
  paDecidedBy : string; paDecidedAt : option Time; paCreatedAt : Time;
}.

(** The column constraints is never written. *)
Record PhaseDecisionRow := {
  pd_row_id : string; pd_row_change_id : string; pd_row_phase_type : string;
  pd_row_capability : option string; pd_row_sensitive : bool; pd_row_decision : string;
  pd_row_agent_role : option string; pd_row_strategy : option string; pd_row_reason : string;
  pd_row_created_at : Time;
}.

Record PhaseApprovalRow := {
  pa_change_id : string; pa_phase_id : string; pa_status : string; pa_reason : option string;
  pa_decided_by : option string; pa_decided_at : option Time; pa_created_at : Time;
}.

(** An empty string is stored as NULL. *)
Definition nullable (s : string) : option string := if decide (s = "") then None else Some s.

Definition phaseDecisionToRow `{Postgres} (rec : PhaseDecisionRecord) : PhaseDecisionRow :=
  {| pd_row_id := phID rec; pd_row_change_id := phChangeID rec; pd_row_phase_type := phPhaseType rec;
     pd_row_capability := nullable (phCapability rec); pd_row_sensitive := phSensitive rec;
     pd_row_decision := phDecision rec; pd_row_agent_role := nullable (phAgentRole rec);
     pd_row_strategy := nullable (phStrategy rec); pd_row_reason := phReason rec;
     pd_row_created_at := timestamptz (phCreatedAt rec) |}.

Definition scanPhaseApproval (r : PhaseApprovalRow) : PhaseApprovalRecord :=
  {| paChangeID := pa_change_id r; paPhaseID := pa_phase_id r; paStatus := pa_status r;
     paReason := default "" (pa_reason r); paDecidedBy := default "" (pa_decided_by r);
     paDecidedAt := pa_decided_at r; paCreatedAt := pa_created_at r |}.

(** * Outbound calls *)

(** Notifications of [GovernanceNotifier]. *)
Inductive notification :=
  | OnExecutionReady (wf : WorkflowRun) (lease : ExecutionLease)
  | OnApprovalRequired (wf : WorkflowRun) (req : ApprovalRequest)
  | OnWorkflowTerminated (wf : WorkflowRun) (reason : string).

(** What a tracing decorator does with its OpenTelemetry span. *)
Inductive span_event :=
  | SpanStart (name : string) (attrs : list (string * any))
  | SpanSetAttributes (attrs : list (string * any))
  | SpanRecordError (e : error)       (* RecordError and SetStatus(codes.Error, ...) *)
  | SpanEnd.

(** One measurement on an OpenTelemetry instrument: name, value, attributes. *)
Record metric := { mInstrument : string; mValue : float64; mAttributes : list (string * string) }.

Inductive port : Type → Type :=
  | TaskSave (t : Task) : port (result unit)
  | TaskFindByID (id : TaskID) : port (result Task)
  | TaskFindByParentID (parentID : TaskID) : port (result (list Task))
  | TaskUpdateStatus (t : Task) : port (result unit)
  | WfSave (wf : WorkflowRun) : port (result unit)
  | WfFindByID (id : WorkflowRunID) : port (result WorkflowRun)
  | WfFindByTaskID (taskID : TaskID) : port (result WorkflowRun)
  | WfUpdate (wf : WorkflowRun) : port (result unit)
  | LeaseSave (l : ExecutionLease) : port (result unit)
  | LeaseFindByWorkflowRunID (wfID : WorkflowRunID) : port (result ExecutionLease)
  | LeaseUpdate (l : ExecutionLease) : port (result unit)
  | RoutingSave (rd : RoutingDecision) : port (result unit)
  | RoutingFindByTaskID (taskID : TaskID) : port (result RoutingDecision)
  | PolicySave (pd : PolicyDecision) : port (result unit)
  | PolicyFindByTaskID (taskID : TaskID) : port (result PolicyDecision)
  | ApprovalSave (req : ApprovalRequest) : port (result unit)
  | ApprovalFindByID (id : ApprovalRequestID) : port (result ApprovalRequest)
  | ApprovalFindPending : port (result (list ApprovalRequest))
  | ApprovalFindByTaskID (taskID : TaskID) : port (result (list ApprovalRequest))
  | ApprovalUpdate (req : ApprovalRequest) : port (result unit)
  | EscalationFindByTaskID (taskID : TaskID) : port (result (list EscalationTrigger))
  | EscalationUpdate (t : EscalationTrigger) : port (result unit)
  | EscalationSave (t : EscalationTrigger) : port (result unit)
  | AuditAppend (e : AuditEntry) : port (result unit)
  | PhaseDecisionSave (rec : PhaseDecisionRecord) : port (result unit)
  | PhaseApprovalFind (changeID phaseID : string) : port (result (option PhaseApprovalRecord))
  | NewID : port string
  | TimeNow : port Time
  | Span : port SpanContext
  | GetRelevantContext (taskID : TaskID) (query : string) : port (result (option MemoryContext))
  | StatsGet : port (option FailureStats)
  | Notify (n : notification) : port (result unit)
  | Metric (m : metric) : port unit
  | BreakerObserve (tool role : string) (success : bool) (at_ : Time)
      : port (option StateTransition)
  | BreakerGet (tool role : string) : port (option BreakerSnapshot)
  | BreakerList (filter : BreakerFilter) : port (list BreakerSnapshot)
  | WfList (filter : WorkflowListFilter) : port (result (list WorkflowRun * Z))
  | AuditQuery (filter : AuditFilter) : port (result (list AuditEntry * Z))
  | Ping : port (result unit)                              (* DBPinger of the HTTP adapter *)
  | Tracer (ev : span_event) : port unit.

(** * Services as trees of calls *)

Inductive proc (A : Type) : Type :=
  | Ret (a : A)
  | Call {X : Type} (p : port X) (k : X → proc A)
  | Panic.
Arguments Ret {A} a.
Arguments Call {A X} p k.
Arguments Panic {A}.

#[export] Instance proc_ret : MRet proc := @Ret.
#[export] Instance proc_bind : MBind proc := λ A B f,
  fix go (p : proc A) : proc B :=
    match p with Ret a => f a | Call p k => Call p (λ x, go (k x)) | Panic => Panic end.

Definition call {X} (p : port X) : proc X := Call p Ret.

(** [x, err := p; if err != nil { return fmt.Errorf(ctx, args..., err) }; k] *)
Definition tryf {A B} (ctx : string) (args : list string) (p : proc (result A))
    (k : A → proc (result B)) : proc (result B) :=
  r ← p; match r with Ok a => k a | Err e => Ret (Err (Wrapf ctx args e)) end.
Definition try {A B} (ctx : string) (p : proc (result A)) (k : A → proc (result B))
    : proc (result B) := tryf ctx [] p k.

Declare Scope proc_scope.
Delimit Scope proc_scope with proc.
Notation "x ⇐ p 'orelse' ctx ; k" := (try ctx p (λ x, k))
  (at level 100, p at level 99, ctx at level 99, k at level 200, right associativity,
   only parsing) : proc_scope.

(** [RealClock.Now]: [shared.MustTimestamp(time.Now())]. *)
Definition clock_Now : proc Timestamp :=
  t ← call TimeNow; match MustTimestamp t with Some ts => Ret ts | None => Panic end.

(** * The database *)

Record World := {
  w_tasks : gmap string TaskRow;
  w_routing : gmap string RoutingRow;
  w_policy : gmap string PolicyRow;
  w_workflows : gmap string WorkflowRow;
  w_leases : gmap string LeaseRow;
  w_approvals : gmap string ApprovalRow;
  w_escalations : gmap string EscalationRow;
  w_audit : list AuditRow;
  w_phase_decisions : gmap string PhaseDecisionRow;
  w_phase_approvals : gmap (string * string) PhaseApprovalRow;
  w_breakers : CircuitBreakerRegistry;
  w_stats : FailureStatsStore;
  w_notified : list notification;
  w_metrics : list metric;
}.

Definition empty_world : World :=
  {| w_tasks := ∅; w_routing := ∅; w_policy := ∅; w_workflows := ∅; w_leases := ∅;
     w_approvals := ∅; w_escalations := ∅; w_audit := []; w_phase_decisions := ∅;
     w_phase_approvals := ∅; w_breakers := NewCircuitBreakerRegistry;
     w_stats := NewFailureStatsStore; w_notified := []; w_metrics := [] |}.

Definition with_tasks (W : World) x : World :=
  {| w_tasks := x; w_routing := w_routing W; w_policy := w_policy W;
     w_workflows := w_workflows W; w_leases := w_leases W; w_approvals := w_approvals W;
     w_escalations := w_escalations W; w_audit := w_audit W;
     w_phase_decisions := w_phase_decisions W; w_phase_approvals := w_phase_approvals W;
     w_breakers := w_breakers W; w_stats := w_stats W; w_notified := w_notified W;
     w_metrics := w_metrics W |}.
Definition with_routing (W : World) x : World :=
  {| w_tasks := w_tasks W; w_routing := x; w_policy := w_policy W;
     w_workflows := w_workflows W; w_leases := w_leases W; w_approvals := w_approvals W;
     w_escalations := w_escalations W; w_audit := w_audit W;
     w_phase_decisions := w_phase_decisions W; w_phase_approvals := w_phase_approvals W;
     w_breakers := w_breakers W; w_stats := w_stats W; w_notified := w_notified W;
     w_metrics := w_metrics W |}.
Definition with_policy (W : World) x : World :=
  {| w_tasks := w_tasks W; w_routing := w_routing W; w_policy := x;
     w_workflows := w_workflows W; w_leases := w_leases W; w_approvals := w_approvals W;
     w_escalations := w_escalations W; w_audit := w_audit W;
     w_phase_decisions := w_phase_decisions W; w_phase_approvals := w_phase_approvals W;
     w_breakers := w_breakers W; w_stats := w_stats W; w_notified := w_notified W;
     w_metrics := w_metrics W |}.
Definition with_workflows (W : World) x : World :=
  {| w_tasks := w_tasks W; w_routing := w_routing W; w_policy := w_policy W;
     w_workflows := x; w_leases := w_leases W; w_approvals := w_approvals W;
     w_escalations := w_escalations W; w_audit := w_audit W;
     w_phase_decisions := w_phase_decisions W; w_phase_approvals := w_phase_approvals W;
     w_breakers := w_breakers W; w_stats := w_stats W; w_notified := w_notified W;
     w_metrics := w_metrics W |}.
Definition with_leases (W : World) x : World :=
  {| w_tasks := w_tasks W; w_routing := w_routing W; w_policy := w_policy W;
     w_workflows := w_workflows W; w_leases := x; w_approvals := w_approvals W;
     w_escalations := w_escalations W; w_audit := w_audit W;
     w_phase_decisions := w_phase_decisions W; w_phase_approvals := w_phase_approvals W;
     w_breakers := w_breakers W; w_stats := w_stats W; w_notified := w_notified W;
     w_metrics := w_metrics W |}.
Definition with_approvals (W : World) x : World :=
  {| w_tasks := w_tasks W; w_routing := w_routing W; w_policy := w_policy W;
     w_workflows := w_workflows W; w_leases := w_leases W; w_approvals := x;
     w_escalations := w_escalations W; w_audit := w_audit W;
     w_phase_decisions := w_phase_decisions W; w_phase_approvals := w_phase_approvals W;
     w_breakers := w_breakers W; w_stats := w_stats W; w_notified := w_notified W;
     w_metrics := w_metrics W |}.
(** The tables and states no invariant relates to the others. *)
Definition with_rest (W : World) esc aud ph br st no me : World :=
  {| w_tasks := w_tasks W; w_routing := w_routing W; w_policy := w_policy W;
     w_workflows := w_workflows W; w_leases := w_leases W; w_approvals := w_approvals W;
     w_escalations := esc; w_audit := aud;
     w_phase_decisions := ph; w_phase_approvals := w_phase_approvals W;
     w_breakers := br; w_stats := st; w_notified := no; w_metrics := me |}.
Definition with_escalations (W : World) x : World :=
  with_rest W x (w_audit W) (w_phase_decisions W) (w_breakers W) (w_stats W) (w_notified W) (w_metrics W).
Definition with_audit (W : World) x : World :=
  with_rest W (w_escalations W) x (w_phase_decisions W) (w_breakers W) (w_stats W) (w_notified W) (w_metrics W).
Definition with_phase_decisions (W : World) x : World :=
  with_rest W (w_escalations W) (w_audit W) x (w_breakers W) (w_stats W) (w_notified W) (w_metrics W).
Definition with_breakers (W : World) x : World :=
  with_rest W (w_escalations W) (w_audit W) (w_phase_decisions W) x (w_stats W) (w_notified W) (w_metrics W).
Definition with_stats (W : World) x : World :=
  with_rest W (w_escalations W) (w_audit W) (w_phase_decisions W) (w_breakers W) x (w_notified W) (w_metrics W).
Definition with_notified (W : World) x : World :=
  with_rest W (w_escalations W) (w_audit W) (w_phase_decisions W) (w_breakers W) (w_stats W) x (w_metrics W).
Definition with_metrics (W : World) x : World :=
  with_rest W (w_escalations W) (w_audit W) (w_phase_decisions W) (w_breakers W) (w_stats W) (w_notified W) x.

(** * Faults and choices *)

(** What happens to a statement: it runs; it fails with no effect; or it takes effect and
    its answer is lost. *)
Inductive fault := NoFault | FailBefore | FailAfter.

Record choice := {
  ch_fault : fault;
  ch_id : string;                               (* the identifier generated *)
  ch_now : Time;                                (* the clock *)
  ch_pick : nat;                                (* which matching row comes first *)
  ch_memory : result (option MemoryContext);    (* the memory engine *)
  ch_span : SpanContext;
  ch_notify : result unit;                      (* the registered callback *)
}.

Definition connection_error : error := Sentinel "pgconn.ConnectError" "failed to connect".
Definition constraint_error : error :=
  Sentinel "pgconn.PgError" "violates a constraint".

(** An INSERT or UPDATE statement; [r] is its effect, or the constraint it violates. *)
Definition db_write (ctx : string) (f : fault) (W : World) (r : option World) : result unit * World :=
  match f, r with
  | FailBefore, _ => (Err (Wrapf ctx [] connection_error), W)
  | _, None => (Err (Wrapf ctx [] constraint_error), W)
  | NoFault, Some W' => (Ok tt, W')
  | FailAfter, Some W' => (Err (Wrapf ctx [] connection_error), W')
  end.

(** A SELECT statement. *)
Definition db_read {A} (ctx : string) (f : fault) (r : result A) : result A :=
  match f with NoFault => r | _ => Err (Wrapf ctx [] connection_error) end.

(** INSERT with a primary key and the other constraints of the table. *)
Definition insert_row {K R} `{Countable K} (tbl : gmap K R) (id : K) (row : R) (ok : bool)
    : option (gmap K R) :=
  match tbl !! id with Some _ => None | None => if ok then Some (<[id := row]> tbl) else None end.

Definition has {K R} `{Countable K} (tbl : gmap K R) (id : K) : bool := bool_decide (is_Some (tbl !! id)).
(** A nullable foreign key. *)
Definition has_opt {R} (tbl : gmap string R) (id : option string) : bool :=
  match id with Some id => has tbl id | None => true end.

(** The rows that satisfy a WHERE clause, in no specified order; [pick] chooses the first. *)
Definition select {R} (P : R → bool) (tbl : gmap string R) : list R :=
  List.filter P (map_to_list tbl).*2.
Definition query_row {R A} (P : R → bool) (scan : R → result A) (not_found : string) (pick : nat)
    (tbl : gmap string R) : result A :=
  let rows := select P tbl in
  match rows !! (pick mod length rows) with
  | Some r => scan r
  | None => Err (Errorf not_found [])
  end.

Section exec.
Context {PG : Postgres}.

(** * The methods of the repositories, one statement each *)

(** ** pg_task_repo.go *)

Definition task_Save (c : choice) (W : World) (t : Task) : result unit * World :=
  match taskToRow t with
  | Err e => (Err e, W)
  | Ok r => db_write "inserting task: %w" (ch_fault c) W
      (with_tasks W <$> insert_row (w_tasks W) (tasks_id r) r
         (has_opt (w_tasks W) (tasks_parent_task_id r)))
  end.

Definition task_FindByID (c : choice) (W : World) (id : TaskID) : result Task :=
  db_read "scanning task: %w" (ch_fault c)
    (match w_tasks W !! id with
     | Some r => Ok (scanTask r) | None => Err (Errorf "task not found" []) end).

Definition task_FindByParentID (c : choice) (W : World) (parentID : TaskID) : result (list Task) :=
  db_read "querying tasks by parent: %w" (ch_fault c)
    (Ok (scanTask <$> select (λ r, bool_decide (tasks_parent_task_id r = Some parentID)) (w_tasks W))).

Definition task_UpdateStatus (c : choice) (W : World) (t : Task) : result unit * World :=
  db_write "updating task status: %w" (ch_fault c) W
    (Some (match w_tasks W !! tkID t with
           | Some old => with_tasks W (<[tkID t := updateTaskRow old t]> (w_tasks W))
           | None => W end)).

(** ** pg_workflow_run_repo.go *)

Definition wf_Save (c : choice) (W : World) (wf : WorkflowRun) : result unit * World :=
  match workflowToRow wf with
  | Err e => (Err e, W)
  | Ok r => db_write "inserting workflow run: %w" (ch_fault c) W
      (with_workflows W <$> insert_row (w_workflows W) (wf_id r) r
         (has (w_tasks W) (wf_task_id r) && has_opt (w_routing W) (wf_routing_decision_id r)
          && has_opt (w_policy W) (wf_policy_decision_id r)))
  end.

Definition wf_FindByID (c : choice) (W : World) (id : WorkflowRunID) : result WorkflowRun :=
  db_read "scanning workflow run: %w" (ch_fault c)
    (match w_workflows W !! id with
     | Some r => scanWorkflowRun r | None => Err (Errorf "workflow run not found" []) end).

Definition wf_FindByTaskID (c : choice) (W : World) (taskID : TaskID) : result WorkflowRun :=
  db_read "scanning workflow run: %w" (ch_fault c)
    (query_row (λ r, bool_decide (wf_task_id r = taskID)) scanWorkflowRun
       "workflow run not found" (ch_pick c) (w_workflows W)).

Definition wf_Update (c : choice) (W : World) (wf : WorkflowRun) : result unit * World :=
  match w_workflows W !! wfID wf with
  | None =>
      if int4 (wfCurrentStepIndex wf) then db_write "updating workflow run: %w" (ch_fault c) W (Some W)
      else (Err (Wrapf "updating workflow run: %w" [] int4_error), W)
  | Some old =>
      match updateWorkflowRow old wf with
      | Err e => (Err e, W)
      | Ok r => db_write "updating workflow run: %w" (ch_fault c) W
          (if has_opt (w_routing W) (wf_routing_decision_id r)
              && has_opt (w_policy W) (wf_policy_decision_id r)
           then Some (with_workflows W (<[wfID wf := r]> (w_workflows W))) else None)
      end
  end.

(** ** pg_execution_lease_repo.go *)

Definition lease_Save (c : choice) (W : World) (l : ExecutionLease) : result unit * World :=
  match leaseToRow l with
  | Err e => (Err e, W)
  | Ok r => db_write "inserting execution lease: %w" (ch_fault c) W
      (with_leases W <$> insert_row (w_leases W) (lease_id r) r
         (has (w_workflows W) (lease_workflow_run_id r)
          && forallb (λ r', bool_decide (lease_workflow_run_id r' ≠ lease_workflow_run_id r))
               (map_to_list (w_leases W)).*2))
  end.

Definition lease_FindByWorkflowRunID (c : choice) (W : World) (wfID : WorkflowRunID) : result ExecutionLease :=
  db_read "scanning execution lease: %w" (ch_fault c)
    (query_row (λ r, bool_decide (lease_workflow_run_id r = wfID)) (λ r, Ok (scanExecutionLease r))
       "execution lease not found" (ch_pick c) (w_leases W)).

Definition lease_Update (c : choice) (W : World) (l : ExecutionLease) : result unit * World :=
  match w_leases W !! elID l with
  | None =>
      if int4 (rbMaxAttempts (elRetryBudget l)) && int4 (elAttemptsUsed l)
      then db_write "updating execution lease: %w" (ch_fault c) W (Some W)
      else (Err (Wrapf "updating execution lease: %w" [] int4_error), W)
  | Some old =>
      match updateLeaseRow old l with
      | Err e => (Err e, W)
      | Ok r => db_write "updating execution lease: %w" (ch_fault c) W
          (Some (with_leases W (<[elID l := r]> (w_leases W))))
      end
  end.

(** ** pg_routing_decision_repo.go *)

Definition routing_Save (c : choice) (W : World) (rd : RoutingDecision) : result unit * World :=
  match routingToRow rd with
  | Err e => (Err e, W)
  | Ok r => db_write "inserting routing decision: %w" (ch_fault c) W
      (with_routing W <$> insert_row (w_routing W) (rd_id r) r (has (w_tasks W) (rd_task_id r)))
  end.

Definition routing_FindByTaskID (c : choice) (W : World) (taskID : TaskID) : result RoutingDecision :=
  db_read "scanning routing decision: %w" (ch_fault c)
    (query_row (λ r, bool_decide (rd_task_id r = taskID)) (λ r, Ok (scanRoutingDecision r))
       "routing decision not found" (ch_pick c) (w_routing W)).

(** ** pg_policy_decision_repo.go *)

Definition policy_Save (c : choice) (W : World) (pd : PolicyDecision) : result unit * World :=
  let r := policyToRow pd in
  db_write "inserting policy decision: %w" (ch_fault c) W
    (with_policy W <$> insert_row (w_policy W) (pd_id r) r (has (w_tasks W) (pd_task_id r))).

Definition policy_FindByTaskID (c : choice) (W : World) (taskID : TaskID) : result PolicyDecision :=
  db_read "scanning policy decision: %w" (ch_fault c)
    (query_row (λ r, bool_decide (pd_task_id r = taskID)) (λ r, Ok (scanPolicyDecision r))
       "policy decision not found" (ch_pick c) (w_policy W)).

(** ** pg_approval_request_repo.go *)

Definition approval_Save (c : choice) (W : World) (req : ApprovalRequest) : result unit * World :=
  let r := approvalToRow req in
  db_write "inserting approval request: %w" (ch_fault c) W
    (with_approvals W <$> insert_row (w_approvals W) (ar_id r) r
       (has (w_tasks W) (ar_task_id r) && has (w_workflows W) (ar_workflow_run_id r))).

Definition approval_FindByID (c : choice) (W : World) (id : ApprovalRequestID) : result ApprovalRequest :=
  db_read "scanning approval request: %w" (ch_fault c)
    (match w_approvals W !! id with
     | Some r => Ok (scanApprovalRequest r)
     | None => Err (Errorf "approval request not found" []) end).

Definition approval_FindPending (c : choice) (W : World) : result (list ApprovalRequest) :=
  db_read "querying pending approval requests: %w" (ch_fault c)
    (Ok (scanApprovalRequest <$>
           select (λ r, bool_decide (ar_status r = "pending")) (w_approvals W))).

Definition approval_FindByTaskID (c : choice) (W : World) (taskID : TaskID) : result (list ApprovalRequest) :=
  db_read "querying approval requests by task: %w" (ch_fault c)
    (Ok (scanApprovalRequest <$> select (λ r, bool_decide (ar_task_id r = taskID)) (w_approvals W))).

Definition approval_Update (c : choice) (W : World) (req : ApprovalRequest) : result unit * World :=
  match w_approvals W !! apID req with
  | None => db_write "updating approval request: %w" (ch_fault c) W (Some W)
  | Some old => db_write "updating approval request: %w" (ch_fault c) W
      (Some (with_approvals W (<[apID req := updateApprovalRow old req]> (w_approvals W))))
  end.

(** ** pg_escalation_trigger_repo.go *)

Definition escalation_FindByTaskID (c : choice) (W : World) (taskID : TaskID) : result (list EscalationTrigger) :=
  db_read "querying escalation triggers by task: %w" (ch_fault c)
    (Ok (scanEscalationTrigger <$>
           select (λ r, bool_decide (es_task_id r = taskID)) (w_escalations W))).

Definition escalation_Update (c : choice) (W : World) (t : EscalationTrigger) : result unit * World :=
  db_write "updating escalation trigger: %w" (ch_fault c) W
    (Some (match w_escalations W !! etID t with
           | Some old => with_escalations W (<[etID t := updateEscalationRow old t]> (w_escalations W))
           | None => W end)).

Definition escalation_Save (c : choice) (W : World) (t : EscalationTrigger) : result unit * World :=
  match escalationToRow t with
  | Err e => (Err e, W)
  | Ok r => db_write "inserting escalation trigger: %w" (ch_fault c) W
      (with_escalations W <$> insert_row (w_escalations W) (es_id r) r
         (has (w_tasks W) (es_task_id r)))
  end.

(** ** pg_audit_entry_repo.go *)

Definition audit_Append (c : choice) (W : World) (e : AuditEntry) : result unit * World :=
  match auditToRow e with
  | Err e => (Err e, W)
  | Ok r => db_write "appending audit entry: %w" (ch_fault c) W
      (if forallb (λ r', bool_decide (ae_id r' ≠ ae_id r)) (w_audit W)
       then Some (with_audit W (w_audit W ++ [r])) else None)
  end.

(** ** pg_phase_decision_repo.go, pg_phase_approval_repo.go *)

Definition phase_decision_Save (c : choice) (W : World) (rec : PhaseDecisionRecord) : result unit * World :=
  let r := phaseDecisionToRow rec in
  db_write "inserting phase decision: %w" (ch_fault c) W
    (with_phase_decisions W <$> insert_row (w_phase_decisions W) (pd_row_id r) r
       (bool_decide (pd_row_decision r ∈ ["allow"; "deny"; "require_approval"]))).

Definition phase_approval_Find (c : choice) (W : World) (changeID phaseID : string) : result (option PhaseApprovalRecord) :=
  db_read "scanning phase approval: %w" (ch_fault c)
    (Ok (scanPhaseApproval <$> w_phase_approvals W !! (changeID, phaseID))).

(** One call: its answer and its effect. *)
Definition exec {X} (c : choice) (p : port X) (W : World) : X * World :=
  match p in port X return X * World with
  | TaskSave t => task_Save c W t
  | TaskFindByID id => (task_FindByID c W id, W)
  | TaskFindByParentID parentID => (task_FindByParentID c W parentID, W)
  | TaskUpdateStatus t => task_UpdateStatus c W t
  | WfSave wf => wf_Save c W wf
  | WfFindByID id => (wf_FindByID c W id, W)
  | WfFindByTaskID taskID => (wf_FindByTaskID c W taskID, W)
  | WfUpdate wf => wf_Update c W wf
  | LeaseSave l => lease_Save c W l
  | LeaseFindByWorkflowRunID wfID => (lease_FindByWorkflowRunID c W wfID, W)
  | LeaseUpdate l => lease_Update c W l
  | RoutingSave rd => routing_Save c W rd
  | RoutingFindByTaskID taskID => (routing_FindByTaskID c W taskID, W)
  | PolicySave pd => policy_Save c W pd
  | PolicyFindByTaskID taskID => (policy_FindByTaskID c W taskID, W)
  | ApprovalSave req => approval_Save c W req
  | ApprovalFindByID id => (approval_FindByID c W id, W)
  | ApprovalFindPending => (approval_FindPending c W, W)
  | ApprovalFindByTaskID taskID => (approval_FindByTaskID c W taskID, W)
  | EscalationFindByTaskID taskID => (escalation_FindByTaskID c W taskID, W)
  | EscalationUpdate t => escalation_Update c W t
  | ApprovalUpdate req => approval_Update c W req
  | EscalationSave t => escalation_Save c W t
  | AuditAppend e => audit_Append c W e
  | PhaseDecisionSave rec => phase_decision_Save c W rec
  | PhaseApprovalFind changeID phaseID => (phase_approval_Find c W changeID phaseID, W)
  | NewID => (ch_id c, W)
  | TimeNow => (ch_now c, W)
  | Span => (ch_span c, W)
  | GetRelevantContext taskID query => (ch_memory c, W)
  | StatsGet => (Store_Get (w_stats W), W)
  | Notify n => (ch_notify c, with_notified W (w_notified W ++ [n]))
  | Metric m => (tt, with_metrics W (w_metrics W ++ [m]))
  | BreakerObserve tool role success at_ =>
      let '(br, transition) := Registry_Observe (w_breakers W) tool role success at_ (ch_now c) in
      (transition, with_breakers W br)
  | BreakerGet tool role => (Get (w_breakers W) tool role, W)
  | BreakerList filter => (Resilience.List_ (w_breakers W) filter, W)
  | WfList filter =>
      (db_read "listing workflow runs: %w" (ch_fault c)
         (Queries.List_ filter (map_to_list (w_workflows W)).*2), W)
  | AuditQuery filter =>
      (db_read "querying audit entries: %w" (ch_fault c) (Query filter (w_audit W)), W)
  | Ping => (match ch_fault c with NoFault => Ok tt | _ => Err connection_error end, W)
  | Tracer ev => (tt, W)
  end.

(** * Executions *)

(** The result of a service: what it returned, or that it panicked. *)
Inductive outcome (A : Type) := Returned (a : A) | Panicked.
Arguments Returned {A} a.
Arguments Panicked {A}.

(** A service run alone: its calls are answered under the choices of the oracle, in order; the
    rest of the oracle is for what runs next. *)
Fixpoint run {A} (p : proc A) (o : nat → choice) (W : World)
    : outcome A * World * (nat → choice) :=
  match p with
  | Ret a => (Returned a, W, o)
  | Panic => (Panicked, W, o)
  | Call q k => let '(x, W') := exec (o 0) q W in run (k x) (λ n, o (S n)) W'
  end.

(** One call of a service; a finished service stays as it is. *)
Definition step {A} (c : choice) (p : proc A) (W : World) : proc A * World :=
  match p with
  | Call q k => let '(x, W') := exec c q W in (k x, W')
  | p => (p, W)
  end.
End exec.
Arguments Returned {A} a.
Arguments Panicked {A}.

(** [simpl] computes a statement as it computes the dispatch. *)
Arguments task_Save {PG} c W t /.
Arguments task_FindByID c W id /.
Arguments task_FindByParentID c W parentID /.
Arguments task_UpdateStatus {PG} c W t /.
Arguments wf_Save {PG} c W wf /.
Arguments wf_FindByID c W id /.
Arguments wf_FindByTaskID c W taskID /.
Arguments wf_Update {PG} c W wf /.
Arguments lease_Save {PG} c W l /.
Arguments lease_FindByWorkflowRunID c W wfID /.
Arguments lease_Update c W l /.
Arguments routing_Save {PG} c W rd /.
Arguments routing_FindByTaskID c W taskID /.
Arguments policy_Save {PG} c W pd /.
Arguments policy_FindByTaskID c W taskID /.
Arguments approval_Save {PG} c W req /.
Arguments approval_FindByID c W id /.
Arguments approval_FindPending c W /.
Arguments approval_FindByTaskID c W taskID /.
Arguments approval_Update c W req /.
Arguments escalation_FindByTaskID c W taskID /.
Arguments escalation_Update {PG} c W t /.
Arguments escalation_Save {PG} c W t /.
Arguments audit_Append {PG} c W e /.
Arguments phase_decision_Save {PG} c W rec /.
Arguments phase_approval_Find c W changeID phaseID /.

(** One call computed: the dispatch and the statement of the method. *)
Tactic Notation "step_call" :=
  cbn [exec
    task_Save task_FindByID task_FindByParentID task_UpdateStatus wf_Save wf_FindByID
    wf_FindByTaskID wf_Update lease_Save lease_FindByWorkflowRunID lease_Update
    routing_Save routing_FindByTaskID policy_Save policy_FindByTaskID approval_Save
    approval_FindByID approval_FindPending approval_FindByTaskID approval_Update
    escalation_FindByTaskID escalation_Update escalation_Save audit_Append
    phase_decision_Save phase_approval_Find].
Tactic Notation "step_call" "in" hyp(H) :=
  cbn [exec
    task_Save task_FindByID task_FindByParentID task_UpdateStatus wf_Save wf_FindByID
    wf_FindByTaskID wf_Update lease_Save lease_FindByWorkflowRunID lease_Update
    routing_Save routing_FindByTaskID policy_Save policy_FindByTaskID approval_Save
    approval_FindByID approval_FindPending approval_FindByTaskID approval_Update
    escalation_FindByTaskID escalation_Update escalation_Save audit_Append
    phase_decision_Save phase_approval_Find] in H.
