(* ===== verification/AuditService.v ===== *)
(** internal/application/audit: the recorder every use case calls; and the wiring of the
    optional dependencies (internal/bootstrap/wire.go). *)

From stdpp Require Import options.
From S2P Require Import Prelude GoLib Shared AuditLog Persistence Queries Ports.

(** Which optional dependencies are not nil. *)
Class Wiring := {
  has_memory : bool;      (* MemoryContextProvider *)
  has_stats : bool;       (* FailureStatsStore: adaptive routing enabled *)
  has_metrics : bool;     (* LifecycleMetrics and MetricsListener: OpenTelemetry enabled *)
  has_breakers : bool;    (* CircuitBreakerRegistry *)
}.

(** * record_audit.go *)

Definition Record_ (actor : ActorID) (action outcome : string) (auditCtx : AuditContext)
    (taskID : option TaskID) (wfID : option WorkflowRunID) : proc (result unit) :=
  span ← call Span;
  let auditCtx := WithTraceInfo auditCtx span in
  id ← call NewID;
  now ← clock_Now;
  match NewAuditEntry id actor action outcome auditCtx now with
  | Err e => Ret (Err e)
  | Ok entry =>
      let entry := match taskID with Some t => WithTaskID entry t | None => entry end in
      let entry := match wfID with Some w => WithWorkflowRunID entry w | None => entry end in
      call (AuditAppend entry)
  end.

(** * query_audit.go *)

Definition QueryAuditTrail (filter : AuditFilter) : proc (result (list AuditEntry * Z)) :=
  call (AuditQuery filter).
