(* ===== verification/Intake.v ===== *)
(** internal/application/intake: submission of a task. *)

From stdpp Require Import options.
From S2P Require Import Prelude GoLib Shared Task AuditLog Persistence Ports AuditService.

Record SubmitTaskInput := {
  inType : TaskType; inTitle : string; inScope : TaskScope; inPriority : Priority;
  inMetadata : TaskMetadata;
}.

(** * submit_task.go *)

Definition classifyRisk (taskType : TaskType) (scope : TaskScope) : RiskLevel :=
  if decide (taskType = TypeDeployment ∧ scope = ScopeSystem) then RiskLevelCritical
  else if decide (taskType = TypeDeployment ∧ scope = ScopeRepo) then RiskLevelHigh
  else if decide (scope = ScopeSystem) then RiskLevelHigh
  else if decide (taskType = TypeRefactor ∧ scope = ScopeRepo) then RiskLevelMedium
  else if decide (taskType = TypeBugfix ∧ scope = ScopeFile) then RiskLevelLow
  else RiskLevelMedium.

Section intake.
Context {W : Wiring}.
#[local] Open Scope proc_scope.

Definition SubmitTask (input : SubmitTaskInput) : proc (result Task) :=
  id ← call NewID;
  now ← clock_Now;
  let risk := classifyRisk (inType input) (inScope input) in
  _ ← (if has_memory then call (GetRelevantContext id (inTitle input)) else Ret (Ok None));
  t ⇐ Ret (NewTask id None (inType input) (inTitle input) (inScope input) (inPriority input) risk
             (inMetadata input) now) orelse "creating task: %w";
  _ ⇐ call (TaskSave t) orelse "persisting task: %w";
  _ ⇐ Record_ systemActor "task_submitted" "created" NewAuditContext (Some (tkID t)) None
     orelse "recording audit: %w";
  Ret (Ok t).
End intake.
