(* ===== verification/RouteTask.v ===== *)
(** internal/application/routing/route_task.go: the routing use case. *)

From stdpp Require Import options.
From S2P Require Import Prelude GoLib Shared Task Workflow Routing AuditLog Persistence Ports.
From S2P Require Import AuditService.

(** One level down. *)
Definition childScope (parent : TaskScope) : TaskScope :=
  match parent with
  | ScopeSystem => ScopeRepo
  | ScopeRepo => ScopeModule
  | ScopeModule => ScopeFile
  | _ => ScopeFile
  end.

Definition subtaskSuffixes (parent : TaskScope) : string * string :=
  match parent with
  | ScopeSystem => ("implementation", "review")
  | ScopeRepo => ("implementation", "testing")
  | _ => ("part 1", "part 2")
  end.

Section route.
Context {W : Wiring}.
#[local] Open Scope proc_scope.

(** One iteration of the loop of [createDecomposeSubtasks]. *)
Definition createSubtask (parent : Task) (now : Timestamp) (suffix : string) : proc (result unit) :=
  let childScp := childScope (tkScope parent) in
  let parentID := tkID parent in
  subID ← call NewID;
  let title := "[decompose] " +:+ tkTitle parent +:+ " - " +:+ suffix in
  tryf "creating subtask %q: %w" [suffix]
    (Ret (NewTask subID (Some parentID) (tkType parent) title childScp (tkPriority parent)
            (tkRiskLevel parent) ∅ now)) (λ sub,
  tryf "persisting subtask %q: %w" [suffix] (call (TaskSave sub)) (λ _,
  let auditCtx := Set_ NewAuditContext "parent_task_id" (AString parentID) in
  tryf "auditing subtask %q: %w" [suffix]
    (Record_ systemActor "subtask_created" suffix auditCtx (Some subID) None) (λ _,
  Ret (Ok tt)))).

Fixpoint createSubtasks (parent : Task) (now : Timestamp) (suffixes : list string)
    : proc (result unit) :=
  match suffixes with
  | [] => Ret (Ok tt)
  | suffix :: suffixes =>
      r ← createSubtask parent now suffix;
      match r with Err e => Ret (Err e) | Ok _ => createSubtasks parent now suffixes end
  end.

Definition createDecomposeSubtasks (parent : Task) (now : Timestamp) : proc (result unit) :=
  let '(suffix1, suffix2) := subtaskSuffixes (tkScope parent) in
  createSubtasks parent now [suffix1; suffix2].

(** Any error of [FindByTaskID] counts as "not found". *)
Definition loadOrCreateRun (taskID : TaskID) (now : Timestamp) : proc (result WorkflowRun) :=
  r ← call (WfFindByTaskID taskID);
  match r with
  | Ok wf => Ret (Ok wf)
  | Err _ =>
      wfID ← call NewID;
      let wf := NewWorkflowRun wfID taskID now in
      _ ⇐ call (WfSave wf) orelse "saving new workflow run: %w";
      Ret (Ok wf)
  end.

Definition RouteTask (taskID : TaskID) : proc (result RoutingDecision) :=
  t ⇐ call (TaskFindByID taskID) orelse "loading task: %w";
  memCtx ← (if has_memory then
              r ← call (GetRelevantContext taskID (tkTitle t));
              Ret (match r with Ok m => m | Err _ => None end)
            else Ret None);
  failureStats ← (if has_stats then call StatsGet else Ret None);
  match Evaluate {| eiTask := t; eiMemoryContext := memCtx; eiFailureStats := failureStats |} with
  | None => Panic
  | Some result_ =>
      now ← clock_Now;
      rdID ← call NewID;
      rd ⇐ Ret (NewRoutingDecision rdID taskID (erEvaluations result_) (erSelectedStrategy result_)
                  (erSelectedRole result_) (erReason result_) [] now)
         orelse "creating routing decision: %w";
      _ ⇐ call (RoutingSave rd) orelse "saving routing decision: %w";
      r ← loadOrCreateRun taskID now;
      match r with
      | Err e => Ret (Err e)
      | Ok wf =>
          wf ⇐ Ret (MarkRouted wf rdID (erReason result_) systemActor now)
             orelse "marking workflow routed: %w";
          _ ⇐ call (WfUpdate wf) orelse "updating workflow run: %w";
          let auditCtx := WithAgentRole
            (WithStrategy NewAuditContext (to_string (erSelectedStrategy result_)))
            (to_string (erSelectedRole result_)) in
          _ ⇐ Record_ systemActor "task_routed" (to_string (erSelectedStrategy result_)) auditCtx
                 (Some taskID) (Some (wfID wf)) orelse "recording audit: %w";
          if decide (erSelectedStrategy result_ = StrategyDecompose) then
            _ ⇐ createDecomposeSubtasks t now orelse "creating decompose subtasks: %w";
            Ret (Ok rd)
          else Ret (Ok rd)
      end
  end.
End route.
