(* ===== verification/PolicyEval.v ===== *)
(** internal/application/policyeval: the policy use case. *)

From stdpp Require Import options.
From S2P Require Import Prelude GoLib Shared Task Workflow Policy AuditLog Persistence Ports AuditService.

Section policyeval.
#[local] Open Scope proc_scope.

Definition EvaluatePolicy (taskID : TaskID) (action : string) : proc (result PolicyDecision) :=
  t ⇐ call (TaskFindByID taskID) orelse "loading task: %w";
  _ ⇐ call (RoutingFindByTaskID taskID)
     orelse "routing decision required before policy evaluation: %w";
  let result_ := Policy.EvaluatePolicy DefaultRules {| pxTask := t; pxAction := action |} in
  now ← clock_Now;
  pdID ← call NewID;
  pd ⇐ Ret (NewPolicyDecision pdID taskID action (erOutcome result_) (erConstraints result_)
              (erApprovalRequirement result_) (erRulesEvaluated result_) (erReason result_) now)
     orelse "creating policy decision: %w";
  _ ⇐ call (PolicySave pd) orelse "saving policy decision: %w";
  wf ⇐ call (WfFindByTaskID taskID) orelse "loading workflow run: %w";
  wf ⇐ Ret (MarkPolicyChecked wf pdID systemActor now) orelse "marking workflow policy_checked: %w";
  _ ⇐ call (WfUpdate wf) orelse "updating workflow run: %w";
  let auditCtx := Set_ (Set_ NewAuditContext "evaluated_action" (AString action))
    "policy_outcome" (AString (Outcome_String (erOutcome result_))) in
  _ ⇐ Record_ systemActor "policy_evaluated" (Outcome_String (erOutcome result_)) auditCtx
         (Some taskID) (Some (wfID wf)) orelse "recording audit: %w";
  Ret (Ok pd).
End policyeval.
