(* ===== verification/WorkflowService.v ===== *)
(** internal/application/workflowrun: starting, controlling and recording the execution of
    workflow runs. *)

From stdpp Require Import options.
From S2P Require Import Prelude GoLib Shared Task Workflow Execution Approval Policy Routing AuditLog.
From S2P Require Import Resilience Persistence Queries Ports AuditService.

Definition ErrNoRoutingDecision : error :=
  Sentinel "workflowrun.ErrNoRoutingDecision"
    "no routing decision found for task — cannot start workflow without routing".
Definition ErrNoPolicyDecision : error :=
  Sentinel "workflowrun.ErrNoPolicyDecision"
    "no policy decision found for task — cannot start workflow without policy evaluation".
Definition ErrNoWorkflowRun : error :=
  Sentinel "workflowrun.ErrNoWorkflowRun"
    "no workflow run found for task — workflow must be created by RouteTask first".
Definition ErrLeaseExhausted : error :=
  Sentinel "workflowrun.ErrLeaseExhausted" "cannot resume: execution lease is exhausted".
Definition ErrTerminalWorkflow : error :=
  Sentinel "workflowrun.ErrTerminalWorkflow" "cannot register attempt on terminal workflow".

Definition defaultTimeout : Duration := (5 * Minute)%Z.
Definition defaultMaxRetries : Z := 3%Z.

(** [x, err := p; if err != nil { return fmt.Errorf("%w: %v", sentinel, err) }; k] *)
Definition try_sentinel {A B} (sentinel : error) (p : proc (result A)) (k : A → proc (result B))
    : proc (result B) :=
  r ← p; match r with Ok a => k a | Err e => Ret (Err (Wrapv "%w: %v" sentinel e)) end.

Section workflowrun.
Context {Wi : Wiring}.
#[local] Open Scope proc_scope.

(** * metrics.go *)

Definition emitTerminal (finalStatus : string) (durationMs : float64) : proc unit :=
  if has_metrics then
    let attrs := [("final_status", finalStatus)] in
    _ ← call (Metric {| mInstrument := "TasksCompleted"; mValue := float_of_int 1; mAttributes := attrs |});
    call (Metric {| mInstrument := "WorkflowDuration"; mValue := durationMs; mAttributes := attrs |})
  else Ret tt.

Definition emitFailure (stage category : string) (retryable : bool) : proc unit :=
  if has_metrics then
    call (Metric {| mInstrument := "ExecutionFailures"; mValue := float_of_int 1;
                    mAttributes := [("failure_stage", stage); ("failure_category", category);
                                    ("retryable", if retryable then "true" else "false")] |})
  else Ret tt.

Definition extractCategory (code : string) : string :=
  match Index "/"%char code with Some i => str_take i code | None => code end.

(** [float64(time.Since(t).Milliseconds())] *)
Definition ms_since (t : Timestamp) : proc float64 :=
  now ← call TimeNow; Ret (float_of_int (Milliseconds (Sub now (ts_Time t)))).

(** * start_workflow.go *)

(** The lease granted to a run that starts executing. *)
Definition newLease (wf : WorkflowRun) (now : Timestamp) : proc (result ExecutionLease) :=
  retryBudget ⇐ Ret (NewRetryBudget defaultMaxRetries) orelse "creating retry budget: %w";
  id ← call NewID;
  lease ⇐ Ret (NewExecutionLease id (wfID wf) defaultTimeout retryBudget now)
        orelse "creating execution lease: %w";
  Ret (Ok lease).

Definition startDenied (tk : Task) (policyDecision : PolicyDecision) (wf : WorkflowRun)
    (now : Timestamp) : proc (result WorkflowRun) :=
  wf' ⇐ Ret (Fail wf ("policy denied: " +:+ pdReason policyDecision) systemActor now)
      orelse "transitioning to failed: %w";
  _ ⇐ call (WfUpdate wf') orelse "persisting workflow: %w";
  _ ← Record_ systemActor "workflow_started" "denied" NewAuditContext (Some (tkID tk)) (Some (wfID wf));
  _ ← call (Notify (OnWorkflowTerminated wf' "policy denied"));
  durationMs ← ms_since (wfCreatedAt wf');
  _ ← emitTerminal "failed" durationMs;
  Ret (Ok wf').

Definition startAwaitingApproval (tk : Task) (policyDecision : PolicyDecision) (wf : WorkflowRun)
    (now : Timestamp) : proc (result WorkflowRun) :=
  wf' ⇐ Ret (TransitionTo wf Workflow.StatusAwaitingApproval
               ("approval required: " +:+ pdReason policyDecision) systemActor now)
      orelse "transitioning to awaiting_approval: %w";
  let approverRole :=
    match pdApprovalRequirement policyDecision with Some ar => aqApproverRole ar | None => "" end in
  reqID ← call NewID;
  approvalReq ⇐ Ret (NewApprovalRequest reqID (tkID tk) (wfID wf') (pdReason policyDecision)
                       {| asRole := approverRole; asActorID := None |} None now)
              orelse "creating approval request: %w";
  _ ⇐ call (ApprovalSave approvalReq) orelse "persisting approval request: %w";
  _ ⇐ call (WfUpdate wf') orelse "persisting workflow: %w";
  _ ← Record_ systemActor "workflow_started" "awaiting_approval" NewAuditContext (Some (tkID tk))
        (Some (wfID wf));
  _ ← call (Notify (OnApprovalRequired wf' approvalReq));
  Ret (Ok wf').

Definition startRunning (tk : Task) (wf : WorkflowRun) (now : Timestamp) : proc (result WorkflowRun) :=
  wf' ⇐ Ret (TransitionTo wf Workflow.StatusRunning "policy allowed" systemActor now)
      orelse "transitioning to running: %w";
  r ← newLease wf' now;
  match r with
  | Err e => Ret (Err e)
  | Ok lease =>
      _ ⇐ call (LeaseSave lease) orelse "persisting lease: %w";
      _ ⇐ call (WfUpdate wf') orelse "persisting workflow: %w";
      _ ← Record_ systemActor "workflow_started" "running" NewAuditContext (Some (tkID tk))
            (Some (wfID wf));
      _ ← call (Notify (OnExecutionReady wf' lease));
      Ret (Ok wf')
  end.

Definition StartWorkflow (taskID : TaskID) : proc (result WorkflowRun) :=
  tk ⇐ call (TaskFindByID taskID) orelse "loading task: %w";
  try_sentinel ErrNoRoutingDecision (call (RoutingFindByTaskID taskID)) (λ _,
  try_sentinel ErrNoPolicyDecision (call (PolicyFindByTaskID taskID)) (λ policyDecision,
  try_sentinel ErrNoWorkflowRun (call (WfFindByTaskID taskID)) (λ wf,
  now ← clock_Now;
  if decide (pdOutcome policyDecision = OutcomeDeny) then startDenied tk policyDecision wf now
  else if decide (pdOutcome policyDecision = OutcomeRequireApproval) then
    startAwaitingApproval tk policyDecision wf now
  else if decide (pdOutcome policyDecision = OutcomeAllow
                  ∨ pdOutcome policyDecision = OutcomeAllowWithConstraints) then
    startRunning tk wf now
  else Ret (Err (Errorf "unknown policy outcome: %v" [Outcome_String (pdOutcome policyDecision)]))))).

(** * kill_workflow.go *)

(** The lease of a killed run is revoked when it can be; every error is dropped. *)
Definition revokeLease (id : WorkflowRunID) : proc unit :=
  r ← call (LeaseFindByWorkflowRunID id);
  match r with
  | Ok lease =>
      match Revoke lease with
      | Ok lease' => _ ← call (LeaseUpdate lease'); Ret tt
      | Err _ => Ret tt
      end
  | Err _ => Ret tt
  end.

Definition KillWorkflow (id : WorkflowRunID) (reason : string) (actor : ActorID)
    : proc (result unit) :=
  wf ⇐ call (WfFindByID id) orelse "loading workflow: %w";
  now ← clock_Now;
  wf ⇐ Ret (Kill wf reason actor now) orelse "killing workflow: %w";
  _ ← revokeLease id;
  _ ⇐ call (WfUpdate wf) orelse "persisting workflow: %w";
  _ ← Record_ actor "workflow_killed" "killed" NewAuditContext None (Some (wfID wf));
  _ ← call (Notify (OnWorkflowTerminated wf reason));
  durationMs ← ms_since (wfCreatedAt wf);
  _ ← emitTerminal "killed" durationMs;
  Ret (Ok tt).

(** * pause_resume.go *)

Definition PauseWorkflow (id : WorkflowRunID) (reason : string) (actor : ActorID)
    : proc (result unit) :=
  wf ⇐ call (WfFindByID id) orelse "loading workflow: %w";
  now ← clock_Now;
  wf ⇐ Ret (Pause wf reason actor now) orelse "pausing workflow: %w";
  _ ⇐ call (WfUpdate wf) orelse "persisting workflow: %w";
  _ ← Record_ actor "workflow_paused" "paused" NewAuditContext None (Some (wfID wf));
  Ret (Ok tt).

Definition ResumeWorkflow (id : WorkflowRunID) (reason : string) (actor : ActorID)
    : proc (result unit) :=
  wf ⇐ call (WfFindByID id) orelse "loading workflow: %w";
  lease ⇐ call (LeaseFindByWorkflowRunID id) orelse "loading lease: %w";
  if negb (HasRetryBudget lease) then Ret (Err ErrLeaseExhausted) else
  now ← clock_Now;
  wf ⇐ Ret (Resume wf reason actor now) orelse "resuming workflow: %w";
  _ ⇐ call (WfUpdate wf) orelse "persisting workflow: %w";
  _ ← Record_ actor "workflow_resumed" "running" NewAuditContext None (Some (wfID wf));
  _ ← call (Notify (OnExecutionReady wf lease));
  Ret (Ok tt).

(** * register_attempt.go *)

(** The transition an attempt causes; [lease] is the lease after the attempt. *)
Definition attemptTransition (wf : WorkflowRun) (lease : ExecutionLease) (status : AttemptStatus)
    (now : Timestamp) : result WorkflowRun :=
  match status with
  | AttemptStatusSuccess =>
      wrap "completing workflow: %w" (Complete wf "attempt succeeded" systemActor now)
  | AttemptStatusFailure =>
      if HasRetryBudget lease then Ok wf
      else wrap "quarantining workflow: %w" (Quarantine wf "retry budget exhausted" systemActor now)
  | _ => Ok wf
  end.

(** [None] is the panic of a nil pointer: a stage with no code or no retryable flag. *)
Definition attemptContext (lease : ExecutionLease) (result_ : AttemptResult) : option AuditContext :=
  let auditCtx := WithLeaseState NewAuditContext (elAttemptsUsed lease)
    (rbMaxAttempts (elRetryBudget lease)) (Milliseconds (elTimeElapsed lease)) in
  let auditCtx := match arStrategyUsed result_ with Some s => WithStrategy auditCtx s | None => auditCtx end in
  let auditCtx := match arAgentRole result_ with Some r => WithAgentRole auditCtx r | None => auditCtx end in
  auditCtx ← match arFailureStage result_ with
             | Some stage =>
                 code ← arFailureCode result_;
                 retryable ← arRetryable result_;
                 Some (WithFailure auditCtx (to_string stage) code retryable)
             | None => Some auditCtx
             end;
  Some (match arToolName result_ with Some t => WithToolName auditCtx t | None => auditCtx end).

(** The transition listener of the registry: ChainListeners of the audit and, with
    OpenTelemetry, the metrics listener. *)
Fixpoint emitAll (ms : list (string * list (string * string))) : proc unit :=
  match ms with
  | [] => Ret tt
  | (instrument, attrs) :: ms =>
      _ ← call (Metric {| mInstrument := instrument; mValue := float_of_int 1; mAttributes := attrs |});
      emitAll ms
  end.

Definition onTransition (t : StateTransition) : proc unit :=
  let '(action, outcome, actx) := AuditListener t in
  _ ← Record_ systemActor action outcome actx None None;
  if has_metrics then emitAll (MetricsListener t) else Ret tt.

Definition observeBreaker (result_ : AttemptResult) (now : Timestamp) : proc unit :=
  if has_breakers then
    match arToolName result_, arAgentRole result_ with
    | Some tool, Some role =>
        let success := bool_decide (arStatus result_ = AttemptStatusSuccess) in
        transition ← call (BreakerObserve tool role success (ts_Time now));
        match transition with Some t => onTransition t | None => Ret tt end
    | _, _ => Ret tt
    end
  else Ret tt.

(** Steps 8 to 11: audit, notification, metrics and circuit breaker. *)
Definition reportAttempt (wf : WorkflowRun) (result_ : AttemptResult) (auditCtx : AuditContext)
    (now : Timestamp) : proc (result WorkflowRun) :=
  _ ← Record_ systemActor "attempt_registered" (to_string (arStatus result_)) auditCtx None
        (Some (wfID wf));
  _ ← (if decide (wfStatus wf = StatusQuarantined) then
         Record_ systemActor "workflow_quarantined" "budget_exhausted" auditCtx None (Some (wfID wf))
       else Ret (Ok tt));
  _ ← (if Workflow.IsTerminal (wfStatus wf) then
         let reason := if decide (wfStatus wf = StatusQuarantined)
                       then "quarantined:budget_exhausted" else to_string (wfStatus wf) in
         call (Notify (OnWorkflowTerminated wf reason))
       else Ret (Ok tt));
  _ ← (if Workflow.IsTerminal (wfStatus wf) then
         durationMs ← ms_since (wfCreatedAt wf);
         emitTerminal (to_string (wfStatus wf)) durationMs
       else Ret tt);
  _ ← match arFailureStage result_ with
      | Some stage =>
          match arFailureCode result_, arRetryable result_ with
          | Some code, Some retryable => emitFailure (to_string stage) (extractCategory code) retryable
          | _, _ => Panic
          end
      | None => Ret tt
      end;
  _ ← observeBreaker result_ now;
  Ret (Ok wf).

Definition RegisterAttempt (id : WorkflowRunID) (result_ : AttemptResult) : proc (result WorkflowRun) :=
  wf ⇐ call (WfFindByID id) orelse "loading workflow: %w";
  if Workflow.IsTerminal (wfStatus wf) then
    Ret (Err (Wrapf "%w: status is %s" [to_string (wfStatus wf)] ErrTerminalWorkflow))
  else
  _ ⇐ Ret (Validate result_) orelse "invalid attempt result: %w";
  lease ⇐ call (LeaseFindByWorkflowRunID id) orelse "loading lease: %w";
  lease ⇐ Ret (RecordAttempt lease) orelse "recording attempt on lease: %w";
  now ← clock_Now;
  match attemptTransition wf lease (arStatus result_) now with
  | Err e => Ret (Err e)
  | Ok wf =>
      _ ⇐ call (LeaseUpdate lease) orelse "persisting lease: %w";
      _ ⇐ call (WfUpdate wf) orelse "persisting workflow: %w";
      match attemptContext lease result_ with
      | None => Panic
      | Some auditCtx => reportAttempt wf result_ auditCtx now
      end
  end.

(** * get_status.go *)

Definition GetWorkflowStatus (id : WorkflowRunID) : proc (result WorkflowRun) :=
  wf ⇐ call (WfFindByID id) orelse "loading workflow: %w"; Ret (Ok wf).

Definition GetWorkflowByTask (taskID : TaskID) : proc (result WorkflowRun) :=
  wf ⇐ call (WfFindByTaskID taskID) orelse "loading workflow by task: %w"; Ret (Ok wf).

Definition ListWorkflows (filter : WorkflowListFilter) : proc (result (list WorkflowRun * Z)) :=
  call (WfList filter).
End workflowrun.
