(* ===== verification/ApprovalService.v ===== *)
(** internal/application/approvals: resolution of approval requests. *)

From stdpp Require Import options.
From S2P Require Import Prelude GoLib Shared Workflow Execution Approval AuditLog Persistence.
From S2P Require Import Ports AuditService WorkflowService.

Record ResolveApprovalInput := {
  raApprovalRequestID : ApprovalRequestID; raApproved : bool; raResolvedBy : ActorID;
  raReason : string;
}.

Section approvals.
Context {Wi : Wiring}.
#[local] Open Scope proc_scope.

(** * metrics.go *)

Definition emitApprovalWait (waitMs : float64) (resolution : string) : proc unit :=
  if has_metrics then
    call (Metric {| mInstrument := "ApprovalWait"; mValue := waitMs;
                    mAttributes := [("resolution", resolution)] |})
  else Ret tt.

(** * resolve_approval.go *)

(** Step 5: awaiting_approval → approved → running, with a lease. *)
Definition grant (wf : WorkflowRun) (resolvedBy : ActorID) (now : Timestamp)
    : proc (result WorkflowRun) :=
  wf ⇐ Ret (TransitionTo wf Workflow.StatusApproved "approval granted" resolvedBy now)
     orelse "transitioning to approved: %w";
  wf ⇐ Ret (TransitionTo wf Workflow.StatusRunning "starting execution" resolvedBy now)
     orelse "transitioning to running: %w";
  r ← newLease wf now;
  match r with
  | Err e => Ret (Err e)
  | Ok lease =>
      _ ⇐ call (LeaseSave lease) orelse "persisting lease: %w";
      _ ⇐ call (WfUpdate wf) orelse "persisting workflow: %w";
      _ ← call (Notify (OnExecutionReady wf lease));
      Ret (Ok wf)
  end.

(** Step 6: awaiting_approval → failed. *)
Definition refuse (wf : WorkflowRun) (resolvedBy : ActorID) (reason : string) (now : Timestamp)
    : proc (result WorkflowRun) :=
  wf ⇐ Ret (Fail wf ("approval denied: " +:+ reason) resolvedBy now)
     orelse "transitioning to failed: %w";
  _ ⇐ call (WfUpdate wf) orelse "persisting workflow: %w";
  _ ← call (Notify (OnWorkflowTerminated wf "approval denied"));
  Ret (Ok wf).

Definition ResolveApproval (input : ResolveApprovalInput) : proc (result ApprovalRequest) :=
  req ⇐ call (ApprovalFindByID (raApprovalRequestID input)) orelse "loading approval request: %w";
  now ← clock_Now;
  match (if raApproved input
         then wrap "approving request: %w" (Approve req (raResolvedBy input) (raReason input) now)
         else wrap "denying request: %w" (Deny req (raResolvedBy input) (raReason input) now)) with
  | Err e => Ret (Err e)
  | Ok req =>
      _ ⇐ call (ApprovalUpdate req) orelse "persisting approval: %w";
      wf ⇐ call (WfFindByID (apWorkflowRunID req)) orelse "loading workflow: %w";
      r ← (if raApproved input then grant wf (raResolvedBy input) now
           else refuse wf (raResolvedBy input) (raReason input) now);
      match r with
      | Err e => Ret (Err e)
      | Ok wf =>
          let outcome := if raApproved input then "approved" else "denied" in
          _ ← Record_ (raResolvedBy input) "approval_resolved" outcome NewAuditContext None
                (Some (wfID wf));
          waitMs ← ms_since (apCreatedAt req);
          _ ← emitApprovalWait waitMs outcome;
          _ ← (if negb (raApproved input) then
                 durationMs ← ms_since (wfCreatedAt wf); emitTerminal "failed" durationMs
               else Ret tt);
          Ret (Ok req)
      end
  end.

Definition GetPendingApprovals : proc (result (list ApprovalRequest)) :=
  reqs ⇐ call ApprovalFindPending orelse "querying pending approvals: %w"; Ret (Ok reqs).
End approvals.
