(* ===== verification/EscalationService.v ===== *)
(** internal/application/escalation: firing an escalation. *)

From stdpp Require Import options.
From S2P Require Import Prelude GoLib Shared Escalation AuditLog Persistence Ports AuditService.

Section escalation.
#[local] Open Scope proc_scope.

Definition TriggerEscalation (taskID : TaskID) (condition : EscalationCondition)
    (target : EscalationTarget) : proc (result EscalationTrigger) :=
  now ← clock_Now;
  id ← call NewID;
  trigger ⇐ Ret (Trigger (NewEscalationTrigger id taskID condition target now) now)
          orelse "triggering escalation: %w";
  _ ⇐ call (EscalationSave trigger) orelse "persisting escalation: %w";
  _ ← Record_ systemActor "escalation_triggered" "triggered" NewAuditContext (Some taskID) None;
  Ret (Ok trigger).
End escalation.
