(* ===== verification/GovDecisions.v ===== *)
(** internal/application/govdecisions: the default-allow facade under
    /governance/v1/decisions. *)

From stdpp Require Import options.
From S2P Require Import Prelude GoLib Shared Persistence Ports.

Inductive DecisionType := DecisionAllow | DecisionDeny | DecisionRequireApproval.
Definition decision_string (d : DecisionType) : string :=
  match d with
  | DecisionAllow => "allow" | DecisionDeny => "deny" | DecisionRequireApproval => "require_approval"
  end.

(** The status is a Go string type; a stored row is returned as it is. *)
Definition ApprovalGranted : string := "granted".

Definition defaultAgentRolePhase : string := "team-lead".
Definition defaultReasonPhase : string := "M-E0 default-allow policy".
Definition defaultReasonSensitive : string := "M-E0 default-allow sensitive policy".

Definition ErrInvalidInput : error := Sentinel "govdecisions.ErrInvalidInput" "invalid input".

Record PhaseDecisionInput := {
  piChangeID : string; piPhaseType : string; piTaskDescription : string; piSensitive : bool;
}.
Record SensitiveDecisionInput := { siChangeID : string; siCapability : string }.

(** The result; its Constraints map is never set. *)
Record Decision := {
  dcID : string; dcDecision : DecisionType; dcAgentRole : string; dcStrategy : string;
  dcReason : string;
}.

Section govdecisions.
#[local] Open Scope proc_scope.

Definition EvaluatePhase (in_ : PhaseDecisionInput) : proc (result Decision) :=
  if decide (piChangeID in_ = "") then
    Ret (Err (Wrapf "%w: change_id is required" [] ErrInvalidInput))
  else if decide (piPhaseType in_ = "") then
    Ret (Err (Wrapf "%w: phase_type is required" [] ErrInvalidInput))
  else
  id ← call NewID;
  now ← call TimeNow;
  let rec_ := {| phID := id; phChangeID := piChangeID in_; phPhaseType := piPhaseType in_;
                 phCapability := ""; phSensitive := piSensitive in_;
                 phDecision := decision_string DecisionAllow; phAgentRole := defaultAgentRolePhase;
                 phStrategy := ""; phReason := defaultReasonPhase; phCreatedAt := now |} in
  _ ⇐ call (PhaseDecisionSave rec_) orelse "persisting phase decision: %w";
  Ret (Ok {| dcID := phID rec_; dcDecision := DecisionAllow; dcAgentRole := defaultAgentRolePhase;
             dcStrategy := ""; dcReason := defaultReasonPhase |}).

Definition EvaluateSensitive (in_ : SensitiveDecisionInput) : proc (result Decision) :=
  if decide (siChangeID in_ = "") then
    Ret (Err (Wrapf "%w: change_id is required" [] ErrInvalidInput))
  else if decide (siCapability in_ = "") then
    Ret (Err (Wrapf "%w: capability is required" [] ErrInvalidInput))
  else
  id ← call NewID;
  now ← call TimeNow;
  let rec_ := {| phID := id; phChangeID := siChangeID in_; phPhaseType := "sensitive";
                 phCapability := siCapability in_; phSensitive := true;
                 phDecision := decision_string DecisionAllow; phAgentRole := ""; phStrategy := "";
                 phReason := defaultReasonSensitive; phCreatedAt := now |} in
  _ ⇐ call (PhaseDecisionSave rec_) orelse "persisting sensitive decision: %w";
  Ret (Ok {| dcID := phID rec_; dcDecision := DecisionAllow; dcAgentRole := ""; dcStrategy := "";
             dcReason := defaultReasonSensitive |}).

Definition ApprovalStatusFor (changeID phaseID : string) : proc (result string) :=
  if decide (changeID = "" ∨ phaseID = "") then
    Ret (Err (Wrapf "%w: change_id and phase_id are required" [] ErrInvalidInput))
  else
  rec_ ⇐ call (PhaseApprovalFind changeID phaseID) orelse "looking up phase approval: %w";
  match rec_ with
  | None => Ret (Ok ApprovalGranted)
  | Some r => Ret (Ok (paStatus r))
  end.
End govdecisions.
