(* ===== verification/ProcessTask.v ===== *)
(** internal/application/intake/process_task.go: the intake pipeline, a client of the four
    use cases it is constructed with. *)

From stdpp Require Import options.
From S2P Require Import Prelude GoLib Shared Task Workflow Policy Routing AuditLog Persistence.
From S2P Require Import Ports AuditService Intake RouteTask PolicyEval WorkflowService.

(** What ProcessTask needs: the submission service and the interfaces TaskRouter,
    PolicyEvaluator and WorkflowStarter. *)
Class Pipeline := {
  pl_SubmitTask : SubmitTaskInput → proc (result Task);
  pl_RouteTask : TaskID → proc (result RoutingDecision);
  pl_EvaluatePolicy : TaskID → string → proc (result PolicyDecision);
  pl_StartWorkflow : TaskID → proc (result WorkflowRun);
}.

Record ProcessTaskResult := {
  ptTask : Task; ptRoutingDecision : RoutingDecision; ptPolicyDecision : PolicyDecision;
  ptWorkflowRun : WorkflowRun;
}.

#[local] Open Scope proc_scope.

Definition ProcessTask `{Pipeline} (input : SubmitTaskInput) (action : string)
    : proc (result ProcessTaskResult) :=
  t ⇐ pl_SubmitTask input orelse "submit task: %w";
  rd ⇐ pl_RouteTask (tkID t) orelse "route task: %w";
  pd ⇐ pl_EvaluatePolicy (tkID t) action orelse "evaluate policy: %w";
  wf ⇐ pl_StartWorkflow (tkID t) orelse "start workflow: %w";
  Ret (Ok {| ptTask := t; ptRoutingDecision := rd; ptPolicyDecision := pd; ptWorkflowRun := wf |}).

(** The wiring of the program. *)
#[export] Instance governance_pipeline `{Wiring} : Pipeline :=
  {| pl_SubmitTask := SubmitTask; pl_RouteTask := RouteTask;
     pl_EvaluatePolicy := PolicyEval.EvaluatePolicy; pl_StartWorkflow := StartWorkflow |}.
