(* ===== verification/Inbound.v ===== *)
(** internal/ports/inbound: the interfaces through which the adapters reach the use cases, as
    records of operations; and internal/adapters/inbound/sdk/facade.go, which passes every
    call on. *)

From stdpp Require Import options.
From S2P Require Import Prelude GoLib Shared Task Workflow Execution Approval Escalation Policy.
From S2P Require Import Routing AuditLog Resilience Persistence Queries Ports AuditService Intake.
From S2P Require Import WorkflowService ApprovalService GovDecisions ProcessTask.

Record GovernanceService := {
  gs_SubmitTask : SubmitTaskInput → proc (result Task);
  gs_ProcessTask : SubmitTaskInput → string → proc (result ProcessTaskResult);
  gs_RouteTask : TaskID → proc (result RoutingDecision);
  gs_EvaluatePolicy : TaskID → string → proc (result PolicyDecision);
  gs_StartWorkflow : TaskID → proc (result WorkflowRun);
}.

Record WorkflowControl := {
  wc_KillWorkflow : WorkflowRunID → string → ActorID → proc (result unit);
  wc_PauseWorkflow : WorkflowRunID → string → ActorID → proc (result unit);
  wc_ResumeWorkflow : WorkflowRunID → string → ActorID → proc (result unit);
  wc_RegisterAttempt : WorkflowRunID → AttemptResult → proc (result WorkflowRun);
}.

(** The interface [ApprovalService]. *)
Record ApprovalPort := {
  ap_ResolveApproval : ResolveApprovalInput → proc (result ApprovalRequest);
  ap_GetPendingApprovals : proc (result (list ApprovalRequest));
}.

Record QueryService := {
  qs_GetTask : TaskID → proc (result Task);
  qs_GetWorkflowStatus : WorkflowRunID → proc (result WorkflowRun);
  qs_GetWorkflowByTask : TaskID → proc (result WorkflowRun);
  qs_QueryAuditTrail : AuditFilter → proc (result (list AuditEntry * Z));
  qs_ListWorkflows : WorkflowListFilter → proc (result (list WorkflowRun * Z));
  qs_ListBreakers : BreakerFilter → proc (result (list BreakerSnapshot));
  qs_GetBreakerState : string → string → proc (result (option BreakerSnapshot));
}.

Record EscalationPort := {
  es_TriggerEscalation :
    TaskID → EscalationCondition → EscalationTarget → proc (result EscalationTrigger);
}.

(** Declared in decisions_handler.go. *)
Record PhaseDecisionsService := {
  ps_EvaluatePhase : PhaseDecisionInput → proc (result Decision);
  ps_EvaluateSensitive : SensitiveDecisionInput → proc (result Decision);
  ps_ApprovalStatusFor : string → string → proc (result string);
}.

(** * sdk/facade.go *)

Record GovernanceFacade := {
  fc_governance : GovernanceService; fc_control : WorkflowControl; fc_approvals : ApprovalPort;
  fc_queries : QueryService; fc_escalation : EscalationPort;
}.

Section facade.
Variable f : GovernanceFacade.

Definition Facade_SubmitTask := gs_SubmitTask (fc_governance f).
Definition Facade_ProcessTask := gs_ProcessTask (fc_governance f).
Definition Facade_RouteTask := gs_RouteTask (fc_governance f).
Definition Facade_EvaluatePolicy := gs_EvaluatePolicy (fc_governance f).
Definition Facade_StartWorkflow := gs_StartWorkflow (fc_governance f).
Definition Facade_KillWorkflow := wc_KillWorkflow (fc_control f).
Definition Facade_PauseWorkflow := wc_PauseWorkflow (fc_control f).
Definition Facade_ResumeWorkflow := wc_ResumeWorkflow (fc_control f).
Definition Facade_RegisterAttempt := wc_RegisterAttempt (fc_control f).
Definition Facade_ResolveApproval := ap_ResolveApproval (fc_approvals f).
Definition Facade_GetPendingApprovals := ap_GetPendingApprovals (fc_approvals f).
Definition Facade_GetTask := qs_GetTask (fc_queries f).
Definition Facade_GetWorkflowStatus := qs_GetWorkflowStatus (fc_queries f).
Definition Facade_GetWorkflowByTask := qs_GetWorkflowByTask (fc_queries f).
Definition Facade_QueryAuditTrail := qs_QueryAuditTrail (fc_queries f).
Definition Facade_ListWorkflows := qs_ListWorkflows (fc_queries f).
Definition Facade_ListBreakers := qs_ListBreakers (fc_queries f).
Definition Facade_GetBreakerState := qs_GetBreakerState (fc_queries f).
Definition Facade_TriggerEscalation := es_TriggerEscalation (fc_escalation f).
End facade.

Create HintDb facade discriminated.
#[export] Hint Unfold Facade_SubmitTask Facade_ProcessTask Facade_RouteTask
  Facade_EvaluatePolicy Facade_StartWorkflow Facade_KillWorkflow Facade_PauseWorkflow
  Facade_ResumeWorkflow Facade_RegisterAttempt Facade_ResolveApproval
  Facade_GetPendingApprovals Facade_GetTask Facade_GetWorkflowStatus Facade_GetWorkflowByTask
  Facade_QueryAuditTrail Facade_ListWorkflows Facade_ListBreakers Facade_GetBreakerState
  Facade_TriggerEscalation : facade.
