(* ===== verification/Decorators.v ===== *)
(** internal/adapters/inbound/tracing and internal/adapters/inbound/metrics: the decorators
    that wrap the inbound ports when OpenTelemetry is enabled. *)

From stdpp Require Import options.
From S2P Require Import Prelude GoLib Shared Task Workflow Execution Approval Escalation Policy.
From S2P Require Import Routing AuditLog Resilience Persistence Queries Ports AuditService Intake.
From S2P Require Import WorkflowService ApprovalService GovDecisions ProcessTask Inbound.

(** * metrics *)

Definition measure (instrument : string) (value : float64) (attrs : list (string * string)) : proc unit :=
  call (Metric {| mInstrument := instrument; mValue := value; mAttributes := attrs |}).

(** [float64(time.Since(start).Milliseconds())] *)
Definition elapsed_ms (start : Time) : proc float64 :=
  now ← call TimeNow; Ret (float_of_int (Milliseconds (Sub now start))).

(** The result of [p], after [report] on success. *)
Definition measured {A} (p : proc (result A)) (report : A → proc unit) : proc (result A) :=
  r ← p; match r with Err e => Ret (Err e) | Ok x => _ ← report x; Ret (Ok x) end.

Section metrics.
Variable next : GovernanceService.

(** ** governance_metrics.go *)

Definition Metrics_SubmitTask (input : SubmitTaskInput) : proc (result Task) :=
  measured (gs_SubmitTask next input) (λ t,
    measure "TasksSubmitted" (float_of_int 1)
      [("type", to_string (inType input)); ("scope", to_string (inScope input));
       ("risk_level", to_string (tkRiskLevel t))]).

Definition Metrics_RouteTask (taskID : TaskID) : proc (result RoutingDecision) :=
  start ← call TimeNow;
  measured (gs_RouteTask next taskID) (λ result_,
    elapsed ← elapsed_ms start;
    let overridden := match rdEvaluatedStrategies result_ with
                      | e :: _ => if seOverridden e then "true" else "false"
                      | [] => "false" end in
    measure "RoutingDuration" elapsed
      [("strategy", to_string (rdSelectedStrategy result_)); ("overridden", overridden)]).

Definition Metrics_EvaluatePolicy (taskID : TaskID) (action : string) : proc (result PolicyDecision) :=
  start ← call TimeNow;
  measured (gs_EvaluatePolicy next taskID action) (λ result_,
    elapsed ← elapsed_ms start;
    let outcomeLabel := Outcome_String (pdOutcome result_) in
    _ ← measure "PolicyDuration" elapsed [("outcome", outcomeLabel)];
    measure "PolicyOutcomes" (float_of_int 1) [("outcome", outcomeLabel)]).

Definition MetricsGovernanceService : GovernanceService :=
  {| gs_SubmitTask := Metrics_SubmitTask; gs_ProcessTask := gs_ProcessTask next;
     gs_RouteTask := Metrics_RouteTask; gs_EvaluatePolicy := Metrics_EvaluatePolicy;
     gs_StartWorkflow := gs_StartWorkflow next |}.
End metrics.

(** ** workflow_metrics.go *)

Section workflow_metrics.
Variable next : WorkflowControl.

Definition Metrics_RegisterAttempt (id : WorkflowRunID) (a : AttemptResult) : proc (result WorkflowRun) :=
  measured (wc_RegisterAttempt next id a) (λ _,
    measure "ExecutionAttempts" (float_of_int 1)
      (match arStrategyUsed a with Some s => [("strategy", s)] | None => [] end ++
       match arAgentRole a with Some r => [("agent_role", r)] | None => [] end)).

Definition transition_metric (transition : string) : proc unit :=
  measure "WorkflowTransitions" (float_of_int 1) [("transition", transition)].

Definition MetricsWorkflowControl : WorkflowControl :=
  {| wc_KillWorkflow id reason actor :=
       measured (wc_KillWorkflow next id reason actor) (λ _, transition_metric "killed");
     wc_PauseWorkflow id reason actor :=
       measured (wc_PauseWorkflow next id reason actor) (λ _, transition_metric "paused");
     wc_ResumeWorkflow id reason actor :=
       measured (wc_ResumeWorkflow next id reason actor) (λ _, transition_metric "resumed");
     wc_RegisterAttempt := Metrics_RegisterAttempt |}.
End workflow_metrics.

(** * tracing *)

(** [span.SetAttributes] on each group of attributes in turn. *)
Fixpoint set_attributes (groups : list (list (string * any))) : proc unit :=
  match groups with
  | [] => Ret tt
  | attrs :: groups => _ ← call (Tracer (SpanSetAttributes attrs)); set_attributes groups
  end.

(** A call inside a span: [groups] are the attributes set on success. *)
Definition traced {A} (name : string) (attrs : list (string * any)) (p : proc (result A))
    (groups : A → list (list (string * any))) : proc (result A) :=
  _ ← call (Tracer (SpanStart name attrs));
  r ← p;
  _ ← match r with
      | Err e => call (Tracer (SpanRecordError e))
      | Ok x => set_attributes (groups x)
      end;
  _ ← call (Tracer SpanEnd);
  Ret r.

Definition outcome_attribute (outcome : string) : list (string * any) :=
  [("governance.outcome", AString outcome)].

(** ** governance_traced.go *)

Definition wasOverridden (d : RoutingDecision) : bool :=
  existsb (λ e, bool_decide (seStrategy e = rdSelectedStrategy d) && seOverridden e)
    (rdEvaluatedStrategies d).

Definition adaptive_attributes (adj : AdaptiveAdjustment) : list (string * any) :=
  [("governance.adaptive_final_adjustment", AFloat (aaFinalAdjustment adj));
   ("governance.adaptive_failure_rate", AFloat (aaFailureRate adj));
   ("governance.adaptive_confidence", AFloat (aaConfidence adj));
   ("governance.adaptive_sample_size", AInt (aaSampleSize adj));
   ("governance.adaptive_granularity", AString (aaGranularity adj))].

(** The adjustment of the first evaluation of the selected strategy that has one. *)
Fixpoint selected_adjustment (selected : RoutingStrategy) (evals : list StrategyEvaluation)
    : option AdaptiveAdjustment :=
  match evals with
  | [] => None
  | e :: evals =>
      match seAdaptiveAdjustment e with
      | Some adj => if decide (seStrategy e = selected) then Some adj else selected_adjustment selected evals
      | None => selected_adjustment selected evals
      end
  end.

Definition routed_attributes (result_ : RoutingDecision) : list (list (string * any)) :=
  let hasAdaptive := existsb (λ e, negb (is_nil (seAdaptiveAdjustment e))) (rdEvaluatedStrategies result_) in
  [[("governance.strategy", AString (to_string (rdSelectedStrategy result_)));
    ("governance.strategy_overridden", ABool (wasOverridden result_));
    ("governance.agent_role", AString (to_string (rdSelectedAgentRole result_)));
    ("governance.outcome", AString "routed")];
   [("governance.adaptive_applied", ABool hasAdaptive)]] ++
  (if hasAdaptive then
     match selected_adjustment (rdSelectedStrategy result_) (rdEvaluatedStrategies result_) with
     | Some adj => [adaptive_attributes adj] | None => [] end
   else []).

Definition TracedGovernanceService (next : GovernanceService) : GovernanceService :=
  {| gs_SubmitTask input :=
       traced "GovernanceService.SubmitTask"
         [("governance.action", AString "SubmitTask");
          ("governance.task_type", AString (to_string (inType input)));
          ("governance.task_scope", AString (to_string (inScope input)))]
         (gs_SubmitTask next input) (λ result_,
         [[("governance.task_id", AString (tkID result_));
           ("governance.risk_level", AString (to_string (tkRiskLevel result_)));
           ("governance.outcome", AString "submitted")]]);
     gs_ProcessTask input action :=
       traced "GovernanceService.ProcessTask"
         [("governance.action", AString "ProcessTask");
          ("governance.task_type", AString (to_string (inType input)));
          ("governance.task_scope", AString (to_string (inScope input)))]
         (gs_ProcessTask next input action) (λ result_,
         [[("governance.task_id", AString (tkID (ptTask result_)))]; outcome_attribute "processed"]);
     gs_RouteTask taskID :=
       traced "GovernanceService.RouteTask"
         [("governance.action", AString "RouteTask"); ("governance.task_id", AString taskID)]
         (gs_RouteTask next taskID) routed_attributes;
     gs_EvaluatePolicy taskID action :=
       traced "GovernanceService.EvaluatePolicy"
         [("governance.action", AString "EvaluatePolicy"); ("governance.task_id", AString taskID)]
         (gs_EvaluatePolicy next taskID action) (λ result_,
         [[("governance.policy_outcome", AString (Outcome_String (pdOutcome result_)));
           ("governance.outcome", AString "evaluated")]]);
     gs_StartWorkflow taskID :=
       traced "GovernanceService.StartWorkflow"
         [("governance.action", AString "StartWorkflow"); ("governance.task_id", AString taskID)]
         (gs_StartWorkflow next taskID) (λ result_,
         [[("governance.workflow_run_id", AString (wfID result_));
           ("governance.workflow_status", AString (to_string (wfStatus result_)));
           ("governance.outcome", AString "started")]]) |}.

(** ** workflow_traced.go *)

(** The prefix of a failure code up to its first slash. *)
Definition extractCategory (code : string) : string :=
  match Index "/"%char code with Some i => str_take i code | None => code end.

Definition attempt_attributes (a : AttemptResult) (run : WorkflowRun) : list (list (string * any)) :=
  [outcome_attribute (to_string (wfStatus run))] ++
  match arFailureStage a with
  | Some stage => [[("governance.failure_stage", AString (to_string stage))]] | None => [] end ++
  match arFailureCode a with
  | Some code =>
      if decide (code = "") then []
      else [[("governance.failure_category", AString (extractCategory code))]]
  | None => [] end.

Definition run_attributes (action : string) (id : WorkflowRunID) : list (string * any) :=
  [("governance.action", AString action); ("governance.workflow_run_id", AString id)].

Definition TracedWorkflowControl (next : WorkflowControl) : WorkflowControl :=
  {| wc_KillWorkflow id reason actor :=
       traced "WorkflowControl.KillWorkflow"
         (run_attributes "KillWorkflow" id ++ [("governance.kill_reason", AString reason)])
         (wc_KillWorkflow next id reason actor) (λ _, [outcome_attribute "killed"]);
     wc_PauseWorkflow id reason actor :=
       traced "WorkflowControl.PauseWorkflow" (run_attributes "PauseWorkflow" id)
         (wc_PauseWorkflow next id reason actor) (λ _, [outcome_attribute "success"]);
     wc_ResumeWorkflow id reason actor :=
       traced "WorkflowControl.ResumeWorkflow" (run_attributes "ResumeWorkflow" id)
         (wc_ResumeWorkflow next id reason actor) (λ _, [outcome_attribute "success"]);
     wc_RegisterAttempt id a :=
       traced "WorkflowControl.RegisterAttempt"
         (run_attributes "RegisterAttempt" id
          ++ [("governance.attempt_status", AString (to_string (arStatus a)))])
         (wc_RegisterAttempt next id a) (attempt_attributes a) |}.

(** ** query_traced.go *)

(** A span with no attributes, whatever the call returns. *)
Definition spanned {A} (name : string) (p : proc A) : proc A :=
  _ ← call (Tracer (SpanStart name []));
  x ← p;
  _ ← call (Tracer SpanEnd);
  Ret x.

Definition action_attribute (action : string) : list (string * any) :=
  [("governance.action", AString action)].

Definition traced_query {A} (action : string) (attrs : list (string * any)) (p : proc (result A))
    : proc (result A) :=
  traced ("QueryService." +:+ action) (action_attribute action ++ attrs) p
    (λ _, [outcome_attribute "success"]).

Definition TracedQueryService (next : QueryService) : QueryService :=
  {| qs_GetTask id :=
       traced_query "GetTask" [("governance.task_id", AString id)] (qs_GetTask next id);
     qs_GetWorkflowStatus id :=
       traced_query "GetWorkflowStatus" [("governance.workflow_run_id", AString id)]
         (qs_GetWorkflowStatus next id);
     qs_GetWorkflowByTask taskID :=
       traced_query "GetWorkflowByTask" [("governance.task_id", AString taskID)]
         (qs_GetWorkflowByTask next taskID);
     qs_QueryAuditTrail filter := traced_query "QueryAuditTrail" [] (qs_QueryAuditTrail next filter);
     qs_ListWorkflows filter := traced_query "ListWorkflows" [] (qs_ListWorkflows next filter);
     qs_ListBreakers filter := spanned "QueryService.ListBreakers" (qs_ListBreakers next filter);
     qs_GetBreakerState tool agentRole :=
       spanned "QueryService.GetBreakerState" (qs_GetBreakerState next tool agentRole) |}.

(** ** approval_traced.go, escalation_traced.go *)

Definition TracedApprovalService (next : ApprovalPort) : ApprovalPort :=
  {| ap_ResolveApproval input :=
       traced "ApprovalService.ResolveApproval"
         (action_attribute "ResolveApproval"
          ++ [("governance.approval_request_id", AString (raApprovalRequestID input));
              ("governance.approved", ABool (raApproved input))])
         (ap_ResolveApproval next input) (λ _, [outcome_attribute "success"]);
     ap_GetPendingApprovals :=
       traced "ApprovalService.GetPendingApprovals" (action_attribute "GetPendingApprovals")
         (ap_GetPendingApprovals next) (λ _, [outcome_attribute "success"]) |}.

Definition TracedEscalationPort (next : EscalationPort) : EscalationPort :=
  {| es_TriggerEscalation taskID condition target :=
       traced "EscalationPort.TriggerEscalation"
         (action_attribute "TriggerEscalation" ++ [("governance.task_id", AString taskID)])
         (es_TriggerEscalation next taskID condition target) (λ _, [outcome_attribute "success"]) |}.
