(* ===== verification/Config.v ===== *)
(** internal/infrastructure: the configuration read from the environment and the connection
    string made from it; internal/adapters/outbound/events and memory: the callback notifier and
    the stub of the memory engine; and what internal/bootstrap chooses by the configuration. *)

From stdpp Require Import options.
From S2P Require Import Prelude GoLib Shared Json Workflow Execution Approval Routing AuditLog.
From S2P Require Import Persistence Ports AuditService Decorators.

(** * config.go, postgres.go *)

(** [database.Config] *)
Record DBConfig := {
  dbHost : string; dbPort : Z; dbUser : string; dbPassword : string; dbDatabase : string;
  dbSSLMode : string;
}.

Record Config := {
  cfServerPort : Z; cfDB : DBConfig; cfLogLevel : string; cfOTelEnabled : bool;
  cfAdaptiveRoutingEnabled : bool;
}.

Section config.
(** [os.Getenv]: empty for a variable that is not set. *)
Variable Getenv : string → string.

Definition env (key fallback : string) : string :=
  let v := Getenv key in if decide (v ≠ "") then v else fallback.

Definition envBool (key : string) (fallback : bool) : bool :=
  let v := Getenv key in
  if decide (v ≠ "") then bool_decide (v = "true") || bool_decide (v = "1") || bool_decide (v = "yes")
  else fallback.

Definition envInt (key : string) (fallback : Z) : Z :=
  let v := Getenv key in
  if decide (v ≠ "") then match Atoi v with Some i => i | None => fallback end else fallback.

Definition Load : Config :=
  {| cfServerPort := envInt "PORT" 8080;
     cfDB := {| dbHost := env "DB_HOST" "localhost"; dbPort := envInt "DB_PORT" 5432;
                dbUser := env "DB_USER" "postgres"; dbPassword := env "DB_PASSWORD" "postgres";
                dbDatabase := env "DB_NAME" "governance"; dbSSLMode := env "DB_SSLMODE" "disable" |};
     cfLogLevel := env "LOG_LEVEL" "info";
     cfOTelEnabled := envBool "OTEL_ENABLED" false;
     cfAdaptiveRoutingEnabled := envBool "ADAPTIVE_ROUTING_ENABLED" false |}.
End config.

(** [fmt.Sprintf("postgres://%s:%s@%s:%d/%s?sslmode=%s", ...)] *)
Definition DSN (c : DBConfig) : string :=
  "postgres://" +:+ dbUser c +:+ ":" +:+ dbPassword c +:+ "@" +:+ dbHost c +:+ ":"
  +:+ pretty (dbPort c) +:+ "/" +:+ dbDatabase c +:+ "?sslmode=" +:+ dbSSLMode c.

(** * wire.go: the optional parts the configuration switches on *)

Definition wiring_of (cfg : Config) : Wiring :=
  {| has_memory := true; has_stats := cfAdaptiveRoutingEnabled cfg; has_metrics := cfOTelEnabled cfg;
     has_breakers := true |}.

(** * callback_notifier.go *)

(** The callbacks are the embedding program's. *)
Record CallbackNotifier := {
  onExecutionReady : option (WorkflowRun → ExecutionLease → proc (result unit));
  onApprovalRequired : option (WorkflowRun → ApprovalRequest → proc (result unit));
  onWorkflowTerminated : option (WorkflowRun → string → proc (result unit));
}.

Definition NewCallbackNotifier : CallbackNotifier :=
  {| onExecutionReady := None; onApprovalRequired := None; onWorkflowTerminated := None |}.

Definition SetOnExecutionReady (n : CallbackNotifier) f : CallbackNotifier :=
  {| onExecutionReady := f; onApprovalRequired := onApprovalRequired n;
     onWorkflowTerminated := onWorkflowTerminated n |}.
Definition SetOnApprovalRequired (n : CallbackNotifier) f : CallbackNotifier :=
  {| onExecutionReady := onExecutionReady n; onApprovalRequired := f;
     onWorkflowTerminated := onWorkflowTerminated n |}.
Definition SetOnWorkflowTerminated (n : CallbackNotifier) f : CallbackNotifier :=
  {| onExecutionReady := onExecutionReady n; onApprovalRequired := onApprovalRequired n;
     onWorkflowTerminated := f |}.

(** A span around the callback, if there is one. *)
Definition notify_in_span (name : string) (callback : option (proc (result unit))) : proc (result unit) :=
  traced name [] (match callback with Some p => p | None => Ret (Ok tt) end) (λ _, []).

(** The three methods of the notifier. *)
Definition deliver (n : CallbackNotifier) (ev : notification) : proc (result unit) :=
  match ev with
  | OnExecutionReady wf lease =>
      notify_in_span "GovernanceNotifier.OnExecutionReady" ((λ f, f wf lease) <$> onExecutionReady n)
  | OnApprovalRequired wf req =>
      notify_in_span "GovernanceNotifier.OnApprovalRequired" ((λ f, f wf req) <$> onApprovalRequired n)
  | OnWorkflowTerminated wf reason =>
      notify_in_span "GovernanceNotifier.OnWorkflowTerminated" ((λ f, f wf reason) <$> onWorkflowTerminated n)
  end.

(** * stub_provider.go *)

Definition Stub_GetRelevantContext (taskID : TaskID) (query : string)
    : proc (result (option MemoryContext)) :=
  _ ← call (Tracer (SpanStart "MemoryContextProvider.GetRelevantContext"
        [("governance.task_id", AString taskID); ("governance.memory_available", ABool false)]));
  _ ← call (Tracer SpanEnd);
  Ret (Ok (Some {| mcSimilarTaskFailureRate := float_of_int 0; mcHasRelevantHeuristics := false |})).

(** * Facts *)

(** A number that cannot be read, or does not fit, is replaced by the default: a mistyped port
    is not reported. *)
Lemma envInt_total Getenv key fallback :
  (minInt64 ≤ fallback ≤ maxInt64)%Z → (minInt64 ≤ envInt Getenv key fallback ≤ maxInt64)%Z.
Proof.
  intros H. unfold envInt. case_decide; [|done]. destruct (Atoi _) eqn:E; [|done]. by apply Atoi_range in E.
Qed.

Example load_defaults :
  Load (λ _, "") =
  {| cfServerPort := 8080;
     cfDB := {| dbHost := "localhost"; dbPort := 5432; dbUser := "postgres"; dbPassword := "postgres";
                dbDatabase := "governance"; dbSSLMode := "disable" |};
     cfLogLevel := "info"; cfOTelEnabled := false; cfAdaptiveRoutingEnabled := false |}.
Proof. reflexivity. Qed.

Example load_examples :
  let env key := if decide (key = "PORT") then "80a" else if decide (key = "OTEL_ENABLED") then "TRUE"
                 else if decide (key = "DB_PORT") then "+6432" else "" in
  (cfServerPort (Load env), cfOTelEnabled (Load env), dbPort (cfDB (Load env))) = (8080, false, 6432)%Z.
Proof. vm_compute. reflexivity. Qed.

(** Nothing is escaped: a password with an @ sign moves the boundary between password and host,
    so two configurations have one connection string. *)
Theorem dsn_ambiguous : ∃ c c', c ≠ c' ∧ dbPassword c ≠ dbPassword c' ∧ dbHost c ≠ dbHost c' ∧ DSN c = DSN c'.
Proof.
  set (mk pw host := {| dbHost := host; dbPort := 5432; dbUser := "u"; dbPassword := pw;
                        dbDatabase := "d"; dbSSLMode := "disable" |}).
  exists (mk "p@h" "db"), (mk "p" "h@db"). by split_and!.
Qed.
