(* ===== verification/Dto.v ===== *)
(** internal/adapters/inbound/http: the request and response bodies (dto.go and the DTOs of
    breaker_handler.go, decisions_handler.go, escalation_handler.go, errors.go). *)

From stdpp Require Import options.
From S2P Require Import Prelude GoLib Shared TimeFormat Json Task Workflow Execution Approval.
From S2P Require Import Escalation Policy Routing AuditLog Resilience Persistence Ports.
From S2P Require Import GovDecisions ProcessTask.

#[local] Open Scope json_scope.

(** * Request DTOs *)

Record submitTaskRequest := {
  sr_Type : string; sr_Title : string; sr_Scope : string; sr_Priority : string;
  sr_Metadata : gmap string any; sr_Action : string;
}.
Definition zero_submitTaskRequest : submitTaskRequest := Build_submitTaskRequest "" "" "" "" ∅ "".
Definition submitTaskRequest_fields : list (field submitTaskRequest) := [
  "type" ↦ into_string (λ x '(Build_submitTaskRequest _ b c d e f),
    Build_submitTaskRequest x b c d e f);
  "title" ↦ into_string (λ x '(Build_submitTaskRequest a _ c d e f),
    Build_submitTaskRequest a x c d e f);
  "scope" ↦ into_string (λ x '(Build_submitTaskRequest a b _ d e f),
    Build_submitTaskRequest a b x d e f);
  "priority" ↦ into_string (λ x '(Build_submitTaskRequest a b c _ e f),
    Build_submitTaskRequest a b c x e f);
  "metadata" ↦ into_map sr_Metadata (λ x '(Build_submitTaskRequest a b c d _ f),
    Build_submitTaskRequest a b c d x f);
  "action" ↦ into_string (λ x '(Build_submitTaskRequest a b c d e _),
    Build_submitTaskRequest a b c d e x)].

Record evaluatePolicyRequest := { ep_Action : string }.
Definition zero_evaluatePolicyRequest : evaluatePolicyRequest := Build_evaluatePolicyRequest "".
Definition evaluatePolicyRequest_fields : list (field evaluatePolicyRequest) := [
  "action" ↦ into_string (λ x _, Build_evaluatePolicyRequest x)].

Record workflowActionRequest := { wa_Reason : string; wa_Actor : string }.
Definition zero_workflowActionRequest : workflowActionRequest := Build_workflowActionRequest "" "".
Definition workflowActionRequest_fields : list (field workflowActionRequest) := [
  "reason" ↦ into_string (λ x '(Build_workflowActionRequest _ b), Build_workflowActionRequest x b);
  "actor" ↦ into_string (λ x '(Build_workflowActionRequest a _), Build_workflowActionRequest a x)].

Record registerAttemptRequest := {
  ra_Status : string; ra_FailureStage : option string; ra_FailureCode : option string;
  ra_Retryable : option bool; ra_ToolName : option string; ra_StrategyUsed : option string;
  ra_AgentRole : option string; ra_Detail : option string;
}.
Definition zero_registerAttemptRequest : registerAttemptRequest :=
  Build_registerAttemptRequest "" None None None None None None None.
Definition registerAttemptRequest_fields : list (field registerAttemptRequest) := [
  "status" ↦ into_string (λ x '(Build_registerAttemptRequest _ b c d e f g h),
    Build_registerAttemptRequest x b c d e f g h);
  "failure_stage" ↦ into_string_ptr (λ x '(Build_registerAttemptRequest a _ c d e f g h),
    Build_registerAttemptRequest a x c d e f g h);
  "failure_code" ↦ into_string_ptr (λ x '(Build_registerAttemptRequest a b _ d e f g h),
    Build_registerAttemptRequest a b x d e f g h);
  "retryable" ↦ into_bool_ptr (λ x '(Build_registerAttemptRequest a b c _ e f g h),
    Build_registerAttemptRequest a b c x e f g h);
  "tool_name" ↦ into_string_ptr (λ x '(Build_registerAttemptRequest a b c d _ f g h),
    Build_registerAttemptRequest a b c d x f g h);
  "strategy_used" ↦ into_string_ptr (λ x '(Build_registerAttemptRequest a b c d e _ g h),
    Build_registerAttemptRequest a b c d e x g h);
  "agent_role" ↦ into_string_ptr (λ x '(Build_registerAttemptRequest a b c d e f _ h),
    Build_registerAttemptRequest a b c d e f x h);
  "detail" ↦ into_string_ptr (λ x '(Build_registerAttemptRequest a b c d e f g _),
    Build_registerAttemptRequest a b c d e f g x)].

Record resolveApprovalRequest := { rq_Approved : bool; rq_ResolvedBy : string; rq_Reason : string }.
Definition zero_resolveApprovalRequest : resolveApprovalRequest := Build_resolveApprovalRequest false "" "".
Definition resolveApprovalRequest_fields : list (field resolveApprovalRequest) := [
  "approved" ↦ into_bool (λ x '(Build_resolveApprovalRequest _ b c),
    Build_resolveApprovalRequest x b c);
  "resolved_by" ↦ into_string (λ x '(Build_resolveApprovalRequest a _ c),
    Build_resolveApprovalRequest a x c);
  "reason" ↦ into_string (λ x '(Build_resolveApprovalRequest a b _),
    Build_resolveApprovalRequest a b x)].

Record triggerEscalationRequest := {
  te_ConditionType : string; te_ConditionParams : gmap string any; te_Target : string;
}.
Definition zero_triggerEscalationRequest : triggerEscalationRequest := Build_triggerEscalationRequest "" ∅ "".
Definition triggerEscalationRequest_fields : list (field triggerEscalationRequest) := [
  "condition_type" ↦ into_string (λ x '(Build_triggerEscalationRequest _ b c),
    Build_triggerEscalationRequest x b c);
  "condition_params" ↦ into_map te_ConditionParams (λ x '(Build_triggerEscalationRequest a _ c),
    Build_triggerEscalationRequest a x c);
  "target" ↦ into_string (λ x '(Build_triggerEscalationRequest a b _),
    Build_triggerEscalationRequest a b x)].

Record decisionPhaseRequest := {
  dp_ChangeID : string; dp_PhaseType : string; dp_TaskDescription : string; dp_Sensitive : bool;
}.
Definition zero_decisionPhaseRequest : decisionPhaseRequest := Build_decisionPhaseRequest "" "" "" false.
Definition decisionPhaseRequest_fields : list (field decisionPhaseRequest) := [
  "change_id" ↦ into_string (λ x '(Build_decisionPhaseRequest _ b c d),
    Build_decisionPhaseRequest x b c d);
  "phase_type" ↦ into_string (λ x '(Build_decisionPhaseRequest a _ c d),
    Build_decisionPhaseRequest a x c d);
  "task_description" ↦ into_string (λ x '(Build_decisionPhaseRequest a b _ d),
    Build_decisionPhaseRequest a b x d);
  "sensitive" ↦ into_bool (λ x '(Build_decisionPhaseRequest a b c _),
    Build_decisionPhaseRequest a b c x)].

(** [Payload] is checked and dropped. *)
Record decisionSensitiveRequest := { ds_ChangeID : string; ds_Capability : string }.
Definition zero_decisionSensitiveRequest : decisionSensitiveRequest := Build_decisionSensitiveRequest "" "".
Definition decisionSensitiveRequest_fields : list (field decisionSensitiveRequest) := [
  "change_id" ↦ into_string (λ x '(Build_decisionSensitiveRequest _ b),
    Build_decisionSensitiveRequest x b);
  "capability" ↦ into_string (λ x '(Build_decisionSensitiveRequest a _),
    Build_decisionSensitiveRequest a x);
  "payload" ↦ into_bytes].

(** * Response DTOs *)

#[local] Notation "'object' l" := (AMap (List.concat l)) (at level 10, only parsing).

Record taskResponse := {
  tr_ID : string; tr_ParentTaskID : option string; tr_Type : string; tr_Title : string;
  tr_Scope : string; tr_Priority : string; tr_RiskLevel : string; tr_Status : string;
  tr_Metadata : gmap string any; tr_CreatedAt : string; tr_UpdatedAt : string;
}.
#[export] Instance taskResponse_json : ToJSON taskResponse := λ r, object [
  member "id" (tr_ID r); omitempty "parent_task_id" (tr_ParentTaskID r); member "type" (tr_Type r);
  member "title" (tr_Title r); member "scope" (tr_Scope r); member "priority" (tr_Priority r);
  member "risk_level" (tr_RiskLevel r); member "status" (tr_Status r);
  member "metadata" (tr_Metadata r); member "created_at" (tr_CreatedAt r);
  member "updated_at" (tr_UpdatedAt r)].

Record workflowTransitionResponse := {
  wt_From : string; wt_To : string; wt_Reason : string; wt_Actor : string; wt_Timestamp : string;
}.
#[export] Instance workflowTransitionResponse_json : ToJSON workflowTransitionResponse := λ r, object [
  member "from" (wt_From r); member "to" (wt_To r); member "reason" (wt_Reason r);
  member "actor" (wt_Actor r); member "timestamp" (wt_Timestamp r)].

Record workflowRunResponse := {
  wr_ID : string; wr_TaskID : string; wr_Status : string; wr_RoutingDecisionID : option string;
  wr_PolicyDecisionID : option string; wr_CurrentStepIndex : Z;
  wr_Transitions : list workflowTransitionResponse; wr_CreatedAt : string; wr_UpdatedAt : string;
}.
#[export] Instance workflowRunResponse_json : ToJSON workflowRunResponse := λ r, object [
  member "id" (wr_ID r); member "task_id" (wr_TaskID r); member "status" (wr_Status r);
  omitempty "routing_decision_id" (wr_RoutingDecisionID r);
  omitempty "policy_decision_id" (wr_PolicyDecisionID r);
  member "current_step_index" (wr_CurrentStepIndex r); member "transitions" (wr_Transitions r);
  member "created_at" (wr_CreatedAt r); member "updated_at" (wr_UpdatedAt r)].

Record strategyEvaluationResponse := {
  sv_Strategy : string; sv_Score : float64; sv_FactorScores : gmap string float64;
  sv_Overridden : bool; sv_Reason : string;
}.
#[export] Instance strategyEvaluationResponse_json : ToJSON strategyEvaluationResponse := λ r, object [
  member "strategy" (sv_Strategy r); member "score" (sv_Score r);
  member "factor_scores" (sv_FactorScores r); member "overridden" (sv_Overridden r);
  member "reason" (sv_Reason r)].

Record routingConstraintResponse := { rk_Type : string; rk_Value : string }.
#[export] Instance routingConstraintResponse_json : ToJSON routingConstraintResponse := λ r, object [
  member "type" (rk_Type r); member "value" (rk_Value r)].

Record routingDecisionResponse := {
  rr_ID : string; rr_TaskID : string; rr_EvaluatedStrategies : list strategyEvaluationResponse;
  rr_SelectedStrategy : string; rr_SelectedAgentRole : string; rr_Reason : string;
  rr_Constraints : list routingConstraintResponse; rr_CreatedAt : string;
}.
#[export] Instance routingDecisionResponse_json : ToJSON routingDecisionResponse := λ r, object [
  member "id" (rr_ID r); member "task_id" (rr_TaskID r);
  member "evaluated_strategies" (rr_EvaluatedStrategies r);
  member "selected_strategy" (rr_SelectedStrategy r);
  member "selected_agent_role" (rr_SelectedAgentRole r); member "reason" (rr_Reason r);
  member "constraints" (rr_Constraints r); member "created_at" (rr_CreatedAt r)].

Record policyConstraintResponse := { pk_Type : string; pk_Value : string; pk_Reason : string }.
#[export] Instance policyConstraintResponse_json : ToJSON policyConstraintResponse := λ r, object [
  member "type" (pk_Type r); member "value" (pk_Value r); member "reason" (pk_Reason r)].

Record approvalRequirementResponse := {
  aq_ApproverRole : string; aq_Reason : string; aq_TimeoutSecs : option Z;
}.
#[export] Instance approvalRequirementResponse_json : ToJSON approvalRequirementResponse := λ r, object [
  member "approver_role" (aq_ApproverRole r); member "reason" (aq_Reason r);
  omitempty "timeout_secs" (aq_TimeoutSecs r)].

Record ruleEvaluationResponse := {
  re_RuleID : string; re_Passed : bool; re_Outcome : option string; re_Reason : string;
}.
#[export] Instance ruleEvaluationResponse_json : ToJSON ruleEvaluationResponse := λ r, object [
  member "rule_id" (re_RuleID r); member "passed" (re_Passed r); omitempty "outcome" (re_Outcome r);
  member "reason" (re_Reason r)].

Record policyDecisionResponse := {
  pr_ID : string; pr_TaskID : string; pr_EvaluatedAction : string; pr_Outcome : string;
  pr_Constraints : list policyConstraintResponse;
  pr_ApprovalRequirement : option approvalRequirementResponse;
  pr_RulesEvaluated : list ruleEvaluationResponse; pr_Reason : string; pr_CreatedAt : string;
}.
#[export] Instance policyDecisionResponse_json : ToJSON policyDecisionResponse := λ r, object [
  member "id" (pr_ID r); member "task_id" (pr_TaskID r);
  member "evaluated_action" (pr_EvaluatedAction r); member "outcome" (pr_Outcome r);
  member "constraints" (pr_Constraints r);
  omitempty "approval_requirement" (pr_ApprovalRequirement r);
  member "rules_evaluated" (pr_RulesEvaluated r); member "reason" (pr_Reason r);
  member "created_at" (pr_CreatedAt r)].

Record approverSpecResponse := { as_Role : string; as_ActorID : option string }.
#[export] Instance approverSpecResponse_json : ToJSON approverSpecResponse := λ r, object [
  member "role" (as_Role r); omitempty "actor_id" (as_ActorID r)].

Record approvalResolutionResponse := {
  al_ResolvedBy : string; al_ResolvedAt : string; al_Reason : string; al_Status : string;
}.
#[export] Instance approvalResolutionResponse_json : ToJSON approvalResolutionResponse := λ r, object [
  member "resolved_by" (al_ResolvedBy r); member "resolved_at" (al_ResolvedAt r);
  member "reason" (al_Reason r); member "status" (al_Status r)].

Record approvalRequestResponse := {
  ar_ID : string; ar_TaskID : string; ar_WorkflowRunID : string; ar_Reason : string;
  ar_RequiredApprover : approverSpecResponse; ar_Status : string;
  ar_Resolution : option approvalResolutionResponse; ar_ExpiresAt : option string;
  ar_CreatedAt : string;
}.
#[export] Instance approvalRequestResponse_json : ToJSON approvalRequestResponse := λ r, object [
  member "id" (ar_ID r); member "task_id" (ar_TaskID r); member "workflow_run_id" (ar_WorkflowRunID r);
  member "reason" (ar_Reason r); member "required_approver" (ar_RequiredApprover r);
  member "status" (ar_Status r); omitempty "resolution" (ar_Resolution r);
  omitempty "expires_at" (ar_ExpiresAt r); member "created_at" (ar_CreatedAt r)].

Record auditEntryResponse := {
  ae_ID : string; ae_TaskID : option string; ae_WorkflowRunID : option string; ae_Actor : string;
  ae_Action : string; ae_Outcome : string; ae_Context : gmap string any; ae_CreatedAt : string;
}.
#[export] Instance auditEntryResponse_json : ToJSON auditEntryResponse := λ r, object [
  member "id" (ae_ID r); omitempty "task_id" (ae_TaskID r);
  omitempty "workflow_run_id" (ae_WorkflowRunID r); member "actor" (ae_Actor r);
  member "action" (ae_Action r); member "outcome" (ae_Outcome r); member "context" (ae_Context r);
  member "created_at" (ae_CreatedAt r)].

Record processTaskResponse := {
  pt_Task : option taskResponse; pt_RoutingDecision : option routingDecisionResponse;
  pt_PolicyDecision : option policyDecisionResponse; pt_WorkflowRun : option workflowRunResponse;
}.
#[export] Instance processTaskResponse_json : ToJSON processTaskResponse := λ r, object [
  omitempty "task" (pt_Task r); omitempty "routing_decision" (pt_RoutingDecision r);
  omitempty "policy_decision" (pt_PolicyDecision r); omitempty "workflow_run" (pt_WorkflowRun r)].

Record escalationTriggerResponse := {
  et_ID : string; et_TaskID : string; et_Condition : string; et_Target : string; et_Status : string;
  et_TriggeredAt : option string; et_CreatedAt : string;
}.
#[export] Instance escalationTriggerResponse_json : ToJSON escalationTriggerResponse := λ r, object [
  member "id" (et_ID r); member "task_id" (et_TaskID r); member "condition_type" (et_Condition r);
  member "target" (et_Target r); member "status" (et_Status r);
  omitempty "triggered_at" (et_TriggeredAt r); member "created_at" (et_CreatedAt r)].

Record breakerResponse := {
  br_ToolName : string; br_AgentRole : string; br_State : string; br_OpenedAt : option string;
  br_ConsecutiveFailures : Z; br_FailureRate : float64; br_SampleSize : Z; br_UpdatedAt : string;
}.
#[export] Instance breakerResponse_json : ToJSON breakerResponse := λ r, object [
  member "tool_name" (br_ToolName r); member "agent_role" (br_AgentRole r); member "state" (br_State r);
  omitempty "opened_at" (br_OpenedAt r); member "consecutive_failures" (br_ConsecutiveFailures r);
  member "failure_rate" (br_FailureRate r); member "sample_size" (br_SampleSize r);
  member "updated_at" (br_UpdatedAt r)].

(** Constraints and Approval are never set. *)
Record decisionPayload := {
  dl_Decision : string; dl_AgentRole : string; dl_Strategy : string; dl_Reason : string;
}.
#[export] Instance decisionPayload_json : ToJSON decisionPayload := λ r, object [
  member "decision" (dl_Decision r); omitempty_string "agent_role" (dl_AgentRole r);
  omitempty_string "strategy" (dl_Strategy r); omitempty_string "reason" (dl_Reason r)].

Record approvalStatusPayload := { sp_Status : string }.
#[export] Instance approvalStatusPayload_json : ToJSON approvalStatusPayload := λ r,
  object [member "status" (sp_Status r)].

(** * From domain values to responses *)

Section responses.
Context {Zn : Zone}.

Definition taskToResponse (t : Task) : taskResponse :=
  {| tr_ID := tkID t; tr_ParentTaskID := tkParentTaskID t; tr_Type := to_string (tkType t);
     tr_Title := tkTitle t; tr_Scope := to_string (tkScope t); tr_Priority := to_string (tkPriority t);
     tr_RiskLevel := to_string (tkRiskLevel t); tr_Status := to_string (tkStatus t);
     tr_Metadata := tkMetadata t; tr_CreatedAt := ts_Format (tkCreatedAt t);
     tr_UpdatedAt := ts_Format (tkUpdatedAt t) |}.

(** The loop over [wf.Transitions], one iteration. *)
Definition transitionToResponse (tr : WorkflowTransition) : workflowTransitionResponse :=
  {| wt_From := to_string (trFrom tr); wt_To := to_string (trTo tr); wt_Reason := trReason tr;
     wt_Actor := trActor tr; wt_Timestamp := ts_Format (trTimestamp tr) |}.

Definition workflowRunToResponse (wf : WorkflowRun) : workflowRunResponse :=
  {| wr_ID := wfID wf; wr_TaskID := wfTaskID wf; wr_Status := to_string (wfStatus wf);
     wr_RoutingDecisionID := wfRoutingDecisionID wf; wr_PolicyDecisionID := wfPolicyDecisionID wf;
     wr_CurrentStepIndex := wfCurrentStepIndex wf;
     wr_Transitions := transitionToResponse <$> wfTransitions wf;
     wr_CreatedAt := ts_Format (wfCreatedAt wf); wr_UpdatedAt := ts_Format (wfUpdatedAt wf) |}.

(** The adjusted score and the adaptive adjustment are not shown. *)
Definition evaluationToResponse (e : StrategyEvaluation) : strategyEvaluationResponse :=
  {| sv_Strategy := to_string (seStrategy e); sv_Score := seScore e;
     sv_FactorScores := seFactorScores e; sv_Overridden := seOverridden e; sv_Reason := seReason e |}.

Definition routingDecisionToResponse (rd : RoutingDecision) : routingDecisionResponse :=
  {| rr_ID := rdID rd; rr_TaskID := rdTaskID rd;
     rr_EvaluatedStrategies := evaluationToResponse <$> rdEvaluatedStrategies rd;
     rr_SelectedStrategy := to_string (rdSelectedStrategy rd);
     rr_SelectedAgentRole := to_string (rdSelectedAgentRole rd); rr_Reason := rdReason rd;
     rr_Constraints := (λ c, {| rk_Type := rcType c; rk_Value := rcValue c |}) <$> rdConstraints rd;
     rr_CreatedAt := ts_Format (rdCreatedAt rd) |}.

Definition ruleToResponse (r : RuleEvaluation) : ruleEvaluationResponse :=
  {| re_RuleID := reRuleID r; re_Passed := rePassed r; re_Outcome := Outcome_String <$> reOutcome r;
     re_Reason := reReason r |}.

Definition policyDecisionToResponse (pd : PolicyDecision) : policyDecisionResponse :=
  {| pr_ID := pdID pd; pr_TaskID := pdTaskID pd; pr_EvaluatedAction := pdEvaluatedAction pd;
     pr_Outcome := Outcome_String (pdOutcome pd);
     pr_Constraints := (λ c, {| pk_Type := pcType c; pk_Value := pcValue c; pk_Reason := pcReason c |})
                         <$> pdConstraints pd;
     pr_ApprovalRequirement :=
       (λ a, {| aq_ApproverRole := aqApproverRole a; aq_Reason := aqReason a;
                aq_TimeoutSecs := aqTimeoutSecs a |}) <$> pdApprovalRequirement pd;
     pr_RulesEvaluated := ruleToResponse <$> pdRulesEvaluated pd; pr_Reason := pdReason pd;
     pr_CreatedAt := ts_Format (pdCreatedAt pd) |}.

Definition approvalRequestToResponse (ar : ApprovalRequest) : approvalRequestResponse :=
  {| ar_ID := apID ar; ar_TaskID := apTaskID ar; ar_WorkflowRunID := apWorkflowRunID ar;
     ar_Reason := apReason ar;
     ar_RequiredApprover := {| as_Role := asRole (apRequiredApprover ar);
                               as_ActorID := asActorID (apRequiredApprover ar) |};
     ar_Status := to_string (apStatus ar);
     ar_Resolution :=
       (λ r, {| al_ResolvedBy := resResolvedBy r; al_ResolvedAt := ts_Format (resResolvedAt r);
                al_Reason := resReason r; al_Status := to_string (resStatus r) |}) <$> apResolution ar;
     ar_ExpiresAt := ts_Format <$> apExpiresAt ar; ar_CreatedAt := ts_Format (apCreatedAt ar) |}.

Definition auditEntryToResponse (ae : AuditEntry) : auditEntryResponse :=
  {| ae_ID := aeID ae; ae_TaskID := aeTaskID ae; ae_WorkflowRunID := aeWorkflowRunID ae;
     ae_Actor := aeActor ae; ae_Action := aeAction ae; ae_Outcome := aeOutcome ae;
     ae_Context := aeContext ae; ae_CreatedAt := ts_Format (aeCreatedAt ae) |}.

(** ProcessTask returns the four parts together, so no pointer is nil. *)
Definition processTaskResultToResponse (r : ProcessTaskResult) : processTaskResponse :=
  {| pt_Task := Some (taskToResponse (ptTask r));
     pt_RoutingDecision := Some (routingDecisionToResponse (ptRoutingDecision r));
     pt_PolicyDecision := Some (policyDecisionToResponse (ptPolicyDecision r));
     pt_WorkflowRun := Some (workflowRunToResponse (ptWorkflowRun r)) |}.

Definition escalationTriggerToResponse (et : EscalationTrigger) : escalationTriggerResponse :=
  {| et_ID := etID et; et_TaskID := etTaskID et; et_Condition := ecType (etCondition et);
     et_Target := to_string (etTarget et); et_Status := to_string (etStatus et);
     et_TriggeredAt := ts_Format <$> etTriggeredAt et; et_CreatedAt := ts_Format (etCreatedAt et) |}.
End responses.

Definition snapshotToResponse (s : BreakerSnapshot) : breakerResponse :=
  {| br_ToolName := bsToolName s; br_AgentRole := bsAgentRole s; br_State := state_string (bsState s);
     br_OpenedAt := Format_UTC <$> bsOpenedAt s; br_ConsecutiveFailures := bsConsecutiveFailures s;
     br_FailureRate := bsFailureRate s; br_SampleSize := Z.of_nat (bsSampleSize s);
     br_UpdatedAt := Format_UTC (bsUpdatedAt s) |}.

Definition toDecisionPayload (d : Decision) : decisionPayload :=
  {| dl_Decision := decision_string (dcDecision d); dl_AgentRole := dcAgentRole d;
     dl_Strategy := dcStrategy d; dl_Reason := dcReason d |}.
