(* ===== verification/Handlers.v ===== *)
(** internal/adapters/inbound/http: the server, its handlers and its routes.

    A handler is a [proc] that ends with the response.  What it reads of a request are the
    URL parameters chi extracted, the query parameters and the JSON document of the body. *)

From stdpp Require Import options.
From S2P Require Import Prelude GoLib Shared TimeFormat Json Task Workflow Execution Approval.
From S2P Require Import Escalation Policy Routing AuditLog Resilience Persistence Queries Ports.
From S2P Require Import AuditService Intake WorkflowService ApprovalService GovDecisions ProcessTask.
From S2P Require Import Inbound Dto.

(** * errors.go *)

(** The text of an error field: a literal of the source, or [err.Error()]. *)
Inductive Message := Literal (s : string) | ErrorOf (e : error).

Record ErrorResponse := { er_Error : Message; er_Code : string }.

(** The body of /ready holds the text of an error, too.  [JSONBody None] is an empty body:
    the value could not be encoded, after the status was written. *)
Inductive Body :=
  | ErrorBody (e : ErrorResponse)
  | JSONBody (data : option any)
  | ReadinessBody (status : string) (db : Message).

Record Response := { rs_Status : Z; rs_Body : Body }.

Definition writeError (status : Z) (code : string) (message : Message) : Response :=
  {| rs_Status := status; rs_Body := ErrorBody {| er_Error := message; er_Code := code |} |}.

(** [json.Encoder] writes nothing when a value cannot be encoded. *)
Definition writeJSON {A} `{ToJSON A} (status : Z) (data : A) : Response :=
  {| rs_Status := status;
     rs_Body := JSONBody (match json_value (to_json data) with
                          | Some _ => Some (to_json data) | None => None end) |}.

Definition StatusOK : Z := 200.
Definition StatusCreated : Z := 201.
Definition StatusBadRequest : Z := 400.
Definition StatusNotFound : Z := 404.
Definition StatusInternalServerError : Z := 500.
Definition StatusServiceUnavailable : Z := 503.

(** * Requests *)

Record HttpRequest := {
  rq_Param : string → string;      (* chi.URLParam *)
  rq_Query : string → string;      (* r.URL.Query().Get: empty when absent *)
  rq_Body : option json;
}.

Definition handler := HttpRequest → proc Response.

(** [x, err := r; if err != nil { writeError(400, code, err.Error()); return }] *)
Definition parsed {A} (r : result A) (code : string) (k : A → proc Response) : proc Response :=
  match r with Ok x => k x | Err e => Ret (writeError StatusBadRequest code (ErrorOf e)) end.

(** The decoding of the body every handler starts with. *)
Definition decoded {S} (fields : list (field S)) (zero : S) (r : HttpRequest) (k : S → proc Response)
    : proc Response :=
  match Decode fields zero (rq_Body r) with
  | Some req => k req
  | None => Ret (writeError StatusBadRequest "INVALID_JSON" (Literal "invalid request body"))
  end.

(** [if b { writeError(400, code, message); return }] *)
Definition refuse_if (b : bool) (code message : string) (k : proc Response) : proc Response :=
  if b then Ret (writeError StatusBadRequest code (Literal message)) else k.

(** A call of a service, with the responses to its error and to its result. *)
Definition served {A} (p : proc (result A)) (status : Z) (code : string) (ok : A → Response)
    : proc Response :=
  r ← p; Ret (match r with Ok x => ok x | Err e => writeError status code (ErrorOf e) end).

Declare Scope handler_scope.
Delimit Scope handler_scope with handler.
Notation "x ⇐ r 'orelse' code ; k" := (parsed r code (λ x, k))
  (at level 100, r at level 99, code at level 99, k at level 200, right associativity,
   only parsing) : handler_scope.

(** * router.go: the server *)

Record Server := {
  sv_governance : GovernanceService; sv_control : WorkflowControl; sv_approvals : ApprovalPort;
  sv_queries : QueryService; sv_escalation : EscalationPort;
  sv_phaseDecisions : option PhaseDecisionsService;
  sv_db : bool;      (* db is not nil *)
}.

(** The middlewares of the constructor are [Trace.TraceW3C] and three of chi, which are not modelled. *)
Definition NewServerWithObs (governance : GovernanceService) (control : WorkflowControl)
    (approvals : ApprovalPort) (queries : QueryService) (escalation : EscalationPort) (db : bool) : Server :=
  {| sv_governance := governance; sv_control := control; sv_approvals := approvals;
     sv_queries := queries; sv_escalation := escalation; sv_phaseDecisions := None; sv_db := db |}.

Definition WithPhaseDecisions (s : Server) (svc : option PhaseDecisionsService) : Server :=
  {| sv_governance := sv_governance s; sv_control := sv_control s; sv_approvals := sv_approvals s;
     sv_queries := sv_queries s; sv_escalation := sv_escalation s; sv_phaseDecisions := svc; sv_db := sv_db s |}.

(** The query parameter as a pointer to a non empty string. *)
Definition non_empty (s : string) : option string := if decide (s = "") then None else Some s.

Section handlers.
Context {Zn : Zone} {U : ULID}.
Variable s : Server.
#[local] Open Scope handler_scope.

(** * task_handler.go *)

Definition handleSubmitTask (r : HttpRequest) : proc Response :=
  decoded submitTaskRequest_fields zero_submitTaskRequest r (λ req,
  taskType ⇐ NewTaskType (sr_Type req) orelse "INVALID_TASK_TYPE";
  taskScope ⇐ NewTaskScope (sr_Scope req) orelse "INVALID_TASK_SCOPE";
  priority ⇐ NewPriority (sr_Priority req) orelse "INVALID_PRIORITY";
  served (gs_SubmitTask (sv_governance s)
            {| inType := taskType; inTitle := sr_Title req; inScope := taskScope;
               inPriority := priority; inMetadata := sr_Metadata req |})
    StatusInternalServerError "SUBMIT_FAILED" (λ result_, writeJSON StatusCreated (taskToResponse result_))).

Definition handleGetTask (r : HttpRequest) : proc Response :=
  taskID ⇐ NewTaskID (rq_Param r "taskID") orelse "INVALID_TASK_ID";
  served (qs_GetTask (sv_queries s) taskID) StatusNotFound "TASK_NOT_FOUND"
    (λ result_, writeJSON StatusOK (taskToResponse result_)).

Definition handleRouteTask (r : HttpRequest) : proc Response :=
  taskID ⇐ NewTaskID (rq_Param r "taskID") orelse "INVALID_TASK_ID";
  served (gs_RouteTask (sv_governance s) taskID) StatusInternalServerError "ROUTE_FAILED"
    (λ result_, writeJSON StatusOK (routingDecisionToResponse result_)).

Definition handleEvaluatePolicy (r : HttpRequest) : proc Response :=
  taskID ⇐ NewTaskID (rq_Param r "taskID") orelse "INVALID_TASK_ID";
  decoded evaluatePolicyRequest_fields zero_evaluatePolicyRequest r (λ req,
  refuse_if (bool_decide (ep_Action req = "")) "MISSING_ACTION" "action is required" (
  served (gs_EvaluatePolicy (sv_governance s) taskID (ep_Action req))
    StatusInternalServerError "EVALUATE_POLICY_FAILED"
    (λ result_, writeJSON StatusOK (policyDecisionToResponse result_)))).

Definition handleStartWorkflow (r : HttpRequest) : proc Response :=
  taskID ⇐ NewTaskID (rq_Param r "taskID") orelse "INVALID_TASK_ID";
  served (gs_StartWorkflow (sv_governance s) taskID) StatusInternalServerError "START_WORKFLOW_FAILED"
    (λ result_, writeJSON StatusCreated (workflowRunToResponse result_)).

(** The identifier of the URL is checked and not used. *)
Definition handleProcessTask (r : HttpRequest) : proc Response :=
  taskID ⇐ NewTaskID (rq_Param r "taskID") orelse "INVALID_TASK_ID";
  decoded submitTaskRequest_fields zero_submitTaskRequest r (λ req,
  taskType ⇐ NewTaskType (sr_Type req) orelse "INVALID_TASK_TYPE";
  taskScope ⇐ NewTaskScope (sr_Scope req) orelse "INVALID_TASK_SCOPE";
  priority ⇐ NewPriority (sr_Priority req) orelse "INVALID_PRIORITY";
  refuse_if (bool_decide (sr_Action req = "")) "MISSING_ACTION" "action is required for process" (
  served (gs_ProcessTask (sv_governance s)
            {| inType := taskType; inTitle := sr_Title req; inScope := taskScope;
               inPriority := priority; inMetadata := sr_Metadata req |} (sr_Action req))
    StatusInternalServerError "PROCESS_FAILED"
    (λ result_, writeJSON StatusOK (processTaskResultToResponse result_)))).

(** * workflow_handler.go *)

Definition validWorkflowStatuses (st : string) : bool :=
  bool_decide (st ∈ (to_string <$> [Workflow.StatusCreated; StatusRouted; StatusPolicyChecked;
    StatusRunning; StatusAwaitingApproval; Workflow.StatusApproved; StatusPaused; StatusCompleted;
    StatusFailed; StatusKilled; StatusQuarantined])).

(** The filter: the status was checked; an unusable limit or offset counts as absent. *)
Definition list_filter (r : HttpRequest) : WorkflowListFilter :=
  {| wlStatus := of_string <$> non_empty (rq_Query r "status"); wlTaskID := None;
     wlLimit := match Atoi (rq_Query r "limit") with
                | Some l => if ((0 <? l) && (l <=? 100))%Z then l else 20
                | None => 20 end;
     wlOffset := match Atoi (rq_Query r "offset") with
                 | Some o => if (0 <=? o)%Z then o else 0
                 | None => 0 end |}.

Definition handleListWorkflows (r : HttpRequest) : proc Response :=
  let statusParam := rq_Query r "status" in
  if bool_decide (statusParam ≠ "") && negb (validWorkflowStatuses statusParam) then
    Ret (writeError StatusBadRequest "INVALID_STATUS" (Literal ("invalid status: " +:+ statusParam)))
  else
    served (qs_ListWorkflows (sv_queries s) (list_filter r)) StatusInternalServerError "LIST_FAILED"
      (λ '(workflows, total), writeJSON StatusOK (AMap [
          ("items", to_json (workflowRunToResponse <$> workflows)); ("total", AInt total)])).

Definition handleGetWorkflowStatus (r : HttpRequest) : proc Response :=
  wfID ⇐ NewWorkflowRunID (rq_Param r "workflowID") orelse "INVALID_WORKFLOW_ID";
  served (qs_GetWorkflowStatus (sv_queries s) wfID) StatusNotFound "WORKFLOW_NOT_FOUND"
    (λ result_, writeJSON StatusOK (workflowRunToResponse result_)).

Definition handleKillWorkflow (r : HttpRequest) : proc Response :=
  wfID ⇐ NewWorkflowRunID (rq_Param r "workflowID") orelse "INVALID_WORKFLOW_ID";
  decoded workflowActionRequest_fields zero_workflowActionRequest r (λ req,
  actor ⇐ NewActorID (wa_Actor req) orelse "INVALID_ACTOR";
  served (wc_KillWorkflow (sv_control s) wfID (wa_Reason req) actor)
    StatusInternalServerError "KILL_FAILED"
    (λ _, writeJSON StatusOK (AMap [("status", AString "killed")]))).

Definition handlePauseWorkflow (r : HttpRequest) : proc Response :=
  wfID ⇐ NewWorkflowRunID (rq_Param r "workflowID") orelse "INVALID_WORKFLOW_ID";
  decoded workflowActionRequest_fields zero_workflowActionRequest r (λ req,
  actor ⇐ NewActorID (wa_Actor req) orelse "INVALID_ACTOR";
  served (wc_PauseWorkflow (sv_control s) wfID (wa_Reason req) actor)
    StatusInternalServerError "PAUSE_FAILED"
    (λ _, writeJSON StatusOK (AMap [("status", AString "paused")]))).

Definition handleResumeWorkflow (r : HttpRequest) : proc Response :=
  wfID ⇐ NewWorkflowRunID (rq_Param r "workflowID") orelse "INVALID_WORKFLOW_ID";
  decoded workflowActionRequest_fields zero_workflowActionRequest r (λ req,
  actor ⇐ NewActorID (wa_Actor req) orelse "INVALID_ACTOR";
  served (wc_ResumeWorkflow (sv_control s) wfID (wa_Reason req) actor)
    StatusInternalServerError "RESUME_FAILED"
    (λ _, writeJSON StatusOK (AMap [("status", AString "resumed")]))).

(** The switch of handleRegisterAttempt on the status. *)
Definition attempt_result (req : registerAttemptRequest) (k : AttemptResult → proc Response) : proc Response :=
  match (of_string (ra_Status req) : AttemptStatus) with
  | AttemptStatusSuccess => k NewSuccessResult
  | (AttemptStatusFailure | AttemptStatusRetry) as status =>
      match ra_FailureStage req with
      | None => Ret (writeError StatusBadRequest "MISSING_FAILURE_STAGE"
                       (Literal "failure_stage is required for failure/retry status"))
      | Some failureStage =>
          stage ⇐ NewFailureStage failureStage orelse "INVALID_FAILURE_STAGE";
          match ra_FailureCode req with
          | None | Some "" => Ret (writeError StatusBadRequest "MISSING_FAILURE_CODE"
                       (Literal "failure_code is required for failure/retry status"))
          | Some code =>
              match ra_Retryable req with
              | None => Ret (writeError StatusBadRequest "MISSING_RETRYABLE"
                       (Literal "retryable is required for failure/retry status"))
              | Some retryable =>
                  attemptResult ⇐ (if decide (status = AttemptStatusFailure)
                                   then NewFailureResult stage code retryable
                                   else NewRetryResult stage code) orelse "INVALID_ATTEMPT";
                  k attemptResult
              end
          end
      end
  | _ => Ret (writeError StatusBadRequest "INVALID_ATTEMPT_STATUS"
                (Literal "status must be success, failure, or retry"))
  end.

(** [if o != nil { a = a.With...( *o) }] *)
Definition with_field (f : AttemptResult → string → AttemptResult) (o : option string) (a : AttemptResult)
    : AttemptResult := match o with Some x => f a x | None => a end.

Definition optional_fields (req : registerAttemptRequest) (a : AttemptResult) : AttemptResult :=
  with_field WithDetail (ra_Detail req)
    (with_field Execution.WithAgentRole (ra_AgentRole req)
      (with_field Execution.WithStrategy (ra_StrategyUsed req)
        (with_field Execution.WithToolName (ra_ToolName req) a))).

Definition handleRegisterAttempt (r : HttpRequest) : proc Response :=
  wfID ⇐ NewWorkflowRunID (rq_Param r "workflowID") orelse "INVALID_WORKFLOW_ID";
  decoded registerAttemptRequest_fields zero_registerAttemptRequest r (λ req,
  attempt_result req (λ a,
  served (wc_RegisterAttempt (sv_control s) wfID (optional_fields req a))
    StatusInternalServerError "REGISTER_ATTEMPT_FAILED"
    (λ result_, writeJSON StatusOK (workflowRunToResponse result_)))).

(** * approval_handler.go *)

Definition handleGetPendingApprovals (r : HttpRequest) : proc Response :=
  served (ap_GetPendingApprovals (sv_approvals s)) StatusInternalServerError "QUERY_FAILED"
    (λ results, writeJSON StatusOK (approvalRequestToResponse <$> results)).

Definition handleResolveApproval (r : HttpRequest) : proc Response :=
  approvalID ⇐ NewApprovalRequestID (rq_Param r "approvalID") orelse "INVALID_APPROVAL_ID";
  decoded resolveApprovalRequest_fields zero_resolveApprovalRequest r (λ req,
  resolvedBy ⇐ NewActorID (rq_ResolvedBy req) orelse "INVALID_ACTOR";
  served (ap_ResolveApproval (sv_approvals s)
            {| raApprovalRequestID := approvalID; raApproved := rq_Approved req;
               raResolvedBy := resolvedBy; raReason := rq_Reason req |})
    StatusInternalServerError "RESOLVE_FAILED"
    (λ result_, writeJSON StatusOK (approvalRequestToResponse result_))).

(** * audit_handler.go *)

(** [if v := Query().Get(name); v != "" { x, err := parse(v); ...; filter.F = &x }] *)
Definition optional_param {A} (v : string) (parse : string → result A) (code : string)
    (k : option A → proc Response) : proc Response :=
  match non_empty v with
  | None => k None
  | Some v => parsed (parse v) code (λ x, k (Some x))
  end.

(** A non negative integer parameter, 0 when absent. *)
Definition natural_param (v code message : string) (k : Z → proc Response) : proc Response :=
  match non_empty v with
  | None => k 0%Z
  | Some v =>
      match Atoi v with
      | Some n => if (n <? 0)%Z then Ret (writeError StatusBadRequest code (Literal message)) else k n
      | None => Ret (writeError StatusBadRequest code (Literal message))
      end
  end.

Definition handleQueryAuditTrail (r : HttpRequest) : proc Response :=
  optional_param (rq_Query r "task_id") NewTaskID "INVALID_TASK_ID" (λ taskID,
  optional_param (rq_Query r "workflow_run_id") NewWorkflowRunID "INVALID_WORKFLOW_ID" (λ wfID,
  optional_param (rq_Query r "actor") NewActorID "INVALID_ACTOR" (λ actor,
  natural_param (rq_Query r "limit") "INVALID_LIMIT" "limit must be a non-negative integer" (λ limit,
  natural_param (rq_Query r "offset") "INVALID_OFFSET" "offset must be a non-negative integer" (λ offset,
  served (qs_QueryAuditTrail (sv_queries s)
            {| afTaskID := taskID; afWorkflowRunID := wfID; afActor := actor;
               afAction := non_empty (rq_Query r "action"); afCreatedAfter := None;
               afCreatedBefore := None; afLimit := limit; afOffset := offset |})
    StatusInternalServerError "QUERY_FAILED"
    (λ '(entries, total), writeJSON StatusOK (AMap [
        ("entries", to_json (auditEntryToResponse <$> entries)); ("total", AInt total)]))))))).

(** * breaker_handler.go *)

Definition validStates (st : string) : option BreakerState :=
  if decide (st = "closed") then Some StateClosed
  else if decide (st = "open") then Some StateOpen
  else if decide (st = "half_open") then Some StateHalfOpen
  else None.

Definition handleListBreakers (r : HttpRequest) : proc Response :=
  let list_breakers (state : option BreakerState) :=
    served (qs_ListBreakers (sv_queries s)
              {| bfState := state; bfToolName := non_empty (rq_Query r "tool_name");
                 bfAgentRole := non_empty (rq_Query r "agent_role") |})
      StatusInternalServerError "LIST_FAILED"
      (λ snapshots, writeJSON StatusOK (AMap [
          ("items", to_json (snapshotToResponse <$> snapshots));
          ("total", AInt (Z.of_nat (length snapshots)))])) in
  match non_empty (rq_Query r "state") with
  | None => list_breakers None
  | Some stateParam =>
      match validStates stateParam with
      | Some bs => list_breakers (Some bs)
      | None => Ret (writeError StatusBadRequest "INVALID_STATE"
                       (Literal "state must be one of: closed, open, half_open"))
      end
  end.

(** * escalation_handler.go *)

Definition handleTriggerEscalation (r : HttpRequest) : proc Response :=
  taskID ⇐ NewTaskID (rq_Param r "taskID") orelse "INVALID_TASK_ID";
  decoded triggerEscalationRequest_fields zero_triggerEscalationRequest r (λ req,
  refuse_if (bool_decide (te_ConditionType req = "")) "MISSING_CONDITION_TYPE" "condition_type is required" (
  target ⇐ NewEscalationTarget (te_Target req) orelse "INVALID_ESCALATION_TARGET";
  served (es_TriggerEscalation (sv_escalation s) taskID
            {| ecType := te_ConditionType req; ecParameters := te_ConditionParams req |} target)
    StatusInternalServerError "ESCALATION_FAILED"
    (λ trigger, writeJSON StatusCreated (escalationTriggerToResponse trigger)))).

(** * decisions_handler.go *)

Definition with_phase_decisions_service (k : PhaseDecisionsService → proc Response) : proc Response :=
  match sv_phaseDecisions s with
  | None => Ret (writeError StatusServiceUnavailable "NOT_CONFIGURED"
                   (Literal "phase decisions service not wired"))
  | Some svc => k svc
  end.

(** The two error branches of the facade's handlers. *)
Definition decision_error (code : string) (err : error) : Response :=
  if errors_Is err ErrInvalidInput then writeError StatusBadRequest "INVALID_INPUT" (ErrorOf err)
  else writeError StatusInternalServerError code (ErrorOf err).

Definition decided {A} (p : proc (result A)) (code : string) (ok : A → Response) : proc Response :=
  r ← p; Ret (match r with Ok x => ok x | Err e => decision_error code e end).

Definition handleDecisionPhase (r : HttpRequest) : proc Response :=
  with_phase_decisions_service (λ svc,
  decoded decisionPhaseRequest_fields zero_decisionPhaseRequest r (λ req,
  decided (ps_EvaluatePhase svc
             {| piChangeID := dp_ChangeID req; piPhaseType := dp_PhaseType req;
                piTaskDescription := dp_TaskDescription req; piSensitive := dp_Sensitive req |})
    "DECISION_FAILED" (λ dec_, writeJSON StatusOK (toDecisionPayload dec_)))).

Definition handleDecisionSensitive (r : HttpRequest) : proc Response :=
  with_phase_decisions_service (λ svc,
  decoded decisionSensitiveRequest_fields zero_decisionSensitiveRequest r (λ req,
  decided (ps_EvaluateSensitive svc
             {| siChangeID := ds_ChangeID req; siCapability := ds_Capability req |})
    "DECISION_FAILED" (λ dec_, writeJSON StatusOK (toDecisionPayload dec_)))).

Definition handleApprovalStatus (r : HttpRequest) : proc Response :=
  with_phase_decisions_service (λ svc,
  decided (ps_ApprovalStatusFor svc (rq_Param r "change_id") (rq_Param r "phase_id"))
    "APPROVAL_LOOKUP_FAILED" (λ status, writeJSON StatusOK {| sp_Status := status |})).

(** * health_handler.go *)

Definition handleHealth (r : HttpRequest) : proc Response :=
  Ret (writeJSON StatusOK (AMap [("status", AString "ok")])).

(** The ping gives up after two seconds: its error is then the error of the context. *)
Definition handleReady (r : HttpRequest) : proc Response :=
  let answer status http db := {| rs_Status := http; rs_Body := ReadinessBody status db |} in
  if negb (sv_db s) then
    Ret (answer "degraded" StatusServiceUnavailable (Literal "not configured"))
  else
    p ← call Ping;
    Ret (match p with
         | Ok _ => answer "ready" StatusOK (Literal "ok")
         | Err e => answer "degraded" StatusServiceUnavailable (ErrorOf e)
         end).

(** * router.go: the routes *)

Record Route := { rt_Method : string; rt_Pattern : string; rt_Handler : handler }.

Definition Get_ (pattern : string) (h : handler) : Route :=
  {| rt_Method := "GET"; rt_Pattern := pattern; rt_Handler := h |}.
Definition Post_ (pattern : string) (h : handler) : Route :=
  {| rt_Method := "POST"; rt_Pattern := pattern; rt_Handler := h |}.
(** The routes of a sub-router, under its prefix. *)
Definition Route_ (prefix : string) (rs : list Route) : list Route :=
  (λ r, {| rt_Method := rt_Method r; rt_Pattern := prefix +:+ rt_Pattern r;
           rt_Handler := rt_Handler r |}) <$> rs.

Definition routes : list Route :=
  [Get_ "/health" handleHealth; Get_ "/ready" handleReady] ++
  Route_ "/api/v1" [
    Post_ "/tasks" handleSubmitTask;
    Get_ "/tasks/{taskID}" handleGetTask;
    Post_ "/tasks/{taskID}/route" handleRouteTask;
    Post_ "/tasks/{taskID}/evaluate-policy" handleEvaluatePolicy;
    Post_ "/tasks/{taskID}/start-workflow" handleStartWorkflow;
    Post_ "/tasks/{taskID}/process" handleProcessTask;
    Post_ "/tasks/{taskID}/escalate" handleTriggerEscalation;
    Get_ "/workflows" handleListWorkflows;
    Get_ "/workflows/{workflowID}" handleGetWorkflowStatus;
    Post_ "/workflows/{workflowID}/kill" handleKillWorkflow;
    Post_ "/workflows/{workflowID}/pause" handlePauseWorkflow;
    Post_ "/workflows/{workflowID}/resume" handleResumeWorkflow;
    Post_ "/workflows/{workflowID}/attempts" handleRegisterAttempt;
    Get_ "/approvals/pending" handleGetPendingApprovals;
    Post_ "/approvals/{approvalID}/resolve" handleResolveApproval;
    Get_ "/audit" handleQueryAuditTrail;
    Get_ "/breakers" handleListBreakers] ++
  Route_ "/governance/v1" [
    Post_ "/decisions/phase" handleDecisionPhase;
    Post_ "/decisions/sensitive" handleDecisionSensitive;
    Get_ "/approvals/{change_id}/{phase_id}/status" handleApprovalStatus].
End handlers.

(** github.com/go-chi/chi: which of the registered method and pattern pairs serves a request,
    with the URL parameters; [inl] is the status chi answers with itself. *)
Class Chi := {
  chi_match : list (string * string) → string → string → Z + nat * (string → string);
}.

(** A request as it arrives. *)
Record RawRequest := {
  rw_Method : string; rw_Path : string; rw_Query : string → string; rw_Body : option json;
}.

Definition ServeHTTP `{Zone, ULID, Chi} (s : Server) (r : RawRequest) : proc Response :=
  let no_route status := Ret {| rs_Status := status; rs_Body := JSONBody None |} in
  match chi_match ((λ rt, (rt_Method rt, rt_Pattern rt)) <$> routes s) (rw_Method r) (rw_Path r) with
  | inl status => no_route status
  | inr (i, params) =>
      match routes s !! i with
      | Some rt => rt_Handler rt {| rq_Param := params; rq_Query := rw_Query r; rq_Body := rw_Body r |}
      | None => no_route StatusNotFound
      end
  end.
