(* ===== verification/Wire.v ===== *)
(** internal/bootstrap/wire.go: the services behind the inbound ports, decorated when
    OpenTelemetry is enabled, and the HTTP server and the facade built on them. *)

From stdpp Require Import options.
From S2P Require Import Prelude GoLib Shared Task Workflow Policy Routing AuditLog Resilience.
From S2P Require Import Persistence Queries Ports AuditService Intake RouteTask PolicyEval.
From S2P Require Import WorkflowService ApprovalService EscalationService GovDecisions ProcessTask.
From S2P Require Import Inbound Decorators Handlers.

Section wire.
Context {Wi : Wiring}.

Definition governanceServiceAdapter : GovernanceService :=
  {| gs_SubmitTask := SubmitTask; gs_ProcessTask := ProcessTask; gs_RouteTask := RouteTask;
     gs_EvaluatePolicy := PolicyEval.EvaluatePolicy; gs_StartWorkflow := StartWorkflow |}.

Definition workflowSvc : WorkflowControl :=
  {| wc_KillWorkflow := KillWorkflow; wc_PauseWorkflow := PauseWorkflow;
     wc_ResumeWorkflow := ResumeWorkflow; wc_RegisterAttempt := RegisterAttempt |}.

Definition approvalSvc : ApprovalPort :=
  {| ap_ResolveApproval := ResolveApproval; ap_GetPendingApprovals := GetPendingApprovals |}.

Definition queryServiceAdapter : QueryService :=
  {| qs_GetTask id := call (TaskFindByID id);
     qs_GetWorkflowStatus := GetWorkflowStatus;
     qs_GetWorkflowByTask := GetWorkflowByTask;
     qs_QueryAuditTrail := QueryAuditTrail;
     qs_ListWorkflows := ListWorkflows;
     qs_ListBreakers filter :=
       if has_breakers then l ← call (BreakerList filter); Ret (Ok l) else Ret (Ok []);
     qs_GetBreakerState tool agentRole :=
       if has_breakers then b ← call (BreakerGet tool agentRole); Ret (Ok b) else Ret (Ok None) |}.

Definition escalationSvc : EscalationPort := {| es_TriggerEscalation := TriggerEscalation |}.

Definition phaseDecisionsSvc : PhaseDecisionsService :=
  {| ps_EvaluatePhase := EvaluatePhase; ps_EvaluateSensitive := EvaluateSensitive;
     ps_ApprovalStatusFor := ApprovalStatusFor |}.

(** [if cfg.OTelEnabled]: metrics inside, tracing outside. *)
Definition govSvc : GovernanceService :=
  if has_metrics then TracedGovernanceService (MetricsGovernanceService governanceServiceAdapter)
  else governanceServiceAdapter.
Definition wfCtrl : WorkflowControl :=
  if has_metrics then TracedWorkflowControl (MetricsWorkflowControl workflowSvc) else workflowSvc.
Definition approvalPort : ApprovalPort :=
  if has_metrics then TracedApprovalService approvalSvc else approvalSvc.
Definition escalationPort : EscalationPort :=
  if has_metrics then TracedEscalationPort escalationSvc else escalationSvc.
Definition queryPort : QueryService :=
  if has_metrics then TracedQueryService queryServiceAdapter else queryServiceAdapter.

(** [New]: the server and the facade share the ports. *)
Definition httpServer : Server :=
  WithPhaseDecisions (NewServerWithObs govSvc wfCtrl approvalPort queryPort escalationPort true)
    (Some phaseDecisionsSvc).

Definition facade : GovernanceFacade :=
  {| fc_governance := govSvc; fc_control := wfCtrl; fc_approvals := approvalPort;
     fc_queries := queryPort; fc_escalation := escalationPort |}.

(** The operational event recorded at start-up; its error is dropped. *)
Definition startup : proc (result unit) :=
  Record_ systemActor "circuit_breaker_registry_started" "empty"
    (Set_ NewAuditContext "component" (AString "circuit_breaker")) None None.
End wire.
