(* ===== verification/ObsLog.v ===== *)
(** internal/infrastructure/obs/log/handler.go: the slog handler that adds the trace of a
    request to every log line; what the program uses of Go's log/slog around it (loggers, the
    JSON handler, levels); and the lines the program logs while it serves a request. *)

From stdpp Require Import options.
From S2P Require Import Prelude GoLib Json Shared Ports GovDecisions Trace.

(** * log/slog *)

(** A level; a line of a lower level than the handler's is dropped. *)
Definition LevelDebug : Z := (-4)%Z.
Definition LevelInfo : Z := 0%Z.
Definition LevelWarn : Z := 4%Z.
Definition LevelError : Z := 8%Z.

(** [strings.ToUpper], as far as its result can be an ASCII letter: the two runes outside of
    ASCII with an ASCII upper case are the dotless i and the long s. *)
Fixpoint ToUpper (s : string) : string :=
  match s with
  | EmptyString => ""
  | String c r =>
      match byte_of c, r with
      | 196%N, String "177"%char r' => String "I"%char (ToUpper r')
      | 197%N, String "191"%char r' => String "S"%char (ToUpper r')
      | n, _ => String (if ((97 <=? n) && (n <=? 122))%N then of_byte (n - 32) else c) (ToUpper r)
      end
  end.

(** [strings.IndexAny(s, "+-")] splits the name of a level from its offset. *)
Fixpoint split_offset (s : string) : string * string :=
  match s with
  | EmptyString => ("", "")
  | String c r =>
      if decide (c = "+"%char ∨ c = "-"%char) then ("", s)
      else let '(name, offset) := split_offset r in (String c name, offset)
  end.

Definition level_of_name (name : string) : option Z :=
  let u := ToUpper name in
  if decide (u = "DEBUG") then Some LevelDebug else if decide (u = "INFO") then Some LevelInfo
  else if decide (u = "WARN") then Some LevelWarn else if decide (u = "ERROR") then Some LevelError
  else None.

(** [Level.UnmarshalText]: [None] is an error, which leaves the level as it was. *)
Definition parse_level (s : string) : option Z :=
  let '(name, offset) := split_offset s in
  offset ← (if decide (offset = "") then Some 0%Z else Atoi offset);
  base ← level_of_name name;
  Some (wrap64 (base + offset)).

(** An attribute, with its key; a record before it reaches a handler; a line that was written:
    its attributes have the groups they are in as a path before the key.  The time stamp of a line
    is not modelled. *)
Abbreviation Attr := (string * any)%type (only parsing).
Record LogRecord := { lrLevel : Z; lrMessage : string; lrAttrs : list Attr }.
Record Line := { lnLevel : Z; lnMessage : string; lnFields : list (list string * any) }.

(** [slog.Handler].  [Handle] gives the lines it writes; its error is dropped by the loggers. *)
Class LogHandler (H : Type) := {
  Enabled : H → Context → Z → bool;
  Handle : H → Context → LogRecord → list Line;
  WithAttrs : H → list Attr → H;
  WithGroup : H → string → H;
}.

(** [slog.NewJSONHandler(os.Stdout, &slog.HandlerOptions{Level: level})]. *)
Record JSONHandler := {
  jhLevel : Z; jhGroups : list string; jhPreformatted : list (list string * any);
}.
Definition NewJSONHandler (level : Z) : JSONHandler :=
  {| jhLevel := level; jhGroups := []; jhPreformatted := [] |}.

(** The zero attribute is ignored. *)
Definition attr_fields (groups : list string) (attrs : list Attr) : list (list string * any) :=
  omap (λ '(k, v), match v with
                   | ANil => if decide (k = "") then None else Some (groups ++ [k], v)
                   | _ => Some (groups ++ [k], v)
                   end) attrs.

#[export] Instance JSON_LogHandler : LogHandler JSONHandler := {|
  Enabled h _ level := (jhLevel h <=? level)%Z;
  Handle h _ r :=
    [{| lnLevel := lrLevel r; lnMessage := lrMessage r;
        lnFields := jhPreformatted h ++ attr_fields (jhGroups h) (lrAttrs r) |}];
  WithAttrs h attrs :=
    {| jhLevel := jhLevel h; jhGroups := jhGroups h;
       jhPreformatted := jhPreformatted h ++ attr_fields (jhGroups h) attrs |};
  WithGroup h name :=
    {| jhLevel := jhLevel h; jhGroups := jhGroups h ++ [name]; jhPreformatted := jhPreformatted h |};
|}.

(** * handler.go *)

Record TraceHandler (H : Type) := NewTraceHandler { thNext : H }.
Arguments NewTraceHandler {H} thNext.
Arguments thNext {H} _.

Definition AddAttrs (r : LogRecord) (attrs : list Attr) : LogRecord :=
  {| lrLevel := lrLevel r; lrMessage := lrMessage r; lrAttrs := lrAttrs r ++ attrs |}.

Section trace_handler.
Context {H : Type} `{LogHandler H}.

Definition Trace_Enabled (h : TraceHandler H) (ctx : Context) (level : Z) : bool :=
  Enabled (thNext h) ctx level.

Definition Trace_Handle (h : TraceHandler H) (ctx : Context) (r : LogRecord) : list Line :=
  match FromContext ctx with
  | Some t =>
      Handle (thNext h) ctx
        (AddAttrs r [("trace_id", AString (tcTraceID t)); ("span_id", AString (tcSpanID t))])
  | None => Handle (thNext h) ctx r
  end.

Definition Trace_WithAttrs (h : TraceHandler H) (attrs : list Attr) : TraceHandler H :=
  NewTraceHandler (WithAttrs (thNext h) attrs).

Definition Trace_WithGroup (h : TraceHandler H) (name : string) : TraceHandler H :=
  NewTraceHandler (WithGroup (thNext h) name).

#[export] Instance Trace_LogHandler : LogHandler (TraceHandler H) :=
  {| Enabled := Trace_Enabled; Handle := Trace_Handle;
     WithAttrs := Trace_WithAttrs; WithGroup := Trace_WithGroup |}.
End trace_handler.

(** * Loggers *)

(** [context.Background()], the context of the methods that take none. *)
Definition Background : Context := {| cxTrace := None |}.

(** [Logger.With] and [Logger.WithGroup]. *)
Inductive derivation := LogWith (attrs : list Attr) | LogWithGroup (name : string).

Section logger.
Context {H : Type} `{LogHandler H}.

Definition Log (h : H) (ctx : Context) (level : Z) (msg : string) (attrs : list Attr) : list Line :=
  if Enabled h ctx level then Handle h ctx {| lrLevel := level; lrMessage := msg; lrAttrs := attrs |}
  else [].

Definition derive (h : H) (d : derivation) : H :=
  match d with
  | LogWith attrs => if decide (attrs = [] :> list Attr) then h else WithAttrs h attrs
  | LogWithGroup name => if decide (name = "") then h else WithGroup h name
  end.

Definition derived (h : H) (ds : list derivation) : H := foldl derive h ds.
End logger.

(** main.go: the logger of the process. *)
Definition log_level (s : string) : Z := default LevelInfo (parse_level s).
Definition process_logger (s : string) : TraceHandler JSONHandler :=
  NewTraceHandler (NewJSONHandler (log_level s)).

(** * What is logged while a request is served *)

(** A call of a logger: with the context of the request ([WarnContext]) or without ([Warn]). *)
Record LogCall := { lcRequestContext : bool; lcLevel : Z; lcMessage : string; lcAttrs : list Attr }.

Definition emit {H} `{LogHandler H} (h : H) (ctx : Context) (c : LogCall) : list Line :=
  Log h (if lcRequestContext c then ctx else Background) (lcLevel c) (lcMessage c) (lcAttrs c).

(** stub_provider.go *)
Definition memory_log (taskID : TaskID) (query : string) : LogCall :=
  {| lcRequestContext := true; lcLevel := LevelWarn;
     lcMessage := "memory-engine unavailable, returning empty context";
     lcAttrs := [("task_id", AString taskID); ("query", AString query);
                 ("component", AString "memory_context_provider")] |}.

(** govdecisions/service.go: after the checks of the input. *)
Definition phase_log (in_ : PhaseDecisionInput) : option LogCall :=
  if decide (piChangeID in_ = "") then None else if decide (piPhaseType in_ = "") then None
  else if piSensitive in_ then
    Some {| lcRequestContext := false; lcLevel := LevelWarn;
            lcMessage := "phase decision flagged sensitive (M-E0 default-allow still applies)";
            lcAttrs := [("change_id", AString (piChangeID in_)); ("phase_type", AString (piPhaseType in_))] |}
  else None.

Definition sensitive_log (in_ : SensitiveDecisionInput) : option LogCall :=
  if decide (siChangeID in_ = "") then None else if decide (siCapability in_ = "") then None
  else Some {| lcRequestContext := false; lcLevel := LevelWarn;
               lcMessage := "sensitive capability evaluated (M-E0 default-allow)";
               lcAttrs := [("change_id", AString (siChangeID in_)); ("capability", AString (siCapability in_))] |}.

(** * Facts *)

Example level_examples :
  (parse_level "info", parse_level "Warn+2", parse_level "debug-1", parse_level "trace", parse_level "",
   log_level "error ", log_level "ERROR") = (Some 0, Some 6, Some (-5), None, None, 0, 8)%Z.
Proof. vm_compute. reflexivity. Qed.

(** The groups a derived logger is in. *)
Definition groups_of (ds : list derivation) : list string :=
  omap (λ d, match d with
             | LogWithGroup name => if decide (name = "") then None else Some name
             | LogWith _ => None
             end) ds.

Lemma derived_json h ds :
  jhLevel (derived h ds) = jhLevel h ∧ jhGroups (derived h ds) = jhGroups h ++ groups_of ds.
Proof.
  revert h. induction ds as [|d ds IH]; intros h; simpl; [by rewrite app_nil_r|].
  destruct (IH (derive h d)) as [-> ->]. destruct d as [attrs|name]; simpl; case_decide; simpl; try done.
  by rewrite <- app_assoc.
Qed.

Lemma derived_trace `{LogHandler H} (h : H) ds :
  derived (NewTraceHandler h) ds = NewTraceHandler (derived h ds).
Proof.
  revert h. induction ds as [|d ds IH]; intros h; simpl; [done|]. rewrite <- IH. f_equal.
  destruct d; simpl; by case_decide.
Qed.

(** Fields added at the end of a line. *)
Definition extended (fields : list (list string * any)) (l : Line) : Line :=
  {| lnLevel := lnLevel l; lnMessage := lnMessage l; lnFields := lnFields l ++ fields |}.

(** The fields of a trace, in the innermost group. *)
Definition trace_fields (groups : list string) (t : Trace) : list (list string * any) :=
  [(groups ++ ["trace_id"], AString (tcTraceID t)); (groups ++ ["span_id"], AString (tcSpanID t))].

Lemma attr_fields_app groups a b : attr_fields groups (a ++ b) = attr_fields groups a ++ attr_fields groups b.
Proof. apply omap_app. Qed.

Lemma emit_trace (h : JSONHandler) ctx c :
  emit (NewTraceHandler h) ctx c =
  extended (match FromContext (if lcRequestContext c then ctx else Background) with
            | Some t => trace_fields (jhGroups h) t
            | None => []
            end) <$> emit h ctx c.
Proof.
  unfold emit, Log. cbn -[attr_fields]. unfold Trace_Enabled, Trace_Handle. cbn -[attr_fields].
  destruct (_ <=? _)%Z; [|done]. unfold extended.
  destruct (FromContext _) as [t|]; cbn -[attr_fields]; by rewrite ?attr_fields_app, ?app_assoc, ?app_nil_r.
Qed.

Lemma TraceW3C_header r rand ctx hd rand' :
  TraceW3C r rand = ((ctx, Some hd), rand') →
  ∃ t, ctx = NewContext (rqContext r) t ∧ hd = Trace_String t ∧
       (∀ t', Parse (rqTraceparent r) = Ok t' → t = t').
Proof.
  unfold TraceW3C. destruct (traceFromRequest r rand) as [[t|e] rand1] eqn:E.
  - intros [= <- <- _]. exists t. split_and!; try done. intros t' P. unfold traceFromRequest in E.
    rewrite decide_True in E; [congruence|]. intros N. by rewrite N in P.
  - destruct (New rand1) as [[t|e'] rand2]; [|done]. intros [= <- <- _]. exists t. split_and!; try done.
    intros t' P. unfold traceFromRequest in E. rewrite decide_True in E; [congruence|].
    intros N. by rewrite N in P.
Qed.

(** * Theorems *)

(** C15: Log lines correlate with requests.  Take any logger derived from that of the process, with
    whatever attributes and groups, and a request for which the middleware answers the header
    [hd].  A line logged with the context of the request is the line the JSON handler alone would
    write, followed by the identifiers of the trace that [hd] prints, which is that of the
    request when its header was acceptable; a line logged without the context is exactly the line of
    the JSON handler; a line is written exactly from the configured level on. *)
Theorem log_lines_correlate level ds r rand ctx hd rand' c :
  TraceW3C r rand = ((ctx, Some hd), rand') →
  let plain := emit (derived (NewJSONHandler (log_level level)) ds) ctx c in
  ∃ t, hd = Trace_String t ∧ (∀ t', Parse (rqTraceparent r) = Ok t' → t = t') ∧
       emit (derived (process_logger level) ds) ctx c =
         (if lcRequestContext c then extended (trace_fields (groups_of ds) t) <$> plain else plain) ∧
       length plain = (if (log_level level <=? lcLevel c)%Z then 1 else 0).
Proof.
  intros (t & -> & -> & P)%TraceW3C_header plain. exists t. split_and!; try done.
  - unfold process_logger. rewrite derived_trace, emit_trace. destruct (derived_json (NewJSONHandler (log_level level)) ds) as [_ ->].
    destruct (lcRequestContext c); [done|]. subst plain. simpl. rewrite <- (list_fmap_id (emit _ _ _)) at 2.
    apply list_fmap_ext. intros _ [] _. unfold extended; simpl. by rewrite app_nil_r.
  - subst plain. unfold emit, Log. cbn [Enabled JSON_LogHandler].
    destruct (derived_json (NewJSONHandler (log_level level)) ds) as [-> _]. simpl. by destruct (_ <=? _)%Z.
Qed.

(** The warnings of the decisions facade are logged without the context of their request: no
    line of theirs can be matched with it. *)
Theorem decisions_logged_without_trace `{LogHandler H} (h : H) in_ in' ctx c :
  phase_log in_ = Some c ∨ sensitive_log in' = Some c → emit h ctx c = emit h Background c.
Proof.
  unfold phase_log, sensitive_log. intros E.
  assert (lcRequestContext c = false) as N by (destruct E as [E|E]; repeat case_match; by simplify_eq).
  unfold emit. by rewrite N.
Qed.

(** * Witnesses *)

Lemma log_lines_correlate_witness :
  let r := demo_request "00-4bf92f3577b34da6a3ce929d0e0e4736-00f067aa0ba902b7-01" in
  let ctx := (TraceW3C r []).1.1 in
  ∃ t, Parse (rqTraceparent r) = Ok t ∧
    emit (derived (process_logger "warn") [LogWithGroup "memory"]) ctx (memory_log "T1" "payments") =
    [{| lnLevel := 4; lnMessage := "memory-engine unavailable, returning empty context";
        lnFields := [(["memory"; "task_id"], AString "T1"); (["memory"; "query"], AString "payments");
                     (["memory"; "component"], AString "memory_context_provider");
                     (["memory"; "trace_id"], AString "4bf92f3577b34da6a3ce929d0e0e4736");
                     (["memory"; "span_id"], AString "00f067aa0ba902b7")] |}].
Proof.
  intros r ctx.
  destruct (log_lines_correlate "warn" [LogWithGroup "memory"] r [] ctx
              "00-4bf92f3577b34da6a3ce929d0e0e4736-00f067aa0ba902b7-01" [] (memory_log "T1" "payments")
              ltac:(vm_compute; reflexivity)) as (t & Ht & P & E & _).
  exists t. destruct (Parse (rqTraceparent r)) as [t'|] eqn:Ep; [|vm_compute in Ep; discriminate].
  rewrite (P t' eq_refl). split; [done|]. rewrite E. rewrite (P t' eq_refl). vm_compute in Ep.
  injection Ep as <-. vm_compute. reflexivity.
Defined.

Lemma decisions_logged_without_trace_witness :
  let in_ := {| siChangeID := "C1"; siCapability := "deploy" |} in
  ∀ c, sensitive_log in_ = Some c → emit (process_logger "info") {| cxTrace := None |} c = emit (process_logger "info") Background c.
Proof.
  intros in_ c Hc. apply (decisions_logged_without_trace (process_logger "info")
    {| piChangeID := ""; piPhaseType := ""; piTaskDescription := ""; piSensitive := false |} in_). by right.
Defined.
