(* ===== verification/Bootstrap.v ===== *)
(** The start and the end of the process: cmd/agent-governance-core/main.go, the order of
    construction in internal/bootstrap/wire.go, internal/infrastructure/observability/otel.go,
    internal/adapters/inbound/metrics/instruments.go and NewPool of
    internal/infrastructure/database/postgres.go.

    A function of these files is a tree of calls of the libraries ([lib_call]), each continued by
    the error it answers; the process is the main thread with the goroutines it started, which
    take turns in any order ([step]). *)

From stdpp Require Import options.
From S2P Require Import Prelude GoLib Strconv Shared AuditLog Ports Inbound Decorators Config Handlers Wire ObsLog.

(** * Calls of the libraries *)

(** An OpenTelemetry instrument is known by what it was created with. *)
Inductive InstrumentKind := Int64Counter | Float64Histogram.
Record InstrumentDef := {
  idKind : InstrumentKind; idName : string; idDescription : string; idUnit : string;
}.

Inductive Sampler :=
  | AlwaysSample
  | NeverSample
  | TraceIDRatioBased (fraction : float64)
  | ParentBased (root : Sampler).

(** What is started with [go]. *)
Inductive goroutine :=
  | Collector                            (* collector.Start *)
  | Serve (port : Z) (handler : Server). (* the function literal of main.run *)

Inductive lib_call :=
  | SetDefaultLogger (level : Z)
  | LogLine (level : Z) (msg : string) (attrs : list (string * any)) (err : option error)
  | PoolNew (dsn : string) | PoolPing | PoolClose
  | ResourceNew (serviceName : string)
  | TraceExporterNew
  | SetTracerProvider (sampler : option Sampler)
  | SetTextMapPropagator
  | MetricExporterNew
  | SetMeterProvider
  | InstrumentNew (d : InstrumentDef)
  | Go (g : goroutine)
  | Audit (p : proc (result unit))       (* calls of the outbound ports, here of the recorder *)
  | SignalNotify
  | SignalReceive
  | ListenAndServe (addr : string) (handler : Server)
  | ServerShutdown
  | TracerShutdown | MeterShutdown
  | Stderr (e : error)
  | Exit (code : Z).

(** * Functions of the program *)

Inductive boot (A : Type) : Type :=
  | Done (a : A)
  | Lib (c : lib_call) (k : option error → boot A).
Arguments Done {A} a.
Arguments Lib {A} c k.

#[export] Instance boot_ret : MRet boot := @Done.
#[export] Instance boot_bind : MBind boot := λ A B f,
  fix go (p : boot A) : boot B := match p with Done a => f a | Lib c k => Lib c (λ r, go (k r)) end.

(** A call whose error, if it has one, is dropped. *)
Definition lib (c : lib_call) : boot unit := Lib c (λ _, Done tt).

(** [x, err := p; if err != nil { return ..., err }] *)
Definition boot_try {A B} (p : boot (result A)) (f : A → boot (result B)) : boot (result B) :=
  r ← p; match r with Ok a => f a | Err e => Done (Err e) end.

Declare Scope boot_scope.
Delimit Scope boot_scope with boot.
Notation "x '⇠' p ; k" := (boot_try p (λ x, k))
  (at level 20, p at level 100, k at level 200, right associativity) : boot_scope.
#[local] Open Scope boot_scope.

(** A call that answers a value or an error. *)
Definition make {A} (c : lib_call) (a : A) : boot (result A) :=
  Lib c (λ r, Done match r with Some e => Err e | None => Ok a end).

(** [fmt.Errorf("...: %w", err)] on the error of [p]. *)
Definition wrapping {A} (fmt : string) (p : boot (result A)) : boot (result A) :=
  r ← p; Done match r with Ok a => Ok a | Err e => Err (Wrapf fmt [] e) end.

(** [defer cleanup()] before [p]; no call of the sources panics here. *)
Definition deferring {A} (cleanup : boot unit) (p : boot A) : boot A :=
  a ← p; _ ← cleanup; Done a.

(** ** postgres.go *)

Definition NewPool (cfg : DBConfig) : boot (result unit) :=
  _ ⇠ wrapping "creating pg pool: %w" (make (PoolNew (DSN cfg)) tt);
  Lib PoolPing (λ r, match r with
                     | Some err => _ ← lib PoolClose; Done (Err (Wrapf "pinging pg: %w" [] err))
                     | None => Done (Ok tt)
                     end).

(** ** instruments.go *)

Record Instruments := {
  inTasksSubmitted : InstrumentDef; inTasksCompleted : InstrumentDef;
  inRoutingDuration : InstrumentDef; inPolicyDuration : InstrumentDef;
  inPolicyOutcomes : InstrumentDef; inWorkflowDuration : InstrumentDef;
  inWorkflowTransitions : InstrumentDef; inApprovalWait : InstrumentDef;
  inExecutionAttempts : InstrumentDef; inExecutionFailures : InstrumentDef;
  inMemoryDuration : InstrumentDef; inMemoryDegraded : InstrumentDef;
  inCircuitBreakerTransitions : InstrumentDef; inCircuitBreakerTrips : InstrumentDef;
}.

Definition counter (name description : string) : boot (result InstrumentDef) :=
  let d := {| idKind := Int64Counter; idName := name; idDescription := description; idUnit := "" |} in
  make (InstrumentNew d) d.
Definition histogram (name description unit : string) : boot (result InstrumentDef) :=
  let d := {| idKind := Float64Histogram; idName := name; idDescription := description; idUnit := unit |} in
  make (InstrumentNew d) d.

Definition NewInstruments : boot (result Instruments) :=
  tasksSubmitted ⇠ counter "governance.tasks.submitted" "Number of tasks submitted to the governance pipeline";
  tasksCompleted ⇠ counter "governance.tasks.completed" "Number of tasks that completed processing";
  routingDuration ⇠ histogram "governance.routing.duration_ms" "Time spent evaluating routing strategies" "ms";
  policyDuration ⇠ histogram "governance.policy.duration_ms" "Time spent evaluating policy rules" "ms";
  policyOutcomes ⇠ counter "governance.policy.outcomes" "Count of policy evaluation outcomes by type";
  workflowDuration ⇠ histogram "governance.workflow.duration_ms" "Total workflow execution duration" "ms";
  workflowTransitions ⇠ counter "governance.workflow.transitions" "Count of workflow state transitions";
  approvalWait ⇠ histogram "governance.approval.wait_ms" "Time spent waiting for approval" "ms";
  executionAttempts ⇠ histogram "governance.execution.attempts" "Distribution of execution attempt counts" "";
  executionFailures ⇠ counter "governance.execution.failures" "Count of execution failures";
  memoryDuration ⇠ histogram "governance.memory.duration_ms" "Time spent on memory context operations" "ms";
  memoryDegraded ⇠ counter "governance.memory.degraded" "Count of degraded memory context events";
  cbTransitions ⇠ counter "governance.circuit_breaker.transitions" "Number of circuit breaker state transitions";
  cbTrips ⇠ counter "governance.circuit_breaker.trips" "Number of CLOSED→OPEN transitions by trip reason";
  Done (Ok {| inTasksSubmitted := tasksSubmitted; inTasksCompleted := tasksCompleted;
              inRoutingDuration := routingDuration; inPolicyDuration := policyDuration;
              inPolicyOutcomes := policyOutcomes; inWorkflowDuration := workflowDuration;
              inWorkflowTransitions := workflowTransitions; inApprovalWait := approvalWait;
              inExecutionAttempts := executionAttempts; inExecutionFailures := executionFailures;
              inMemoryDuration := memoryDuration; inMemoryDegraded := memoryDegraded;
              inCircuitBreakerTransitions := cbTransitions; inCircuitBreakerTrips := cbTrips |}).

(** The instrument behind each handle the services and decorators measure with: a field of
    [Instruments], of the two [LifecycleMetrics] or of [MetricsListenerDeps]. *)
Definition instrument_of (inst : Instruments) (handle : string) : option InstrumentDef :=
  snd <$> find (λ '(h, _), bool_decide (h = handle))
    [("TasksSubmitted", inTasksSubmitted inst); ("TasksCompleted", inTasksCompleted inst);
     ("RoutingDuration", inRoutingDuration inst); ("PolicyDuration", inPolicyDuration inst);
     ("PolicyOutcomes", inPolicyOutcomes inst); ("WorkflowDuration", inWorkflowDuration inst);
     ("WorkflowTransitions", inWorkflowTransitions inst); ("ApprovalWait", inApprovalWait inst);
     ("ExecutionAttempts", inExecutionAttempts inst); ("ExecutionFailures", inExecutionFailures inst);
     ("Transitions", inCircuitBreakerTransitions inst); ("Trips", inCircuitBreakerTrips inst)].

Section process.
(** [os.Getenv]: empty for a variable that is not set. *)
Variable Getenv : string → string.

(** ** otel.go *)

Definition ratioArg : float64 :=
  match ParseFloat (Getenv "OTEL_TRACES_SAMPLER_ARG") with Some v => v | None => float_of_int 1 end.

(** [None] is a nil sampler: the default of the library is kept. *)
Definition samplerFromEnv : option Sampler :=
  let name := Getenv "OTEL_TRACES_SAMPLER" in
  if decide (name = "") then None
  else if decide (name = "always_on") then Some AlwaysSample
  else if decide (name = "always_off") then Some NeverSample
  else if decide (name = "traceidratio") then Some (TraceIDRatioBased ratioArg)
  else if decide (name = "parentbased_always_on") then Some (ParentBased AlwaysSample)
  else if decide (name = "parentbased_always_off") then Some (ParentBased NeverSample)
  else if decide (name = "parentbased_traceidratio") then Some (ParentBased (TraceIDRatioBased ratioArg))
  else None.

(** The shutdown function it returns joins two errors, which its only caller drops. *)
Definition SetupOTel (enabled : bool) (serviceName : string) : boot (result (boot unit)) :=
  if negb enabled then Done (Ok (Done tt)) else
  _ ⇠ make (ResourceNew serviceName) tt;
  _ ⇠ make TraceExporterNew tt;
  _ ← lib (SetTracerProvider samplerFromEnv);
  _ ← lib SetTextMapPropagator;
  _ ⇠ make MetricExporterNew tt;
  _ ← lib SetMeterProvider;
  Done (Ok (_ ← lib TracerShutdown; lib MeterShutdown)).

(** ** wire.go *)

Record App := {
  appHTTPServer : Server; appFacade : GovernanceFacade; appNotifier : CallbackNotifier;
  appOTelShutdown : boot unit;
}.

Definition Wire (cfg : Config) : boot (result App) :=
  otelShutdown ⇠ wrapping "otel setup: %w" (SetupOTel (cfOTelEnabled cfg) "agent-governance-core");
  _ ⇠ (if cfOTelEnabled cfg then
         inst ⇠ wrapping "otel instruments: %w" NewInstruments; Done (Ok (Some inst))
       else Done (Ok None));
  _ ← (if cfAdaptiveRoutingEnabled cfg then lib (Go Collector) else Done tt);
  _ ← lib (LogLine LevelInfo "circuit breaker registry started (empty state, all breakers begin CLOSED)" [] None);
  _ ← lib (Audit startup);
  Done (Ok {| appHTTPServer := @httpServer (wiring_of cfg); appFacade := @facade (wiring_of cfg);
              appNotifier := NewCallbackNotifier; appOTelShutdown := otelShutdown |}).

(** ** main.go *)

Definition http_ErrServerClosed : error := Sentinel "http.ErrServerClosed" "http: Server closed".

(** What a goroutine does; the refreshes of the collector are steps of [System], its loop never
    ends, as its context is never cancelled. *)
Definition body (g : goroutine) : boot unit :=
  match g with
  | Collector => Done tt
  | Serve port handler =>
      _ ← lib (LogLine LevelInfo "server starting" [("port", AInt port)] None);
      Lib (ListenAndServe (":" +:+ pretty port) handler) (λ r,
        match r with
        | Some err =>
            if decide (err = http_ErrServerClosed) then Done tt
            else lib (LogLine LevelError "server error" [] (Some err))
        | None => Done tt
        end)
  end.

Definition run : boot (result unit) :=
  let cfg := Load Getenv in
  _ ← lib (SetDefaultLogger (log_level (cfLogLevel cfg)));
  _ ⇠ wrapping "database: %w" (NewPool (cfDB cfg));
  deferring (lib PoolClose) (
    app ⇠ wrapping "wiring: %w" (Wire cfg);
    deferring (appOTelShutdown app) (
      _ ← lib SignalNotify;
      _ ← lib (Go (Serve (cfServerPort cfg) (appHTTPServer app)));
      _ ← lib SignalReceive;
      _ ← lib (LogLine LevelInfo "shutting down" [] None);
      make ServerShutdown tt)).

(** A return of [main] ends the process with status 0. *)
Definition main : boot unit :=
  r ← run;
  match r with
  | Err err => _ ← lib (Stderr err); lib (Exit 1)
  | Ok _ => Done tt
  end.

(** * The process *)

(** The calls that can answer an error.  After [Exit] nothing is left of main. *)
Definition fallible (c : lib_call) : bool :=
  match c with
  | PoolNew _ | PoolPing | ResourceNew _ | TraceExporterNew | MetricExporterNew | InstrumentNew _
  | Audit _ | ListenAndServe _ _ | ServerShutdown | TracerShutdown | MeterShutdown => true
  | _ => false
  end.
Definition may_answer (c : lib_call) (r : option error) : Prop := r = None ∨ fallible c = true.

Definition event : Type := lib_call * option error.

(** [pcEvents]: the calls that returned, with the thread that made them (0 is main). *)
Record Process := {
  pcMain : boot unit; pcGoroutines : list (boot unit); pcEvents : list (nat * event);
}.

Definition spawned (c : lib_call) : list (boot unit) := match c with Go g => [body g] | _ => [] end.

(** The process is over when main returns. *)
Definition running (p : Process) : Prop := match pcMain p with Done _ => False | Lib _ _ => True end.

Inductive step : Process → Process → Prop :=
  | step_main c k r gs h :
      may_answer c r →
      step {| pcMain := Lib c k; pcGoroutines := gs; pcEvents := h |}
           {| pcMain := k r; pcGoroutines := gs ++ spawned c; pcEvents := h ++ [(0, (c, r))] |}
  | step_goroutine i c k r p :
      running p → pcGoroutines p !! i = Some (Lib c k) → may_answer c r →
      step p {| pcMain := pcMain p; pcGoroutines := <[i := k r]> (pcGoroutines p) ++ spawned c;
                pcEvents := pcEvents p ++ [(S i, (c, r))] |}.

Definition process_start : Process := {| pcMain := main; pcGoroutines := []; pcEvents := [] |}.
Definition reached (p : Process) : Prop := rtc step process_start p.
End process.
