(* ===== verification/ProgramLogic.v ===== *)
(** A logic for services under interference: what the other services may do to the world
    ([ext]), what every call keeps ([inv]), and the judgement [safe] that a service keeps
    the invariant whatever runs between its calls and whatever fault hits them. *)

From stdpp Require Import options.
From S2P Require Import Prelude GoLib Shared Task Workflow Execution Approval Escalation Policy.
From S2P Require Import Routing AuditLog Resilience Persistence Ports WorkflowService.

Section logic.
Context {PG : Postgres}.

(** * Evidence in the database *)

Definition policy_row (W : World) (taskID : string) (outcomes : list PolicyOutcome) : Prop :=
  ∃ id r, w_policy W !! id = Some r ∧ pd_task_id r = taskID ∧
          pdOutcome (scanPolicyDecision r) ∈ outcomes.

Definition resolved_row (r : ApprovalRow) : Prop :=
  Approval.IsTerminal (of_string (ar_status r)) = true.

Definition approval_resolved (W : World) (wfid : string) : Prop :=
  ∃ id r, w_approvals W !! id = Some r ∧ ar_workflow_run_id r = wfid ∧ resolved_row r.

Definition routed (W : World) (taskID : string) : Prop :=
  ∃ id r, w_routing W !! id = Some r ∧ rd_task_id r = taskID.

Definition any_outcome : list PolicyOutcome :=
  [OutcomeAllow; OutcomeAllowWithConstraints; OutcomeRequireApproval; OutcomeDeny].
Definition allowing_outcomes : list PolicyOutcome := [OutcomeAllow; OutcomeAllowWithConstraints].

(** The policy decision allows execution, or an approval request was resolved. *)
Definition may_run (W : World) (wfid taskID : string) : Prop :=
  policy_row W taskID allowing_outcomes ∨ approval_resolved W wfid.

(** What the database must hold for a transition of run [wfid] to have been taken. *)
Definition justified (W : World) (wfid taskID : string) (t : WorkflowTransition) : Prop :=
  match trFrom t, trTo t with
  | _, Workflow.StatusRouted => routed W taskID
  | _, StatusPolicyChecked => policy_row W taskID any_outcome
  | _, StatusAwaitingApproval => policy_row W taskID [OutcomeRequireApproval]
  | StatusPolicyChecked, StatusRunning => may_run W wfid taskID
  | _, Workflow.StatusApproved => approval_resolved W wfid
  | _, _ => True
  end.

(** The run exists and may execute. *)
Definition authorized (W : World) (wfid : string) : Prop :=
  ∃ r, w_workflows W !! wfid = Some r ∧ may_run W wfid (wf_task_id r).

(** * Values read from the database *)

Record run_fine (W : World) (w : WorkflowRun) : Prop := {
  rf_status : known (wfStatus w) = true;
  rf_storable : forallb transition_storable (wfTransitions w) = true;
  rf_index : wfCurrentStepIndex w = 0%Z;
  rf_chain : valid_chain Workflow.StatusCreated (wfTransitions w) (wfStatus w);
  rf_justified : Forall (justified W (wfID w) (wfTaskID w)) (wfTransitions w);
  rf_routing : has_opt (w_routing W) (wfRoutingDecisionID w) = true;
  rf_policy : has_opt (w_policy W) (wfPolicyDecisionID w) = true;
}.

Definition lease_fine (l : ExecutionLease) : Prop :=
  lease_inv l ∧ rbMaxAttempts (elRetryBudget l) = defaultMaxRetries ∧
  elTimeoutBudget l = defaultTimeout ∧ elTimeElapsed l = 0%Z.

(** * Interference *)

Record ext (W W' : World) : Prop := {
  ext_tasks : w_tasks W ⊆ w_tasks W';
  ext_routing : w_routing W ⊆ w_routing W';
  ext_policy : w_policy W ⊆ w_policy W';
  ext_workflows : ∀ id r, w_workflows W !! id = Some r →
    ∃ r', w_workflows W' !! id = Some r' ∧ wf_task_id r' = wf_task_id r;
  ext_leases : ∀ id r, w_leases W !! id = Some r →
    ∃ r', w_leases W' !! id = Some r' ∧ lease_workflow_run_id r' = lease_workflow_run_id r;
  ext_approvals : ∀ id r, w_approvals W !! id = Some r →
    ∃ r', w_approvals W' !! id = Some r' ∧ ar_workflow_run_id r' = ar_workflow_run_id r ∧
          (resolved_row r → resolved_row r');
  ext_escalations : w_escalations W ⊆ w_escalations W';
  ext_audit : w_audit W `prefix_of` w_audit W';
  ext_phase : w_phase_decisions W ⊆ w_phase_decisions W';
}.

#[export] Instance ext_preorder : PreOrder ext.
Proof.
  split.
  - intros W. split; naive_solver.
  - intros W1 W2 W3 [] [].
    split; try (etrans; eassumption).
    + intros id r H. edestruct ext_workflows0 as (r1 & H1 & E1); [done|].
      edestruct ext_workflows1 as (r2 & H2 & E2); [done|]. exists r2. split; [done|congruence].
    + intros id r H. edestruct ext_leases0 as (r1 & H1 & E1); [done|].
      edestruct ext_leases1 as (r2 & H2 & E2); [done|]. exists r2. split; [done|congruence].
    + intros id r H. edestruct ext_approvals0 as (r1 & H1 & E1 & T1); [done|].
      edestruct ext_approvals1 as (r2 & H2 & E2 & T2); [done|]. exists r2.
      split; [done|]. split; [congruence|auto].
Qed.

Lemma policy_row_ext W W' t os : ext W W' → policy_row W t os → policy_row W' t os.
Proof. intros X (id & r & H & ?). exists id, r. split; [|done]. by eapply lookup_weaken, ext_policy. Qed.

Lemma routed_ext W W' t : ext W W' → routed W t → routed W' t.
Proof. intros X (id & r & H & ?). exists id, r. split; [|done]. by eapply lookup_weaken, ext_routing. Qed.

Lemma approval_resolved_ext W W' w : ext W W' → approval_resolved W w → approval_resolved W' w.
Proof.
  intros X (id & r & H & E & T). destruct (ext_approvals _ _ X _ _ H) as (r' & H' & E' & T').
  exists id, r'. split; [done|]. split; [congruence|auto].
Qed.

Lemma may_run_ext W W' w tk : ext W W' → may_run W w tk → may_run W' w tk.
Proof. intros X []; [left|right]; eauto using policy_row_ext, approval_resolved_ext. Qed.

Lemma justified_ext W W' w tk t : ext W W' → justified W w tk t → justified W' w tk t.
Proof.
  intros X. unfold justified.
  destruct (trFrom t), (trTo t); eauto using policy_row_ext, routed_ext, approval_resolved_ext, may_run_ext.
Qed.

Lemma authorized_ext W W' w : ext W W' → authorized W w → authorized W' w.
Proof.
  intros X (r & H & Ha). destruct (ext_workflows _ _ X _ _ H) as (r' & H' & E). exists r'.
  split; [done|]. rewrite E. by eapply may_run_ext.
Qed.

Lemma has_ext {K R} `{Countable K} (m m' : gmap K R) i : m ⊆ m' → has m i = true → has m' i = true.
Proof.
  unfold has. intros S H0%bool_decide_eq_true. apply bool_decide_eq_true. destruct H0 as [x Hx].
  exists x. by eapply lookup_weaken.
Qed.

Lemma has_opt_ext {R} (m m' : gmap string R) i : m ⊆ m' → has_opt m i = true → has_opt m' i = true.
Proof. destruct i; [apply has_ext|done]. Qed.

Lemma run_fine_ext W W' w : ext W W' → run_fine W w → run_fine W' w.
Proof.
  intros X []. split; try done.
  - eapply Forall_impl; [eassumption|]. intros t. by apply justified_ext.
  - by eapply has_opt_ext; [apply ext_routing|].
  - by eapply has_opt_ext; [apply ext_policy|].
Qed.

(** * The invariant *)

Definition wf_row_ok (W : World) (id : string) (r : WorkflowRow) : Prop :=
  has (w_tasks W) (wf_task_id r) = true ∧
  ∃ w, scanWorkflowRun r = Ok w ∧ wfID w = id ∧ wfTaskID w = wf_task_id r ∧ run_fine W w.

Definition lease_row_ok (W : World) (id : string) (r : LeaseRow) : Prop :=
  lease_id r = id ∧ lease_fine (scanExecutionLease r) ∧ authorized W (lease_workflow_run_id r).

Definition approval_row_ok (W : World) (id : string) (r : ApprovalRow) : Prop :=
  ar_id r = id ∧ approval_inv (scanApprovalRequest r).

Definition policy_row_ok (W : World) (r : PolicyRow) : Prop :=
  is_outcome (pdOutcome (scanPolicyDecision r)) = true ∧ has (w_tasks W) (pd_task_id r) = true.

Definition audit_row_ok (r : AuditRow) : Prop :=
  TrimSpace (ae_action r) ≠ "" ∧ TrimSpace (ae_outcome r) ≠ "".

Definition leases_unique (W : World) : Prop := ∀ i j r s,
  w_leases W !! i = Some r → w_leases W !! j = Some s →
  lease_workflow_run_id r = lease_workflow_run_id s → i = j.

Record inv (W : World) : Prop := {
  inv_workflows : map_Forall (wf_row_ok W) (w_workflows W);
  inv_leases : map_Forall (lease_row_ok W) (w_leases W);
  inv_unique : leases_unique W;
  inv_approvals : map_Forall (approval_row_ok W) (w_approvals W);
  inv_policy : map_Forall (λ _, policy_row_ok W) (w_policy W);
  inv_routing : map_Forall (λ _ r, has (w_tasks W) (rd_task_id r) = true) (w_routing W);
  inv_audit : Forall audit_row_ok (w_audit W);
}.

Lemma wf_row_ok_ext W W' id r : ext W W' → wf_row_ok W id r → wf_row_ok W' id r.
Proof.
  intros X (Ht & w & Hs & Hi & Htk & Hf). split; [by eapply has_ext; [apply ext_tasks|]|].
  exists w. split_and!; try done. by eapply run_fine_ext.
Qed.

Lemma lease_row_ok_ext W W' id r : ext W W' → lease_row_ok W id r → lease_row_ok W' id r.
Proof. intros X (?&?&?). split_and!; try done. by eapply authorized_ext. Qed.

(** * The judgement *)

(** The clock is never the zero instant. *)
Definition good (c : choice) : Prop := ch_now c ≠ 0%Z.

Fixpoint safe {A} (p : proc A) (Q : World → A → Prop) (W : World) : Prop :=
  ∀ W1, ext W W1 → inv W1 →
  match p with
  | Ret a => Q W1 a
  | Panic => False
  | Call q k => ∀ c, good c →
      ext W1 (exec c q W1).2 ∧ inv (exec c q W1).2 ∧ safe (k (exec c q W1).1) Q (exec c q W1).2
  end.

(** What one call guarantees. *)
Definition call_ok {X} (q : port X) (R : World → X → Prop) (W : World) : Prop :=
  ∀ W1 c, ext W W1 → inv W1 → good c →
    ext W1 (exec c q W1).2 ∧ inv (exec c q W1).2 ∧ R (exec c q W1).2 (exec c q W1).1.

Lemma safe_ext {A} (p : proc A) Q W W' : ext W W' → safe p Q W → safe p Q W'.
Proof. intros X. destruct p; simpl; intros H W1 X1; apply H; by etrans. Qed.

Lemma safe_mono {A} (p : proc A) (Q Q' : World → A → Prop) W :
  (∀ W' a, Q W' a → Q' W' a) → safe p Q W → safe p Q' W.
Proof.
  intros HQ. revert W. induction p as [a|X q k IH|]; intros W H W1 X1 I1; simpl in *; [eauto| |eauto].
  intros c G. destruct (H W1 X1 I1 c G) as (?&?&?). split_and!; auto.
Qed.

Lemma safe_ret {A} (a : A) (Q : World → A → Prop) W :
  (∀ W', ext W W' → inv W' → Q W' a) → safe (Ret a) Q W.
Proof. done. Qed.

Lemma safe_bind {A B} (p : proc A) (f : A → proc B) R Q W :
  safe p R W → (∀ W' a, ext W W' → inv W' → R W' a → safe (f a) Q W') → safe (p ≫= f) Q W.
Proof.
  revert W. induction p as [a|X q k IH|]; intros W Hp Hf.
  - assert (H : ∀ W1, ext W W1 → inv W1 → safe (f a) Q W1) by (intros; apply Hf; eauto).
    change (safe (f a) Q W). destruct (f a); simpl in *; intros W1 X1 I1.
    all: by apply (H W1 X1 I1 W1).
  - intros W1 X1 I1 c G. destruct (Hp W1 X1 I1 c G) as (E & I & S). split_and!; [done..|].
    apply IH; [done|]. intros W' a X' I' HR. apply Hf; [|done..]. by do 2 (etrans; [eassumption|]).
  - intros W1 X1 I1. by apply (Hp W1).
Qed.


(** A postcondition that interference cannot undo. *)
Definition stable {A} (R : World → A → Prop) : Prop := ∀ W W' a, ext W W' → R W a → R W' a.

Lemma safe_call {X} (q : port X) R W : stable R → call_ok q R W → safe (call q) R W.
Proof.
  intros St H W1 X1 I1 c G. destruct (H W1 c X1 I1 G) as (E & I & HR). split_and!; [done..|].
  intros W2 X2 _. by eapply St.
Qed.

Lemma safe_bind_call {X B} (q : port X) (f : X → proc B) R Q W :
  stable R → call_ok q R W →
  (∀ W' x, ext W W' → inv W' → R W' x → safe (f x) Q W') → safe (call q ≫= f) Q W.
Proof. intros St H Hf. by eapply safe_bind; [eapply safe_call|]. Qed.

Lemma safe_tryf {A B} ctx args (p : proc (result A)) (k : A → proc (result B)) R Q W :
  safe p R W →
  (∀ W' e, Q W' (Err e)) →
  (∀ W' a, ext W W' → inv W' → R W' (Ok a) → safe (k a) Q W') →
  safe (tryf ctx args p k) Q W.
Proof.
  intros Hp HE Hk. eapply safe_bind; [exact Hp|]. intros W' [a|e] X I HR; [auto|].
  apply safe_ret. eauto.
Qed.
End logic.

#[global] Arguments safe : simpl never.
