(* ===== verification/PortSpecs.v ===== *)
(** What every outbound call guarantees under interference: it extends the world, keeps the
    invariant, and on success gives evidence that later calls rely on. *)

From stdpp Require Import options.
From S2P Require Import Prelude GoLib Shared Task Workflow Execution Approval Escalation Policy.
From S2P Require Import Routing AuditLog Resilience Persistence Ports AuditService WorkflowService.
From S2P Require Import ProgramLogic.

Section specs.
Context {PG : Postgres}.

(** A postcondition about successful results only. *)
Definition okpost {A} (R : World → A → Prop) (W : World) (x : result A) : Prop :=
  match x with Ok a => R W a | Err _ => True end.

Definition anything {A} (W : World) (a : A) : Prop := True.

Lemma okpost_stable {A} (R : World → A → Prop) : stable R → stable (okpost R).
Proof. intros S W W' [a|e] X; simpl; [by apply S|done]. Qed.

Lemma anything_stable {A} : stable (@anything A).
Proof. done. Qed.

(** * Evidence carried by values *)

Definition run_view (W : World) (w : WorkflowRun) : Prop :=
  run_fine W w ∧ ∃ r, w_workflows W !! wfID w = Some r ∧ wf_task_id r = wfTaskID w.

Definition lease_view (wfid : string) (W : World) (l : ExecutionLease) : Prop :=
  lease_fine l ∧ ∃ r, w_leases W !! elID l = Some r ∧ lease_workflow_run_id r = wfid.

Definition approval_view (W : World) (a : ApprovalRequest) : Prop :=
  approval_inv a ∧
  ∃ r, w_approvals W !! apID a = Some r ∧ ar_workflow_run_id r = apWorkflowRunID a.

Definition policy_view (taskID : string) (W : World) (pd : PolicyDecision) : Prop :=
  policy_row W taskID [pdOutcome pd] ∧ is_outcome (pdOutcome pd) = true.

Lemma run_view_stable : stable run_view.
Proof.
  intros W W' w X [Hf (r & Hr & E)]. split; [by eapply run_fine_ext|].
  destruct (ext_workflows _ _ X _ _ Hr) as (r' & Hr' & E'). exists r'. split; [done|congruence].
Qed.

Lemma lease_view_stable id : stable (lease_view id).
Proof.
  intros W W' l X [Hf (r & Hr & E)]. split; [done|].
  destruct (ext_leases _ _ X _ _ Hr) as (r' & Hr' & E'). exists r'. split; [done|congruence].
Qed.

Lemma approval_view_stable : stable approval_view.
Proof.
  intros W W' a X [Hf (r & Hr & E)]. split; [done|].
  destruct (ext_approvals _ _ X _ _ Hr) as (r' & Hr' & E' & _). exists r'. split; [done|congruence].
Qed.

Lemma policy_view_stable id : stable (policy_view id).
Proof. intros W W' p X [H ?]. split; [by eapply policy_row_ext|done]. Qed.

(** * Preservation of the invariant *)

(** The rows that are new or changed must satisfy the invariant; the others keep it. *)
Lemma inv_change W W' :
  inv W → ext W W' →
  (∀ id r, w_workflows W' !! id = Some r → w_workflows W !! id = Some r ∨ wf_row_ok W' id r) →
  (∀ id r, w_leases W' !! id = Some r → w_leases W !! id = Some r ∨ lease_row_ok W' id r) →
  leases_unique W' →
  (∀ id r, w_approvals W' !! id = Some r → w_approvals W !! id = Some r ∨ approval_row_ok W' id r) →
  (∀ id r, w_policy W' !! id = Some r → w_policy W !! id = Some r ∨ policy_row_ok W' r) →
  (∀ id r, w_routing W' !! id = Some r → w_routing W !! id = Some r ∨ has (w_tasks W') (rd_task_id r) = true) →
  Forall audit_row_ok (w_audit W') → inv W'.
Proof.
  intros I X Hw Hl Hu Ha Hp Hr Hau. pose proof (λ i, has_ext _ _ i (ext_tasks _ _ X)) as T. split; try done.
  - intros id r H. destruct (Hw _ _ H); [|done]. eapply wf_row_ok_ext, inv_workflows; eauto.
  - intros id r H. destruct (Hl _ _ H); [|done]. eapply lease_row_ok_ext, inv_leases; eauto.
  - intros id r H. destruct (Ha _ _ H); [|done]. eapply (inv_approvals _ I); eauto.
  - intros id r H. destruct (Hp _ _ H) as [H'|]; [|done].
    destruct (inv_policy _ I _ _ H') as [? ?]. split; [done|by apply T].
  - intros id r H. destruct (Hr _ _ H) as [H'|]; [|done]. apply T. exact (inv_routing _ I _ _ H').
Qed.

(** The outcome of a statement. *)
Lemma db_write_ok ctx f W r (R : World → unit → Prop) :
  inv W → (∀ W', r = Some W' → ext W W' ∧ inv W' ∧ R W' tt) →
  ext W (db_write ctx f W r).2 ∧ inv (db_write ctx f W r).2 ∧
  okpost R (db_write ctx f W r).2 (db_write ctx f W r).1.
Proof.
  intros I H. destruct f, r as [W'|]; simpl; try (split_and!; done).
  - exact (H _ eq_refl).
  - destruct (H _ eq_refl) as (? & ? & _). done.
Qed.

Lemma db_read_ok {A} ctx f (r : result A) W (R : World → A → Prop) :
  inv W → okpost R W r → ext W W ∧ inv W ∧ okpost R W (db_read ctx f r).
Proof. intros I H. split_and!; [done..|]. by destruct f. Qed.

Lemma insert_row_Some {K R} `{Countable K} (tbl tbl' : gmap K R) id row ok :
  insert_row tbl id row ok = Some tbl' → tbl !! id = None ∧ ok = true ∧ tbl' = <[id := row]> tbl.
Proof. unfold insert_row. destruct (tbl !! id), ok; naive_solver. Qed.

(** A row found by a WHERE clause satisfies it and is in the table. *)
Lemma query_row_ok {R A} (P : R → bool) (scan : R → result A) nf pick (tbl : gmap string R) a :
  query_row P scan nf pick tbl = Ok a →
  ∃ id r, tbl !! id = Some r ∧ P r = true ∧ scan r = Ok a.
Proof.
  unfold query_row. destruct (_ !! _) as [r|] eqn:E; [|done]. intros Hs.
  apply list_elem_of_lookup_2, list_elem_of_In in E. unfold select in E.
  apply List.filter_In in E as [E HP]. apply list_elem_of_In, list_elem_of_fmap in E as ([id r'] & -> & E).
  apply elem_of_map_to_list in E. eauto.
Qed.

Lemma ext_same W W' :
  w_tasks W ⊆ w_tasks W' → w_routing W ⊆ w_routing W' → w_policy W ⊆ w_policy W' →
  w_workflows W' = w_workflows W → w_leases W' = w_leases W → w_approvals W' = w_approvals W →
  w_escalations W ⊆ w_escalations W' → w_audit W `prefix_of` w_audit W' →
  w_phase_decisions W ⊆ w_phase_decisions W' → ext W W'.
Proof. intros ??? E1 E2 E3 ???. split; try done; rewrite ?E1, ?E2, ?E3; eauto. Qed.

(** Changes that leave runs, leases, approvals and decisions alone. *)
Lemma inv_same W W' :
  inv W → ext W W' → w_workflows W' = w_workflows W → w_leases W' = w_leases W →
  w_approvals W' = w_approvals W → w_policy W' = w_policy W → w_routing W' = w_routing W →
  Forall audit_row_ok (w_audit W') → inv W'.
Proof.
  intros I X E1 E2 E3 E4 E5 A. apply (inv_change W); rewrite ?E1, ?E2, ?E3, ?E4, ?E5; eauto.
  unfold leases_unique. rewrite E2. apply (inv_unique _ I).
Qed.

Lemma framed W W' (P : Prop) :
  inv W → ext W W' → w_workflows W' = w_workflows W → w_leases W' = w_leases W →
  w_approvals W' = w_approvals W → w_policy W' = w_policy W → w_routing W' = w_routing W →
  Forall audit_row_ok (w_audit W') → P → ext W W' ∧ inv W' ∧ P.
Proof. intros. split_and!; [done|by eapply inv_same|done]. Qed.

(** * Calls that touch no invariant *)

Lemma TaskSave_ok t W : call_ok (TaskSave t) (okpost (λ W _, has (w_tasks W) (tkID t) = true)) W.
Proof.
  intros W1 c X I G. simpl. destruct (taskToRow t) as [r|e] eqn:E; [|by split_and!].
  apply db_write_ok; [done|]. intros W' H. apply fmap_Some in H as (tbl & H & ->).
  apply insert_row_Some in H as (Hn & _ & ->). apply framed; simpl; try done; [|by apply inv_audit|].
  - apply ext_same; simpl; try done. by apply insert_subseteq.
  - unfold has. apply bool_decide_eq_true. unfold taskToRow in E. case_match; simplify_eq/=.
    rewrite lookup_insert_eq. eauto.
Qed.

Lemma TaskFindByID_ok id W : call_ok (TaskFindByID id) (okpost (λ W t, True)) W.
Proof. intros W1 c X I G. simpl. apply db_read_ok; [done|]. by case_match. Qed.

Lemma RoutingSave_ok rd W :
  call_ok (RoutingSave rd)
    (okpost (λ W _, routed W (rdTaskID rd) ∧ has (w_routing W) (rdID rd) = true)) W.
Proof.
  intros W1 c X I G. simpl. destruct (routingToRow rd) as [r|e] eqn:E; [|by split_and!].
  apply db_write_ok; [done|]. intros W' H. apply fmap_Some in H as (tbl & H & ->).
  apply insert_row_Some in H as (Hn & Ht & ->).
  assert (Er : rd_id r = rdID rd ∧ rd_task_id r = rdTaskID rd)
    by (unfold routingToRow in E; case_match; by simplify_eq/=).
  assert (Ex : ext W1 (with_routing W1 (<[rd_id r := r]> (w_routing W1))))
    by (apply ext_same; simpl; try done; by apply insert_subseteq).
  split; [done|]. split.
  - apply (inv_change W1); simpl; eauto; [apply (inv_unique _ I)| |apply (inv_audit _ I)].
    intros i s. rewrite lookup_insert_Some. intros [[_ <-]|[_ ?]]; [by right|by left].
  - destruct Er as [<- <-]. split.
    + exists (rd_id r), r. simpl. by rewrite lookup_insert_eq.
    + apply bool_decide_eq_true. simpl. rewrite lookup_insert_eq. eauto.
Qed.

Lemma RoutingFind_ok id W : call_ok (RoutingFindByTaskID id) (okpost (λ W _, routed W id)) W.
Proof.
  intros W1 c X I G. simpl. apply db_read_ok; [done|]. unfold okpost. case_match eqn:E; [|done].
  apply query_row_ok in E as (i & r & H & P%bool_decide_eq_true & _). by exists i, r.
Qed.

Lemma EscalationSave_ok t W : call_ok (EscalationSave t) (okpost anything) W.
Proof.
  intros W1 c X I G. simpl. destruct (escalationToRow t) as [r|e] eqn:E; [|by split_and!].
  apply db_write_ok; [done|]. intros W' H. apply fmap_Some in H as (tbl & H & ->).
  apply insert_row_Some in H as (Hn & _ & ->). apply framed; simpl; try done; [|by apply inv_audit].
  apply ext_same; simpl; try done. by apply insert_subseteq.
Qed.

Lemma PhaseDecisionSave_ok r W : call_ok (PhaseDecisionSave r) (okpost anything) W.
Proof.
  intros W1 c X I G. simpl. apply db_write_ok; [done|]. intros W' H.
  apply fmap_Some in H as (tbl & H & ->). apply insert_row_Some in H as (Hn & _ & ->).
  apply framed; simpl; try done; [|by apply inv_audit].
  apply ext_same; simpl; try done. by apply insert_subseteq.
Qed.

Lemma AuditAppend_ok e W :
  TrimSpace (aeAction e) ≠ "" → TrimSpace (aeOutcome e) ≠ "" → call_ok (AuditAppend e) (okpost anything) W.
Proof.
  intros Ha Ho W1 c X I G. simpl. destruct (auditToRow e) as [r|] eqn:E; [|by split_and!].
  apply db_write_ok; [done|]. intros W' H. case_match; simplify_eq. apply framed; simpl; try done.
  - apply ext_same; simpl; try done. by apply prefix_app_r.
  - apply Forall_app_2; [by apply inv_audit|]. constructor; [|constructor].
    unfold auditToRow in E. case_match; by simplify_eq/=.
Qed.

(** Calls whose answer comes from a choice or that only add to the notifications, metrics and
    breakers. *)
Definition plain {X} (q : port X) : bool :=
  match q with
  | NewID | TimeNow | Span | GetRelevantContext _ _ | StatsGet | Notify _ | Metric _
  | BreakerObserve _ _ _ _ | PhaseApprovalFind _ _ | BreakerGet _ _ | BreakerList _ | WfList _
  | AuditQuery _ | Ping | Tracer _ => true
  | _ => false
  end.

Lemma plain_ok {X} (q : port X) W : plain q = true → call_ok q anything W.
Proof.
  intros P W1 c X1 I G. destruct q; try discriminate; simpl; try (by split_and!).
  1,2: apply framed; simpl; try done; [by apply ext_same|by apply inv_audit].
  destruct (Registry_Observe _ _ _ _ _ _) as [br tr]. simpl.
  apply framed; simpl; try done; [by apply ext_same|by apply inv_audit].
Qed.

(** The clock gives a non zero instant. *)
Lemma TimeNow_ok W : call_ok TimeNow (λ _ t, t ≠ 0%Z) W.
Proof. intros W1 c X I G. by split_and!. Qed.

(** * Policy decisions *)

Lemma PolicySave_ok pd W :
  is_outcome (pdOutcome pd) = true →
  call_ok (PolicySave pd)
    (okpost (λ W _, policy_row W (pdTaskID pd) [pdOutcome pd] ∧ has (w_policy W) (pdID pd) = true)) W.
Proof.
  intros O W1 c X I G. simpl. apply db_write_ok; [done|]. intros W' H.
  apply fmap_Some in H as (tbl & H & ->). apply insert_row_Some in H as (Hn & Ht & ->).
  assert (E : ext W1 (with_policy W1 (<[pd_id (policyToRow pd) := policyToRow pd]> (w_policy W1)))).
  { apply ext_same; simpl; try done. by apply insert_subseteq. }
  assert (Ho : pdOutcome (scanPolicyDecision (policyToRow pd)) = pdOutcome pd).
  { simpl. by apply outcome_roundtrip. }
  split; [done|]. split.
  - apply (inv_change W1); simpl; eauto; [apply (inv_unique _ I)| |apply (inv_audit _ I)].
    intros i r. rewrite lookup_insert_Some. intros [[_ <-]|[_ ?]]; [right; rewrite <- Ho in O; by split|by left].
  - split.
    + exists (pdID pd), (policyToRow pd). split; [apply lookup_insert_eq|]. rewrite Ho. set_solver.
    + apply bool_decide_eq_true. eexists. apply lookup_insert_eq.
Qed.

Lemma PolicyFind_ok id W : call_ok (PolicyFindByTaskID id) (okpost (policy_view id)) W.
Proof.
  intros W1 c X I G. simpl. apply db_read_ok; [done|]. unfold okpost. case_match eqn:E; [|done].
  apply query_row_ok in E as (i & r & H & P%bool_decide_eq_true & [= <-]). split.
  - exists i, r. set_solver.
  - exact (proj1 (inv_policy _ I _ _ H)).
Qed.

(** * Workflow runs *)

Lemma scan_fine r w :
  scanWorkflowRun r = Ok w → wfID w = wf_id r ∧ wfTaskID w = wf_task_id r.
Proof. unfold scanWorkflowRun. intros H. by apply result_bind_Ok in H as (ts & _ & [= <-]). Qed.

(** The run rebuilt from the row of a fine run is fine. *)
Lemma run_fine_scan W w r :
  run_fine W w → wf_status r = to_string (wfStatus w) →
  wf_transitions r = marshalTransitions (wfTransitions w) → wf_id r = wfID w →
  wf_task_id r = wfTaskID w → wf_current_step_index r = 0%Z →
  wf_routing_decision_id r = wfRoutingDecisionID w → wf_policy_decision_id r = wfPolicyDecisionID w →
  ∃ w', scanWorkflowRun r = Ok w' ∧ wfID w' = wfID w ∧ wfTaskID w' = wf_task_id r ∧ run_fine W w'.
Proof.
  intros [] Es Et Ei Etk Ex Er Ep. eexists. split; [by apply (scan_stored w)|]. simpl.
  split_and!; [done..|]. split; simpl; try done; by rewrite ?Ei, ?Etk, ?Er, ?Ep.
Qed.

Lemma WfFindByID_ok id W :
  call_ok (WfFindByID id) (okpost (λ W w, run_view W w ∧ wfID w = id)) W.
Proof.
  intros W1 c X I G. simpl. apply db_read_ok; [done|].
  destruct (w_workflows W1 !! id) as [r|] eqn:H; [|done].
  destruct (inv_workflows _ I _ _ H) as (_ & w & Hs & Hi & Ht & Hf). rewrite Hs. subst id.
  split; [|done]. split; [done|]. eauto.
Qed.

Lemma WfFindByTaskID_ok id W :
  call_ok (WfFindByTaskID id) (okpost (λ W w, run_view W w ∧ wfTaskID w = id)) W.
Proof.
  intros W1 c X I G. simpl. apply db_read_ok; [done|]. unfold okpost.
  case_match eqn:E; [|done]. apply query_row_ok in E as (i & r & H & P%bool_decide_eq_true & Hs).
  destruct (inv_workflows _ I _ _ H) as (_ & w' & Hs' & Hi & Ht & Hf).
  rewrite Hs' in Hs. injection Hs as <-. subst i id.
  split; [|done]. split; [done|]. eauto.
Qed.

Lemma WfSave_ok w W :
  run_fine W w → call_ok (WfSave w) (okpost (λ W _, run_view W w)) W.
Proof.
  intros Hf W1 c X I G. simpl. apply (run_fine_ext _ _ _ X) in Hf.
  destruct (workflowToRow w) as [r|e] eqn:E; [|by split_and!].
  apply db_write_ok; [done|]. intros W' H. apply fmap_Some in H as (tbl & H & ->).
  apply insert_row_Some in H as (Hn & C & ->). boolify.
  unfold workflowToRow in E. rewrite (rf_index _ _ Hf) in E. simpl in E. simplify_eq.
  simpl in *.
  match goal with |- ext _ ?W2 ∧ _ => set (W' := W2) end.
  assert (E : ext W1 W').
  { split; try done; simpl; eauto.
    intros i r. exists r. split; [|done]. rewrite lookup_insert_ne by (intros <-; congruence). done. }
  split; [done|]. split.
  - apply (inv_change W1); simpl; eauto; [|apply (inv_unique _ I)|apply (inv_audit _ I)].
    intros i r. rewrite lookup_insert_Some. intros [[<- Hr]|[_ ?]]; [right|by left].
    destruct (run_fine_scan W' w r (run_fine_ext _ _ _ E Hf)) as (w' & Hs & Hi & Ht & Hf');
      [rewrite <- Hr; (done || apply Hf)..|].
    split; [by rewrite <- Hr|]. by exists w'.
  - split; [by eapply run_fine_ext|]. eexists. simpl. by rewrite lookup_insert_eq.
Qed.

Lemma WfUpdate_ok w W :
  run_view W w → call_ok (WfUpdate w) (okpost (λ W _, run_view W w)) W.
Proof.
  intros Hv W1 c X I G. simpl. apply (run_view_stable _ _ _ X) in Hv.
  destruct (id Hv) as [Hf (old & Ho & Et)]. rewrite Ho.
  destruct (updateWorkflowRow old w) as [r|e] eqn:E; [|by split_and!].
  apply db_write_ok; [done|]. intros W' H. case_match; simplify_eq.
  unfold updateWorkflowRow in E. rewrite (rf_index _ _ Hf) in E. simpl in E. simplify_eq.
  destruct (inv_workflows _ I _ _ Ho) as (Htk & w0 & Hs0 & Hi0 & Ht0 & _).
  pose proof (scan_fine _ _ Hs0) as [Hi1 _].
  match goal with |- ext _ ?W2 ∧ _ => set (W' := W2) end.
  assert (E : ext W1 W').
  { split; try done; simpl; eauto.
    intros i r Hr. rewrite lookup_insert. case_decide; simplify_eq; eauto. }
  split; [done|]. split; [|by eapply run_view_stable].
  apply (inv_change W1); simpl; eauto; [|apply (inv_unique _ I)|apply (inv_audit _ I)].
  intros i r. rewrite lookup_insert_Some. intros [[<- Hr]|[_ ?]]; [right|by left].
  destruct (run_fine_scan W' w r (run_fine_ext _ _ _ E Hf)) as (w' & Hs & Hi & Ht & Hf');
    [rewrite <- Hr; simpl; (done || congruence)..|].
  split; [by rewrite <- Hr|]. by exists w'.
Qed.

(** * Leases *)

Lemma lease_fine_storable l : lease_fine l → lease_storable l.
Proof.
  intros (Hi & Hb & Ht & He). split; [done|by rewrite Hb|rewrite Ht|rewrite He]; by vm_compute.
Qed.

(** The lease rebuilt from a row with the columns of a fine lease is fine. *)
Lemma lease_fine_scan l r : lease_fine l → lease_columns l r → lease_fine (scanExecutionLease r).
Proof.
  intros F C. pose proof (lease_fine_storable _ F) as S. destruct (scan_lease _ _ S C) as [E S'].
  destruct F as (_ & Hb & Ht & He). split; [apply S'|]. rewrite E; simpl. by rewrite Hb, Ht, He.
Qed.

Lemma lease_fine_toRow l r :
  lease_fine l → leaseToRow l = Ok r →
  lease_id r = elID l ∧ lease_workflow_run_id r = elWorkflowRunID l ∧ lease_fine (scanExecutionLease r).
Proof.
  intros F E. destruct (leaseToRow_ok l (lease_fine_storable _ F)) as (r' & E' & C & ? & ? & _).
  rewrite E in E'. injection E' as <-. split_and!; [done..|by eapply lease_fine_scan].
Qed.

Lemma LeaseSave_ok l W :
  lease_fine l → authorized W (elWorkflowRunID l) → call_ok (LeaseSave l) (okpost anything) W.
Proof.
  intros F Au W1 c X I G. simpl. apply (authorized_ext _ _ _ X) in Au.
  destruct (leaseToRow l) as [r|e] eqn:E; [|by split_and!].
  destruct (lease_fine_toRow _ _ F E) as (E1 & E2 & F').
  apply db_write_ok; [done|]. intros W' H. apply fmap_Some in H as (tbl & H & ->).
  apply insert_row_Some in H as (Hn & C & ->). boolify.
  match goal with |- ext _ ?W2 ∧ _ => set (W' := W2) end.
  assert (Ex : ext W1 W').
  { split; try done; simpl; eauto.
    intros i s Hs. exists s. split; [|done]. rewrite lookup_insert_ne by (intros <-; congruence). done. }
  split; [done|]. split; [|done].
  apply (inv_change W1); simpl; eauto; [| |apply (inv_audit _ I)].
  - intros i s. rewrite lookup_insert_Some. intros [[<- <-]|[_ ?]]; [right|by left].
    split_and!; [done..|]. rewrite E2. by eapply authorized_ext.
  - assert (Hd : ∀ i s, w_leases W1 !! i = Some s → lease_workflow_run_id s ≠ lease_workflow_run_id r).
    { intros i s Hs. eapply bool_decide_eq_true_1, (forallb_in _ _ _ H0).
      apply list_elem_of_fmap. exists (i, s). split; [done|]. by apply elem_of_map_to_list. }
    intros i j s s'. simpl. rewrite !lookup_insert_Some.
    intros [[<- <-]|[_ Hs]] [[<- <-]|[_ Hs']] Eq; [done| | |by eapply (inv_unique _ I)].
    + by destruct (Hd _ _ Hs').
    + by destruct (Hd _ _ Hs).
Qed.

Lemma LeaseFind_ok id W :
  call_ok (LeaseFindByWorkflowRunID id) (okpost (λ W l, lease_view id W l ∧ authorized W id)) W.
Proof.
  intros W1 c X I G. simpl. apply db_read_ok; [done|]. unfold okpost. case_match eqn:E; [|done].
  apply query_row_ok in E as (i & r & H & P%bool_decide_eq_true & [= <-]).
  destruct (inv_leases _ I _ _ H) as (<- & F & Au). split; [|by rewrite <- P].
  split; [done|]. by exists r.
Qed.

Lemma LeaseUpdate_ok id l W : lease_view id W l → call_ok (LeaseUpdate l) (okpost anything) W.
Proof.
  intros V W1 c X I G. simpl. apply (lease_view_stable _ _ _ _ X) in V.
  destruct V as [F (old & Ho & Ew)]. rewrite Ho.
  destruct (updateLeaseRow_ok l old (lease_fine_storable _ F)) as (r & E & C & E1 & E2 & _). rewrite E.
  destruct (inv_leases _ I _ _ Ho) as (Eo & _ & Au).
  apply db_write_ok; [done|]. intros W' [= <-].
  match goal with |- ext _ ?W2 ∧ _ => set (W' := W2) end.
  assert (Ex : ext W1 W').
  { split; try done; simpl; eauto.
    intros i s Hs. rewrite lookup_insert. case_decide; simplify_eq; eauto. }
  split; [done|]. split; [|done].
  apply (inv_change W1); simpl; eauto; [| |apply (inv_audit _ I)].
  - intros i s. rewrite lookup_insert_Some. intros [[<- <-]|[_ ?]]; [right|by left].
    split_and!; [congruence|by eapply lease_fine_scan|]. rewrite E2. by eapply authorized_ext.
  - intros i j s s'. simpl. rewrite !lookup_insert_Some. pose proof (inv_unique _ I) as U.
    intros [[<- <-]|[_ Hs]] [[<- <-]|[_ Hs']] Eq; [done| | |by eapply U].
    + eapply (U _ _ old s'); [done..|]. congruence.
    + eapply (U _ _ s old); [done..|]. congruence.
Qed.

(** * Approval requests *)

#[local] Arguments of_string : simpl never.
#[local] Arguments to_string : simpl never.

Lemma scan_approval_inv a r :
  approval_inv a → ar_reason r = apReason a → ar_status r = to_string (apStatus a) →
  ar_resolution r = apResolution a → approval_inv (scanApprovalRequest r).
Proof.
  intros Ha E1 E2 E3. pose proof (approval_inv_known _ Ha). unfold approval_inv in *. simpl.
  rewrite E1, E2, E3. by rewrite of_to_known.
Qed.

Lemma ApprovalSave_ok a W :
  approval_inv a → call_ok (ApprovalSave a) (okpost anything) W.
Proof.
  intros Ha W1 c X I G. simpl. apply db_write_ok; [done|]. intros W' H.
  apply fmap_Some in H as (tbl & H & ->). apply insert_row_Some in H as (Hn & C & ->).
  match goal with |- ext _ ?W2 ∧ _ => set (W' := W2) end.
  assert (Ex : ext W1 W').
  { split; try done; simpl; eauto.
    intros i s Hs. exists s. split; [|done]. rewrite lookup_insert_ne by (intros <-; simpl in *; congruence). done. }
  split; [done|]. split; [|done].
  apply (inv_change W1); simpl; eauto; [apply (inv_unique _ I)| |apply (inv_audit _ I)].
  intros i s. rewrite lookup_insert_Some. intros [[<- <-]|[_ ?]]; [right|by left].
  split; [done|]. by apply (scan_approval_inv a).
Qed.

Lemma ApprovalFind_ok id W : call_ok (ApprovalFindByID id) (okpost approval_view) W.
Proof.
  intros W1 c X I G. simpl. apply db_read_ok; [done|].
  destruct (w_approvals W1 !! id) as [r|] eqn:H; [|done].
  destruct (inv_approvals _ I _ _ H) as (<- & Ha). split; [done|]. by exists r.
Qed.

Lemma ApprovalFindPending_ok W : call_ok ApprovalFindPending (okpost anything) W.
Proof. intros W1 c X I G. simpl. by apply db_read_ok. Qed.

Lemma ApprovalUpdate_ok a W :
  approval_view W a → Approval.IsTerminal (apStatus a) = true →
  call_ok (ApprovalUpdate a) (okpost (λ W _, approval_resolved W (apWorkflowRunID a))) W.
Proof.
  intros V T W1 c X I G. simpl. apply (approval_view_stable _ _ _ X) in V.
  destruct V as [Ha (old & Ho & Ew)]. rewrite Ho.
  destruct (inv_approvals _ I _ _ Ho) as (Eo & Hold).
  apply db_write_ok; [done|]. intros W' [= <-].
  match goal with |- ext _ ?W2 ∧ _ => set (W' := W2) end.
  assert (Ht : resolved_row (updateApprovalRow old a)).
  { unfold resolved_row. simpl. rewrite of_to_known; [done|]. by apply approval_inv_known. }
  assert (Ex : ext W1 W').
  { split; try done; simpl; eauto.
    intros i s Hs. rewrite lookup_insert. case_decide; simplify_eq; eauto. }
  split; [done|]. split.
  - apply (inv_change W1); simpl; eauto; [apply (inv_unique _ I)| |apply (inv_audit _ I)].
    intros i s. rewrite lookup_insert_Some. intros [[<- <-]|[_ ?]]; [right|by left].
    split; [done|]. destruct Hold as [Hre _]. destruct Ha as [_ Ha]. split; [done|].
    pose proof (of_to_known (apStatus a)) as Hk. simpl. destruct (apResolution a) as [res|].
    + destruct Ha as [-> _]. rewrite Hk; [done|]. by destruct (apStatus a).
    + by rewrite Ha in T.
  - exists (apID a), (updateApprovalRow old a). split; [apply lookup_insert_eq|done].
Qed.
End specs.
