(* ===== verification/Runs.v ===== *)
(** Sequential executions: a service run alone under an oracle of choices. *)

From stdpp Require Import options.
From S2P Require Import Prelude GoLib Shared Persistence Ports ProgramLogic.

Section runs.
Context {PG : Postgres}.

Definition clean (o : nat → choice) : Prop := ∀ n, ch_fault (o n) = NoFault ∧ good (o n).
Definition rest (o : nat → choice) : nat → choice := λ n, o (S n).

Lemma clean_rest o : clean o → clean (rest o).
Proof. intros H n. apply (H (S n)). Qed.

Lemma run_bind {A B} (p : proc A) (f : A → proc B) o W :
  run (p ≫= f) o W =
  match run p o W with
  | (Returned a, W', o') => run (f a) o' W'
  | (Panicked, W', o') => (Panicked, W', o')
  end.
Proof.
  revert o W. induction p as [a|X q k IH|]; intros o W; [done| |done].
  change (run (Call q k ≫= f) o W) with
    (let '(x, W') := exec (o 0) q W in run (k x ≫= f) (λ n, o (S n)) W').
  simpl. destruct (exec (o 0) q W) as [x W']. apply IH.
Qed.

Lemma run_bind_call {X B} (q : port X) (f : X → proc B) o W :
  run (call q ≫= f) o W = let '(x, W') := exec (o 0) q W in run (f x) (rest o) W'.
Proof. done. Qed.

Lemma run_try_pure {A B} ctx args (r : result A) (k : A → proc (result B)) o W :
  run (tryf ctx args (Ret r) k) o W =
  match r with Ok a => run (k a) o W | Err e => (Returned (Err (Wrapf ctx args e)), W, o) end.
Proof. by destruct r. Qed.

Lemma run_try_call {A B} ctx args (q : port (result A)) (k : A → proc (result B)) o W :
  run (tryf ctx args (call q) k) o W =
  match exec (o 0) q W with
  | (Ok a, W') => run (k a) (rest o) W'
  | (Err e, W') => (Returned (Err (Wrapf ctx args e)), W', rest o)
  end.
Proof.
  change (run (tryf ctx args (call q) k) o W) with
    (let '(x, W') := exec (o 0) q W in
     run (match x with Ok a => k a | Err e => Ret (Err (Wrapf ctx args e)) end) (rest o) W').
  by destruct (exec (o 0) q W) as [[a|e] W'].
Qed.

Lemma run_pure {A B} ctx (r : result A) (k : A → proc (result B)) o W :
  run (try ctx (Ret r) k) o W =
  match r with Ok a => run (k a) o W | Err e => (Returned (Err (Wrapf ctx [] e)), W, o) end.
Proof. apply run_try_pure. Qed.

Lemma run_call {A B} ctx (q : port (result A)) (k : A → proc (result B)) o W :
  run (try ctx (call q) k) o W =
  match exec (o 0) q W with
  | (Ok a, W') => run (k a) (rest o) W'
  | (Err e, W') => (Returned (Err (Wrapf ctx [] e)), W', rest o)
  end.
Proof. apply run_try_call. Qed.

Lemma run_clock {B} (f : Timestamp → proc B) o W :
  clean o → run (clock_Now ≫= f) o W = run (f {| ts_Time := ch_now (o 0) |}) (rest o) W.
Proof.
  intros C. rewrite run_bind. unfold clock_Now. rewrite run_bind. simpl.
  unfold MustTimestamp, NewTimestamp, IsZero. destruct (C 0) as [_ G].
  by rewrite (proj2 (Z.eqb_neq _ _) G).
Qed.
End runs.
