(* ===== verification/ServiceSpecs.v ===== *)
(** Every service keeps the invariant of the system under interference and faults, and never
    panics. *)

From stdpp Require Import options.
From S2P Require Import Prelude GoLib Shared Task Workflow Execution Approval Escalation Policy.
From S2P Require Import Routing RoutingSpec AuditLog Resilience Persistence Ports AuditService.
From S2P Require Import Intake RouteTask PolicyEval WorkflowService ApprovalService EscalationService.
From S2P Require Import GovDecisions ProcessTask ProgramLogic PortSpecs.

Section services.
Context {PG : Postgres}.

(** * Steps of the logic *)

Lemma safe_try_pure {A B} ctx args (r : result A) (k : A → proc (result B)) Q W :
  (∀ W e, Q W (Err e)) → (∀ a, r = Ok a → safe (k a) Q W) → safe (tryf ctx args (Ret r) k) Q W.
Proof.
  intros HE Hk. destruct r as [a|e]; simpl; [by apply Hk|]. apply safe_ret. auto.
Qed.

Lemma safe_try_call {A B} ctx args (q : port (result A)) (k : A → proc (result B)) R Q W :
  call_ok q (okpost R) W → stable R → (∀ W e, Q W (Err e)) →
  (∀ W' a, ext W W' → inv W' → R W' a → safe (k a) Q W') →
  safe (tryf ctx args (call q) k) Q W.
Proof.
  intros Hq St HE Hk. eapply safe_tryf; [by apply safe_call; [apply okpost_stable|]|auto|].
  intros W' a X I HR. by apply Hk.
Qed.

Lemma safe_plain {X B} (q : port X) (f : X → proc B) Q W :
  plain q = true → (∀ W' x, ext W W' → inv W' → safe (f x) Q W') → safe (call q ≫= f) Q W.
Proof. intros P Hf. eapply safe_bind_call; [|by apply plain_ok|]; [done|]. eauto. Qed.

Lemma safe_anything {A} (p : proc A) Q W : safe p Q W → safe p anything W.
Proof. by apply safe_mono. Qed.

(** A call whose result is dropped. *)
Lemma safe_drop {A B} (p : proc A) (f : A → proc B) Q W :
  safe p anything W → (∀ W' x, ext W W' → inv W' → safe (f x) Q W') → safe (p ≫= f) Q W.
Proof. intros Hp Hf. eapply safe_bind; [exact Hp|]. eauto. Qed.

Lemma safe_if {A} (b : bool) (p q : proc A) Q W :
  safe p Q W → safe q Q W → safe (if b then p else q) Q W.
Proof. by destruct b. Qed.

Lemma safe_done {A} (a : A) W : safe (Ret a) anything W.
Proof. by apply safe_ret. Qed.

Lemma safe_clock {B} (f : Timestamp → proc B) Q W :
  (∀ W' ts, ext W W' → inv W' → ts_Time ts ≠ 0%Z → safe (f ts) Q W') → safe (clock_Now ≫= f) Q W.
Proof.
  intros Hf. eapply (safe_bind _ _ (λ _ ts, ts_Time ts ≠ 0%Z)); [|by eauto].
  unfold clock_Now. eapply safe_bind_call; [|apply TimeNow_ok|]; [by intros ???|].
  intros W' t X I Ht. unfold MustTimestamp, NewTimestamp, IsZero.
  rewrite (proj2 (Z.eqb_neq _ _) Ht). simpl. by apply safe_ret.
Qed.

(** * Audit and metrics *)

Lemma Record_safe actor action outcome ctx tid wid W :
  safe (Record_ actor action outcome ctx tid wid) anything W.
Proof.
  unfold Record_. apply safe_plain; [done|]. intros W1 span X1 I1.
  apply safe_plain; [done|]. intros W2 id X2 I2.
  apply safe_clock. intros W3 now X3 I3 _.
  destruct (NewAuditEntry _ _ _ _ _ _) as [e|e] eqn:E; [|apply safe_done].
  apply NewAuditEntry_Ok in E as (Ha & Ho & ->).
  eapply safe_anything, safe_call; [by apply okpost_stable, anything_stable|].
  apply AuditAppend_ok; by destruct tid, wid.
Qed.

Lemma emitTerminal_safe `{Wiring} s d W : safe (emitTerminal s d) anything W.
Proof.
  unfold emitTerminal. apply safe_if; [|apply safe_done]. apply safe_plain; [done|]. intros.
  eapply safe_call; [done|]. by apply plain_ok.
Qed.

Lemma emitFailure_safe `{Wiring} s c r W : safe (emitFailure s c r) anything W.
Proof.
  unfold emitFailure. apply safe_if; [|apply safe_done]. eapply safe_call; [done|]. by apply plain_ok.
Qed.

Lemma ms_since_safe t W : safe (ms_since t) anything W.
Proof. unfold ms_since. apply safe_plain; [done|]. intros. apply safe_done. Qed.

Lemma emitAll_safe ms W : safe (emitAll ms) anything W.
Proof.
  revert W. induction ms as [|[i a] ms IH]; intros W; [apply safe_done|].
  cbn [emitAll]. apply safe_plain; [done|]. auto.
Qed.

(** * Transitions of a run that was read from the database *)

Lemma justified_cases W w tk t :
  match trTo t with
  | Workflow.StatusRouted => routed W tk
  | StatusPolicyChecked => policy_row W tk any_outcome
  | StatusAwaitingApproval => policy_row W tk [OutcomeRequireApproval]
  | StatusRunning => trFrom t = StatusPolicyChecked → may_run W w tk
  | Workflow.StatusApproved => approval_resolved W w
  | _ => True
  end → justified W w tk t.
Proof. unfold justified. destruct (trTo t), (trFrom t); auto. Qed.

(** A method call keeps a run in agreement with the database when its transition is
    justified there. *)
Lemma run_view_op W w op actor now w' :
  run_view W w → Workflow.apply_op w op actor now = Ok w' → ts_Time now ≠ 0%Z →
  (∀ t, trFrom t = wfStatus w → trTo t = wfStatus w' → justified W (wfID w) (wfTaskID w) t) →
  has_opt (w_routing W) (wfRoutingDecisionID w') = true →
  has_opt (w_policy W) (wfPolicyDecisionID w') = true →
  run_view W w' ∧ wfID w' = wfID w ∧ wfTaskID w' = wfTaskID w.
Proof.
  intros [[K S Ix C J _ _] (r & Hr & Er)] H Hz Hj FR FP.
  pose proof (apply_op_Ok _ _ _ _ _ H) as (t & Et & Hf & Ht & _ & Hn & T & V & Hid & Htk & _ & _).
  pose proof (valid_target_known _ _ V) as K'.
  split; [|done]. split; [|exists r; by rewrite Hid, Htk].
  split; [done| | | | |done|done].
  - rewrite Et, forallb_app, S. simpl. unfold transition_storable. rewrite Hf, Ht, K, K', Hn. simpl.
    unfold IsZero. by rewrite (proj2 (Z.eqb_neq _ _) Hz).
  - by rewrite (apply_op_step_index _ _ _ _ _ H).
  - rewrite Et, <- Ht. eapply valid_chain_snoc; [done..|]. by rewrite Ht.
  - rewrite Et, Hid, Htk. apply Forall_app_2; [done|]. constructor; [by apply Hj|constructor].
Qed.

(** The status a method leads to. *)
Lemma transition_ids w target reason actor now w' :
  transitionTo w target reason actor now = Ok w' →
  wfRoutingDecisionID w' = wfRoutingDecisionID w ∧ wfPolicyDecisionID w' = wfPolicyDecisionID w.
Proof. intros H. by apply transitionTo_Ok in H as (_ & _ & ->). Qed.

Lemma transition_status w target reason actor now w' :
  transitionTo w target reason actor now = Ok w' → wfStatus w' = target ∧ wfTaskID w' = wfTaskID w.
Proof. intros H. by apply transitionTo_Ok in H as (_ & _ & ->). Qed.

(** Transitions to a status no evidence is needed for. *)
Definition free_target (s : WorkflowStatus) : bool :=
  match s with
  | Workflow.StatusCompleted | Workflow.StatusFailed | StatusPaused | StatusKilled | StatusQuarantined => true
  | _ => false
  end.

Lemma run_view_transition W w target reason actor now w' :
  run_view W w → transitionTo w target reason actor now = Ok w' → ts_Time now ≠ 0%Z →
  (∀ t, trFrom t = wfStatus w → trTo t = target → justified W (wfID w) (wfTaskID w) t) →
  run_view W w' ∧ wfID w' = wfID w ∧ wfTaskID w' = wfTaskID w.
Proof.
  intros V H Hz Hj. destruct (transition_ids _ _ _ _ _ _ H) as [E1 E2].
  eapply (run_view_op _ _ (OpTransitionTo target reason)); [done..| | |].
  - intros t Hf Ht. apply Hj; [done|]. rewrite Ht. by apply transition_status in H as [? _].
  - rewrite E1. apply V.
  - rewrite E2. apply V.
Qed.

Lemma run_view_free W w target reason actor now w' :
  run_view W w → transitionTo w target reason actor now = Ok w' → ts_Time now ≠ 0%Z →
  free_target target = true → run_view W w' ∧ wfID w' = wfID w ∧ wfTaskID w' = wfTaskID w.
Proof.
  intros V H Hz F. eapply run_view_transition; [done..|]. intros t _ Ht. apply justified_cases.
  rewrite Ht. by destruct target.
Qed.

Lemma run_view_authorized_policy W w :
  run_view W w → policy_row W (wfTaskID w) allowing_outcomes → authorized W (wfID w).
Proof. intros [_ (r & Hr & E)] P. exists r. split; [done|]. left. by rewrite E. Qed.

Lemma run_view_may_run W w : run_view W w → authorized W (wfID w) → may_run W (wfID w) (wfTaskID w).
Proof. intros [_ (r & Hr & E)] (r' & Hr' & A). simplify_eq. by rewrite <- E. Qed.

Lemma run_view_authorized_approval W w :
  run_view W w → approval_resolved W (wfID w) → authorized W (wfID w).
Proof. intros [_ (r & Hr & E)] P. exists r. split; [done|]. by right. Qed.

Lemma policy_row_mono W tk os os' : (∀ o, o ∈ os → o ∈ os') → policy_row W tk os → policy_row W tk os'.
Proof. intros H (i & r & ? & ? & ?). exists i, r. auto. Qed.

Lemma outcome_any o : is_outcome o = true → o ∈ any_outcome.
Proof.
  unfold is_outcome, any_outcome, OutcomeAllow, OutcomeAllowWithConstraints, OutcomeRequireApproval,
    OutcomeDeny. intros H. boolify. rewrite !elem_of_cons. lia.
Qed.

(** * Intake, routing and policy *)

Lemma SubmitTask_safe `{Wiring} input W : safe (SubmitTask input) anything W.
Proof.
  unfold SubmitTask. apply safe_plain; [done|]. intros W1 id _ _. apply safe_clock. intros W2 now _ _ _.
  apply safe_drop. { apply safe_if; [|apply safe_done]. eapply safe_call; [done|]. by apply plain_ok. }
  intros W3 _ _ _. apply safe_try_pure; [done|]. intros t _.
  eapply safe_try_call; [apply TaskSave_ok| |done|].
  { intros ? ? ? X. by apply has_ext, ext_tasks. }
  intros W4 _ _ _ _. eapply safe_tryf; [apply Record_safe|done|]. intros. apply safe_done.
Qed.

Lemma createSubtasks_safe parent now suffixes W : safe (createSubtasks parent now suffixes) anything W.
Proof.
  revert W. induction suffixes as [|s suffixes IH]; intros W; [apply safe_done|].
  cbn [createSubtasks]. apply safe_drop; [|intros W1 [u|e] _ _; [apply IH|apply safe_done]].
  unfold createSubtask. apply safe_plain; [done|]. intros W1 id _ _.
  apply safe_try_pure; [done|]. intros sub _.
  eapply safe_try_call; [apply TaskSave_ok| |done|].
  { intros ? ? ? X. by apply has_ext, ext_tasks. }
  intros. eapply safe_tryf; [apply Record_safe|done|]. intros. apply safe_done.
Qed.

Lemma newRun_fine W id tk now : run_fine W (NewWorkflowRun id tk now).
Proof. by split. Qed.

Lemma loadOrCreateRun_safe tk now W :
  safe (loadOrCreateRun tk now) (okpost (λ W w, run_view W w ∧ wfTaskID w = tk)) W.
Proof.
  assert (St : stable (λ W w, run_view W w ∧ wfTaskID w = tk)).
  { intros ? ? ? X [? ?]. split; [by eapply run_view_stable|done]. }
  unfold loadOrCreateRun. eapply safe_bind_call; [by apply okpost_stable|apply WfFindByTaskID_ok|].
  intros W1 [w|e] X I; simpl.
  { intros Hv. apply safe_ret. intros. by eapply St. }
  intros _. apply safe_plain; [done|]. intros W2 id _ _.
  eapply safe_try_call; [by apply WfSave_ok, newRun_fine| |done|].
  { intros ? ? ? X'. by apply run_view_stable. }
  intros W3 u _ _ Hv. apply safe_ret. intros W4 X4 _. split; [by eapply run_view_stable|done].
Qed.

Lemma MarkRouted_view W w rdID reason actor now w' :
  run_view W w → routed W (wfTaskID w) → has (w_routing W) rdID = true → ts_Time now ≠ 0%Z →
  MarkRouted w rdID reason actor now = Ok w' →
  run_view W w' ∧ wfID w' = wfID w ∧ wfTaskID w' = wfTaskID w.
Proof.
  intros V R Hh Hz H. pose proof H as H0. unfold MarkRouted in H0.
  apply result_bind_Ok in H0 as (w0 & H0 & [= <-]). destruct (transition_ids _ _ _ _ _ _ H0) as [E1 E2].
  apply transition_status in H0 as [E _].
  eapply (run_view_op _ _ (OpMarkRouted rdID reason)); [done..| |done|simpl; rewrite E2; apply V].
  intros t _ Ht. apply justified_cases. simpl in Ht. by rewrite Ht, E.
Qed.

Lemma MarkPolicyChecked_view W w pdID actor now w' :
  run_view W w → policy_row W (wfTaskID w) any_outcome → has (w_policy W) pdID = true →
  ts_Time now ≠ 0%Z → MarkPolicyChecked w pdID actor now = Ok w' →
  run_view W w' ∧ wfID w' = wfID w ∧ wfTaskID w' = wfTaskID w.
Proof.
  intros V R Hh Hz H. pose proof H as H0. unfold MarkPolicyChecked in H0.
  apply result_bind_Ok in H0 as (w0 & H0 & [= <-]). destruct (transition_ids _ _ _ _ _ _ H0) as [E1 E2].
  apply transition_status in H0 as [E _].
  eapply (run_view_op _ _ (OpMarkPolicyChecked pdID)); [done..| |simpl; rewrite E1; apply V|done].
  intros t _ Ht. apply justified_cases. simpl in Ht. by rewrite Ht, E.
Qed.

(** Writing back a run that agrees with the database. *)
Lemma safe_update {B} ctx w (k : unit → proc (result B)) Q W :
  run_view W w → (∀ W e, Q W (Err e)) →
  (∀ W', ext W W' → inv W' → safe (k tt) Q W') → safe (try ctx (call (WfUpdate w)) k) Q W.
Proof.
  intros V HE Hk. eapply safe_try_call; [by apply WfUpdate_ok| |done|].
  { intros ? ? ? X. by apply run_view_stable. }
  intros W' [] X I _. by apply Hk.
Qed.

Lemma RouteTask_safe `{Wiring} tk W : safe (RouteTask tk) anything W.
Proof.
  unfold RouteTask. eapply safe_try_call; [apply TaskFindByID_ok|done|done|]. intros W1 t X1 I1 _.
  apply safe_drop.
  { apply safe_if; [|apply safe_done]. apply safe_plain; [done|]. intros. apply safe_done. }
  intros W2 mem X2 I2. apply safe_drop.
  { apply safe_if; [|apply safe_done]. eapply safe_call; [done|]. by apply plain_ok. }
  intros W3 stats X3 I3. match goal with |- context [Evaluate ?i] => destruct (Evaluate_shape i) as (res & -> & _) end.
  apply safe_clock. intros W4 now X4 I4 Hz. apply safe_plain; [done|]. intros W5 rdID_ X5 I5.
  apply safe_try_pure; [done|]. intros rd Hrd.
  eapply safe_try_call; [apply RoutingSave_ok| |done|].
  { intros ? ? ? X [? ?]. split; [by eapply routed_ext|by eapply has_ext; [apply ext_routing|]]. }
  intros W6 u6 X6 I6 [Hr Hh]. assert (E : rdTaskID rd = tk ∧ rdID rd = rdID_).
  { unfold NewRoutingDecision in Hrd. by split_guards. }
  destruct E as [Htk0 Hid0]. rewrite Htk0 in Hr. rewrite Hid0 in Hh.
  eapply safe_bind; [apply loadOrCreateRun_safe|]. intros W7 [w|e] X7 I7 Hw; [|apply safe_done].
  destruct Hw as [Hv Htk]. apply safe_try_pure; [done|]. intros w' Hw'.
  apply MarkRouted_view with (W := W7) in Hw' as (Hv' & _); [|done| | |done].
  2: { rewrite Htk. by eapply routed_ext. }
  2: { by eapply has_ext; [apply ext_routing|]. }
  apply safe_update; [done..|]. intros W8 X8 I8.
  eapply safe_tryf; [apply Record_safe|done|]. intros W9 _ _ _ _.
  case_decide; [|apply safe_done].
  eapply safe_tryf; [|done|intros; apply safe_done].
  unfold createDecomposeSubtasks. destruct (subtaskSuffixes _). apply createSubtasks_safe.
Qed.

Lemma default_outcome ctx : is_outcome (erOutcome (Policy.EvaluatePolicy DefaultRules ctx)) = true.
Proof. destruct (DefaultRules_result ctx) as [-> _]. by destruct (must_deny ctx), (must_approve ctx). Qed.

Lemma EvaluatePolicy_safe tk action W : safe (PolicyEval.EvaluatePolicy tk action) anything W.
Proof.
  unfold PolicyEval.EvaluatePolicy.
  eapply safe_try_call; [apply TaskFindByID_ok|done|done|]. intros W1 t X1 I1 _.
  eapply safe_try_call; [apply RoutingFind_ok| |done|].
  { intros ? ? ? X. by apply routed_ext. }
  intros W2 _ X2 I2 _. apply safe_clock. intros W3 now X3 I3 Hz. apply safe_plain; [done|].
  intros W4 pdID_ X4 I4. apply safe_try_pure; [done|]. intros pd Hpd.
  assert (Ho : is_outcome (pdOutcome pd) = true ∧ pdTaskID pd = tk ∧ pdID pd = pdID_).
  { unfold NewPolicyDecision in Hpd.
    pose proof (default_outcome {| pxTask := t; pxAction := action |}).
    repeat case_decide; simplify_eq. done. }
  destruct Ho as (Ho & Htk & Hid). eapply safe_try_call; [by apply PolicySave_ok| |done|].
  { intros ? ? ? X [? ?]. split; [by eapply policy_row_ext|by eapply has_ext; [apply ext_policy|]]. }
  intros W5 u5 X5 I5 [Hp Hh]. eapply safe_try_call; [apply WfFindByTaskID_ok| |done|].
  { intros ? ? ? X [? ?]. split; [by eapply run_view_stable|done]. }
  intros W6 w X6 I6 [Hv Hwtk]. apply safe_try_pure; [done|]. intros w' Hw'.
  apply MarkPolicyChecked_view with (W := W6) in Hw' as (Hv' & _); [|done| | |done].
  3: { rewrite Hid in Hh. by eapply has_ext; [apply ext_policy|]. }
  2: { rewrite Hwtk, <- Htk. eapply policy_row_mono; [|exact (policy_row_ext _ _ _ _ X6 Hp)].
       intros o Hin. apply outcome_any. set_unfold in Hin. naive_solver. }
  apply safe_update; [done..|]. intros W7 X7 I7.
  eapply safe_tryf; [apply Record_safe|done|]. intros. apply safe_done.
Qed.

(** * Workflow control *)

(** Updating the run, then a report whose result does not matter. *)
Lemma notify_safe n W : safe (call (Notify n)) anything W.
Proof. eapply safe_call; [done|]. by apply plain_ok. Qed.

Lemma newLease_safe w now W :
  safe (newLease w now) (okpost (λ _ l, lease_fine l ∧ elWorkflowRunID l = wfID w)) W.
Proof.
  unfold newLease. apply safe_try_pure; [done|]. intros rb Hrb. apply safe_plain; [done|].
  intros W1 id _ _. apply safe_try_pure; [done|]. intros l Hl. apply safe_ret. intros W2 _ _. simpl.
  pose proof (lease_new defaultMaxRetries _ _ _ _ _ _ Hrb Hl) as R.
  assert (Hm : (defaultMaxRetries ≤ maxInt64)%Z) by (vm_compute; discriminate).
  pose proof (lease_reachable_inv _ _ Hm R) as Hi.
  pose proof (lease_budget_fixed _ _ R) as Hb.
  unfold NewExecutionLease in Hl. case_match; [done|]. injection Hl as <-. done.
Qed.

(** Storing the lease of a run that may execute, then the run. *)
Lemma safe_grant_lease {B} ctx l (k : unit → proc (result B)) Q W :
  lease_fine l → authorized W (elWorkflowRunID l) → (∀ W e, Q W (Err e)) →
  (∀ W', ext W W' → inv W' → safe (k tt) Q W') → safe (try ctx (call (LeaseSave l)) k) Q W.
Proof.
  intros F A HE Hk. eapply safe_try_call; [by apply LeaseSave_ok|by apply anything_stable|done|].
  intros W' [] X I _. by apply Hk.
Qed.

Lemma startDenied_safe `{Wiring} tk pd w now W :
  run_view W w → ts_Time now ≠ 0%Z → safe (startDenied tk pd w now) anything W.
Proof.
  intros V Hz. unfold startDenied. apply safe_try_pure; [done|]. intros w' Hw'.
  eapply run_view_free in Hw' as (V' & _); [|done..]. apply safe_update; [done..|]. intros.
  apply safe_drop; [apply Record_safe|]. intros. apply safe_drop; [apply notify_safe|]. intros.
  apply safe_drop; [apply ms_since_safe|]. intros. apply safe_drop; [apply emitTerminal_safe|].
  intros. apply safe_done.
Qed.

Lemma startAwaitingApproval_safe tk pd w now W :
  run_view W w → policy_row W (wfTaskID w) [OutcomeRequireApproval] → ts_Time now ≠ 0%Z →
  safe (startAwaitingApproval tk pd w now) anything W.
Proof.
  intros V P Hz. unfold startAwaitingApproval. apply safe_try_pure; [done|]. intros w' Hw'.
  eapply run_view_transition in Hw' as (V' & _); [|done..|].
  2: { intros t _ Ht. apply justified_cases. by rewrite Ht. }
  apply safe_plain; [done|]. intros W1 id X1 _. apply safe_try_pure; [done|]. intros req Hreq.
  eapply safe_try_call; [apply ApprovalSave_ok|by apply anything_stable|done|].
  { apply reachable_inv. by eapply Approval.reachable_new. }
  intros W2 _ X2 _ _. apply safe_update; [|done|]; [by do 2 (eapply run_view_stable; [eassumption|])|].
  intros. apply safe_drop; [apply Record_safe|]. intros. apply safe_drop; [apply notify_safe|].
  intros. apply safe_done.
Qed.

Lemma startRunning_safe tk w now W :
  run_view W w → policy_row W (wfTaskID w) allowing_outcomes → ts_Time now ≠ 0%Z →
  safe (startRunning tk w now) anything W.
Proof.
  intros V P Hz. unfold startRunning. apply safe_try_pure; [done|]. intros w' Hw'.
  eapply run_view_transition in Hw' as (V' & Hid & Htk); [|done..|].
  2: { intros t _ Ht. apply justified_cases. rewrite Ht. intros _. by left. }
  eapply safe_bind; [apply newLease_safe|]. intros W1 [l|e] X1 I1 Hl; [|apply safe_done].
  destruct Hl as [F E]. apply (run_view_stable _ _ _ X1) in V'.
  apply safe_grant_lease; [done| |done|].
  { rewrite E. apply run_view_authorized_policy; [done|]. rewrite Htk. by eapply policy_row_ext. }
  intros W2 X2 I2. apply safe_update; [by eapply run_view_stable|done|].
  intros. apply safe_drop; [apply Record_safe|]. intros. apply safe_drop; [apply notify_safe|].
  intros. apply safe_done.
Qed.

(** [try_sentinel] is [try] with another error. *)
Lemma safe_try_sentinel {A B} s (q : port (result A)) (k : A → proc (result B)) R Q W :
  call_ok q (okpost R) W → stable R → (∀ W e, Q W (Err e)) →
  (∀ W' a, ext W W' → inv W' → R W' a → safe (k a) Q W') →
  safe (try_sentinel s (call q) k) Q W.
Proof.
  intros Hq St HE Hk. eapply safe_bind_call; [by apply okpost_stable|done|].
  intros W' [a|e] X I HR; [by apply Hk|]. apply safe_ret. auto.
Qed.

Lemma StartWorkflow_safe `{Wiring} tk W : safe (StartWorkflow tk) anything W.
Proof.
  unfold StartWorkflow. eapply safe_try_call; [apply TaskFindByID_ok|done|done|]. intros W1 t X1 I1 _.
  eapply safe_try_sentinel; [apply RoutingFind_ok| |done|].
  { intros ? ? ? X. by apply routed_ext. }
  intros W2 _ X2 I2 _. eapply safe_try_sentinel; [apply PolicyFind_ok|apply policy_view_stable|done|].
  intros W3 pd X3 I3 [P O]. eapply safe_try_sentinel; [apply WfFindByTaskID_ok| |done|].
  { intros ? ? ? X [? ?]. split; [by eapply run_view_stable|done]. }
  intros W4 w X4 I4 [V Htk]. apply safe_clock. intros W5 now X5 I5 Hz.
  apply (run_view_stable _ _ _ X5) in V.
  apply (policy_row_ext _ _ _ _ X4), (policy_row_ext _ _ _ _ X5) in P. rewrite <- Htk in P.
  repeat case_decide; [by apply startDenied_safe|apply startAwaitingApproval_safe; [done| |done]| |apply safe_done].
  - by rewrite <- H1.
  - apply startRunning_safe; [done| |done]. eapply policy_row_mono; [|done].
    intros o. rewrite list_elem_of_singleton. intros ->. unfold allowing_outcomes. set_unfold. naive_solver.
Qed.

Lemma lease_found_stable id : stable (λ W l, lease_view id W l ∧ authorized W id).
Proof. intros W W' l X [? ?]. split; [by eapply lease_view_stable|by eapply authorized_ext]. Qed.

Lemma revokeLease_safe id W : safe (revokeLease id) anything W.
Proof.
  unfold revokeLease. eapply safe_bind_call; [apply okpost_stable, lease_found_stable|apply LeaseFind_ok|].
  intros W1 [l|e] X I V; [|apply safe_done]. destruct V as [V _]. destruct (Revoke l) as [l'|] eqn:E; [|apply safe_done].
  apply safe_drop; [|intros; apply safe_done].
  eapply safe_anything, safe_call; [apply okpost_stable, anything_stable|].
  apply (LeaseUpdate_ok id). destruct V as [(Hi & Hb & Ht & He) Hr].
  assert (Hi' : lease_inv l').
  { unfold Revoke in E. unfold lease_inv in *. case_decide as D; simplify_eq/=. rewrite D in Hi. lia. }
  unfold Revoke in E. case_decide; simplify_eq/=. by split.
Qed.

Lemma KillWorkflow_safe `{Wiring} id reason actor W : safe (KillWorkflow id reason actor) anything W.
Proof.
  unfold KillWorkflow. eapply safe_try_call; [apply WfFindByID_ok| |done|].
  { intros ? ? ? X [? ?]. split; [by eapply run_view_stable|done]. }
  intros W1 w X1 I1 [V _]. apply safe_clock. intros W2 now X2 I2 Hz. apply safe_try_pure; [done|].
  intros w' Hw'. apply (run_view_stable _ _ _ X2) in V.
  assert (V' : run_view W2 w').
  { unfold Kill in Hw'. case_match; [done|]. by eapply run_view_free. }
  apply safe_drop; [apply revokeLease_safe|]. intros W3 _ X3 I3.
  apply safe_update; [by eapply run_view_stable|done|].
  intros. apply safe_drop; [apply Record_safe|]. intros. apply safe_drop; [apply notify_safe|].
  intros. apply safe_drop; [apply ms_since_safe|]. intros. apply safe_drop; [apply emitTerminal_safe|].
  intros. apply safe_done.
Qed.

Lemma PauseWorkflow_safe id reason actor W : safe (PauseWorkflow id reason actor) anything W.
Proof.
  unfold PauseWorkflow. eapply safe_try_call; [apply WfFindByID_ok| |done|].
  { intros ? ? ? X [? ?]. split; [by eapply run_view_stable|done]. }
  intros W1 w X1 I1 [V _]. apply safe_clock. intros W2 now X2 I2 Hz. apply safe_try_pure; [done|].
  intros w' Hw'. apply (run_view_stable _ _ _ X2) in V.
  eapply run_view_free in Hw' as (V' & _); [|done..]. apply safe_update; [done..|].
  intros. apply safe_drop; [apply Record_safe|]. intros. apply safe_done.
Qed.

(** A run with a lease may run. *)
Lemma Resume_view W w reason actor now w' :
  run_view W w → Resume w reason actor now = Ok w' → ts_Time now ≠ 0%Z →
  authorized W (wfID w) → run_view W w'.
Proof.
  intros V H Hz A. eapply run_view_transition; [done..|]. intros t Hf Ht. apply justified_cases.
  rewrite Ht. intros _. by apply run_view_may_run.
Qed.

Lemma run_found_stable id : stable (λ W w, run_view W w ∧ wfID w = id).
Proof. intros W W' w X [? ?]. split; [by eapply run_view_stable|done]. Qed.

Lemma ResumeWorkflow_safe id reason actor W : safe (ResumeWorkflow id reason actor) anything W.
Proof.
  unfold ResumeWorkflow.
  eapply safe_try_call; [apply WfFindByID_ok|apply run_found_stable|done|].
  intros W1 w X1 I1 [V Hid]. eapply safe_try_call; [apply LeaseFind_ok|apply lease_found_stable|done|].
  intros W2 l X2 I2 [_ Au]. apply safe_if; [apply safe_done|].
  apply safe_clock. intros W3 now X3 I3 Hz. apply safe_try_pure; [done|]. intros w' Hw'.
  apply (run_view_stable _ _ _ X2), (run_view_stable _ _ _ X3) in V.
  apply (authorized_ext _ _ _ X3) in Au. rewrite <- Hid in Au.
  pose proof (Resume_view _ _ _ _ _ _ V Hw' Hz Au) as V'. apply safe_update; [done..|].
  intros. apply safe_drop; [apply Record_safe|]. intros. apply safe_drop; [apply notify_safe|].
  intros. apply safe_done.
Qed.

(** The optional fields of a validated result come together. *)
Lemma Validate_fields a stage :
  Validate a = Ok () → arFailureStage a = Some stage →
  is_Some (arFailureCode a) ∧ is_Some (arRetryable a).
Proof.
  unfold Validate, is_nil. intros H E. rewrite E in H. destruct (arStatus a); simpl in H; [done| | |done].
  all: destruct (arFailureCode a), (arRetryable a); simplify_eq/=; try case_decide; naive_solver.
Qed.

Lemma attemptContext_Some l a : Validate a = Ok () → is_Some (attemptContext l a).
Proof.
  intros V. unfold attemptContext. destruct (arFailureStage a) as [s|] eqn:E; [|by eexists].
  by destruct (Validate_fields _ _ V E) as [[? ->] [? ->]]; eexists.
Qed.

Lemma onTransition_safe `{Wiring} t W : safe (onTransition t) anything W.
Proof.
  unfold onTransition. destruct (AuditListener t) as [[a o] c]. apply safe_drop; [apply Record_safe|].
  intros. apply safe_if; [apply emitAll_safe|apply safe_done].
Qed.

Lemma observeBreaker_safe `{Wiring} a now W : safe (observeBreaker a now) anything W.
Proof.
  unfold observeBreaker. apply safe_if; [|apply safe_done].
  destruct (arToolName a), (arAgentRole a); try apply safe_done.
  apply safe_plain; [done|]. intros W1 [t|] _ _; [apply onTransition_safe|apply safe_done].
Qed.

Lemma reportAttempt_safe `{Wiring} w a ctx now W :
  Validate a = Ok () → safe (reportAttempt w a ctx now) anything W.
Proof.
  intros V. unfold reportAttempt. apply safe_drop; [apply Record_safe|]. intros.
  apply safe_drop. { case_decide; [apply Record_safe|apply safe_done]. } intros.
  apply safe_drop. { apply safe_if; [apply notify_safe|apply safe_done]. } intros.
  apply safe_drop.
  { apply safe_if; [|apply safe_done]. apply safe_drop; [apply ms_since_safe|]. intros.
    apply emitTerminal_safe. } intros.
  apply safe_drop.
  { destruct (arFailureStage a) as [s|] eqn:E; [|apply safe_done].
    destruct (Validate_fields _ _ V E) as [[? ->] [? ->]]. apply emitFailure_safe. } intros.
  apply safe_drop; [apply observeBreaker_safe|]. intros. apply safe_done.
Qed.

Lemma RecordAttempt_view id W l l' :
  lease_view id W l → RecordAttempt l = Ok l' → lease_view id W l'.
Proof.
  intros [(Hi & Hb & Ht & He) Hr] E. pose proof (RecordAttempt_inv _ _ Hi E).
  unfold RecordAttempt in E. case_decide; [|done]. injection E as <-. by split.
Qed.

Lemma attemptTransition_view W w l status now w' :
  run_view W w → ts_Time now ≠ 0%Z → attemptTransition w l status now = Ok w' → run_view W w'.
Proof.
  intros V Hz. unfold attemptTransition. destruct status; try (by intros [= <-]).
  - rewrite wrap_Ok. intros H. by eapply run_view_free.
  - case_match; [by intros [= <-]|]. rewrite wrap_Ok. intros H'. by eapply run_view_free.
Qed.

Lemma RegisterAttempt_safe `{Wiring} id a W : safe (RegisterAttempt id a) anything W.
Proof.
  unfold RegisterAttempt.
  eapply safe_try_call; [apply WfFindByID_ok|apply run_found_stable|done|].
  intros W1 w X1 I1 [V _]. apply safe_if; [apply safe_done|].
  apply safe_try_pure; [done|]. intros [] Hv.
  eapply safe_try_call; [apply LeaseFind_ok|apply lease_found_stable|done|].
  intros W2 l X2 I2 [L _]. apply safe_try_pure; [done|]. intros l' Hl'.
  apply (RecordAttempt_view _ _ _ _ L) in Hl'. apply safe_clock. intros W3 now X3 I3 Hz.
  apply (run_view_stable _ _ _ X2), (run_view_stable _ _ _ X3) in V.
  destruct (attemptTransition _ _ _ _) as [w'|] eqn:E; [|apply safe_done].
  apply (attemptTransition_view _ _ _ _ _ _ V Hz) in E.
  eapply safe_try_call; [eapply LeaseUpdate_ok; by eapply lease_view_stable|by apply anything_stable|done|].
  intros W4 _ X4 I4 _. apply safe_update; [by eapply run_view_stable|done|]. intros W5 X5 I5.
  destruct (attemptContext_Some l' a Hv) as [ctx ->]. by apply reportAttempt_safe.
Qed.

Lemma GetWorkflowStatus_safe id W : safe (GetWorkflowStatus id) anything W.
Proof.
  unfold GetWorkflowStatus. eapply safe_try_call; [apply WfFindByID_ok|apply run_found_stable|done|].
  intros. apply safe_done.
Qed.

Lemma GetWorkflowByTask_safe tk W : safe (GetWorkflowByTask tk) anything W.
Proof.
  unfold GetWorkflowByTask. eapply safe_try_call; [apply WfFindByTaskID_ok| |done|intros; apply safe_done].
  intros ? ? ? X [? ?]. split; [by eapply run_view_stable|done].
Qed.

(** * Approvals *)

Lemma emitApprovalWait_safe `{Wiring} d r W : safe (emitApprovalWait d r) anything W.
Proof.
  unfold emitApprovalWait. apply safe_if; [|apply safe_done]. eapply safe_call; [done|]. by apply plain_ok.
Qed.

Lemma grant_safe w by_ now W :
  run_view W w → approval_resolved W (wfID w) → ts_Time now ≠ 0%Z → safe (grant w by_ now) anything W.
Proof.
  intros V R Hz. unfold grant. apply safe_try_pure; [done|]. intros w1 H1.
  eapply run_view_transition in H1 as (V1 & Hid1 & _); [|done..|].
  2: { intros t _ Ht. apply justified_cases. by rewrite Ht. }
  apply safe_try_pure; [done|]. intros w2 H2.
  eapply run_view_transition in H2 as (V2 & Hid2 & _); [|done..|].
  2: { intros t _ Ht. apply justified_cases. rewrite Ht. intros _. right. by rewrite Hid1. }
  eapply safe_bind; [apply newLease_safe|]. intros W1 [l|e] X1 I1 Hl; [|apply safe_done].
  destruct Hl as [F E]. apply (run_view_stable _ _ _ X1) in V2.
  apply safe_grant_lease; [done| |done|].
  { rewrite E. apply run_view_authorized_approval; [done|]. rewrite Hid2, Hid1.
    by eapply approval_resolved_ext. }
  intros W2 X2 I2. apply safe_update; [by eapply run_view_stable|done|].
  intros. apply safe_drop; [apply notify_safe|]. intros. apply safe_done.
Qed.

Lemma refuse_safe w by_ reason now W :
  run_view W w → ts_Time now ≠ 0%Z → safe (refuse w by_ reason now) anything W.
Proof.
  intros V Hz. unfold refuse. apply safe_try_pure; [done|]. intros w' Hw'.
  eapply run_view_free in Hw' as (V' & _); [|done..]. apply safe_update; [done..|].
  intros. apply safe_drop; [apply notify_safe|]. intros. apply safe_done.
Qed.

Lemma resolve_view W req by_ reason st now req' :
  approval_view W req → Approval.IsTerminal st = true → resolve req by_ reason st now = Ok req' →
  approval_view W req' ∧ Approval.IsTerminal (apStatus req') = true ∧
  apWorkflowRunID req' = apWorkflowRunID req.
Proof.
  intros [[Hr Ha] (r & Hrow & E)] T H.
  apply resolve_Ok in H as (_ & Hs & Hres & Hid & _ & Hw & Hre & _).
  split_and!; [|by rewrite Hs|done]. split; [|exists r; by rewrite Hid, Hw].
  unfold approval_inv. by rewrite Hre, Hres, Hs.
Qed.

Lemma ResolveApproval_safe `{Wiring} input W : safe (ResolveApproval input) anything W.
Proof.
  unfold ResolveApproval.
  eapply safe_try_call; [apply ApprovalFind_ok|apply approval_view_stable|done|].
  intros W1 req X1 I1 V. apply safe_clock. intros W2 now X2 I2 Hz.
  apply (approval_view_stable _ _ _ X2) in V.
  match goal with |- safe (match ?r with _ => _ end) _ _ => destruct r as [req'|] eqn:E end;
    [|apply safe_done].
  assert (Hreq : approval_view W2 req' ∧ Approval.IsTerminal (apStatus req') = true ∧
              apWorkflowRunID req' = apWorkflowRunID req).
  { destruct (raApproved input); apply wrap_Ok in E; by eapply resolve_view in E. }
  destruct Hreq as (V' & T & Hw).
  eapply safe_try_call; [by apply ApprovalUpdate_ok| |done|].
  { intros ? ? ? X. by apply approval_resolved_ext. }
  intros W3 u X3 I3 R. eapply safe_try_call; [apply WfFindByID_ok|apply run_found_stable|done|].
  intros W4 w X4 I4 [Vw Hid].
  apply safe_drop.
  { apply safe_if; [|by apply refuse_safe]. apply grant_safe; [done| |done].
    rewrite Hid. exact (approval_resolved_ext _ _ _ X4 R). }
  intros W5 [w'|e] X5 I5; [|apply safe_done].
  apply safe_drop; [apply Record_safe|]. intros. apply safe_drop; [apply ms_since_safe|]. intros.
  apply safe_drop; [apply emitApprovalWait_safe|]. intros. apply safe_drop.
  { apply safe_if; [|apply safe_done]. apply safe_drop; [apply ms_since_safe|]. intros.
    apply emitTerminal_safe. }
  intros. apply safe_done.
Qed.

Lemma GetPendingApprovals_safe W : safe GetPendingApprovals anything W.
Proof.
  unfold GetPendingApprovals.
  eapply safe_try_call; [apply ApprovalFindPending_ok|by apply anything_stable|done|].
  intros. apply safe_done.
Qed.

(** * Escalations and the governance facade *)

Lemma TriggerEscalation_safe tk cond target W : safe (TriggerEscalation tk cond target) anything W.
Proof.
  unfold TriggerEscalation. apply safe_clock. intros W1 now _ _ _. apply safe_plain; [done|].
  intros W2 id _ _. apply safe_try_pure; [done|]. intros t _.
  eapply safe_try_call; [apply EscalationSave_ok|by apply anything_stable|done|].
  intros. apply safe_drop; [apply Record_safe|]. intros. apply safe_done.
Qed.

Lemma EvaluatePhase_safe in_ W : safe (EvaluatePhase in_) anything W.
Proof.
  unfold EvaluatePhase. repeat (case_decide; [apply safe_done|]).
  apply safe_plain; [done|]. intros W1 id _ _. apply safe_plain; [done|]. intros W2 now _ _.
  eapply safe_try_call; [apply PhaseDecisionSave_ok|by apply anything_stable|done|].
  intros. apply safe_done.
Qed.

Lemma EvaluateSensitive_safe in_ W : safe (EvaluateSensitive in_) anything W.
Proof.
  unfold EvaluateSensitive. repeat (case_decide; [apply safe_done|]).
  apply safe_plain; [done|]. intros W1 id _ _. apply safe_plain; [done|]. intros W2 now _ _.
  eapply safe_try_call; [apply PhaseDecisionSave_ok|by apply anything_stable|done|].
  intros. apply safe_done.
Qed.

Lemma ApprovalStatusFor_safe c p W : safe (ApprovalStatusFor c p) anything W.
Proof.
  unfold ApprovalStatusFor. case_decide; [apply safe_done|].
  eapply safe_tryf; [eapply safe_call; [|by apply plain_ok]; done|done|].
  intros W1 [r|] _ _ _; apply safe_done.
Qed.

(** * The pipeline, against the interface it is a client of *)

(** The contract of the four services ProcessTask is constructed with. *)
Class SafePipeline (P : Pipeline) := {
  SubmitTask_contract input W : safe (pl_SubmitTask input) anything W;
  RouteTask_contract tk W : safe (pl_RouteTask tk) anything W;
  EvaluatePolicy_contract tk action W : safe (pl_EvaluatePolicy tk action) anything W;
  StartWorkflow_contract tk W : safe (pl_StartWorkflow tk) anything W;
}.

Lemma ProcessTask_safe `{P : Pipeline} `{!SafePipeline P} input action W :
  safe (ProcessTask input action) anything W.
Proof.
  unfold ProcessTask.
  eapply safe_tryf; [apply SubmitTask_contract|done|]. intros.
  eapply safe_tryf; [apply RouteTask_contract|done|]. intros.
  eapply safe_tryf; [apply EvaluatePolicy_contract|done|]. intros.
  eapply safe_tryf; [apply StartWorkflow_contract|done|]. intros. apply safe_done.
Qed.

#[export] Instance governance_pipeline_safe `{Wiring} : SafePipeline governance_pipeline := {
  SubmitTask_contract := SubmitTask_safe;
  RouteTask_contract := RouteTask_safe;
  EvaluatePolicy_contract := EvaluatePolicy_safe;
  StartWorkflow_contract := StartWorkflow_safe;
}.
End services.
