(* ===== verification/DecoratorSpecs.v ===== *)
(** The decorators of the inbound ports are transparent: they add reports to the tree of calls
    of the service they wrap and change neither its result nor what it stores. *)

From stdpp Require Import options.
From S2P Require Import Prelude GoLib Shared Task Workflow Execution Approval Escalation Policy.
From S2P Require Import Routing AuditLog Resilience Persistence Queries Ports AuditService Intake.
From S2P Require Import RouteTask PolicyEval WorkflowService ApprovalService EscalationService.
From S2P Require Import GovDecisions ProcessTask Inbound Decorators Config ProgramLogic PortSpecs ServiceSpecs.

(** * Trees that differ by reports *)

(** Calls nothing but a report depends on. *)
Definition telemetry {X} (q : port X) : bool :=
  match q with Metric _ | Tracer _ | TimeNow => true | _ => false end.

(** [decorates p q]: [p] makes the calls of [q], in order and with the same continuations,
    among further telemetry calls whose answers it does not pass on. *)
Inductive decorates {A} : proc A → proc A → Prop :=
  | dec_ret a : decorates (Ret a) (Ret a)
  | dec_panic : decorates Panic Panic
  | dec_call {X} (q : port X) k k' :
      (∀ x, decorates (k x) (k' x)) → decorates (Call q k) (Call q k')
  | dec_report {X} (q : port X) k p :
      telemetry q = true → (∀ x, decorates (k x) p) → decorates (Call q k) p.
#[local] Hint Constructors decorates : core.

#[export] Instance decorates_refl {A} : Reflexive (@decorates A).
Proof. intros p. induction p; auto. Qed.

Lemma decorates_bind {A B} (p p' : proc A) (f f' : A → proc B) :
  decorates p p' → (∀ a, decorates (f a) (f' a)) → decorates (p ≫= f) (p' ≫= f').
Proof. intros H Hf. induction H; simpl; auto; constructor; auto. Qed.

(** What follows [p] only reports. *)
Lemma decorates_after {A} (p p' : proc A) (f : A → proc A) :
  decorates p p' → (∀ a, decorates (f a) (Ret a)) → decorates (p ≫= f) p'.
Proof. intros H Hf. induction H; simpl; auto; constructor; auto. Qed.

(** A report before [q]. *)
Lemma decorates_before {A} (u : proc unit) (p q : proc A) :
  decorates u (Ret tt) → decorates p q → decorates (u ≫= λ _, p) q.
Proof. intros Hu Hp. exact (decorates_bind u (Ret tt) _ (λ _, q) Hu (λ _, Hp)). Qed.

Lemma telemetry_call {X} (q : port X) {A} (f : X → proc A) p :
  telemetry q = true → (∀ x, decorates (f x) p) → decorates (call q ≫= f) p.
Proof. intros T Hf. by apply dec_report. Qed.

Lemma telemetry_unit (q : port unit) : telemetry q = true → decorates (call q) (Ret tt).
Proof. intros T. apply dec_report; [done|]. intros []. auto. Qed.

(** * The combinators of the decorators *)

Lemma set_attributes_reports groups : decorates (set_attributes groups) (Ret tt).
Proof. induction groups; [done|]. by apply telemetry_call. Qed.

Lemma measured_decorates {A} (p p' : proc (result A)) report :
  decorates p p' → (∀ x, decorates (report x) (Ret tt)) → decorates (measured p report) p'.
Proof. intros Hp Hr. apply decorates_after; [done|]. intros [x|e]; [by apply decorates_before|done]. Qed.

Lemma traced_decorates {A} name attrs (p p' : proc (result A)) groups :
  decorates p p' → decorates (traced name attrs p groups) p'.
Proof.
  intros Hp. apply telemetry_call; [done|]. intros _. apply decorates_after; [done|]. intros r.
  apply decorates_before; [destruct r; [apply set_attributes_reports|by apply telemetry_unit]|].
  by apply telemetry_call.
Qed.

Lemma spanned_decorates {A} name (p p' : proc A) : decorates p p' → decorates (spanned name p) p'.
Proof.
  intros Hp. apply telemetry_call; [done|]. intros _. apply decorates_after; [done|]. intros x.
  by apply telemetry_call.
Qed.

Lemma measure_reports i v attrs : decorates (measure i v attrs) (Ret tt).
Proof. by apply telemetry_unit. Qed.

(** * The outbound adapters *)

(** The notifier gives the answer of the callback, and none registered is success. *)
Lemma deliver_decorates n ev :
  decorates (deliver n ev)
    (default (Ret (Ok tt))
       match ev with
       | OnExecutionReady wf lease => (λ f, f wf lease) <$> onExecutionReady n
       | OnApprovalRequired wf req => (λ f, f wf req) <$> onApprovalRequired n
       | OnWorkflowTerminated wf reason => (λ f, f wf reason) <$> onWorkflowTerminated n
       end).
Proof. destruct ev; apply traced_decorates; by destruct (_ <$> _). Qed.

(** The stub always has a context for routing, and it says nothing. *)
Lemma stub_decorates taskID query :
  decorates (Stub_GetRelevantContext taskID query)
    (Ret (Ok (Some {| mcSimilarTaskFailureRate := float_of_int 0; mcHasRelevantHeuristics := false |}))).
Proof. do 2 (apply telemetry_call; [done|]; intros _). done. Qed.

(** * The decorated ports *)

(** Two implementations of a port whose operations are related. *)
Section port_relations.
Variable R : ∀ A, proc A → proc A → Prop.
Arguments R {A}.

Record governance_rel (s s' : GovernanceService) : Prop := {
  dg_SubmitTask : ∀ input, R (gs_SubmitTask s input) (gs_SubmitTask s' input);
  dg_ProcessTask : ∀ input a, R (gs_ProcessTask s input a) (gs_ProcessTask s' input a);
  dg_RouteTask : ∀ t, R (gs_RouteTask s t) (gs_RouteTask s' t);
  dg_EvaluatePolicy : ∀ t a, R (gs_EvaluatePolicy s t a) (gs_EvaluatePolicy s' t a);
  dg_StartWorkflow : ∀ t, R (gs_StartWorkflow s t) (gs_StartWorkflow s' t);
}.

Record control_rel (s s' : WorkflowControl) : Prop := {
  dc_Kill : ∀ id r a, R (wc_KillWorkflow s id r a) (wc_KillWorkflow s' id r a);
  dc_Pause : ∀ id r a, R (wc_PauseWorkflow s id r a) (wc_PauseWorkflow s' id r a);
  dc_Resume : ∀ id r a, R (wc_ResumeWorkflow s id r a) (wc_ResumeWorkflow s' id r a);
  dc_Attempt : ∀ id a, R (wc_RegisterAttempt s id a) (wc_RegisterAttempt s' id a);
}.

Record approvals_rel (s s' : ApprovalPort) : Prop := {
  da_Resolve : ∀ input, R (ap_ResolveApproval s input) (ap_ResolveApproval s' input);
  da_Pending : R (ap_GetPendingApprovals s) (ap_GetPendingApprovals s');
}.

Record queries_rel (s s' : QueryService) : Prop := {
  dq_GetTask : ∀ id, R (qs_GetTask s id) (qs_GetTask s' id);
  dq_Status : ∀ id, R (qs_GetWorkflowStatus s id) (qs_GetWorkflowStatus s' id);
  dq_ByTask : ∀ t, R (qs_GetWorkflowByTask s t) (qs_GetWorkflowByTask s' t);
  dq_Audit : ∀ f, R (qs_QueryAuditTrail s f) (qs_QueryAuditTrail s' f);
  dq_List : ∀ f, R (qs_ListWorkflows s f) (qs_ListWorkflows s' f);
  dq_Breakers : ∀ f, R (qs_ListBreakers s f) (qs_ListBreakers s' f);
  dq_Breaker : ∀ t r, R (qs_GetBreakerState s t r) (qs_GetBreakerState s' t r);
}.

Record escalation_rel (s s' : EscalationPort) : Prop := {
  de_Trigger : ∀ t c tg, R (es_TriggerEscalation s t c tg) (es_TriggerEscalation s' t c tg);
}.
End port_relations.

Definition decorates_governance : GovernanceService → GovernanceService → Prop := governance_rel (@decorates).
Definition decorates_control : WorkflowControl → WorkflowControl → Prop := control_rel (@decorates).
Definition decorates_approvals : ApprovalPort → ApprovalPort → Prop := approvals_rel (@decorates).
Definition decorates_queries : QueryService → QueryService → Prop := queries_rel (@decorates).
Definition decorates_escalation : EscalationPort → EscalationPort → Prop := escalation_rel (@decorates).

Lemma governance_rel_mono (R R' : ∀ A, proc A → proc A → Prop) s s' :
  (∀ A p q, R A p q → R' A p q) → governance_rel R s s' → governance_rel R' s s'.
Proof. intros H []. split; auto. Qed.
Lemma control_rel_mono (R R' : ∀ A, proc A → proc A → Prop) s s' :
  (∀ A p q, R A p q → R' A p q) → control_rel R s s' → control_rel R' s s'.
Proof. intros H []. split; auto. Qed.
Lemma approvals_rel_mono (R R' : ∀ A, proc A → proc A → Prop) s s' :
  (∀ A p q, R A p q → R' A p q) → approvals_rel R s s' → approvals_rel R' s s'.
Proof. intros H []. split; auto. Qed.
Lemma queries_rel_mono (R R' : ∀ A, proc A → proc A → Prop) s s' :
  (∀ A p q, R A p q → R' A p q) → queries_rel R s s' → queries_rel R' s s'.
Proof. intros H []. split; auto. Qed.
Lemma escalation_rel_mono (R R' : ∀ A, proc A → proc A → Prop) s s' :
  (∀ A p q, R A p q → R' A p q) → escalation_rel R s s' → escalation_rel R' s s'.
Proof. intros H []. split; auto. Qed.

Lemma MetricsGovernance_decorates s : decorates_governance (MetricsGovernanceService s) s.
Proof.
  split; intros; simpl; try done.
  - apply measured_decorates; [done|]. intros. apply measure_reports.
  - apply telemetry_call; [done|]. intros start. apply measured_decorates; [done|]. intros x.
    apply telemetry_call; [done|]. intros now. apply measure_reports.
  - apply telemetry_call; [done|]. intros start. apply measured_decorates; [done|]. intros x.
    apply telemetry_call; [done|]. intros now. apply decorates_before; apply measure_reports.
Qed.

Lemma TracedGovernance_decorates s s' :
  decorates_governance s s' → decorates_governance (TracedGovernanceService s) s'.
Proof. intros []. split; intros; simpl; apply traced_decorates; auto. Qed.

Lemma MetricsControl_decorates s : decorates_control (MetricsWorkflowControl s) s.
Proof.
  split; intros; simpl; unfold Metrics_RegisterAttempt; apply measured_decorates; try reflexivity;
    intros; apply measure_reports.
Qed.

Lemma TracedControl_decorates s s' :
  decorates_control s s' → decorates_control (TracedWorkflowControl s) s'.
Proof. intros []. split; intros; simpl; apply traced_decorates; auto. Qed.

Lemma TracedApproval_decorates s : decorates_approvals (TracedApprovalService s) s.
Proof. split; intros; simpl; apply traced_decorates; reflexivity. Qed.

Lemma TracedQuery_decorates s : decorates_queries (TracedQueryService s) s.
Proof.
  split; intros; simpl; first [apply traced_decorates | apply spanned_decorates]; reflexivity.
Qed.

Lemma TracedEscalation_decorates s : decorates_escalation (TracedEscalationPort s) s.
Proof. split; intros; simpl; apply traced_decorates; reflexivity. Qed.

(** * What a decorated service does *)

Section soundness.
Context {PG : Postgres}.

(** A decorated service is as safe as the service. *)
Lemma decorates_safe {A} (p q : proc A) Q W : decorates p q → safe q Q W → safe p Q W.
Proof.
  intros H. revert W. induction H as [a| |X c k k' _ IH|X c k p T _ IH]; intros W S; [done..| |].
  - intros W1 X1 I1 ch G. destruct (S W1 X1 I1 ch G) as (E & I & S'). split_and!; [done..|]. by apply IH.
  - eapply (safe_plain c k); [by destruct c|]. intros W' x X1 _. apply IH. by eapply safe_ext.
Qed.

(** Two states that differ in the measurements only. *)
Definition unmeasured (W : World) : World := with_metrics W [].
Definition same_but_metrics (W W' : World) : Prop := unmeasured W = unmeasured W'.

#[export] Instance same_but_metrics_equiv : Equivalence same_but_metrics.
Proof. unfold same_but_metrics. split; [done|by intros ?? ->|by intros ??? -> ->]. Qed.

Lemma same_but_metrics_spec W W' : same_but_metrics W W' → ∃ m, W' = with_metrics W m.
Proof.
  destruct W as [? ? ? ? ? ? ? ? ? ? ? ? ? m], W' as [? ? ? ? ? ? ? ? ? ? ? ? ? m'].
  unfold same_but_metrics, unmeasured, with_metrics, with_rest; simpl. intros [=]. subst. by exists m'.
Qed.

Lemma same_metrics W m : same_but_metrics (with_metrics W m) W.
Proof. done. Qed.

Lemma db_write_metrics ctx f W m r r' :
  r' = (λ W', with_metrics W' m) <$> r →
  (db_write ctx f (with_metrics W m) r').1 = (db_write ctx f W r).1 ∧
  same_but_metrics (db_write ctx f (with_metrics W m) r').2 (db_write ctx f W r).2.
Proof. intros ->. by destruct f, r. Qed.

(** No call but a measurement reads or writes them. *)
Lemma exec_metrics {X} (q : port X) c W m :
  (exec c q (with_metrics W m)).1 = (exec c q W).1 ∧
  same_but_metrics (exec c q (with_metrics W m)).2 (exec c q W).2.
Proof.
  destruct q; step_call; try (by split);
    try (apply db_write_metrics; first [by destruct (insert_row _ _ _ _) | cbn; by case_match]).
  all: try (case_match; [|by split]; apply db_write_metrics; by destruct (insert_row _ _ _ _)).
  - change (w_workflows (with_metrics W m)) with (w_workflows W).
    case_match; [|case_match; [by apply db_write_metrics|by split]].
    case_match; [|by split]. apply db_write_metrics. cbn. by destruct (_ && _).
  - change (w_leases (with_metrics W m)) with (w_leases W).
    case_match; [|case_match; [by apply db_write_metrics|by split]].
    destruct (updateLeaseRow _ _); [|by split]. by apply db_write_metrics.
  - change (w_approvals (with_metrics W m)) with (w_approvals W).
    by case_match; apply db_write_metrics.
  - case_match; [|by split]. apply db_write_metrics. cbn. by destruct (forallb _ _).
  - cbn. by destruct (Registry_Observe _ _ _ _ _ _).
Qed.

(** The choices of [o] in order, some of them left out. *)
Definition drawn_from (o o' : nat → choice) : Prop := ∀ P : choice → Prop, (∀ n, P (o n)) → ∀ n, P (o' n).

Definition ocons (c : choice) (o : nat → choice) : nat → choice := λ n, match n with O => c | S n => o n end.

(** What a decorated service does in a run, the service does in a run with the same choices for
    its own calls: the outcome is the same, and so is the state but for the measurements. *)
Lemma decorates_run {A} (p q : proc A) :
  decorates p q → ∀ o W W', same_but_metrics W W' →
  ∃ o', drawn_from o o' ∧ (run q o' W').1.1 = (run p o W).1.1 ∧
        same_but_metrics (run p o W).1.2 (run q o' W').1.2.
Proof.
  induction 1 as [a| |X c k k' _ IH|X c k p T _ IH]; intros o W W' E;
    [exists o; by split; [intros P HP|]..| |].
  - apply same_but_metrics_spec in E as [m ->]. destruct (exec_metrics c (o 0) W m) as [E1 E2].
    simpl. destruct (exec (o 0) c W) as [x W1] eqn:Ex. destruct (exec (o 0) c (with_metrics W m)) as [x' W1'] eqn:Ex'.
    simpl in E1, E2. subst x'. destruct (IH x (λ n, o (S n)) W1 W1') as (o' & D & R1 & R2); [by symmetry|].
    exists (ocons (o 0) o'). split; [intros P HP [|n]; [apply HP|by apply (D P)]|].
    simpl. by rewrite Ex'.
  - simpl. assert (Ec : same_but_metrics (exec (o 0) c W).2 W) by by destruct c.
    destruct (exec (o 0) c W) as [x W1]. destruct (IH x (λ n, o (S n)) W1 W') as (o' & D & R1 & R2); [by etrans|].
    exists o'. split; [|done]. intros P HP. by apply (D P).
Qed.

(** Every run of [p] is a run of [q] under the same choices for its calls: it ends with the same
    outcome in the same state, but for the measurements. *)
Definition transparent A (p q : proc A) : Prop := ∀ o W, ∃ o',
  drawn_from o o' ∧ (run q o' W).1.1 = (run p o W).1.1 ∧ same_but_metrics (run p o W).1.2 (run q o' W).1.2.

Lemma decorates_transparent A (p q : proc A) : decorates p q → transparent A p q.
Proof. intros D o W. by apply decorates_run. Qed.

End soundness.

(** * What a tree can call *)

(** Every call [p] can make satisfies [P]. *)
Fixpoint calls (P : ∀ X, port X → Prop) {A} (p : proc A) : Prop :=
  match p with
  | Ret _ | Panic => True
  | Call q k => P _ q ∧ ∀ x, calls P (k x)
  end.

Section calls.
Context (P : ∀ X, port X → Prop).

Lemma calls_call {X A} (q : port X) (f : X → proc A) : P X q → (∀ x, calls P (f x)) → calls P (call q ≫= f).
Proof. by split. Qed.

Lemma calls_bind {A B} (p : proc A) (f : A → proc B) :
  calls P p → (∀ a, calls P (f a)) → calls P (p ≫= f).
Proof.
  intros Hp Hf. induction p as [a|X q k IH|]; [apply Hf| |done].
  destruct Hp as [Hq Hk]. split; [done|]. intros x. by apply IH.
Qed.

Lemma calls_try {A B} ctx args (p : proc (result A)) (f : A → proc (result B)) :
  calls P p → (∀ a, calls P (f a)) → calls P (tryf ctx args p f).
Proof. intros Hp Hf. apply calls_bind; [done|]. by intros [a|e]. Qed.

Lemma calls_sentinel {A B} s (p : proc (result A)) (f : A → proc (result B)) :
  calls P p → (∀ a, calls P (f a)) → calls P (try_sentinel s p f).
Proof. intros Hp Hf. apply calls_bind; [done|]. by intros [a|e]. Qed.

Lemma calls_clock {B} (f : Timestamp → proc B) :
  P Time TimeNow → (∀ t, calls P (f t)) → calls P (clock_Now ≫= f).
Proof. intros H Hf. apply calls_bind; [|done]. split; [done|]. intros t. simpl. by destruct (MustTimestamp t). Qed.
End calls.

Ltac measures :=
  repeat first
    [ done | progress intros | solve [split; [done|intros; done]] | solve [auto] | apply calls_try | apply calls_sentinel | apply calls_clock
    | apply calls_bind | case_match | case_decide ].

(** * What is not measured *)

(** Every measurement [p] can make is on one of the instruments [l]. *)
Definition measures_only (l : list string) {A} (p : proc A) : Prop :=
  calls (λ _ q, match q with Metric m => mInstrument m ∈ l | _ => True end) p.

Lemma measures_Record l actor action outcome ctx t w : measures_only l (Record_ actor action outcome ctx t w).
Proof. unfold measures_only, Record_. measures. Qed.

Lemma measures_terminal `{Wiring} l st d :
  "TasksCompleted" ∈ l → "WorkflowDuration" ∈ l → measures_only l (emitTerminal st d).
Proof. intros. unfold emitTerminal. destruct has_metrics; [|done]. split; [done|]. intros x. by split. Qed.

Definition lifecycle_instruments : list string := ["TasksCompleted"; "WorkflowDuration"].

Lemma measures_pipeline `{Wiring} input taskID action :
  measures_only lifecycle_instruments (SubmitTask input) ∧
  measures_only lifecycle_instruments (RouteTask taskID) ∧
  measures_only lifecycle_instruments (PolicyEval.EvaluatePolicy taskID action) ∧
  measures_only lifecycle_instruments (StartWorkflow taskID).
Proof.
  assert (T : ∀ st d, measures_only lifecycle_instruments (emitTerminal st d))
    by (intros; apply measures_terminal; repeat constructor).
  assert (R := measures_Record lifecycle_instruments). unfold measures_only in *.
  split_and!.
  - unfold SubmitTask. measures.
  - unfold RouteTask, loadOrCreateRun, createDecomposeSubtasks. measures.
  - unfold PolicyEval.EvaluatePolicy. measures.
  - unfold StartWorkflow, startDenied, startAwaitingApproval, startRunning, newLease, ms_since. measures.
Qed.

(** A task processed in one call is not counted: the pipeline calls the undecorated use cases, so
    no measurement of submissions, routing or policy evaluation is made. *)
Theorem process_task_not_counted `{Wiring} g input action :
  gs_ProcessTask g = ProcessTask →
  measures_only lifecycle_instruments (gs_ProcessTask (MetricsGovernanceService g) input action).
Proof.
  intros E. simpl. rewrite E. unfold ProcessTask.
  apply calls_try; [apply (measures_pipeline input "" "")|]. intros t.
  apply calls_try; [apply (measures_pipeline input _ "")|]. intros rd.
  apply calls_try; [apply (measures_pipeline input)|]. intros pd.
  apply calls_try; [apply (measures_pipeline input _ "")|]. done.
Qed.
