(* ===== verification/BootSpecs.v ===== *)
(** The life of the process: every execution of [Bootstrap] is a script, cut where an essential
    call fails, and closed. *)

From stdpp Require Import options.
From S2P Require Import Prelude GoLib Shared AuditLog Ports Inbound Decorators Config Handlers Wire ObsLog.
From S2P Require Import Bootstrap.

(** * The script *)

Definition instrument_table : list (InstrumentKind * string * string * string) :=
  [(Int64Counter, "governance.tasks.submitted", "Number of tasks submitted to the governance pipeline", "");
   (Int64Counter, "governance.tasks.completed", "Number of tasks that completed processing", "");
   (Float64Histogram, "governance.routing.duration_ms", "Time spent evaluating routing strategies", "ms");
   (Float64Histogram, "governance.policy.duration_ms", "Time spent evaluating policy rules", "ms");
   (Int64Counter, "governance.policy.outcomes", "Count of policy evaluation outcomes by type", "");
   (Float64Histogram, "governance.workflow.duration_ms", "Total workflow execution duration", "ms");
   (Int64Counter, "governance.workflow.transitions", "Count of workflow state transitions", "");
   (Float64Histogram, "governance.approval.wait_ms", "Time spent waiting for approval", "ms");
   (Float64Histogram, "governance.execution.attempts", "Distribution of execution attempt counts", "");
   (Int64Counter, "governance.execution.failures", "Count of execution failures", "");
   (Float64Histogram, "governance.memory.duration_ms", "Time spent on memory context operations", "ms");
   (Int64Counter, "governance.memory.degraded", "Count of degraded memory context events", "");
   (Int64Counter, "governance.circuit_breaker.transitions", "Number of circuit breaker state transitions", "");
   (Int64Counter, "governance.circuit_breaker.trips", "Number of CLOSED→OPEN transitions by trip reason", "")].

(** The handles of the services and decorators, with the kinds of the instruments behind them. *)
Definition handles : list (string * InstrumentKind) :=
  [("TasksSubmitted", Int64Counter); ("TasksCompleted", Int64Counter);
   ("RoutingDuration", Float64Histogram); ("PolicyDuration", Float64Histogram);
   ("PolicyOutcomes", Int64Counter); ("WorkflowDuration", Float64Histogram);
   ("WorkflowTransitions", Int64Counter); ("ApprovalWait", Float64Histogram);
   ("ExecutionAttempts", Float64Histogram); ("ExecutionFailures", Int64Counter);
   ("Transitions", Int64Counter); ("Trips", Int64Counter)].

Definition instrument_call '(k, n, d, u) : lib_call :=
  InstrumentNew {| idKind := k; idName := n; idDescription := d; idUnit := u |}.

(** From the start to the signal that ends the process. *)
Definition opening (sampler : option Sampler) (cfg : Config) : list lib_call :=
  [SetDefaultLogger (log_level (cfLogLevel cfg)); PoolNew (DSN (cfDB cfg)); PoolPing] ++
  (if cfOTelEnabled cfg then
     [ResourceNew "agent-governance-core"; TraceExporterNew; SetTracerProvider sampler;
      SetTextMapPropagator; MetricExporterNew; SetMeterProvider] ++ (instrument_call <$> instrument_table)
   else []) ++
  (if cfAdaptiveRoutingEnabled cfg then [Go Collector] else []) ++
  [LogLine LevelInfo "circuit breaker registry started (empty state, all breakers begin CLOSED)" [] None;
   Audit startup; SignalNotify; Go (Serve (cfServerPort cfg) (@httpServer (wiring_of cfg)));
   SignalReceive; LogLine LevelInfo "shutting down" [] None].

(** The calls whose failure ends the start. *)
Definition essential (c : lib_call) : bool :=
  match c with
  | PoolNew _ | PoolPing | ResourceNew _ | TraceExporterNew | MetricExporterNew | InstrumentNew _ => true
  | _ => false
  end.

Definition fine (ev : event) : Prop := essential ev.1 = true → ev.2 = None.

(** The error printed for it. *)
Definition reported (c : lib_call) (e : error) : error :=
  match c with
  | PoolNew _ => Wrapf "database: %w" [] (Wrapf "creating pg pool: %w" [] e)
  | PoolPing => Wrapf "database: %w" [] (Wrapf "pinging pg: %w" [] e)
  | InstrumentNew _ => Wrapf "wiring: %w" [] (Wrapf "otel instruments: %w" [] e)
  | _ => Wrapf "wiring: %w" [] (Wrapf "otel setup: %w" [] e)
  end.

(** What follows a failure, and what follows the shutdown of the server. *)
Definition after_failure (c : lib_call) (e : error) : list lib_call :=
  (match c with PoolNew _ => [] | _ => [PoolClose] end) ++ [Stderr (reported c e); Exit 1].

Definition after_shutdown (otel : bool) (r : option error) : list lib_call :=
  (if otel then [TracerShutdown; MeterShutdown] else []) ++ [PoolClose] ++
  match r with Some e => [Stderr e; Exit 1] | None => [] end.

(** The complete lives of a process. *)
Inductive life (sampler : option Sampler) (cfg : Config) : list event → Prop :=
  | life_failed evs c e post closed :
      opening sampler cfg = evs.*1 ++ c :: post → Forall fine evs → essential c = true →
      closed.*1 = after_failure c e → life sampler cfg (evs ++ (c, Some e) :: closed)
  | life_served evs r closed :
      evs.*1 = opening sampler cfg → Forall fine evs →
      closed.*1 = after_shutdown (cfOTelEnabled cfg) r →
      life sampler cfg (evs ++ (ServerShutdown, r) :: closed).

(** The events of the main thread. *)
Definition main_events (h : list (nat * event)) : list event :=
  omap (λ '(i, ev), match i with O => Some ev | S _ => None end) h.

(** * The main thread plays the script *)

#[export] Instance boot_equiv {A} : Equiv (boot A) :=
  fix same p q :=
    match p, q with
    | Done a, Done b => a = b
    | Lib c k, Lib c' k' => c = c' ∧ ∀ r, same (k r) (k' r)
    | _, _ => False
    end.

#[export] Instance boot_equivalence {A} : Equivalence (≡@{boot A}).
Proof.
  split.
  - intros p. induction p as [a|c k IH]; [exact eq_refl|]. split; [done|exact IH].
  - intros p. induction p as [a|c k IH]; intros [b|c' k'] H; [exact (eq_sym H)|done|done|].
    destruct H as [-> H]. split; [done|]. intros r. apply IH, H.
  - intros p. induction p as [a|c k IH]; intros [b|c' k'] [d|c'' k''] H1 H2; try done.
    { exact (eq_trans H1 H2). }
    destruct H1 as [-> H1], H2 as [-> H2]. split; [done|]. intros r. eapply IH; [apply H1|apply H2].
Qed.

Lemma lib_equiv {A} c (k k' : option error → boot A) : (∀ r, k r ≡ k' r) → Lib c k ≡ Lib c k'.
Proof. intros E. split; [done|exact E]. Qed.

Lemma bind_equiv {A B} (p q : boot A) (f g : A → boot B) :
  p ≡ q → (∀ a, f a ≡ g a) → p ≫= f ≡ q ≫= g.
Proof.
  intros E Ef. revert q E. induction p as [a|c k IH]; intros [b|c' k'] E; try done.
  - change (a = b) in E. subst. apply Ef.
  - destruct E as [-> E]. split; [done|]. intros r. exact (IH r _ (E r)).
Qed.

(** Calls whose errors are dropped. *)
Fixpoint line (cs : list lib_call) : boot unit :=
  match cs with [] => Done tt | c :: cs => Lib c (λ _, line cs) end.

(** Calls in a row; [fail] follows the failure of an essential one, [fin] the last. *)
Fixpoint play {A} (cs : list lib_call) (fail : lib_call → error → boot A) (fin : boot A) : boot A :=
  match cs with
  | [] => fin
  | c :: cs =>
      Lib c (λ r, match r with
                  | Some e => if essential c then fail c e else play cs fail fin
                  | None => play cs fail fin
                  end)
  end.

Lemma play_bind {A B} cs fail (fin : boot A) (f : A → boot B) :
  play cs fail fin ≫= f ≡ play cs (λ c e, fail c e ≫= f) (fin ≫= f).
Proof.
  induction cs as [|c cs IH]; [reflexivity|]. apply lib_equiv. intros [e|]; [|apply IH].
  destruct (essential c); [reflexivity|apply IH].
Qed.

Lemma play_app {A} cs cs' fail (fin fin' : boot A) fail' :
  (∀ c e, c ∈ cs → essential c = true → fail c e ≡ fail' c e) → fin ≡ play cs' fail' fin' →
  play cs fail fin ≡ play (cs ++ cs') fail' fin'.
Proof.
  intros Hf E. induction cs as [|c cs IH]; [exact E|]. apply lib_equiv.
  assert (I : play cs fail fin ≡ play (cs ++ cs') fail' fin')
    by (apply IH; intros; apply Hf; [by constructor|done]).
  intros [e|]; [|exact I]. destruct (essential c) eqn:Ec; [|exact I]. apply Hf; [constructor|done].
Qed.

(** A call that is not essential; one that is; a sequence that ends in a value. *)
Lemma play_lib {A} c cs fail (p fin : boot A) :
  essential c = false → p ≡ play cs fail fin → (_ ← lib c; p) ≡ play (c :: cs) fail fin.
Proof. intros E Hp. apply lib_equiv. intros [e|]; [rewrite E|]; exact Hp. Qed.

Lemma play_make {A B} c cs (a : A) (f : A → boot (result B)) fin :
  essential c = true → f a ≡ play cs (λ _ e, Done (Err e)) fin →
  boot_try (make c a) f ≡ play (c :: cs) (λ _ e, Done (Err e)) fin.
Proof. intros E Hf. apply lib_equiv. intros [e|]; [rewrite E; reflexivity|exact Hf]. Qed.

Lemma play_try {A B} p cs (a : A) cs' (f : A → boot (result B)) fl fail fin :
  p ≡ play cs fl (Done (Ok a)) →
  (∀ c e, c ∈ cs → essential c = true → boot_try (fl c e) f ≡ fail c e) →
  f a ≡ play cs' fail fin → boot_try p f ≡ play (cs ++ cs') fail fin.
Proof.
  intros Hp Hf Ha. etrans; [exact (bind_equiv _ _ _ _ Hp (λ _, reflexivity _))|]. etrans; [apply play_bind|].
  by apply play_app.
Qed.

Lemma play_wrapping {A} fmt p cs (a : A) :
  p ≡ play cs (λ _ e, Done (Err e)) (Done (Ok a)) →
  wrapping fmt p ≡ play cs (λ _ e, Done (Err (Wrapf fmt [] e))) (Done (Ok a)).
Proof. intros Hp. etrans; [exact (bind_equiv _ _ _ _ Hp (λ _, reflexivity _))|]. apply play_bind. Qed.

Lemma play_mapped {A B} p cs fl (fn : boot A) (f : A → boot B) :
  p ≡ play cs fl fn → p ≫= f ≡ play cs (λ c e, fl c e ≫= f) (fn ≫= f).
Proof. intros Hp. etrans; [exact (bind_equiv _ _ _ _ Hp (λ _, reflexivity _))|]. apply play_bind. Qed.

Lemma play_then {A B} p cs fl (fn : boot A) (f : A → boot B) fail fin :
  p ≡ play cs fl fn → (∀ c e, c ∈ cs → essential c = true → fl c e ≫= f ≡ fail c e) → fn ≫= f ≡ fin →
  p ≫= f ≡ play cs fail fin.
Proof.
  intros Hp Hf Hn. etrans; [exact (play_mapped _ _ _ _ _ Hp)|]. rewrite <- (app_nil_r cs) at 2. by apply play_app.
Qed.

(** ** The functions *)

Lemma NewInstruments_plays : ∃ inst,
  NewInstruments ≡ play (instrument_call <$> instrument_table) (λ _ e, Done (Err e)) (Done (Ok inst)) ∧
  (∀ h k, (h, k) ∈ handles → ∃ d, instrument_of inst h = Some d ∧ idKind d = k ∧
     InstrumentNew d ∈ (instrument_call <$> instrument_table)).
Proof.
  eexists. split.
  - unfold NewInstruments, counter, histogram. cbn [fmap list_fmap instrument_table instrument_call].
    repeat (apply play_make; [done|]). done.
  - intros h k Hh. unfold handles in Hh.
    repeat (apply elem_of_cons in Hh as [[= -> ->]|Hh];
            [eexists; split_and!; [reflexivity|reflexivity|repeat constructor]|]).
    by apply elem_of_nil in Hh.
Qed.

Definition otel_calls (s : option Sampler) : list lib_call :=
  [ResourceNew "agent-governance-core"; TraceExporterNew; SetTracerProvider s;
   SetTextMapPropagator; MetricExporterNew; SetMeterProvider].

Lemma SetupOTel_plays Getenv :
  SetupOTel Getenv true "agent-governance-core" ≡
  play (otel_calls (samplerFromEnv Getenv)) (λ _ e, Done (Err e))
    (Done (Ok (_ ← lib TracerShutdown; lib MeterShutdown))).
Proof.
  unfold SetupOTel, otel_calls. cbn [negb].
  repeat first [apply play_make; [done|] | apply play_lib; [done|]]. done.
Qed.

Lemma instrument_calls c : c ∈ (instrument_call <$> instrument_table) → ∃ d, c = InstrumentNew d.
Proof. intros ([[[k n] d] u] & -> & _)%list_elem_of_fmap. by eexists. Qed.

(** The calls of [Wire], and what it answers. *)
Definition wire_calls (s : option Sampler) (cfg : Config) : list lib_call :=
  let rest := (if cfAdaptiveRoutingEnabled cfg then [Go Collector] else []) ++
    [LogLine LevelInfo "circuit breaker registry started (empty state, all breakers begin CLOSED)" [] None;
     Audit startup] in
  if cfOTelEnabled cfg then otel_calls s ++ (instrument_call <$> instrument_table) ++ rest else rest.

Definition wire_error (c : lib_call) (e : error) : error :=
  match c with
  | InstrumentNew _ => Wrapf "otel instruments: %w" [] e
  | _ => Wrapf "otel setup: %w" [] e
  end.

Definition app_of (cfg : Config) : App :=
  {| appHTTPServer := @httpServer (wiring_of cfg); appFacade := @facade (wiring_of cfg);
     appNotifier := NewCallbackNotifier;
     appOTelShutdown := if cfOTelEnabled cfg then (_ ← lib TracerShutdown; lib MeterShutdown) else Done tt |}.

Lemma Wire_plays Getenv cfg :
  Wire Getenv cfg ≡
  play (wire_calls (samplerFromEnv Getenv) cfg) (λ c e, Done (Err (wire_error c e))) (Done (Ok (app_of cfg))).
Proof.
  unfold Wire, wire_calls, app_of.
  assert (R : ∀ shutdown : boot unit,
    (_ ← (if cfAdaptiveRoutingEnabled cfg then lib (Go Collector) else Done tt);
     _ ← lib (LogLine LevelInfo "circuit breaker registry started (empty state, all breakers begin CLOSED)" [] None);
     _ ← lib (Audit startup);
     Done (Ok {| appHTTPServer := @httpServer (wiring_of cfg); appFacade := @facade (wiring_of cfg);
                 appNotifier := NewCallbackNotifier; appOTelShutdown := shutdown |})) ≡
    play ((if cfAdaptiveRoutingEnabled cfg then [Go Collector] else []) ++
      [LogLine LevelInfo "circuit breaker registry started (empty state, all breakers begin CLOSED)" [] None;
       Audit startup]) (λ c e, Done (Err (wire_error c e)))
      (Done (Ok {| appHTTPServer := @httpServer (wiring_of cfg); appFacade := @facade (wiring_of cfg);
                   appNotifier := NewCallbackNotifier; appOTelShutdown := shutdown |}))).
  { intros shutdown. destruct (cfAdaptiveRoutingEnabled cfg); simpl app;
      repeat (apply play_lib; [done|]); reflexivity. }
  destruct (cfOTelEnabled cfg); [|apply R]. eapply play_try.
  - apply play_wrapping, SetupOTel_plays.
  - intros c e Hc _. unfold otel_calls in Hc. rewrite !elem_of_cons in Hc.
    destruct Hc as [->|[->|[->|[->|[->|[->|Hc]]]]]]; try reflexivity. by apply elem_of_nil in Hc.
  - destruct NewInstruments_plays as (inst & Hi & _). apply (play_try _ _ (Some inst) _ _ (λ c e, Done (Err (wire_error c e)))).
    + rewrite <- (app_nil_r (instrument_call <$> _)). eapply (play_try _ _ inst []); [apply play_wrapping, Hi| |].
      * intros c e (d & ->)%instrument_calls _. reflexivity.
      * reflexivity.
    + reflexivity.
    + apply R.
Qed.

Lemma NewPool_plays cfg :
  NewPool cfg ≡ play [PoolNew (DSN cfg); PoolPing]
    (λ c e, match c with
            | PoolPing => _ ← lib PoolClose; Done (Err (Wrapf "pinging pg: %w" [] e))
            | _ => Done (Err (Wrapf "creating pg pool: %w" [] e))
            end) (Done (Ok tt)).
Proof.
  apply lib_equiv. intros [e|]; [reflexivity|]. apply lib_equiv. intros [e|]; reflexivity.
Qed.

Lemma opening_calls s cfg :
  opening s cfg =
  SetDefaultLogger (log_level (cfLogLevel cfg)) :: [PoolNew (DSN (cfDB cfg)); PoolPing] ++ wire_calls s cfg ++
  [SignalNotify; Go (Serve (cfServerPort cfg) (@httpServer (wiring_of cfg))); SignalReceive;
   LogLine LevelInfo "shutting down" [] None].
Proof. unfold opening, wire_calls. destruct (cfOTelEnabled cfg), (cfAdaptiveRoutingEnabled cfg); reflexivity. Qed.

(** After the shutdown of the server. *)
Definition finish (otel : bool) : boot unit := Lib ServerShutdown (λ r, line (after_shutdown otel r)).

Definition opens_pool (c : lib_call) : bool := match c with PoolNew _ | PoolPing => true | _ => false end.

Lemma wire_no_pool s cfg c : c ∈ wire_calls s cfg → opens_pool c = false.
Proof.
  intros H. assert (F : forallb (λ c, negb (opens_pool c)) (wire_calls s cfg) = true)
    by (unfold wire_calls; by destruct (cfOTelEnabled cfg), (cfAdaptiveRoutingEnabled cfg)).
  rewrite forallb_forall in F. apply negb_true_iff, F. by apply list_elem_of_In.
Qed.

(** What is left of [run] after an essential failure, and from the shutdown of the server on. *)
Definition run_failure (c : lib_call) (e : error) : boot (result unit) :=
  _ ← line (match c with PoolNew _ => [] | _ => [PoolClose] end); Done (Err (reported c e)).

Definition run_finish (cfg : Config) : boot (result unit) :=
  Lib ServerShutdown (λ r,
    _ ← appOTelShutdown (app_of cfg); _ ← lib PoolClose;
    Done match r with Some e => Err e | None => Ok tt end).

Definition serve_calls (cfg : Config) : list lib_call :=
  [SignalNotify; Go (Serve (cfServerPort cfg) (@httpServer (wiring_of cfg))); SignalReceive;
   LogLine LevelInfo "shutting down" [] None].

Lemma reported_wire c e : opens_pool c = false → Wrapf "wiring: %w" [] (wire_error c e) = reported c e.
Proof. by destruct c. Qed.

Lemma run_plays Getenv :
  let cfg := Load Getenv in
  run Getenv ≡ play (opening (samplerFromEnv Getenv) cfg) run_failure (run_finish cfg).
Proof.
  intros cfg. unfold run. fold cfg. rewrite opening_calls. clearbody cfg.
  set (s := samplerFromEnv Getenv). apply play_lib; [done|]. eapply (play_try _ _ tt).
  { exact (play_mapped _ _ _ _ _ (NewPool_plays _)). }
  { intros c e Hc _. rewrite !elem_of_cons in Hc. destruct Hc as [->|[->|Hc]]; [reflexivity..|by apply elem_of_nil in Hc]. }
  fold (serve_calls cfg). eapply play_then.
  { eapply (play_try _ (wire_calls s cfg) (app_of cfg) (serve_calls cfg) _ _ (λ c e, Done (Err (reported c e)))
      (Lib ServerShutdown (λ r, _ ← appOTelShutdown (app_of cfg);
                                Done match r with Some e => Err e | None => Ok tt end))).
    - exact (play_mapped _ _ _ _ _ (Wire_plays _ _)).
    - intros c e Hc _. simpl. rewrite reported_wire; [reflexivity|]. by eapply wire_no_pool.
    - do 4 (apply lib_equiv; intros [?|]); reflexivity. }
  { intros c e Hc E. assert (N : ∀ dsn, c ≠ PoolNew dsn).
    { apply elem_of_app in Hc as [Hc|Hc]; [apply wire_no_pool in Hc; by intros dsn ->|].
      unfold serve_calls in Hc. rewrite !elem_of_cons, elem_of_nil in Hc. by destruct Hc as [->|[->|[->|[->|[]]]]]. }
    unfold run_failure. destruct c; try reflexivity. by destruct (N dsn). }
  apply lib_equiv. intros r. unfold app_of. simpl. destruct (cfOTelEnabled cfg); reflexivity.
Qed.

Lemma main_plays Getenv :
  let cfg := Load Getenv in
  main Getenv ≡
  play (opening (samplerFromEnv Getenv) cfg) (λ c e, line (after_failure c e)) (finish (cfOTelEnabled cfg)).
Proof.
  intros cfg. eapply play_then; [apply run_plays| |]; fold cfg; clearbody cfg.
  - intros c e _ _. destruct c; reflexivity.
  - apply lib_equiv. intros r. unfold app_of. simpl. destruct (cfOTelEnabled cfg), r; reflexivity.
Qed.

(** * Executions *)

(** The events of [p] on the way to [q]. *)
Inductive traces {A} : boot A → list event → boot A → Prop :=
  | tr_nil p : traces p [] p
  | tr_cons c k r h q : may_answer c r → traces (k r) h q → traces (Lib c k) ((c, r) :: h) q.

Lemma traces_snoc {A} (p : boot A) h c k r :
  traces p h (Lib c k) → may_answer c r → traces p (h ++ [(c, r)]) (k r).
Proof.
  intros T M. remember (Lib c k) as q eqn:E. revert E.
  induction T as [p|c' k' r' h q M' T IH]; intros ->; simpl; constructor; auto. constructor.
Qed.

Lemma traces_equiv {A} (p p' : boot A) h q : traces p h q → p ≡ p' → ∃ q', traces p' h q' ∧ q ≡ q'.
Proof.
  intros T. revert p'. induction T as [p|c k r h q M T IH]; intros p' E; [by exists p'; split; [constructor|]|].
  destruct p' as [|c' k']; [done|]. destruct E as [<- E]. destruct (IH (k' r) (E r)) as (q' & T' & E').
  exists q'. split; [by constructor|done].
Qed.

Lemma traces_line cs h q : traces (line cs) h q → ∃ rest, cs = h.*1 ++ rest ∧ q = line rest.
Proof.
  revert h. induction cs as [|c cs IH]; intros h T; inversion T; subst; [by exists []|by exists (c :: cs)|].
  simplify_eq. match goal with H : traces _ _ q |- _ => destruct (IH _ H) as (rest & -> & ->) end. by exists rest.
Qed.

(** Where an execution of a script is: before its end, after it, or after a failure. *)
Inductive played {A} (fail : lib_call → error → boot A) (fin q : boot A)
    : list lib_call → list event → Prop :=
  | played_part evs rest :
      Forall fine evs → q = play rest fail fin → played fail fin q (evs.*1 ++ rest) evs
  | played_all evs h :
      Forall fine evs → traces fin h q → played fail fin q evs.*1 (evs ++ h)
  | played_failed evs c e h post :
      Forall fine evs → essential c = true → traces (fail c e) h q →
      played fail fin q (evs.*1 ++ c :: post) (evs ++ (c, Some e) :: h).

Lemma played_cons {A} fail (fin q : boot A) c r cs h :
  fine (c, r) → played fail fin q cs h → played fail fin q (c :: cs) ((c, r) :: h).
Proof.
  intros Fn []; [apply (played_part _ _ _ ((c, r) :: _))|apply (played_all _ _ _ ((c, r) :: _))|
    apply (played_failed _ _ _ ((c, r) :: _))]; auto.
Qed.

Lemma traces_play {A} cs fail (fin : boot A) h q :
  traces (play cs fail fin) h q → played fail fin q cs h.
Proof.
  revert h. induction cs as [|c cs IH]; intros h T; [by apply (played_all _ _ _ [])|].
  inversion T as [|c0 k r h' q' M T']; subst; [by apply (played_part _ _ _ [])|].
  destruct r as [e|]; [|by apply played_cons, IH]. destruct (essential c) eqn:Ec.
  - by apply (played_failed _ _ _ []).
  - apply played_cons; [|by apply IH]. unfold fine; simpl. congruence.
Qed.

(** ** The main thread *)

Section main_thread.
Context (Getenv : string → string).
Let cfg := Load Getenv.
Let script := opening (samplerFromEnv Getenv) cfg.
#[local] Abbreviation life := (life (samplerFromEnv Getenv) cfg).

Definition silent (cs : list lib_call) : list event := (λ c, (c, None)) <$> cs.
Lemma silent_calls cs : (silent cs).*1 = cs.
Proof. unfold silent. rewrite <- list_fmap_compose. apply list_fmap_id. Qed.
Lemma silent_fine cs : Forall fine (silent cs).
Proof. apply Forall_fmap, Forall_true. by intros c _. Qed.

Lemma line_not_done c cs : line (c :: cs) ≢ Done tt.
Proof. by intros H. Qed.

(** Every execution of [main] is the beginning of a life, and a whole one when [main] returns. *)
Lemma main_life h q :
  traces (main Getenv) h q → (∃ more, life (h ++ more)) ∧ (q = Done tt → life h).
Proof.
  intros T. destruct (traces_equiv _ _ _ _ T (main_plays Getenv)) as (q' & T' & E). clear T.
  fold cfg in T'. fold script in T'. apply traces_play in T'. remember script as cs eqn:Ecs.
  destruct T' as [evs rest F Eq|evs h F T|evs c e h post F Ec T]; [subst q'|..].
  - split; [|intros ->; by destruct rest].
    exists (silent rest ++ (ServerShutdown, None) :: silent (after_shutdown (cfOTelEnabled cfg) None)).
    rewrite app_assoc. apply life_served; [|apply Forall_app; split; [done|apply silent_fine]|apply silent_calls].
    by rewrite fmap_app, silent_calls.
  - inversion T as [|c k r h' q2 M T2]; subst.
    + split; [|by intros ->]. exists ((ServerShutdown, None) :: silent (after_shutdown (cfOTelEnabled cfg) None)).
      rewrite app_nil_r. by apply life_served; [| |apply silent_calls].
    + apply traces_line in T2 as (rest & Er & ->). split.
      * exists (silent rest). rewrite <- app_assoc. simpl. apply life_served; [done..|].
        by rewrite fmap_app, silent_calls.
      * intros ->. destruct rest; [|done]. apply life_served; [done..|]. by rewrite app_nil_r in Er.
  - apply traces_line in T as (rest & Er & ->). split.
    + exists (silent rest). rewrite <- app_assoc. simpl. eapply life_failed; [done..|].
      by rewrite fmap_app, silent_calls.
    + intros ->. destruct rest; [|done]. eapply life_failed; [done..|]. by rewrite app_nil_r in Er.
Qed.

(** The server is started after every essential call. *)
Definition is_serve (c : lib_call) : bool := match c with Go (Serve _ _) => true | _ => false end.

Definition serves_not (cs : list lib_call) : Prop := forallb (λ c, negb (is_serve c)) cs = true.

Lemma serves_not_in cs c : serves_not cs → c ∈ cs → is_serve c = false.
Proof. unfold serves_not. rewrite forallb_forall. intros F H. apply negb_true_iff, F. by apply list_elem_of_In. Qed.

Lemma script_split : ∃ o1 o2,
  script = o1 ++ Go (Serve (cfServerPort cfg) (@httpServer (wiring_of cfg))) :: o2 ∧
  (∀ c, c ∈ o1 ++ o2 → is_serve c = false) ∧ (∀ c, c ∈ o2 → essential c = false).
Proof.
  eexists ((SetDefaultLogger _ :: [PoolNew _; PoolPing] ++ wire_calls _ cfg) ++ [SignalNotify]), [SignalReceive; _].
  split_and!.
  - unfold script. rewrite opening_calls. simpl. by rewrite <- !app_assoc.
  - intros c. apply serves_not_in. unfold wire_calls.
    by destruct (cfOTelEnabled cfg), (cfAdaptiveRoutingEnabled cfg).
  - intros c. rewrite !elem_of_cons, elem_of_nil. by intros [->|[->|[]]].
Qed.

Lemma cut_contains {A} (o1 o2 a b : list A) x y :
  a ++ b = o1 ++ x :: o2 → x ∈ a → x ∉ o1 → y ∈ o1 → y ∈ a.
Proof.
  intros E Ha N Hy. apply app_eq_inv in E as [(k & -> & E)|(k & -> & E)]; [by apply elem_of_app; left|].
  by destruct N; apply elem_of_app; left.
Qed.

(** Facts on the events of the script that came before the server was started. *)
Definition ready (h : list event) : Prop := ∀ c, c ∈ script → essential c = true → (c, None) ∈ h.

Lemma cut_ready evs rest port sv r :
  script = evs.*1 ++ rest → Forall fine evs → (Go (Serve port sv), r) ∈ evs →
  port = cfServerPort cfg ∧ sv = @httpServer (wiring_of cfg) ∧ ready evs.
Proof.
  intros E F H. destruct script_split as (o1 & o2 & Es & N & N2).
  assert (Hg : Go (Serve port sv) ∈ evs.*1) by (apply list_elem_of_fmap; by exists (Go (Serve port sv), r)).
  assert (Eg : Go (Serve port sv) = Go (Serve (cfServerPort cfg) (@httpServer (wiring_of cfg)))).
  { assert (Hs : Go (Serve port sv) ∈ script) by (rewrite E; apply elem_of_app; by left).
    rewrite Es in Hs. apply elem_of_app in Hs. rewrite elem_of_cons in Hs.
    destruct Hs as [Hs|[Hs|Hs]]; [exfalso|done|exfalso];
      (assert (is_serve (Go (Serve port sv)) = false) by (apply N, elem_of_app; auto)); done. }
  injection Eg as -> ->. split_and!; [done..|]. intros c Hc Ec. rewrite Es in Hc.
  assert (Ho : c ∈ o1).
  { apply elem_of_app in Hc as [?|[->|Hc]%elem_of_cons]; [done..|]. apply N2 in Hc. congruence. }
  assert (Hc' : c ∈ evs.*1).
  { eapply cut_contains; [by rewrite <- E, Es|exact Hg| |exact Ho]. intros Hx.
    assert (is_serve (Go (Serve (cfServerPort cfg) (@httpServer (wiring_of cfg)))) = false); [|done].
    apply N, elem_of_app. by left. }
  apply list_elem_of_fmap in Hc' as ([c' r'] & -> & Hi). rewrite Forall_forall in F.
  assert (r' = None) as -> by (apply (F _ Hi); exact Ec). done.
Qed.

Lemma ready_mono evs h : ready evs → evs ⊆ h → ready h.
Proof. intros R S c Hc Ec. by apply S, R. Qed.

Lemma tail_no_serve cs h q port sv r :
  traces (line cs) h q → serves_not cs → (Go (Serve port sv), r) ∉ h.
Proof.
  intros T N H. apply traces_line in T as (rest & -> & _).
  assert (is_serve (Go (Serve port sv)) = false); [|done]. eapply serves_not_in; [exact N|].
  apply elem_of_app. left. apply list_elem_of_fmap. by exists (Go (Serve port sv), r).
Qed.

Lemma serve_ready h q port sv r :
  traces (main Getenv) h q → (Go (Serve port sv), r) ∈ h →
  port = cfServerPort cfg ∧ sv = @httpServer (wiring_of cfg) ∧ ready h.
Proof.
  intros T Hg. destruct (traces_equiv _ _ _ _ T (main_plays Getenv)) as (q' & T' & _). clear T.
  fold cfg in T'. fold script in T'. apply traces_play in T'. remember script as cs eqn:Ecs.
  assert (K : ∀ evs rest h', cs = evs.*1 ++ rest → Forall fine evs → h = evs ++ h' →
            ((Go (Serve port sv), r) ∉ h') →
            port = cfServerPort cfg ∧ sv = @httpServer (wiring_of cfg) ∧ ready h).
  { intros evs rest h' E F -> N. apply elem_of_app in Hg as [Hg|Hg]; [|done]. rewrite Ecs in E.
    destruct (cut_ready evs rest port sv r E F Hg) as (-> & -> & R). split_and!; [done..|].
    eapply ready_mono; [done|]. set_solver. }
  destruct T' as [evs rest F Eq|evs h F T|evs c e h post F Ec T].
  - by apply (K evs rest []); [| |rewrite app_nil_r|apply not_elem_of_nil].
  - eapply (K evs [] h); [by rewrite app_nil_r|done..|]. inversion T as [|c k r' h' q2 M T2]; subst.
    + apply not_elem_of_nil.
    + intros [?|H]%elem_of_cons; [done|]. eapply tail_no_serve; [exact T2| |exact H].
      by destruct (envBool _ _ _), r'.
  - eapply (K evs (c :: post) ((c, Some e) :: h)); [done..|]. intros [[= <- _]|H]%elem_of_cons; [done|].
    eapply tail_no_serve; [exact T| |exact H]. by destruct c.
Qed.

(** * The process *)

Lemma main_events_app h h' : main_events (h ++ h') = main_events h ++ main_events h'.
Proof. apply omap_app. Qed.

Lemma main_event h ev : ev ∈ main_events h ↔ (0, ev) ∈ h.
Proof.
  unfold main_events. rewrite list_elem_of_omap. split; [intros ([[|i] ev'] & H & [= ->]); done|].
  intros H. by exists (0, ev).
Qed.

(** What is left of a goroutine makes its calls. *)
Lemma body_calls g h c k :
  traces (body g) h (Lib c k) →
  match c with
  | ListenAndServe addr sv => ∃ port, g = Serve port sv ∧ addr = ":" +:+ pretty port
  | Go _ => False
  | _ => True
  end.
Proof.
  intros T. destruct g as [|port sv]; [by inversion T|].
  inversion T as [|c1 k1 r1 h1 q1 M1 T1]; subst; [done|]. inversion T1 as [|c2 k2 r2 h2 q2 M2 T2]; subst.
  - by exists port.
  - destruct r2; [case_decide|]; inversion T2 as [|c3 k3 r3 h3 q3 M3 T3]; subst; try done. by inversion T3.
Qed.

(** A goroutine of the process was started by the main thread. *)
Definition from_main (h : list (nat * event)) (b : boot unit) : Prop :=
  ∃ g r hb, (0, (Go g, r)) ∈ h ∧ traces (body g) hb b.

(** The server accepts requests only once every essential call of the script succeeded. *)
Definition served_ready (h : list (nat * event)) : Prop :=
  ∀ h1 i addr sv r h2, h = h1 ++ (S i, (ListenAndServe addr sv, r)) :: h2 →
    addr = ":" +:+ pretty (cfServerPort cfg) ∧ sv = @httpServer (wiring_of cfg) ∧
    ready (main_events h1).

Lemma served_ready_snoc h i c r :
  served_ready h →
  (match i, c with
   | S _, ListenAndServe addr sv =>
       addr = ":" +:+ pretty (cfServerPort cfg) ∧ sv = @httpServer (wiring_of cfg) ∧ ready (main_events h)
   | _, _ => True
   end) → served_ready (h ++ [(i, (c, r))]).
Proof.
  intros S1 Sn h1 j addr sv r' h2 E. destruct h2 as [|x h2 _] using rev_ind.
  - apply app_inj_tail in E as [-> [= -> -> ->]]. exact Sn.
  - rewrite app_comm_cons, app_assoc in E. apply app_inj_tail in E as [-> _]. by eapply S1.
Qed.

Record process_inv (p : Process) : Prop := {
  pi_main : traces (main Getenv) (main_events (pcEvents p)) (pcMain p);
  pi_goroutines : Forall (from_main (pcEvents p)) (pcGoroutines p);
  pi_served : served_ready (pcEvents p);
}.

Lemma from_main_mono h h' b : from_main h b → h ⊆ h' → from_main h' b.
Proof. intros (g & r & hb & H & T) S1. exists g, r, hb. split; [by apply S1|done]. Qed.

Lemma step_inv p p' : process_inv p → Bootstrap.step p p' → process_inv p'.
Proof.
  intros [M G S1] H. destruct H as [c k r gs h A|i c k r p R Hi A]; simpl in *.
  - split; simpl.
    + rewrite main_events_app. simpl. by eapply traces_snoc.
    + apply Forall_app. split; [eapply Forall_impl; [exact G|]; intros b Hb; eapply from_main_mono; [done|set_solver]|].
      destruct c; try constructor; [|constructor]. exists g, r, []. split; [set_solver|constructor].
    + by apply served_ready_snoc.
  - pose proof (Forall_lookup_1 _ _ _ _ G Hi) as (g & r0 & hb & Hg & T). pose proof (body_calls _ _ _ _ T) as B.
    assert (Mono : ∀ b, from_main (pcEvents p) b → from_main (pcEvents p ++ [(S i, (c, r))]) b)
      by (intros b Hb; eapply from_main_mono; [done|set_solver]).
    split; simpl.
    + by rewrite main_events_app, app_nil_r.
    + apply Forall_app. split; [|by destruct c; try constructor]. apply Forall_insert; [by eapply Forall_impl|].
      apply Mono. exists g, r0, (hb ++ [(c, r)]). split; [done|]. by eapply traces_snoc.
    + apply served_ready_snoc; [done|]. destruct c; try done. destruct B as (port & -> & ->).
      destruct (serve_ready _ _ _ _ _ M (proj2 (main_event _ _) Hg)) as (-> & -> & ?). done.
Qed.

Lemma reached_inv p : reached Getenv p → process_inv p.
Proof.
  intros H. unfold reached in H. revert H. apply rtc_ind_r.
  - split; simpl; [constructor|constructor|]. intros [] * E; by inversion E.
  - intros q q' _ Hs I. by eapply step_inv.
Qed.
End main_thread.

(** * Theorem *)

(** C13: The life of the process, for every environment, every failure of a library and every
    interleaving with the goroutine that serves.  The calls of the main thread are always the
    beginning of a life, and a whole one when main returns: either the script of the opening cut
    at its first essential failure, after which the pool, if it was created, is closed once, and
    the error is printed and exit status 1 given; or the whole script, up to the signal, then the
    shutdown of the server, of the two telemetry providers and last of the pool, with status 1 and
    the error printed when the server did not shut down in time.  And the server listens, on the
    configured port and with the ports wired for the configuration, only after the pool answered
    a ping and, with telemetry enabled, every instrument of the table was created. *)
Theorem process_lifecycle Getenv p :
  reached Getenv p →
  let cfg := Load Getenv in
  let sampler := samplerFromEnv Getenv in
  (∃ more, life sampler cfg (main_events (pcEvents p) ++ more)) ∧
  (pcMain p = Done tt → life sampler cfg (main_events (pcEvents p))) ∧
  (∀ h1 i addr sv r h2, pcEvents p = h1 ++ (S i, (ListenAndServe addr sv, r)) :: h2 →
     addr = ":" +:+ pretty (cfServerPort cfg) ∧ sv = @httpServer (wiring_of cfg) ∧
     ∀ c, c ∈ opening sampler cfg → essential c = true → (0, (c, None)) ∈ h1).
Proof.
  intros [M _ S1]%reached_inv cfg sampler. destruct (main_life _ _ _ M) as [L D]. split_and!; [done..|].
  intros h1 i addr sv r h2 E. destruct (S1 _ _ _ _ _ _ E) as (-> & -> & R). split_and!; [done..|].
  intros c Hc Ec. by apply main_event, R.
Qed.

(** * Executions, executed *)

Definition answerable (c : lib_call) (r : option error) : bool := bool_decide (r = None) || fallible c.

Definition take_step (turn : nat * option error) (p : Process) : option Process :=
  let '(i, r) := turn in
  match pcMain p, i with
  | Lib c k, O =>
      if answerable c r then
        Some {| pcMain := k r; pcGoroutines := pcGoroutines p ++ spawned c; pcEvents := pcEvents p ++ [(0, (c, r))] |}
      else None
  | Lib _ _, S i =>
      match pcGoroutines p !! i with
      | Some (Lib c k) =>
          if answerable c r then
            Some {| pcMain := pcMain p; pcGoroutines := <[i := k r]> (pcGoroutines p) ++ spawned c;
                    pcEvents := pcEvents p ++ [(S i, (c, r))] |}
          else None
      | _ => None
      end
  | Done _, _ => None
  end.

Lemma answerable_may c r : answerable c r = true → may_answer c r.
Proof. unfold answerable, may_answer. rewrite orb_true_iff, bool_decide_eq_true. done. Qed.

Lemma take_step_step turn p p' : take_step turn p = Some p' → step p p'.
Proof.
  destruct turn as [[|i] r], p as [[[]|c k] gs h]; simpl; try done.
  - destruct (answerable c r) eqn:A; [|done]. intros [= <-]. by constructor; apply answerable_may.
  - destruct (gs !! i) as [[|c' k']|] eqn:Hi; [done| |done]. destruct (answerable c' r) eqn:A; [|done].
    intros [= <-]. by apply (step_goroutine i c' k' r (Build_Process (Lib c k) gs h)); [| |apply answerable_may].
Qed.

Fixpoint take_turns (turns : list (nat * option error)) (p : Process) : option Process :=
  match turns with
  | [] => Some p
  | t :: turns => p' ← take_step t p; take_turns turns p'
  end.

Lemma take_turns_steps turns p p' : take_turns turns p = Some p' → rtc step p p'.
Proof.
  revert p. induction turns as [|t turns IH]; intros p H; simpl in H; [by injection H as ->|].
  apply bind_Some in H as (q & Hq & H). eapply rtc_l; [by eapply take_step_step|by apply IH].
Qed.

Lemma take_turns_reached {Getenv} turns (P : Process → bool) :
  match take_turns turns (process_start Getenv) with Some p => P p | None => false end = true →
  ∃ p, reached Getenv p ∧ P p = true.
Proof.
  destruct (take_turns turns _) as [p|] eqn:E; [|done]. intros H. exists p. split; [|done].
  by apply take_turns_steps in E.
Qed.

Definition with_telemetry (key : string) : string := if decide (key = "OTEL_ENABLED") then "1" else "".
Definition main_done (p : Process) : bool := match pcMain p with Done tt => true | _ => false end.
Definition waiting (p : Process) : bool := match pcMain p with Lib SignalReceive _ => true | _ => false end.
Definition not_listening (p : Process) : bool :=
  forallb (λ g, match g with Done _ => true | _ => false end) (pcGoroutines p) &&
  existsb (λ ev, match ev with (1, (ListenAndServe _ _, Some _)) => true | _ => false end) (pcEvents p).
Definition stuck_waiting (p : Process) : bool := waiting p && not_listening p.

(** The address in use: the goroutine logs it and ends, and main waits for a signal all the same. *)
Theorem listen_failure_unnoticed :
  ∃ p, reached with_telemetry p ∧ stuck_waiting p = true.
Proof.
  apply (take_turns_reached (replicate 27 (0, None) ++
    [(1, None); (1, Some (Sentinel "syscall.EADDRINUSE" "address already in use")); (1, None)])).
  vm_compute. reflexivity.
Qed.

(** The exporter of the metrics cannot be made: the provider of the traces is never shut down. *)
Definition provider_left (p : Process) : bool :=
  main_done p && existsb (λ ev, match ev with (0, (SetTracerProvider _, _)) => true | _ => false end) (pcEvents p) &&
  forallb (λ ev, match ev with (0, (TracerShutdown, _)) => false | _ => true end) (pcEvents p).

Theorem provider_not_shut_down :
  ∃ p, reached with_telemetry p ∧ provider_left p = true.
Proof.
  apply (take_turns_reached (replicate 7 (0, None) ++ [(0, Some (Sentinel "otlp" "no exporter"))] ++ replicate 3 (0, None))).
  vm_compute. reflexivity.
Qed.

(** * Witness *)

(** A whole life, in which the server listens. *)
Definition whole_life (p : Process) : bool :=
  main_done p && existsb (λ ev, match ev with (1, (ListenAndServe _ _, None)) => true | _ => false end) (pcEvents p).

Lemma whole_life_reached : ∃ p, reached with_telemetry p ∧ whole_life p = true.
Proof.
  apply (take_turns_reached (replicate 27 (0, None) ++ [(1, None); (1, None)] ++ replicate 6 (0, None))).
  vm_compute. reflexivity.
Qed.

Lemma process_lifecycle_witness :
  ∃ p, reached with_telemetry p ∧ whole_life p = true ∧
    life (samplerFromEnv with_telemetry) (Load with_telemetry) (main_events (pcEvents p)).
Proof.
  destruct whole_life_reached as (p & Hp & E). exists p. split_and!; [exact Hp|exact E|].
  apply (process_lifecycle with_telemetry p Hp).
  unfold whole_life, main_done in E. by destruct (pcMain p) as [[]|].
Defined.
