(* ===== verification/HandlerTrees.v ===== *)
(** Properties of trees of calls that every route of the HTTP server inherits from the ports
    behind it: a property closed under [Ret] and sequencing holds of every request when it
    holds of every operation of the ports. *)

From stdpp Require Import options.
From S2P Require Import Prelude GoLib Shared TimeFormat Json Task Workflow Execution Approval.
From S2P Require Import Escalation Policy Routing AuditLog Resilience Persistence Queries Ports.
From S2P Require Import AuditService Intake RouteTask PolicyEval WorkflowService ApprovalService.
From S2P Require Import EscalationService GovDecisions ProcessTask Inbound Decorators Dto Handlers.

(** [T] is such a property; [Ping] is the one call the handlers make themselves. *)
Class TreeProperty (T : ∀ A, proc A → Prop) := {
  tree_ret A (a : A) : T A (Ret a);
  tree_bind A B (p : proc A) (f : A → proc B) : T A p → (∀ a, T B (f a)) → T B (p ≫= f);
  tree_ping : T _ (call Ping);
}.

Section trees.
Context (T : ∀ A, proc A → Prop) `{HT : TreeProperty T} {Zn : Zone} {U : ULID}.
#[local] Arguments T {A} _.

(** * Ports *)

Record all_governance (s : GovernanceService) : Prop := {
  all_SubmitTask input : T (gs_SubmitTask s input);
  all_ProcessTask input a : T (gs_ProcessTask s input a);
  all_RouteTask t : T (gs_RouteTask s t);
  all_EvaluatePolicy t a : T (gs_EvaluatePolicy s t a);
  all_StartWorkflow t : T (gs_StartWorkflow s t);
}.

Record all_control (s : WorkflowControl) : Prop := {
  all_Kill id r a : T (wc_KillWorkflow s id r a);
  all_Pause id r a : T (wc_PauseWorkflow s id r a);
  all_Resume id r a : T (wc_ResumeWorkflow s id r a);
  all_Attempt id a : T (wc_RegisterAttempt s id a);
}.

Record all_approvals (s : ApprovalPort) : Prop := {
  all_Resolve input : T (ap_ResolveApproval s input);
  all_Pending : T (ap_GetPendingApprovals s);
}.

Record all_queries (s : QueryService) : Prop := {
  all_GetTask id : T (qs_GetTask s id);
  all_Status id : T (qs_GetWorkflowStatus s id);
  all_ByTask t : T (qs_GetWorkflowByTask s t);
  all_Audit f : T (qs_QueryAuditTrail s f);
  all_List f : T (qs_ListWorkflows s f);
  all_Breakers f : T (qs_ListBreakers s f);
  all_Breaker t r : T (qs_GetBreakerState s t r);
}.

Record all_escalation (s : EscalationPort) : Prop := {
  all_Trigger t c tg : T (es_TriggerEscalation s t c tg);
}.

Record all_phase_decisions (s : PhaseDecisionsService) : Prop := {
  all_Phase i : T (ps_EvaluatePhase s i);
  all_Sensitive i : T (ps_EvaluateSensitive s i);
  all_ApprovalStatus c p : T (ps_ApprovalStatusFor s c p);
}.

Record all_server (s : Server) : Prop := {
  all_sv_governance : all_governance (sv_governance s);
  all_sv_control : all_control (sv_control s);
  all_sv_approvals : all_approvals (sv_approvals s);
  all_sv_queries : all_queries (sv_queries s);
  all_sv_escalation : all_escalation (sv_escalation s);
  all_sv_phaseDecisions svc : sv_phaseDecisions s = Some svc → all_phase_decisions svc;
}.

(** * Handlers *)

Lemma parsed_all {A} (r : result A) code k :
  (∀ x, T (k x)) → T (parsed r code k).
Proof using HT. intros H. destruct r; [apply H|apply tree_ret]. Qed.

Lemma decoded_all {S} (fields : list (field S)) zero r k :
  (∀ x, T (k x)) → T (decoded fields zero r k).
Proof using HT. intros H. unfold decoded. destruct (Decode _ _ _); [apply H|apply tree_ret]. Qed.

Lemma refuse_if_all b code msg k : T k → T (refuse_if b code msg k).
Proof using HT. intros H. destruct b; [apply tree_ret|exact H]. Qed.

Lemma served_all {A} (p : proc (result A)) status code ok :
  T p → T (served p status code ok).
Proof using HT. intros H. apply tree_bind; [exact H|]. intros. apply tree_ret. Qed.

Lemma decided_all {A} (p : proc (result A)) code ok :
  T p → T (decided p code ok).
Proof using HT. intros H. apply tree_bind; [exact H|]. intros. apply tree_ret. Qed.

Lemma optional_param_all {A} v (parse : string → result A) code k :
  (∀ x, T (k x)) → T (optional_param v parse code k).
Proof using HT. intros H. unfold optional_param. destruct (non_empty v); [by apply parsed_all|apply H]. Qed.

Lemma natural_param_all v code msg k :
  (∀ x, T (k x)) → T (natural_param v code msg k).
Proof using HT.
  intros H. unfold natural_param. destruct (non_empty v) as [x|]; [|apply H].
  destruct (Atoi x); [|apply tree_ret]. case_match; [apply tree_ret|apply H].
Qed.

Lemma attempt_result_all req k :
  (∀ a, T (k a)) → T (attempt_result req k).
Proof using HT.
  intros H. unfold attempt_result.
  repeat first [apply tree_ret | apply H | apply parsed_all; intros | case_match].
Qed.

Variable s : Server.
Hypothesis Hs : all_server s.

Lemma phase_decisions_all k :
  (∀ svc, sv_phaseDecisions s = Some svc → T (k svc)) →
  T (with_phase_decisions_service s k).
Proof using HT. unfold with_phase_decisions_service. intros H. destruct (sv_phaseDecisions s); [by apply H|apply tree_ret]. Qed.

Ltac handler_all :=
  repeat first
    [ apply tree_ret
    | apply parsed_all; intros | apply decoded_all; intros | apply refuse_if_all
    | apply optional_param_all; intros | apply natural_param_all; intros
    | apply attempt_result_all; intros
    | apply served_all | apply decided_all | case_match ].

Lemma routes_all rt r :
  rt ∈ routes s → T (rt_Handler rt r).
Proof using HT Hs.
  destruct Hs as [[] [] [] [] [] Hp]. intros H. cbv [routes Route_ fmap list_fmap app] in H.
  repeat (apply elem_of_cons in H as [->|H]); [..|by apply elem_of_nil in H]; simpl.
  - apply tree_ret.
  - unfold handleReady. destruct (negb _); [apply tree_ret|]. apply tree_bind; [apply tree_ping|].
    intros. apply tree_ret.
  - unfold handleSubmitTask. handler_all. auto.
  - unfold handleGetTask. handler_all. auto.
  - unfold handleRouteTask. handler_all. auto.
  - unfold handleEvaluatePolicy. handler_all. auto.
  - unfold handleStartWorkflow. handler_all. auto.
  - unfold handleProcessTask. handler_all. auto.
  - unfold handleTriggerEscalation. handler_all. auto.
  - unfold handleListWorkflows. handler_all. auto.
  - unfold handleGetWorkflowStatus. handler_all. auto.
  - unfold handleKillWorkflow. handler_all. auto.
  - unfold handlePauseWorkflow. handler_all. auto.
  - unfold handleResumeWorkflow. handler_all. auto.
  - unfold handleRegisterAttempt. handler_all. auto.
  - unfold handleGetPendingApprovals. handler_all. auto.
  - unfold handleResolveApproval. handler_all. auto.
  - unfold handleQueryAuditTrail. handler_all. auto.
  - unfold handleListBreakers. handler_all; auto.
  - unfold handleDecisionPhase. apply phase_decisions_all. intros svc E. handler_all. by apply Hp in E as [].
  - unfold handleDecisionSensitive. apply phase_decisions_all. intros svc E. handler_all. by apply Hp in E as [].
  - unfold handleApprovalStatus. apply phase_decisions_all. intros svc E. handler_all. by apply Hp in E as [].
Qed.

Lemma ServeHTTP_all `{Chi} r : T (ServeHTTP s r).
Proof using HT Hs.
  unfold ServeHTTP. destruct (chi_match _ _ _) as [st|[i params]]; [apply tree_ret|].
  destruct (routes s !! i) as [rt|] eqn:E; [|apply tree_ret].
  apply routes_all. by eapply list_elem_of_lookup_2.
Qed.
End trees.
