(* ===== verification/HandlerSafety.v ===== *)
(** The inbound ports, decorated or not, and every route of the HTTP server keep the invariant
    of the system and never panic. *)

From stdpp Require Import options.
From S2P Require Import Prelude GoLib Shared TimeFormat Json Task Workflow Execution Approval.
From S2P Require Import Escalation Policy Routing AuditLog Resilience Persistence Queries Ports.
From S2P Require Import AuditService Intake RouteTask PolicyEval WorkflowService ApprovalService.
From S2P Require Import EscalationService GovDecisions ProcessTask Inbound Decorators Dto Handlers Wire.
From S2P Require Import ProgramLogic PortSpecs ServiceSpecs DecoratorSpecs HandlerTrees.

(** * The ports of the program are safe *)

Section ports.
Context {PG : Postgres} {Wi : Wiring}.

(** Keeps the invariant from every state. *)
Definition safely A (p : proc A) : Prop := ∀ W, safe p anything W.

#[export] Instance safely_tree : TreeProperty safely.
Proof.
  split.
  - intros A a W. apply safe_done.
  - intros A B p f Hp Hf W. apply safe_drop; [apply Hp|]. intros W' x _ _. apply Hf.
  - intros W. eapply safe_call; [done|]. by apply plain_ok.
Qed.

Lemma decorates_safely {A} (p p' : proc A) : decorates p p' → safely A p' → safely A p.
Proof. intros D H W. by eapply decorates_safe. Qed.

Lemma governance_safe s s' : decorates_governance s s' → all_governance safely s' → all_governance safely s.
Proof. intros [] []. split; intros; (eapply decorates_safely; [by eauto|auto]). Qed.
Lemma control_safe s s' : decorates_control s s' → all_control safely s' → all_control safely s.
Proof. intros [] []. split; intros; (eapply decorates_safely; [by eauto|auto]). Qed.
Lemma approvals_safe s s' : decorates_approvals s s' → all_approvals safely s' → all_approvals safely s.
Proof. intros [] []. split; intros; (eapply decorates_safely; [by eauto|auto]). Qed.
Lemma queries_safe s s' : decorates_queries s s' → all_queries safely s' → all_queries safely s.
Proof. intros [] []. split; intros; (eapply decorates_safely; [by eauto|auto]). Qed.
Lemma escalation_safe s s' : decorates_escalation s s' → all_escalation safely s' → all_escalation safely s.
Proof. intros [] []. split; intros; (eapply decorates_safely; [by eauto|auto]). Qed.

Lemma govSvc_safe : all_governance safely govSvc.
Proof.
  assert (H : all_governance safely governanceServiceAdapter).
  { split; intros; intros W; [apply SubmitTask_safe|apply ProcessTask_safe|apply RouteTask_safe
                   |apply EvaluatePolicy_safe|apply StartWorkflow_safe]. }
  unfold govSvc. destruct has_metrics; [|done].
  eapply governance_safe; [|exact H]. apply TracedGovernance_decorates, MetricsGovernance_decorates.
Qed.

Lemma wfCtrl_safe : all_control safely wfCtrl.
Proof.
  assert (H : all_control safely workflowSvc).
  { split; intros; intros W; [apply KillWorkflow_safe|apply PauseWorkflow_safe|apply ResumeWorkflow_safe
                   |apply RegisterAttempt_safe]. }
  unfold wfCtrl. destruct has_metrics; [|done].
  eapply control_safe; [|exact H]. apply TracedControl_decorates, MetricsControl_decorates.
Qed.

Lemma approvalPort_safe : all_approvals safely approvalPort.
Proof.
  assert (H : all_approvals safely approvalSvc)
    by (split; intros; intros W; [apply ResolveApproval_safe|apply GetPendingApprovals_safe]).
  unfold approvalPort. destruct has_metrics; [|done].
  eapply approvals_safe; [|exact H]. apply TracedApproval_decorates.
Qed.

Lemma plain_call_safe {X} (q : port X) W : plain q = true → safe (call q) anything W.
Proof. intros P. eapply safe_call; [done|]. by apply plain_ok. Qed.

Lemma queryPort_safe : all_queries safely queryPort.
Proof.
  assert (H : all_queries safely queryServiceAdapter).
  { split; intros; intros W.
    - eapply safe_anything, safe_call; [|apply TaskFindByID_ok]. by apply okpost_stable.
    - apply GetWorkflowStatus_safe.
    - apply GetWorkflowByTask_safe.
    - by apply plain_call_safe.
    - by apply plain_call_safe.
    - apply safe_if; [|apply safe_done]. apply safe_plain; [done|]. intros. apply safe_done.
    - apply safe_if; [|apply safe_done]. apply safe_plain; [done|]. intros. apply safe_done. }
  unfold queryPort. destruct has_metrics; [|done].
  eapply queries_safe; [|exact H]. apply TracedQuery_decorates.
Qed.

Lemma escalationPort_safe : all_escalation safely escalationPort.
Proof.
  assert (H : all_escalation safely escalationSvc) by (split; intros; intros W; apply TriggerEscalation_safe).
  unfold escalationPort. destruct has_metrics; [|done].
  eapply escalation_safe; [|exact H]. apply TracedEscalation_decorates.
Qed.

Lemma httpServer_safe : all_server safely httpServer.
Proof.
  split; simpl; [apply govSvc_safe|apply wfCtrl_safe|apply approvalPort_safe|apply queryPort_safe
                |apply escalationPort_safe|].
  intros ? [= <-]. split; intros; intros W;
    [apply EvaluatePhase_safe|apply EvaluateSensitive_safe|apply ApprovalStatusFor_safe].
Qed.
End ports.

Lemma ServeHTTP_safe `{Postgres, Zone, ULID, Chi} s r W :
  all_server safely s → safe (ServeHTTP s r) anything W.
Proof. intros Hs. by apply (ServeHTTP_all safely). Qed.
