(* ===== verification/HandlerSpecs.v ===== *)
(** What the HTTP adapter guarantees: a request answered 400 has no effect, every response is
    well formed, attempts reach the service exactly when they are valid, and listings are
    bounded. *)

From stdpp Require Import options.
From S2P Require Import Prelude GoLib Shared TimeFormat Json Task Workflow Execution Approval.
From S2P Require Import Escalation Policy Routing AuditLog Resilience Persistence Queries Ports.
From S2P Require Import AuditService Intake RouteTask PolicyEval WorkflowService ApprovalService.
From S2P Require Import EscalationService GovDecisions ProcessTask Inbound Decorators Dto Handlers Wire.
From S2P Require Import ProgramLogic PortSpecs Runs DecoratorSpecs.

(** * Responses *)

(** An error response has a code; a value is answered with success; readiness is reported with
    the matching status. *)
Definition response_ok (resp : Response) : Prop :=
  match rs_Body resp with
  | ErrorBody e => er_Code e ≠ "" ∧ rs_Status resp ∈ [400; 404; 500; 503]%Z
  | JSONBody _ => rs_Status resp ∈ [200; 201]%Z
  | ReadinessBody status _ => (status = "ready" ∧ rs_Status resp = 200%Z) ∨
                              (status = "degraded" ∧ rs_Status resp = 503%Z)
  end.

Section responses.
Context {PG : Postgres} {Zn : Zone} {U : ULID}.

(** Every response is well formed, and one with status 400 leaves the state as it was. *)
Definition conforms (p : proc Response) : Prop :=
  ∀ o W resp W' o', run p o W = (Returned resp, W', o') →
  response_ok resp ∧ (rs_Status resp = StatusBadRequest → W' = W).

(** Errors that a handler of the facade answers with 400 come before any effect. *)
Definition invalid_harmless {A} (p : proc (result A)) : Prop :=
  ∀ o W e W' o', run p o W = (Returned (Err e), W', o') → errors_Is e ErrInvalidInput = true → W' = W.

Lemma conforms_ret resp : response_ok resp → conforms (Ret resp).
Proof. intros H o W ? W' o' [= <- <- <-]. done. Qed.

Lemma bad_request_ok code msg : code ≠ "" → conforms (Ret (writeError StatusBadRequest code msg)).
Proof. intros H. apply conforms_ret. split; [done|]. set_solver. Qed.

Lemma parsed_conforms {A} (r : result A) code k :
  code ≠ "" → (∀ x, conforms (k x)) → conforms (parsed r code k).
Proof. intros Hc H. destruct r; [apply H|by apply bad_request_ok]. Qed.

Lemma decoded_conforms {S} (fields : list (field S)) zero r k :
  (∀ x, conforms (k x)) → conforms (decoded fields zero r k).
Proof. intros H. unfold decoded. destruct (Decode _ _ _); [apply H|by apply bad_request_ok]. Qed.

Lemma refuse_if_conforms b code msg k : code ≠ "" → conforms k → conforms (refuse_if b code msg k).
Proof. intros Hc H. destruct b; [by apply bad_request_ok|exact H]. Qed.

Lemma optional_param_conforms {A} v (parse : string → result A) code k :
  code ≠ "" → (∀ x, conforms (k x)) → conforms (optional_param v parse code k).
Proof. intros Hc H. unfold optional_param. destruct (non_empty v); [by apply parsed_conforms|apply H]. Qed.

Lemma natural_param_conforms v code msg k :
  code ≠ "" → (∀ x, conforms (k x)) → conforms (natural_param v code msg k).
Proof.
  intros Hc H. unfold natural_param. destruct (non_empty v) as [x|]; [|apply H].
  destruct (Atoi x); [|by apply bad_request_ok]. case_match; [by apply bad_request_ok|apply H].
Qed.

Lemma attempt_result_conforms req k : (∀ a, conforms (k a)) → conforms (attempt_result req k).
Proof.
  intros H. unfold attempt_result.
  repeat first [by apply bad_request_ok | apply H | apply parsed_conforms; [done|intros] | case_match].
Qed.

Lemma then_ret {A} (p : proc A) (f : A → Response) o W resp W' o' :
  run (p ≫= λ x, Ret (f x)) o W = (Returned resp, W', o') →
  ∃ x, run p o W = (Returned x, W', o') ∧ resp = f x.
Proof.
  rewrite run_bind. destruct (run p o W) as [[[x|] W1] o1]; [|done]. simpl. intros [= <- <- <-]. by exists x.
Qed.

Lemma writeJSON_ok {A} `{J : ToJSON A} status (x : A) :
  status ∈ [200; 201]%Z → response_ok (writeJSON status x) ∧ rs_Status (writeJSON status x) ≠ StatusBadRequest.
Proof. intros H. split; [done|]. simpl. intros ->. set_solver. Qed.

Lemma served_conforms {A} (p : proc (result A)) status code ok :
  code ≠ "" → status ∈ [404; 500]%Z →
  (∀ x, response_ok (ok x) ∧ rs_Status (ok x) ≠ StatusBadRequest) → conforms (served p status code ok).
Proof.
  intros Hc Hs H o W resp W' o' R. apply then_ret in R as ([x|e] & _ & ->).
  - destruct (H x). done.
  - split; [split; [done|]; set_solver|]. simpl. intros ->. set_solver.
Qed.

Lemma decided_conforms {A} (p : proc (result A)) code ok :
  code ≠ "" → invalid_harmless p →
  (∀ x, response_ok (ok x) ∧ rs_Status (ok x) ≠ StatusBadRequest) → conforms (decided p code ok).
Proof.
  intros Hc Hp H o W resp W' o' R. apply then_ret in R as ([x|e] & R & ->).
  - destruct (H x). done.
  - unfold decision_error. destruct (errors_Is e ErrInvalidInput) eqn:E.
    + split; [split; [done|]; set_solver|]. intros _. by eapply Hp.
    + split; [split; [done|]; set_solver|]. done.
Qed.

Lemma phase_decisions_conforms s k :
  (∀ svc, sv_phaseDecisions s = Some svc → conforms (k svc)) →
  conforms (with_phase_decisions_service s k).
Proof.
  unfold with_phase_decisions_service. intros H. destruct (sv_phaseDecisions s); [by apply H|].
  apply conforms_ret. split; [done|]. set_solver.
Qed.

Variable s : Server.
Hypothesis Hs : ∀ svc, sv_phaseDecisions s = Some svc →
  (∀ in_, invalid_harmless (ps_EvaluatePhase svc in_)) ∧
  (∀ in_, invalid_harmless (ps_EvaluateSensitive svc in_)) ∧
  (∀ c p, invalid_harmless (ps_ApprovalStatusFor svc c p)).

Ltac handler_conforms :=
  repeat first
    [ apply parsed_conforms; [done|intros] | apply decoded_conforms; intros
    | apply refuse_if_conforms; [done|]
    | apply optional_param_conforms; [done|intros] | apply natural_param_conforms; [done|intros]
    | apply attempt_result_conforms; intros | by apply bad_request_ok
    | apply served_conforms; [done|set_solver|intros; repeat case_match; apply writeJSON_ok; set_solver]
    | apply decided_conforms; [done| |intros; apply writeJSON_ok; set_solver]
    | case_match ].

Lemma routes_conform rt r : rt ∈ routes s → conforms (rt_Handler rt r).
Proof using Hs.
  intros H. cbv [routes Route_ fmap list_fmap app] in H.
  repeat (apply elem_of_cons in H as [->|H]); [..|by apply elem_of_nil in H]; simpl.
  - apply conforms_ret. apply (writeJSON_ok 200). set_solver.
  - unfold handleReady. destruct (negb _); [apply conforms_ret; by right|].
    intros o W resp W' o' R. apply then_ret in R as (x & _ & ->). destruct x; split; try done; [by left|by right].
  - unfold handleSubmitTask. handler_conforms.
  - unfold handleGetTask. handler_conforms.
  - unfold handleRouteTask. handler_conforms.
  - unfold handleEvaluatePolicy. handler_conforms.
  - unfold handleStartWorkflow. handler_conforms.
  - unfold handleProcessTask. handler_conforms.
  - unfold handleTriggerEscalation. handler_conforms.
  - unfold handleListWorkflows. handler_conforms.
  - unfold handleGetWorkflowStatus. handler_conforms.
  - unfold handleKillWorkflow. handler_conforms.
  - unfold handlePauseWorkflow. handler_conforms.
  - unfold handleResumeWorkflow. handler_conforms.
  - unfold handleRegisterAttempt. handler_conforms.
  - unfold handleGetPendingApprovals. handler_conforms.
  - unfold handleResolveApproval. handler_conforms.
  - unfold handleQueryAuditTrail. handler_conforms.
  - unfold handleListBreakers. handler_conforms.
  - unfold handleDecisionPhase. apply phase_decisions_conforms. intros svc E. handler_conforms. by apply Hs.
  - unfold handleDecisionSensitive. apply phase_decisions_conforms. intros svc E. handler_conforms. by apply Hs.
  - unfold handleApprovalStatus. apply phase_decisions_conforms. intros svc E. handler_conforms. by apply Hs.
Qed.
End responses.

(** * The program's server *)

Section server.
Context {PG : Postgres} {Wi : Wiring} {Zn : Zone} {U : ULID}.

Lemma not_invalid ctx1 ctx2 e :
  e = connection_error ∨ e = constraint_error →
  errors_Is (Wrapf ctx1 [] (Wrapf ctx2 [] e)) ErrInvalidInput = false.
Proof. by intros [-> | ->]. Qed.

Lemma db_write_error ctx f W r e :
  (db_write ctx f W r).1 = Err e → ∃ e', e = Wrapf ctx [] e' ∧ (e' = connection_error ∨ e' = constraint_error).
Proof. destruct f, r; simpl; intros [= <-]; eauto. Qed.

(** The save of a phase decision and what follows it. *)
Lemma phase_save_harmless {A} rec_ ctx (d : A) o W e W' o' :
  run (try ctx (call (PhaseDecisionSave rec_)) (λ _, Ret (Ok d))) o W = (Returned (Err e), W', o') →
  errors_Is e ErrInvalidInput = true → W' = W.
Proof.
  rewrite run_call. destruct (exec (o 0) (PhaseDecisionSave rec_) W) as [[x|e1] W1] eqn:E; simpl; intros [= <- <- <-].
  step_call in E. match type of E with ?r = _ => pose proof (db_write_error _ _ _ _ e1 (f_equal fst E)) as (e' & -> & He) end.
  by rewrite not_invalid.
Qed.

Lemma phase_harmless in_ : invalid_harmless (EvaluatePhase in_).
Proof.
  intros o W e W' o'. unfold EvaluatePhase. repeat case_decide; [by intros [= _ <- _]..|].
  do 2 (rewrite run_bind_call; step_call). apply phase_save_harmless.
Qed.

Lemma sensitive_harmless in_ : invalid_harmless (EvaluateSensitive in_).
Proof.
  intros o W e W' o'. unfold EvaluateSensitive. repeat case_decide; [by intros [= _ <- _]..|].
  do 2 (rewrite run_bind_call; step_call). apply phase_save_harmless.
Qed.

Lemma status_harmless c p : invalid_harmless (ApprovalStatusFor c p).
Proof.
  intros o W e W' o'. unfold ApprovalStatusFor. case_decide; [by intros [= _ <- _]|].
  rewrite run_call. step_call. destruct (db_read _ _ _) as [[r|]|e1]; simpl; by intros [= _ <- _].
Qed.

(** C16: malformed requests are harmless.  Whatever is sent to any route of the server, under any
    faults: the response is well formed (an error status with an error code, or success with a
    value), and when its status is 400 the request has changed nothing - no row, no
    notification, no measurement. *)
Theorem http_bad_request_harmless rt r o W resp W' o' :
  rt ∈ routes httpServer → run (rt_Handler rt r) o W = (Returned resp, W', o') →
  response_ok resp ∧ (rs_Status resp = StatusBadRequest → W' = W).
Proof.
  intros Hrt. apply (routes_conform httpServer); [|done]. intros svc [= <-].
  split_and!; intros; [apply phase_harmless|apply sensitive_harmless|apply status_harmless].
Qed.
End server.

(** * Attempts *)

(** A member of an object, when there is a value. *)
Definition opt_member {T} (k : string) (enc : T → json) (o : option T) : list (string * json) :=
  match o with Some x => [(k, enc x)] | None => [] end.

(** The document of an attempt. *)
Definition attempt_json (a : AttemptResult) : json := JObject (
  opt_member "status" JString (Some (to_string (arStatus a))) ++
  opt_member "failure_stage" (λ x, JString (to_string x)) (arFailureStage a) ++
  opt_member "failure_code" JString (arFailureCode a) ++
  opt_member "retryable" JBool (arRetryable a) ++
  opt_member "tool_name" JString (arToolName a) ++
  opt_member "strategy_used" JString (arStrategyUsed a) ++
  opt_member "agent_role" JString (arAgentRole a) ++
  opt_member "detail" JString (arDetail a)).

Lemma attempt_decodes a :
  Decode registerAttemptRequest_fields zero_registerAttemptRequest (Some (attempt_json a)) =
  Some (Build_registerAttemptRequest (to_string (arStatus a)) (to_string <$> arFailureStage a)
          (arFailureCode a) (arRetryable a) (arToolName a) (arStrategyUsed a) (arAgentRole a) (arDetail a)).
Proof.
  destruct a as [status [stage|] [code|] [retryable|] [tool|] [strategy|] [role|] [detail|]]; reflexivity.
Qed.

(** What a client can report: a valid attempt with a declared failure stage, retryable when it
    is a retry (the flag of a retry request is not kept). *)
Definition reportable (a : AttemptResult) : Prop :=
  Validate a = Ok () ∧ (∀ stage, arFailureStage a = Some stage → known stage = true) ∧
  (arStatus a = AttemptStatusRetry → arRetryable a = Some true).

Section attempts.
Context {Zn : Zone} {U : ULID}.

(** The call a handler makes for an attempt. *)
Definition attempt_call (s : Server) (id : WorkflowRunID) (a : AttemptResult) : proc Response :=
  served (wc_RegisterAttempt (sv_control s) id a) StatusInternalServerError "REGISTER_ATTEMPT_FAILED"
    (λ result_, writeJSON StatusOK (workflowRunToResponse result_)).

Lemma optional_fields_reportable req a : reportable a → reportable (optional_fields req a).
Proof.
  unfold reportable, optional_fields, with_field.
  by destruct (ra_Detail req), (ra_AgentRole req), (ra_StrategyUsed req), (ra_ToolName req).
Qed.

Lemma attempt_result_sound req k :
  (∃ code msg, attempt_result req k = Ret (writeError StatusBadRequest code msg)) ∨
  (∃ a, attempt_result req k = k a ∧ reportable a ∧ to_string (arStatus a) = ra_Status req).
Proof.
  unfold attempt_result. pose proof (to_of_string (A:=AttemptStatus) (ra_Status req)) as St.
  destruct (of_string (ra_Status req)) eqn:E; [|destruct (ra_FailureStage req) as [fs|]..|]; eauto.
  { right. exists NewSuccessResult. split; [done|]. split; [by split_and!|done]. }
  all: unfold parsed at 1; destruct (NewFailureStage fs) as [stage|] eqn:Es; eauto.
  all: apply parse_enum_Ok in Es as [K _].
  all: destruct (ra_FailureCode req) as [[|c cs]|]; eauto; destruct (ra_Retryable req); eauto.
  all: right; eexists; split; [reflexivity|]; split; [|done]; split_and!; try done; by intros ? [= <-].
Qed.

Lemma attempt_result_complete a k :
  reportable a →
  attempt_result (Build_registerAttemptRequest (to_string (arStatus a)) (to_string <$> arFailureStage a)
    (arFailureCode a) (arRetryable a) (arToolName a) (arStrategyUsed a) (arAgentRole a) (arDetail a)) k
  = k {| arStatus := arStatus a; arFailureStage := arFailureStage a; arFailureCode := arFailureCode a;
         arRetryable := arRetryable a; arToolName := None; arStrategyUsed := None; arAgentRole := None;
         arDetail := None |}.
Proof.
  destruct a as [status stage code retryable tool strategy role detail].
  unfold reportable, Validate, attempt_result.
  cbn [arStatus arFailureStage arFailureCode arRetryable arToolName arStrategyUsed arAgentRole arDetail
       ra_Status ra_FailureStage ra_FailureCode ra_Retryable].
  intros (V & K & R). destruct status; [by destruct stage, code, retryable| | |done].
  all: destruct stage as [stage|]; [|done]; specialize (K _ eq_refl).
  all: cbn [fmap option_fmap option_map]; unfold parsed, NewFailureStage; rewrite parse_enum_to_string by done.
  all: destruct code as [[|c cs]|]; [done| |done]; destruct retryable as [b|]; [|done]; try done.
  by specialize (R eq_refl) as [= ->].
Qed.

End attempts.

(** * Listings *)

Section listings.
Context {PG : Postgres} {Wi : Wiring} {Zn : Zone} {U : ULID}.

Lemma list_filter_range r :
  (1 ≤ wlLimit (list_filter r) ≤ 100)%Z ∧ (0 ≤ wlOffset (list_filter r) ≤ maxInt64)%Z.
Proof.
  unfold list_filter; simpl. split; (destruct (Atoi _) as [n|] eqn:E; [apply Atoi_range in E|done]);
    case_match eqn:C; boolify; unfold maxInt64 in *; lia.
Qed.

Lemma paginate_length {A} limit offset (l : list A) :
  (0 < limit)%Z → length (paginate limit offset l) ≤ Z.to_nat limit.
Proof. intros H. unfold paginate. rewrite (proj2 (Z.ltb_lt _ _) H), length_take. lia. Qed.

Lemma scan_runs_length rows ws : scan_runs rows = Ok ws → length ws = length rows.
Proof.
  revert ws. induction rows as [|r rows IH]; intros ws; simpl; [by intros [= <-]|].
  intros (w & _ & (l & Hl & [= <-])%result_bind_Ok)%result_bind_Ok. simpl. by rewrite (IH l).
Qed.

(** A query of the decorated port answers as the repository does. *)
Lemma run_query {A} (p q : proc A) o W x W' o' :
  decorates p q → run p o W = (Returned x, W', o') → ∃ o1 W1 o2, run q o1 W = (Returned x, W1, o2).
Proof.
  intros D R. destruct (decorates_run p q D o W W) as (o1 & _ & E & _); [done|]. rewrite R in E. simpl in E.
  destruct (run q o1 W) as [[a W1] o2] eqn:Eq. simpl in E. subst a. eauto.
Qed.

Lemma queryPort_decorates : decorates_queries queryPort queryServiceAdapter.
Proof. unfold queryPort. destruct has_metrics; [apply TracedQuery_decorates|by split]. Qed.

Lemma run_single {X} (q : port X) o W x W' o' :
  run (call q) o W = (Returned x, W', o') → x = (exec (o 0) q W).1.
Proof. simpl. destruct (exec (o 0) q W). by intros [= <- _ _]. Qed.

Lemma db_read_Ok_inv {A} ctx f (r : result A) a : db_read ctx f r = Ok a → r = Ok a.
Proof. by destruct f. Qed.

(** The filter of an audit request that has no limit. *)
Definition audit_filter (r : HttpRequest) : AuditFilter :=
  {| afTaskID := non_empty (rq_Query r "task_id");
     afWorkflowRunID := non_empty (rq_Query r "workflow_run_id");
     afActor := non_empty (rq_Query r "actor"); afAction := non_empty (rq_Query r "action");
     afCreatedAfter := None; afCreatedBefore := None; afLimit := 0; afOffset := 0 |}.

Lemma run_optional {A} v (parse : string → result A) code k o W resp W' o' :
  run (optional_param v parse code k) o W = (Returned resp, W', o') → rs_Status resp = StatusOK →
  ∃ x, run (k x) o W = (Returned resp, W', o') ∧
       match x with Some a => ∃ s, non_empty v = Some s ∧ parse s = Ok a | None => non_empty v = None end.
Proof.
  unfold optional_param, parsed. destruct (non_empty v) as [s|]; [|by exists None].
  destruct (parse s) as [a|] eqn:E; [by exists (Some a); eauto|by intros [= <- _ _]].
Qed.

Lemma run_natural v code msg k o W resp W' o' :
  run (natural_param v code msg k) o W = (Returned resp, W', o') → rs_Status resp = StatusOK →
  ∃ n, run (k n) o W = (Returned resp, W', o') ∧ (v = "" → n = 0%Z).
Proof.
  unfold natural_param. unfold non_empty. case_decide as Hv; [by exists 0%Z|].
  destruct (Atoi v) as [n|]; [|by intros [= <- _ _]]. case_match; [by intros [= <- _ _]|].
  intros R _. exists n. by split.
Qed.

(** A parameter that is parsed to itself. *)
Lemma same_param (v : string) (x : option string) (parse : string → result string) :
  (∀ s a, parse s = Ok a → a = s) →
  match x with Some a => ∃ s, non_empty v = Some s ∧ parse s = Ok a | None => non_empty v = None end →
  x = non_empty v.
Proof. intros H. destruct x as [a|]; [|done]. intros (s & -> & E). by rewrite (H s a E). Qed.

Lemma NewTaskID_same s a : NewTaskID s = Ok a → a = s.
Proof. unfold NewTaskID. case_match; congruence. Qed.
Lemma NewWorkflowRunID_same s a : NewWorkflowRunID s = Ok a → a = s.
Proof. unfold NewWorkflowRunID. case_match; congruence. Qed.
Lemma NewActorID_same s a : NewActorID s = Ok a → a = s.
Proof. unfold NewActorID. case_decide; congruence. Qed.

(** C18: listings are bounded.  Whatever limit and offset a client sends, the workflow list is
    asked for with a limit between 1 and 100 and a non negative offset, and a successful answer
    has at most 100 items; the audit trail has no such bound: a request without a limit is
    answered with every entry that matches, and its offset is ignored. *)
Theorem http_listing_bounds r o W resp W' o' :
  (1 ≤ wlLimit (list_filter r) ≤ 100)%Z ∧ (0 ≤ wlOffset (list_filter r) ≤ maxInt64)%Z ∧
  (run (handleListWorkflows httpServer r) o W = (Returned resp, W', o') → rs_Status resp = StatusOK →
   ∃ items total, resp = writeJSON StatusOK (AMap [("items", ASlice items); ("total", AInt total)]) ∧
     length items ≤ 100) ∧
  (run (handleQueryAuditTrail httpServer r) o W = (Returned resp, W', o') → rs_Status resp = StatusOK →
   rq_Query r "limit" = "" →
   let matching := audit_matching (audit_filter r) (w_audit W) in
   resp = writeJSON StatusOK (AMap [
     ("entries", to_json (auditEntryToResponse <$> (scanAuditEntry <$> matching)));
     ("total", AInt (Z.of_nat (length matching)))])).
Proof.
  destruct (list_filter_range r) as [L O]. do 2 (split; [done|]). split.
  - unfold handleListWorkflows. cbv zeta. case_match; [by intros [= <- _ _]|].
    intros (x & R & ->)%then_ret. intros St. destruct x as [[ws total]|e]; [|done].
    eexists _, total. split; [reflexivity|]. rewrite !length_fmap.
    apply (run_query _ _ _ _ _ _ _ (dq_List _ _ _ queryPort_decorates _)) in R as (o1 & W1 & o2 & R).
    apply run_single in R. step_call in R; cbn [fst] in R. symmetry in R. apply db_read_Ok_inv in R.
    unfold Queries.List_ in R. case_match; [done|]. apply result_bind_Ok in R as (l & Hl & [= <- _]).
    apply scan_runs_length in Hl. rewrite Hl.
    pose proof (paginate_length (wlLimit (list_filter r)) (wlOffset (list_filter r))
      (wf_matching (list_filter r) (map_to_list (w_workflows W)).*2) ltac:(lia)). lia.
  - intros R St Hl. unfold handleQueryAuditTrail in R.
    apply run_optional in R as (tid & R & Htid%(same_param _ _ _ NewTaskID_same)); [|done].
    apply run_optional in R as (wid & R & Hwid%(same_param _ _ _ NewWorkflowRunID_same)); [|done].
    apply run_optional in R as (act & R & Hact%(same_param _ _ _ NewActorID_same)); [|done].
    apply run_natural in R as (limit & R & Hlim); [|done]. apply run_natural in R as (offset & R & _); [|done].
    specialize (Hlim Hl). subst tid wid act limit.
    apply then_ret in R as ([[es total]|e] & R & ->); [|done].
    apply (run_query _ _ _ _ _ _ _ (dq_Audit _ _ _ queryPort_decorates _)) in R as (o1 & W1 & o2 & R).
    apply run_single in R. step_call in R; cbn [fst] in R. symmetry in R. apply db_read_Ok_inv in R.
    unfold Query, paginate, total_count in R. simpl in R. injection R as <- <-.
    change (audit_matching _ (w_audit W)) with (audit_matching (audit_filter r) (w_audit W)).
    by destruct (audit_matching (audit_filter r) (w_audit W)).
Qed.
End listings.

(** The task in the URL of a process request is not used: the same body has the same effect
    under any two task identifiers. *)
Theorem http_process_ignores_task `{Zone, U : ULID} s r r' id id' :
  NewTaskID (rq_Param r "taskID") = Ok id → NewTaskID (rq_Param r' "taskID") = Ok id' →
  rq_Body r = rq_Body r' → handleProcessTask s r = handleProcessTask s r'.
Proof. intros E E' B. unfold handleProcessTask. rewrite E, E'. unfold decoded. by rewrite B. Qed.

(** * Instances *)

#[local] Instance http_pg : Postgres := micro_pg.
#[local] Instance http_wiring : Wiring :=
  {| has_memory := false; has_stats := false; has_metrics := true; has_breakers := true |}.
#[local] Instance http_zone : Zone := {| zone_offset _ := 7200%Z |}.
#[local] Instance http_ulid : ULID := {| ParseStrict s := bool_decide (String.length s = 26) |}.

Definition http_run_id : string := "01HZX5K3Q8V7T2M4N6P8R0S1WF".
Definition http_oracle : nat → choice := λ n,
  {| ch_fault := NoFault; ch_id := http_run_id; ch_now := Z.of_nat (S n); ch_pick := 0; ch_memory := Ok None;
     ch_span := None; ch_notify := Ok tt |}.
Definition http_request (params query : list (string * string)) (body : option json) : HttpRequest :=
  let get (l : list (string * string)) k := match List.find (λ p, bool_decide (p.1 = k)) l with
                                            | Some (_, v) => v | None => "" end in
  {| rq_Param := get params; rq_Query := get query; rq_Body := body |}.
Definition http_attempt : AttemptResult :=
  {| arStatus := AttemptStatusFailure; arFailureStage := Some FailureStageRuntime;
     arFailureCode := Some "runtime/timeout"; arRetryable := Some true; arToolName := Some "bash";
     arStrategyUsed := None; arAgentRole := Some "coder"; arDetail := None |}.

Lemma http_bad_request_harmless_witness :
  let r := http_request [] [] (Some (JArray [])) in
  let resp := writeError StatusBadRequest "INVALID_JSON" (Literal "invalid request body") in
  run (handleSubmitTask httpServer r) http_oracle empty_world = (Returned resp, empty_world, http_oracle) ∧
  response_ok resp.
Proof.
  split; [reflexivity|].
  apply (http_bad_request_harmless (Post_ "/api/v1/tasks" (handleSubmitTask httpServer))
           (http_request [] [] (Some (JArray []))) http_oracle empty_world _ empty_world http_oracle).
  - apply (list_elem_of_lookup_2 _ 2). reflexivity.
  - reflexivity.
Defined.


Lemma http_listing_bounds_witness :
  let r := http_request [] [("limit", "1000"); ("offset", "-5")] None in
  let '(a, W', o') := run (handleListWorkflows httpServer r) http_oracle empty_world in
  ∃ resp, a = Returned resp ∧ rs_Status resp = StatusOK ∧
  ∃ items total, resp = writeJSON StatusOK (AMap [("items", ASlice items); ("total", AInt total)]) ∧
    length items ≤ 100.
Proof.
  eexists. split; [reflexivity|]. split; [reflexivity|].
  by eapply (http_listing_bounds (http_request [] [("limit", "1000"); ("offset", "-5")] None) http_oracle empty_world).
Defined.
