(* ===== verification/Telemetry.v ===== *)
(** What the program reports to OpenTelemetry: nothing when it is disabled; when it is enabled,
    every measurement is on an instrument that was created at start-up, with the value its kind
    allows. *)

From stdpp Require Import options.
From S2P Require Import Prelude GoLib Shared TimeFormat Json Task Workflow Execution Approval.
From S2P Require Import Escalation Policy Routing AuditLog Resilience Persistence Queries Ports.
From S2P Require Import AuditService Intake RouteTask PolicyEval WorkflowService ApprovalService.
From S2P Require Import EscalationService GovDecisions ProcessTask Inbound Decorators Config Dto Handlers Wire.
From S2P Require Import DecoratorSpecs HandlerTrees Bootstrap BootSpecs.

(** * Instruments *)

(** [NewInstruments] can answer [inst]. *)
Definition created (inst : Instruments) : Prop := ∃ h, traces NewInstruments h (Done (Ok inst)).

Lemma created_instruments inst :
  created inst → ∀ h k, (h, k) ∈ handles → ∃ d, instrument_of inst h = Some d ∧ idKind d = k ∧
    InstrumentNew d ∈ (instrument_call <$> instrument_table).
Proof.
  intros [h T]. destruct NewInstruments_plays as (inst' & E & K).
  destruct (traces_equiv _ _ _ _ T E) as (q & T' & Eq). apply traces_play in T'.
  assert (q = Done (Ok inst)) as -> by (destruct q; [by rewrite Eq|done]). clear E Eq T.
  destruct T' as [evs rest F Eq|evs h F T|evs c e h post F Ec T].
  - destruct rest; [|done]. by injection Eq as ->.
  - inversion T; subst. done.
  - inversion T.
Qed.

Section telemetry.
Context {Wi : Wiring} {Zn : Zone} {Ul : ULID} {Ch : Chi}.
Variable inst : Instruments.

(** A call that is allowed: spans and measurements only with telemetry, on an instrument, and a
    counter is only ever increased by one. *)
Definition reported_well X (q : port X) : Prop :=
  match q with
  | Metric m => has_metrics = true ∧
      ∃ d, instrument_of inst (mInstrument m) = Some d ∧
           InstrumentNew d ∈ (instrument_call <$> instrument_table) ∧
           (idKind d = Int64Counter → mValue m = float_of_int 1)
  | Tracer _ => has_metrics = true
  | _ => True
  end.
#[local] Abbreviation ok := (calls reported_well).

Hypothesis Hinst : created inst.

Lemma ok_measure h k v attrs :
  has_metrics = true → (h, k) ∈ handles → (k = Int64Counter → v = float_of_int 1) →
  ok (measure h v attrs).
Proof using Hinst.
  intros M Hh Hk. split; [|done]. split; [done|]. destruct (created_instruments _ Hinst _ _ Hh) as (d & ? & ? & ?).
  exists d. split_and!; [done..|]. intros E. apply Hk. congruence.
Qed.

Ltac on_counter := eapply ok_measure; [done|repeat constructor|done].

(** * Services *)

Lemma ok_Record actor action outcome ctx t w : ok (Record_ actor action outcome ctx t w).
Proof. unfold Record_. measures. Qed.

Lemma ok_terminal st d : ok (emitTerminal st d).
Proof using Hinst.
  unfold emitTerminal. destruct has_metrics eqn:M; [|done]. apply calls_bind; [|intros _]; on_counter.
Qed.

Lemma ok_failure st c r : ok (emitFailure st c r).
Proof using Hinst. unfold emitFailure. destruct has_metrics eqn:M; [|done]. on_counter. Qed.

Lemma ok_wait w r : ok (emitApprovalWait w r).
Proof using Hinst. unfold emitApprovalWait. destruct has_metrics eqn:M; [|done]. on_counter. Qed.

Lemma ok_emitAll ms :
  has_metrics = true → Forall (λ '(h, _), (h, Int64Counter) ∈ handles) ms → ok (emitAll ms).
Proof using Hinst.
  intros M F. induction F as [|[h attrs] ms H F IH]; [done|]. cbn [emitAll].
  apply calls_bind; [by eapply ok_measure|by intros _].
Qed.

Lemma ok_transition t : ok (onTransition t).
Proof using Hinst.
  unfold onTransition. destruct (AuditListener t) as [[action outcome] actx].
  apply calls_bind; [apply ok_Record|]. intros _. destruct has_metrics eqn:M; [|done].
  apply ok_emitAll; [done|]. unfold MetricsListener. case_decide; repeat constructor.
Qed.

Hint Resolve ok_Record ok_terminal ok_failure ok_wait ok_transition : core.

Lemma ok_governance :
  (∀ input, ok (SubmitTask input)) ∧ (∀ taskID, ok (RouteTask taskID)) ∧
  (∀ taskID action, ok (PolicyEval.EvaluatePolicy taskID action)) ∧ (∀ taskID, ok (StartWorkflow taskID)).
Proof using Hinst.
  split_and!; intros.
  - unfold SubmitTask. measures.
  - unfold RouteTask, loadOrCreateRun, createDecomposeSubtasks. measures.
  - unfold PolicyEval.EvaluatePolicy. measures.
  - unfold StartWorkflow, startDenied, startAwaitingApproval, startRunning, newLease, ms_since. measures.
Qed.

Lemma ok_ProcessTask input action : ok (ProcessTask input action).
Proof using Hinst.
  destruct ok_governance as (H1 & H2 & H3 & H4). unfold ProcessTask.
  apply calls_try; [apply H1|intros t]. apply calls_try; [apply H2|intros rd].
  apply calls_try; [apply H3|intros pd]. apply calls_try; [apply H4|done].
Qed.

Lemma ok_control :
  (∀ id r a, ok (KillWorkflow id r a)) ∧ (∀ id r a, ok (PauseWorkflow id r a)) ∧
  (∀ id r a, ok (ResumeWorkflow id r a)) ∧ (∀ id a, ok (RegisterAttempt id a)).
Proof using Hinst.
  split_and!; intros.
  - unfold KillWorkflow, revokeLease, ms_since. measures.
  - unfold PauseWorkflow. measures.
  - unfold ResumeWorkflow. measures.
  - unfold RegisterAttempt, reportAttempt, observeBreaker, ms_since. measures.
Qed.

Lemma ok_others :
  (∀ input, ok (ResolveApproval input)) ∧ ok GetPendingApprovals ∧
  (∀ t c tg, ok (TriggerEscalation t c tg)) ∧ (∀ i, ok (EvaluatePhase i)) ∧
  (∀ i, ok (EvaluateSensitive i)) ∧ (∀ c p, ok (ApprovalStatusFor c p)).
Proof using Hinst.
  split_and!; intros.
  - unfold ResolveApproval, grant, refuse, newLease, ms_since. measures.
  - unfold GetPendingApprovals. measures.
  - unfold TriggerEscalation. measures.
  - unfold EvaluatePhase. measures.
  - unfold EvaluateSensitive. measures.
  - unfold ApprovalStatusFor. measures.
Qed.

(** * Decorated ports *)

Lemma ok_measured {A} (p : proc (result A)) report :
  ok p → (∀ x, ok (report x)) → ok (measured p report).
Proof. intros Hp Hr. apply calls_bind; [done|]. intros [x|e]; [|done]. by apply calls_bind. Qed.

Lemma ok_traced {A} name attrs (p : proc (result A)) groups :
  has_metrics = true → ok p → ok (traced name attrs p groups).
Proof.
  intros M Hp. apply calls_call; [done|]. intros _. apply calls_bind; [done|]. intros r.
  apply calls_bind; [|intros _; by apply calls_call]. destruct r as [x|e]; [|by apply calls_call].
  induction (groups x); [done|]. cbn [set_attributes]. by apply calls_call.
Qed.

Lemma ok_spanned {A} name (p : proc (result A)) : has_metrics = true → ok p → ok (spanned name p).
Proof.
  intros M Hp. apply calls_call; [done|]. intros _. apply calls_bind; [done|]. intros r. by apply calls_call.
Qed.

#[export] Instance ok_tree : TreeProperty (λ A, @calls reported_well A).
Proof. split; [done|intros; by apply calls_bind|by split]. Qed.

Lemma ok_MetricsGovernance s :
  has_metrics = true → all_governance (λ A, @calls reported_well A) s →
  all_governance (λ A, @calls reported_well A) (MetricsGovernanceService s).
Proof using Hinst.
  intros M []. split; intros; cbn [MetricsGovernanceService gs_SubmitTask gs_ProcessTask gs_RouteTask
    gs_EvaluatePolicy gs_StartWorkflow]; auto.
  - apply ok_measured; [done|]. intros. on_counter.
  - apply calls_call; [done|]. intros. apply ok_measured; [done|]. intros. apply calls_bind; [done|].
    intros. on_counter.
  - apply calls_call; [done|]. intros. apply ok_measured; [done|]. intros. apply calls_bind; [done|].
    intros. apply calls_bind; [on_counter|]. intros. on_counter.
Qed.

Lemma ok_MetricsControl s :
  has_metrics = true → all_control (λ A, @calls reported_well A) s →
  all_control (λ A, @calls reported_well A) (MetricsWorkflowControl s).
Proof using Hinst.
  intros M []. split; intros; (apply ok_measured; [done|intros; on_counter]).
Qed.

Lemma ok_TracedGovernance s :
  has_metrics = true → all_governance (λ A, @calls reported_well A) s →
  all_governance (λ A, @calls reported_well A) (TracedGovernanceService s).
Proof.
  intros M G. split; intros.
  - exact (ok_traced _ _ _ _ M (all_SubmitTask _ _ G _)).
  - exact (ok_traced _ _ _ _ M (all_ProcessTask _ _ G _ _)).
  - exact (ok_traced _ _ _ _ M (all_RouteTask _ _ G _)).
  - exact (ok_traced _ _ _ _ M (all_EvaluatePolicy _ _ G _ _)).
  - exact (ok_traced _ _ _ _ M (all_StartWorkflow _ _ G _)).
Qed.

Lemma ok_TracedControl s :
  has_metrics = true → all_control (λ A, @calls reported_well A) s →
  all_control (λ A, @calls reported_well A) (TracedWorkflowControl s).
Proof.
  intros M C. split; intros.
  - exact (ok_traced _ _ _ _ M (all_Kill _ _ C _ _ _)).
  - exact (ok_traced _ _ _ _ M (all_Pause _ _ C _ _ _)).
  - exact (ok_traced _ _ _ _ M (all_Resume _ _ C _ _ _)).
  - exact (ok_traced _ _ _ _ M (all_Attempt _ _ C _ _)).
Qed.

Lemma ok_TracedApproval s :
  has_metrics = true → all_approvals (λ A, @calls reported_well A) s →
  all_approvals (λ A, @calls reported_well A) (TracedApprovalService s).
Proof.
  intros M C. split; intros.
  - exact (ok_traced _ _ _ _ M (all_Resolve _ _ C _)).
  - exact (ok_traced _ _ _ _ M (all_Pending _ _ C)).
Qed.

Lemma ok_TracedQuery s :
  has_metrics = true → all_queries (λ A, @calls reported_well A) s →
  all_queries (λ A, @calls reported_well A) (TracedQueryService s).
Proof.
  intros M Q. split; intros.
  - exact (ok_traced _ _ _ _ M (all_GetTask _ _ Q _)).
  - exact (ok_traced _ _ _ _ M (all_Status _ _ Q _)).
  - exact (ok_traced _ _ _ _ M (all_ByTask _ _ Q _)).
  - exact (ok_traced _ _ _ _ M (all_Audit _ _ Q _)).
  - exact (ok_traced _ _ _ _ M (all_List _ _ Q _)).
  - exact (ok_spanned _ _ M (all_Breakers _ _ Q _)).
  - exact (ok_spanned _ _ M (all_Breaker _ _ Q _ _)).
Qed.

Lemma ok_server : all_server (λ A, @calls reported_well A) httpServer.
Proof using Hinst.
  destruct ok_governance as (H1 & H2 & H3 & H4), ok_control as (C1 & C2 & C3 & C4),
    ok_others as (O1 & O2 & O3 & O4 & O5 & O6).
  assert (G : all_governance (λ A, @calls reported_well A) governanceServiceAdapter)
    by (split; intros; cbn [governanceServiceAdapter gs_SubmitTask gs_ProcessTask gs_RouteTask
      gs_EvaluatePolicy gs_StartWorkflow]; auto using ok_ProcessTask).
  assert (C : all_control (λ A, @calls reported_well A) workflowSvc) by (split; auto).
  assert (A : all_approvals (λ A, @calls reported_well A) approvalSvc) by (split; auto).
  assert (Q : all_queries (λ A, @calls reported_well A) queryServiceAdapter).
  { split; intros; unfold queryServiceAdapter, GetWorkflowStatus, GetWorkflowByTask, QueryAuditTrail, ListWorkflows;
      cbn [qs_GetTask qs_GetWorkflowStatus qs_GetWorkflowByTask qs_QueryAuditTrail qs_ListWorkflows
           qs_ListBreakers qs_GetBreakerState]; try by split.
    all: by first [destruct has_breakers; [by apply calls_call|done]|measures]. }
  assert (E : all_escalation (λ A, @calls reported_well A) escalationSvc) by (split; auto).
  split; simpl; [unfold govSvc|unfold wfCtrl|unfold approvalPort|unfold queryPort|unfold escalationPort|];
    [destruct has_metrics eqn:M; [|done]..|intros ? [= <-]; split; [exact O4|exact O5|exact O6]].
  - by apply ok_TracedGovernance, ok_MetricsGovernance.
  - by apply ok_TracedControl, ok_MetricsControl.
  - by apply ok_TracedApproval.
  - by apply ok_TracedQuery.
  - split; intros. exact (ok_traced _ _ _ _ M (all_Trigger _ _ E _ _ _)).
Qed.
End telemetry.

(** * Theorem *)


(** * Witness *)

(** The instruments of a start-up without failures. *)
Definition first_ok {A} : boot A → option A :=
  fix go p := match p with Done a => Some a | Lib _ k => go (k None) end.

Lemma first_ok_traces {A} (p : boot A) a : first_ok p = Some a → ∃ h, traces p h (Done a).
Proof.
  induction p as [b|c k IH]; simpl; [intros [= ->]; exists []; constructor|].
  intros (h & T)%IH. exists ((c, None) :: h). constructor; [by left|done].
Qed.

