(* ===== verification/Seam.v ===== *)
(** govhttptest: the exported test seam, which serves the governance facade from memory with
    deterministic identifiers and clock; and that whatever a client sees of it, the program on
    its database can answer too. *)

From stdpp Require Import options.
From S2P Require Import Prelude GoLib Shared TimeFormat Json Persistence Ports GovDecisions Inbound.
From S2P Require Import AuditService Dto Handlers Wire ProgramLogic Runs.

(** * store.go *)

(** [time.Date(2026, time.January, 1, 0, 0, 0, 0, time.UTC)] *)
Definition fixedInstant : Time :=
  (days_of_date {| dtYear := 2026; dtMonth := 1; dtDay := 1 |} * 24 * Hour)%Z.

Definition NUL : Ascii.ascii := Ascii.zero.
Definition approvalKey (changeID phaseID : string) : string := changeID +:+ String NUL phaseID.

(** The counter of [deterministicIDGen], the log of [inMemoryDecisionRepo] and the rows of
    [inMemoryApprovalRepo]. *)
Record Store := {
  st_next : Z;
  st_saved : list PhaseDecisionRecord;
  st_rows : gmap string PhaseApprovalRecord;
}.

Definition NewInMemoryStore : Store := {| st_next := 0; st_saved := []; st_rows := ∅ |}.

(** [fmt.Sprintf("DET-PHASE-DECISION-%04d", g.next)] *)
Definition det_id (n : Z) : string := "DET-PHASE-DECISION-" +:+ pad_int 4 n.

Definition NewPhaseDecisionID (st : Store) : string * Store :=
  let next := wrap64 (st_next st + 1) in
  (det_id next, {| st_next := next; st_saved := st_saved st; st_rows := st_rows st |}).

Definition Save (st : Store) (rec : PhaseDecisionRecord) : Store :=
  {| st_next := st_next st; st_saved := st_saved st ++ [rec]; st_rows := st_rows st |}.

Definition Find (st : Store) (changeID phaseID : string) : option PhaseApprovalRecord :=
  st_rows st !! approvalKey changeID phaseID.

Definition Seed (st : Store) (rec : PhaseApprovalRecord) : Store :=
  {| st_next := st_next st; st_saved := st_saved st;
     st_rows := <[approvalKey (paChangeID rec) (paPhaseID rec) := rec]> (st_rows st) |}.

(** The calls the store answers; every other dependency is a nil interface. *)
Definition store_exec {X} (q : port X) (st : Store) : option (X * Store) :=
  match q with
  | NewID => Some (NewPhaseDecisionID st)
  | TimeNow => Some (fixedInstant, st)
  | PhaseDecisionSave rec => Some (Ok tt, Save st rec)
  | PhaseApprovalFind changeID phaseID => Some (Ok (Find st changeID phaseID), st)
  | _ => None
  end.

Fixpoint store_run {A} (p : proc A) (st : Store) : outcome A * Store :=
  match p with
  | Ret a => (Returned a, st)
  | Panic => (Panicked, st)
  | Call q k => match store_exec q st with
                | Some (x, st') => store_run (k x) st' | None => (Panicked, st) end
  end.

(** * handler.go *)

(** A call through a nil interface panics. *)
Definition nil_governance : GovernanceService :=
  {| gs_SubmitTask _ := Panic; gs_ProcessTask _ _ := Panic; gs_RouteTask _ := Panic;
     gs_EvaluatePolicy _ _ := Panic; gs_StartWorkflow _ := Panic |}.
Definition nil_control : WorkflowControl :=
  {| wc_KillWorkflow _ _ _ := Panic; wc_PauseWorkflow _ _ _ := Panic;
     wc_ResumeWorkflow _ _ _ := Panic; wc_RegisterAttempt _ _ := Panic |}.
Definition nil_approvals : ApprovalPort :=
  {| ap_ResolveApproval _ := Panic; ap_GetPendingApprovals := Panic |}.
Definition nil_queries : QueryService :=
  {| qs_GetTask _ := Panic; qs_GetWorkflowStatus _ := Panic; qs_GetWorkflowByTask _ := Panic;
     qs_QueryAuditTrail _ := Panic; qs_ListWorkflows _ := Panic; qs_ListBreakers _ := Panic;
     qs_GetBreakerState _ _ := Panic |}.
Definition nil_escalation : EscalationPort := {| es_TriggerEscalation _ _ _ := Panic |}.

(** [NewServer(nil, nil, nil, nil, nil, nil).WithPhaseDecisions(svc)] *)
Definition seam_server : Server :=
  {| sv_governance := nil_governance; sv_control := nil_control; sv_approvals := nil_approvals;
     sv_queries := nil_queries; sv_escalation := nil_escalation;
     sv_phaseDecisions := Some phaseDecisionsSvc; sv_db := false |}.

(** [NewInMemoryDecisionsHandlerFromStore(store)], serving one request. *)
Definition NewInMemoryDecisionsHandlerFromStore `{Zone, ULID, Chi} (st : Store) (r : RawRequest)
    : outcome Response * Store := store_run (ServeHTTP seam_server r) st.

(** * Identifiers are fresh *)

(** The number a string of decimal digits denotes, after [acc]. *)
Fixpoint digits_value (s : string) (acc : N) : N :=
  match s with
  | EmptyString => acc
  | String c s => digits_value s (acc * 10 + (byte_of c - 48))
  end.

Lemma pretty_char_value n : (n < 10)%N → (byte_of (pretty_N_char n) - 48 = n)%N.
Proof.
  intros H. assert (n ∈ [0;1;2;3;4;5;6;7;8;9]%N) as K by (rewrite !elem_of_cons; lia).
  repeat (apply elem_of_cons in K as [->|K]; [reflexivity|]). by apply elem_of_nil in K.
Qed.

Lemma pretty_go_value n s : digits_value (pretty_N_go n s) 0 = digits_value s n.
Proof.
  revert s. induction (N.lt_wf_0 n) as [n _ IH]; intros s.
  destruct (decide (n = 0%N)) as [->|Hn]; [by rewrite pretty_N_go_0|].
  rewrite pretty_N_go_step by lia. rewrite IH by (apply N.div_lt; lia). simpl.
  rewrite pretty_char_value by (apply N.mod_lt; lia). f_equal.
  pose proof (N.div_mod n 10 ltac:(lia)). lia.
Qed.

Lemma zeros_value n s : digits_value (zeros n +:+ s) 0 = digits_value s 0.
Proof. induction n as [|n IH]; [done|exact IH]. Qed.

Lemma pad_int_value w n : (0 < n)%Z → digits_value (pad_int w n) 0 = Z.to_N n.
Proof.
  intros H. unfold pad_int. rewrite zeros_value. destruct n as [|n|n]; [lia| |lia].
  change (digits_value (pretty (Npos n)) 0 = Npos n). unfold pretty, pretty_N.
  rewrite decide_False by done. apply pretty_go_value.
Qed.

Lemma det_id_inj m n : (0 < m)%Z → (0 < n)%Z → det_id m = det_id n → m = n.
Proof.
  intros Hm Hn E. apply (inj (String.append _)), (f_equal (λ s, digits_value s 0)) in E.
  rewrite !pad_int_value in E by done. lia.
Qed.

(** * Keys are unambiguous *)

Definition no_nul (s : string) : bool := str_forallb (λ c, bool_decide (c ≠ NUL)) s.

Lemma approvalKey_inj c p c' p' :
  no_nul c = true → no_nul c' = true → approvalKey c p = approvalKey c' p' → c = c' ∧ p = p'.
Proof.
  revert c'. induction c as [|a c IH]; intros [|a' c'] H H' E.
  - by injection E as ->.
  - injection E as <- E. discriminate H'.
  - injection E as -> E. discriminate H.
  - cbn in H, H'. apply andb_true_iff in H as [_ H], H' as [_ H']. injection E as -> E.
    by destruct (IH c' H H' E) as [-> ->].
Qed.

(** Two identifiers with NUL characters can share a key; the database has no such texts. *)
Example approvalKey_collision :
  approvalKey "a" (String NUL "b") = approvalKey (String "a" (String NUL "")) "b".
Proof. reflexivity. Qed.

(** * Seeding the store with the approvals of a database *)

Definition seed (W : World) : Store :=
  map_fold (λ _ r st, Seed st (scanPhaseApproval r)) NewInMemoryStore (w_phase_approvals W).

(** Rows are stored under their primary key, and a text column never holds a NUL. *)
Definition approvals_keyed (W : World) : Prop :=
  map_Forall (λ k r, k = (pa_change_id r, pa_phase_id r) ∧ no_nul k.1 = true) (w_phase_approvals W).

Definition seeded (rows : gmap (string * string) PhaseApprovalRow) (st : Store) : Prop :=
  ∀ c p, no_nul c = true → Find st c p = scanPhaseApproval <$> rows !! (c, p).

Lemma seeded_insert rows st k r :
  k = (pa_change_id r, pa_phase_id r) → no_nul k.1 = true → seeded rows st →
  seeded (<[k := r]> rows) (Seed st (scanPhaseApproval r)).
Proof.
  intros -> Hk H c p Hc. unfold Find. cbn [Seed st_rows scanPhaseApproval paChangeID paPhaseID].
  destruct (decide ((pa_change_id r, pa_phase_id r) = (c, p))) as [[= <- <-]|Hne].
  - by rewrite !lookup_insert_eq.
  - rewrite !lookup_insert_ne; [by apply H|done|].
    intros E. apply Hne. by apply approvalKey_inj in E as [-> ->].
Qed.

Lemma seed_spec W :
  approvals_keyed W → seeded (w_phase_approvals W) (seed W) ∧ st_next (seed W) = 0%Z ∧ st_saved (seed W) = [].
Proof.
  unfold approvals_keyed, seed. generalize (w_phase_approvals W). intros rows.
  apply (map_fold_weak_ind (λ st m, map_Forall (λ k r, k = (pa_change_id r, pa_phase_id r) ∧
           no_nul k.1 = true) m → seeded m st ∧ st_next st = 0%Z ∧ st_saved st = [])).
  - intros _. split_and!; [|done..]. intros c p _. by rewrite lookup_empty.
  - intros k r m st Hm IH [[Hk Hn] H]%map_Forall_insert; [|done].
    destruct (IH H) as (S & N & L). split_and!; [by apply seeded_insert|done..].
Qed.

(** * The program can answer what the seam answers *)

Section seam.
Context {PG : Postgres} {Wi : Wiring} {Zn : Zone} {U : ULID} {Ch : Chi}.

Definition rows_of (saved : list PhaseDecisionRecord) : gmap string PhaseDecisionRow :=
  list_to_map ((λ rec, (phID rec, phaseDecisionToRow rec)) <$> saved).

(** The database holds the records of the store and is otherwise [W0]. *)
Record related (W0 : World) (st : Store) (W : World) : Prop := {
  rel_seeded : seeded (w_phase_approvals W0) st;
  rel_world : W = with_phase_decisions W0 (rows_of (st_saved st));
  rel_next : (0 ≤ st_next st)%Z;
  rel_ids : Forall (λ rec, ∃ i, (0 < i ≤ st_next st)%Z ∧ phID rec = det_id i) (st_saved st);
}.

(** No fault, the next identifier and the fixed instant. *)
Definition seam_choice (st : Store) : choice :=
  {| ch_fault := NoFault; ch_id := (NewPhaseDecisionID st).1; ch_now := fixedInstant; ch_pick := 0;
     ch_memory := Ok None; ch_span := None; ch_notify := Ok tt |}.
Definition seam_oracle (st : Store) : nat → choice := λ _, seam_choice st.

(** [p] on the store ends as [q] on the database, for some choices without faults. *)
Definition answers {A} (p q : proc A) : Prop := ∀ W0 st W,
  related W0 st W → (st_next st < maxInt64)%Z → ∃ a st' W' o',
  store_run p st = (Returned a, st') ∧ run q (seam_oracle st) W = (Returned a, W', o') ∧
  related W0 st' W' ∧ (st_next st' ≤ st_next st + 1)%Z.

Lemma answers_ret {A} (a : A) : answers (Ret a) (Ret a).
Proof. intros W0 st W R _. exists a, st, W, (seam_oracle st). split_and!; [done..|lia]. Qed.

Lemma store_run_bind {A B} (p : proc A) (f : A → B) st :
  store_run (p ≫= λ x, Ret (f x)) st =
  match store_run p st with (Returned a, st') => (Returned (f a), st') | (Panicked, st') => (Panicked, st') end.
Proof.
  revert st. induction p as [a|X q k IH|]; intros st; [done| |done]. simpl.
  destruct (store_exec q st) as [[x st']|]; [apply IH|done].
Qed.

Lemma answers_then {A B} (p q : proc A) (f : A → B) :
  answers p q → answers (p ≫= λ x, Ret (f x)) (q ≫= λ x, Ret (f x)).
Proof.
  intros H W0 st W R N. destruct (H W0 st W R N) as (a & st' & W' & o' & Ep & Eq & R' & L).
  exists (f a), st', W', o'. rewrite store_run_bind, Ep, run_bind, Eq. by split_and!.
Qed.

Lemma next_id W0 st W :
  related W0 st W → (st_next st < maxInt64)%Z → wrap64 (st_next st + 1) = (st_next st + 1)%Z.
Proof. intros [_ _ H _] N. apply wrap64_id. unfold minInt64, maxInt64 in *. lia. Qed.

Lemma ids_before W0 st W n :
  related W0 st W → (st_next st < n)%Z → det_id n ∉ phID <$> st_saved st.
Proof.
  intros [_ _ N I] Hn (rec & E & Hr)%list_elem_of_fmap.
  rewrite Forall_forall in I. destruct (I _ Hr) as (i & Hi & Ei).
  rewrite Ei in E. apply det_id_inj in E; lia.
Qed.

(** The save of a record under the next identifier. *)
Lemma save_answers {A} rec (d : A) ctx W0 st W :
  related W0 st W → (st_next st < maxInt64)%Z →
  phID rec = (NewPhaseDecisionID st).1 → phDecision rec = decision_string DecisionAllow →
  let st' := Save (NewPhaseDecisionID st).2 rec in
  let W' := with_phase_decisions W0 (rows_of (st_saved st')) in
  run (try ctx (call (PhaseDecisionSave rec)) (λ _, Ret (Ok d))) (seam_oracle st) W
    = (Returned (Ok d), W', seam_oracle st) ∧ related W0 st' W'.
Proof.
  intros R N Ei Ed st' W'. cbn [NewPhaseDecisionID fst] in Ei. rewrite (next_id _ _ _ R N) in Ei.
  assert (F : det_id (st_next st + 1) ∉ phID <$> st_saved st) by (eapply ids_before; [done|lia]).
  assert (E : rows_of (st_saved st') = <[phID rec := phaseDecisionToRow rec]> (rows_of (st_saved st))).
  { unfold rows_of, st'. cbn [Save NewPhaseDecisionID st_saved snd]. rewrite fmap_app. simpl.
    apply list_to_map_snoc. rewrite <- list_fmap_compose, Ei. exact F. }
  pose proof (next_id _ _ _ R N) as En. destruct R as [S HW Nn I]. split.
  - rewrite run_call. step_call; cbn [phaseDecisionToRow pd_row_id pd_row_decision].
    unfold insert_row. unfold W'. rewrite E. subst W.
    assert (w_phase_decisions (with_phase_decisions W0 (rows_of (st_saved st))) !! phID rec = None) as ->
      by (apply not_elem_of_list_to_map_1; rewrite <- list_fmap_compose, Ei; exact F).
    by rewrite Ed.
  - split; [exact S|done|cbn; rewrite En; lia|]. cbn [st' Save NewPhaseDecisionID st_saved st_next snd].
    rewrite En. apply Forall_app. split.
    + eapply Forall_impl; [exact I|]. intros r (i & Hi & Er). exists i. split; [lia|done].
    + apply Forall_singleton. exists (st_next st + 1)%Z. split; [lia|done].
Qed.

(** A decision made and recorded. *)
Lemma recorded_answers {A} (rec : string → Time → PhaseDecisionRecord) (d : string → Time → A) ctx :
  (∀ id t, phID (rec id t) = id) → (∀ id t, phDecision (rec id t) = decision_string DecisionAllow) →
  let p := id ← call NewID; now ← call TimeNow;
           try ctx (call (PhaseDecisionSave (rec id now))) (λ _, Ret (Ok (d id now))) in
  answers p p.
Proof.
  intros Hid Hd p W0 st W R N. unfold p. do 2 (rewrite run_bind_call; step_call).
  destruct (save_answers (rec (NewPhaseDecisionID st).1 fixedInstant) (d (NewPhaseDecisionID st).1 fixedInstant)
              ctx W0 st W R N (Hid _ _) (Hd _ _)) as [E R'].
  eexists _, _, _, _. split; [reflexivity|]. split; [exact E|]. split; [exact R'|].
  cbn. rewrite (next_id _ _ _ R N). lia.
Qed.

Lemma phase_answers in_ : answers (EvaluatePhase in_) (EvaluatePhase in_).
Proof.
  unfold EvaluatePhase. repeat case_decide; [apply answers_ret..|].
  by apply (recorded_answers (λ id now, {| phID := id; phCreatedAt := now |})).
Qed.

Lemma sensitive_answers in_ : answers (EvaluateSensitive in_) (EvaluateSensitive in_).
Proof.
  unfold EvaluateSensitive. repeat case_decide; [apply answers_ret..|].
  by apply (recorded_answers (λ id now, {| phID := id; phCreatedAt := now |})).
Qed.

Lemma status_answers c p : no_nul c = true → answers (ApprovalStatusFor c p) (ApprovalStatusFor c p).
Proof.
  intros Hc. unfold ApprovalStatusFor. case_decide; [apply answers_ret|]. intros W0 st W R N.
  assert (E : (exec (seam_choice st) (PhaseApprovalFind c p) W) = (Ok (Find st c p), W)).
  { step_call. destruct R as [S -> _ _]. rewrite (S c p Hc). reflexivity. }
  rewrite run_call. unfold seam_oracle at 1. rewrite E. simpl.
  exists (Ok (match Find st c p with Some r => paStatus r | None => ApprovalGranted end)), st, W, (rest (seam_oracle st)).
  split; [|split_and!; [by destruct (Find st c p)|done|lia]].
  change (store_run _ st) with
    (store_run (match Find st c p with None => Ret (Ok ApprovalGranted) | Some r => Ret (Ok (paStatus r)) end) st).
  by destruct (Find st c p).
Qed.

(** * Requests on the routes of the facade *)

(** Requests that reach the facade, or no route at all; the other services are not there. *)
Definition facade_request (r : RawRequest) : Prop :=
  match chi_match ((λ rt, (rt_Method rt, rt_Pattern rt)) <$> routes seam_server) (rw_Method r) (rw_Path r) with
  | inl _ => True
  | inr (i, params) => 19 ≤ i ∧ no_nul (params "change_id") = true
  end.

Lemma decoded_answers {S} (fields : list (field S)) zero r k k' :
  (∀ x, answers (k x) (k' x)) → answers (decoded fields zero r k) (decoded fields zero r k').
Proof. intros H. unfold decoded. destruct (Decode _ _ _); [apply H|apply answers_ret]. Qed.

Lemma ServeHTTP_answers r : facade_request r → answers (ServeHTTP seam_server r) (ServeHTTP httpServer r).
Proof.
  unfold facade_request, ServeHTTP. cbv zeta.
  change ((λ rt, (rt_Method rt, rt_Pattern rt)) <$> routes httpServer)
    with ((λ rt, (rt_Method rt, rt_Pattern rt)) <$> routes seam_server).
  destruct (chi_match _ _ _) as [status|[i params]]; [intros _; apply answers_ret|].
  intros [Hi Hn]. do 19 (destruct i as [|i]; [lia|]). clear Hi.
  destruct i as [|[|[|i]]]; cbn; [| | |apply answers_ret].
  - apply decoded_answers. intros req. apply answers_then, phase_answers.
  - apply decoded_answers. intros req. apply answers_then, sensitive_answers.
  - apply answers_then, status_answers, Hn.
Qed.

(** The responses to requests sent one after another, and the state after the last. *)
Fixpoint seam_session (st : Store) (rs : list RawRequest) : list (outcome Response) * Store :=
  match rs with
  | [] => ([], st)
  | r :: rs => let '(a, st1) := NewInMemoryDecisionsHandlerFromStore st r in
               let '(l, st2) := seam_session st1 rs in (a :: l, st2)
  end.

(** The same on the program, each request with its own choices. *)
Fixpoint program_session (W : World) (rs : list (RawRequest * (nat → choice)))
    : list (outcome Response) * World :=
  match rs with
  | [] => ([], W)
  | (r, o) :: rs => let '(a, W1, _) := run (ServeHTTP httpServer r) o W in
                    let '(l, W2) := program_session W1 rs in (a :: l, W2)
  end.

Definition faultless (o : nat → choice) : Prop := ∀ n, ch_fault (o n) = NoFault.

Lemma session_answers rs W0 st W :
  Forall facade_request rs → related W0 st W → (st_next st + Z.of_nat (length rs) ≤ maxInt64)%Z →
  ∃ os resps W' st', length os = length rs ∧ Forall faultless os ∧
    seam_session st rs = (Returned <$> resps, st') ∧ program_session W (zip rs os) = (Returned <$> resps, W') ∧
    related W0 st' W'.
Proof.
  intros F. revert st W. induction F as [|r rs Hr _ IH]; intros st W R N.
  { exists [], [], W, st. by split_and!. }
  simpl in N. destruct (ServeHTTP_answers r Hr W0 st W R) as (a & st1 & W1 & o1 & E1 & E2 & R1 & L); [lia|].
  destruct (IH st1 W1 R1) as (os & resps & W2 & st2 & Hl & Ho & S1 & S2 & R2); [lia|].
  exists (seam_oracle st :: os), (a :: resps), W2, st2. split_and!.
  - simpl. by rewrite Hl.
  - by constructor.
  - simpl. unfold NewInMemoryDecisionsHandlerFromStore. by rewrite E1, S1.
  - simpl. by rewrite E2, S2.
  - done.
Qed.

End seam.

(** * An instance *)

#[local] Instance seam_pg : Postgres := micro_pg.
#[local] Instance seam_wiring : Wiring :=
  {| has_memory := true; has_stats := false; has_metrics := false; has_breakers := true |}.
#[local] Instance seam_zone : Zone := {| zone_offset _ := 0%Z |}.
#[local] Instance seam_ulid : ULID := {| ParseStrict s := bool_decide (String.length s = 26) |}.
#[local] Instance seam_chi : Chi :=
  {| chi_match _ method path :=
       if decide (path = "/governance/v1/decisions/phase") then inr (19, λ _, "")
       else if decide (path = "/governance/v1/approvals/change/phase/status")
       then inr (21, λ k, if decide (k = "change_id") then "change" else "phase")
       else inl StatusNotFound |}.

Definition seam_world : World :=
  {| w_tasks := ∅; w_routing := ∅; w_policy := ∅; w_workflows := ∅; w_leases := ∅; w_approvals := ∅;
     w_escalations := ∅; w_audit := []; w_phase_decisions := ∅;
     w_phase_approvals := {[ ("change", "phase") :=
       {| pa_change_id := "change"; pa_phase_id := "phase"; pa_status := "pending"; pa_reason := None;
          pa_decided_by := None; pa_decided_at := None; pa_created_at := fixedInstant |} ]};
     w_breakers := Resilience.NewCircuitBreakerRegistry; w_stats := FailureStatsCollector.NewFailureStatsStore;
     w_notified := []; w_metrics := [] |}.

Definition seam_requests : list RawRequest :=
  let req method path body :=
    {| rw_Method := method; rw_Path := path; rw_Query := λ _, ""; rw_Body := body |} in
  [req "POST" "/governance/v1/decisions/phase"
     (Some (JObject [("change_id", JString "change"); ("phase_type", JString "explore")]));
   req "GET" "/governance/v1/approvals/change/phase/status" None;
   req "POST" "/governance/v1/decisions/phase" (Some (JObject [("change_id", JString "change")]));
   req "GET" "/nowhere" None].

Example fixedInstant_format : Format_UTC fixedInstant = "2026-01-01T00:00:00Z".
Proof. reflexivity. Qed.

