(* ===== verification/System.v ===== *)
(** The running program: any number of requests served concurrently against one database,
    under any interleaving of their calls and any fault, with the statistics collector, abandoned
    requests and restarts; and what holds of every state it reaches. *)

From stdpp Require Import options.
From S2P Require Import Prelude GoLib Shared Task Workflow Execution Approval Escalation Policy.
From S2P Require Import Routing AuditLog Resilience FailureStatsCollector Persistence Queries.
From S2P Require Import Ports AuditService Intake RouteTask PolicyEval WorkflowService ApprovalService.
From S2P Require Import EscalationService GovDecisions ProcessTask Inbound Handlers Wire ProgramLogic.
From S2P Require Import TimeFormat PortSpecs ServiceSpecs HandlerSafety.

(** What reaches the program: the calls of an embedding program on the facade, and HTTP
    requests. *)
Inductive request :=
  | ReqHttp (r : RawRequest)
  | ReqSubmitTask (input : SubmitTaskInput)
  | ReqProcessTask (input : SubmitTaskInput) (action : string)
  | ReqRouteTask (taskID : TaskID)
  | ReqEvaluatePolicy (taskID : TaskID) (action : string)
  | ReqStartWorkflow (taskID : TaskID)
  | ReqKillWorkflow (id : WorkflowRunID) (reason : string) (actor : ActorID)
  | ReqPauseWorkflow (id : WorkflowRunID) (reason : string) (actor : ActorID)
  | ReqResumeWorkflow (id : WorkflowRunID) (reason : string) (actor : ActorID)
  | ReqRegisterAttempt (id : WorkflowRunID) (a : AttemptResult)
  | ReqGetWorkflowStatus (id : WorkflowRunID)
  | ReqGetWorkflowByTask (taskID : TaskID)
  | ReqResolveApproval (input : ResolveApprovalInput)
  | ReqGetPendingApprovals
  | ReqTriggerEscalation (taskID : TaskID) (condition : EscalationCondition) (target : EscalationTarget)
  | ReqGetTask (id : TaskID)
  | ReqQueryAuditTrail (filter : AuditFilter)
  | ReqListWorkflows (filter : WorkflowListFilter)
  | ReqListBreakers (filter : BreakerFilter)
  | ReqGetBreakerState (tool agentRole : string).

Definition forget {A} (p : proc A) : proc unit := p ≫= λ _, Ret tt.

Section system.
Context {PG : Postgres} {Wi : Wiring} {Zn : Zone} {U : ULID} {Ch : Chi}.

Definition serve (r : request) : proc unit :=
  match r with
  | ReqHttp r => forget (ServeHTTP httpServer r)
  | ReqSubmitTask input => forget (Facade_SubmitTask facade input)
  | ReqProcessTask input action => forget (Facade_ProcessTask facade input action)
  | ReqRouteTask taskID => forget (Facade_RouteTask facade taskID)
  | ReqEvaluatePolicy taskID action => forget (Facade_EvaluatePolicy facade taskID action)
  | ReqStartWorkflow taskID => forget (Facade_StartWorkflow facade taskID)
  | ReqKillWorkflow id reason actor => forget (Facade_KillWorkflow facade id reason actor)
  | ReqPauseWorkflow id reason actor => forget (Facade_PauseWorkflow facade id reason actor)
  | ReqResumeWorkflow id reason actor => forget (Facade_ResumeWorkflow facade id reason actor)
  | ReqRegisterAttempt id a => forget (Facade_RegisterAttempt facade id a)
  | ReqGetWorkflowStatus id => forget (Facade_GetWorkflowStatus facade id)
  | ReqGetWorkflowByTask taskID => forget (Facade_GetWorkflowByTask facade taskID)
  | ReqResolveApproval input => forget (Facade_ResolveApproval facade input)
  | ReqGetPendingApprovals => forget (Facade_GetPendingApprovals facade)
  | ReqTriggerEscalation taskID condition target =>
      forget (Facade_TriggerEscalation facade taskID condition target)
  | ReqGetTask id => forget (Facade_GetTask facade id)
  | ReqQueryAuditTrail filter => forget (Facade_QueryAuditTrail facade filter)
  | ReqListWorkflows filter => forget (Facade_ListWorkflows facade filter)
  | ReqListBreakers filter => forget (Facade_ListBreakers facade filter)
  | ReqGetBreakerState tool agentRole => forget (Facade_GetBreakerState facade tool agentRole)
  end.

(** The world and the requests being served. *)
Record System := { sys_world : World; sys_pool : list (proc unit) }.

(** What the collector's query returns: the entries of the trail, or an error. *)
Definition collector_query (W : World) (failed : bool) (now : Time) : result (list AuditEntry) :=
  if failed then Err connection_error
  else let '(action, cutoff) := refresh_filter now DefaultStatsWindow in
       fst <$> Query {| afTaskID := None; afWorkflowRunID := None; afActor := None;
                        afAction := Some action; afCreatedAfter := Some cutoff;
                        afCreatedBefore := None; afLimit := 0; afOffset := 0 |} (w_audit W).

(** The state a process loses when it stops. *)
Definition restart (W : World) : World := with_stats (with_breakers W NewCircuitBreakerRegistry) NewFailureStatsStore.

Inductive sys_step : System → System → Prop :=
  | step_request W pool r :
      sys_step {| sys_world := W; sys_pool := pool |}
               {| sys_world := W; sys_pool := serve r :: pool |}
  | step_call W before p after c :
      good c →
      sys_step {| sys_world := W; sys_pool := before ++ p :: after |}
               {| sys_world := (step c p W).2; sys_pool := before ++ (step c p W).1 :: after |}
  | step_abandon W before p after :
      sys_step {| sys_world := W; sys_pool := before ++ p :: after |}
               {| sys_world := W; sys_pool := before ++ after |}
  | step_collect W pool failed now now' :
      sys_step {| sys_world := W; sys_pool := pool |}
               {| sys_world := with_stats W (refresh (w_stats W) (collector_query W failed now) now' DefaultStatsWindow);
                  sys_pool := pool |}
  | step_restart W pool :
      sys_step {| sys_world := W; sys_pool := pool |}
               {| sys_world := restart W; sys_pool := [forget startup] |}.

Inductive sys_reachable : System → Prop :=
  | sys_init : sys_reachable {| sys_world := empty_world; sys_pool := [] |}
  | sys_next s s' : sys_reachable s → sys_step s s' → sys_reachable s'.

(** * The invariant of the system *)

Lemma forget_safe {A} (p : proc A) W : safe p anything W → safe (forget p) anything W.
Proof. intros H. apply safe_drop; [done|]. intros. apply safe_done. Qed.

Lemma serve_safe r W : safe (serve r) anything W.
Proof.
  destruct govSvc_safe, wfCtrl_safe, approvalPort_safe, queryPort_safe, escalationPort_safe. unfold safely in *.
  destruct r; apply forget_safe; 
    [apply ServeHTTP_safe, httpServer_safe|autounfold with facade; simpl; auto..].
Qed.

Definition sys_inv (s : System) : Prop :=
  inv (sys_world s) ∧ Forall (λ p, safe p anything (sys_world s)) (sys_pool s).

Lemma pool_ext W W' pool :
  ext W W' → Forall (λ p : proc unit, safe p anything W) pool → Forall (λ p, safe p anything W') pool.
Proof. intros X H. eapply Forall_impl; [exact H|]. intros p. by apply safe_ext. Qed.

Lemma step_safe {A} (p : proc A) W c :
  inv W → safe p anything W → good c →
  ext W (step c p W).2 ∧ inv (step c p W).2 ∧ safe (step c p W).1 anything (step c p W).2.
Proof.
  intros I S G. destruct p as [a|X q k|]; [by split_and!| |by split_and!].
  destruct (S W ltac:(done) I c G) as (E & I' & S'). simpl. by destruct (exec c q W).
Qed.

Lemma inv_empty : inv empty_world.
Proof. split; try (apply map_Forall_empty); [|constructor].
  intros i j r s H. cbn [w_leases empty_world] in H. by rewrite lookup_empty in H. Qed.

Lemma sys_step_inv s s' : sys_inv s → sys_step s s' → sys_inv s' ∧ ext (sys_world s) (sys_world s').
Proof.
  intros [I P] H. destruct H as [W pool r|W before p after c G|W before p after|W pool f n n'|W pool];
    simpl in *.
  - split; [|done]. split; [done|]. constructor; [apply serve_safe|done].
  - apply Forall_app in P as [Pb [Pp Pa]%Forall_cons].
    destruct (step_safe p W c I Pp G) as (X & I' & S). split; [|done]. split; [done|]. simpl.
    apply Forall_app_2; [by eapply pool_ext|]. constructor; [done|]. by eapply pool_ext.
  - split; [|done]. split; [done|]. simpl. apply Forall_app in P as [Pb [_ Pa]%Forall_cons].
    by apply Forall_app_2.
  - assert (X : ext W (with_stats W (refresh (w_stats W) (collector_query W f n) n' DefaultStatsWindow)))
      by (by apply ext_same).
    split; [|done]. split; simpl; [|by eapply pool_ext].
    apply (inv_same W); try done. apply I.
  - assert (X : ext W (restart W)) by (by apply ext_same).
    split; [|done]. split; [apply (inv_same W); try done; apply I|].
    apply Forall_singleton. apply (forget_safe startup). apply Record_safe.
Qed.

Lemma sys_reachable_inv s : sys_reachable s → sys_inv s.
Proof.
  induction 1 as [|s s' _ IH H]; [|by apply (sys_step_inv s)].
  split; [apply inv_empty|constructor].
Qed.

(** * Theorems *)

(** C1: no execution without authorization.  In every state the program can reach, whatever
    requests run concurrently, in whatever order their database calls interleave, and
    whatever calls fail before or after taking effect: every execution lease belongs to an
    existing workflow run, and a policy decision for its task allows execution or an approval
    request of the run has been resolved; there is one lease per run,
    its attempts are within its budget of three, and its timeout is five minutes. *)
Theorem no_unauthorized_execution s id r :
  sys_reachable s → w_leases (sys_world s) !! id = Some r →
  authorized (sys_world s) (lease_workflow_run_id r) ∧
  lease_fine (scanExecutionLease r) ∧
  (∀ id' r', w_leases (sys_world s) !! id' = Some r' →
     lease_workflow_run_id r' = lease_workflow_run_id r → id' = id).
Proof.
  intros R H. apply sys_reachable_inv in R as [I _].
  destruct (inv_leases _ I _ _ H) as (_ & F & A). split_and!; [done..|].
  intros id' r' H' E. by eapply (inv_unique _ I).
Qed.

(** C2: the workflow table is always legal.  In every reachable state each stored run is read
    back without error, its transition log is a chain of valid transitions from created to
    its status, and every transition in the log is justified by rows of the database: routed
    by a routing decision of the task, policy_checked by a policy decision, awaiting_approval
    by one that requires approval, approved by a resolved request of the run, and policy_checked →
    running by an allowing decision or a resolved request. *)
Theorem stored_runs_legal s id r :
  sys_reachable s → w_workflows (sys_world s) !! id = Some r →
  has (w_tasks (sys_world s)) (wf_task_id r) = true ∧
  ∃ w, scanWorkflowRun r = Ok w ∧ wfID w = id ∧ wfTaskID w = wf_task_id r ∧
    valid_chain Workflow.StatusCreated (wfTransitions w) (wfStatus w) ∧
    Forall (justified (sys_world s) id (wf_task_id r)) (wfTransitions w).
Proof.
  intros R H. apply sys_reachable_inv in R as [I _].
  destruct (inv_workflows _ I _ _ H) as (Ht & w & Hs & Hi & Htk & F). split; [done|].
  exists w. destruct F. rewrite <- Hi at 2. rewrite <- Htk. by split_and!.
Qed.


End system.
