(* ===== verification/ServiceEffects.v ===== *)
(** What the services do when nothing fails and nothing interferes: their results and the rows
    they leave, on every branch. *)

From stdpp Require Import options.
From S2P Require Import Prelude GoLib Shared Task Workflow Execution Approval Escalation Policy.
From S2P Require Import Routing AuditLog Resilience Persistence Ports AuditService WorkflowService.
From S2P Require Import PolicyEval ApprovalService ProgramLogic PortSpecs Runs ServiceSpecs System.
From S2P Require Import TimeFormat Handlers.

Section effects.
Context {PG : Postgres} {Zn : Zone} {Ul : ULID} {Ch : Chi}.

(** * Reports: calls that leave the tasks, decisions, runs, leases and approvals alone *)

Record same_core (W W' : World) : Prop := {
  sc_tasks : w_tasks W' = w_tasks W;
  sc_routing : w_routing W' = w_routing W;
  sc_policy : w_policy W' = w_policy W;
  sc_workflows : w_workflows W' = w_workflows W;
  sc_leases : w_leases W' = w_leases W;
  sc_approvals : w_approvals W' = w_approvals W;
}.

#[export] Instance same_core_preorder : PreOrder same_core.
Proof. split; [by intros W|]. intros W1 W2 W3 [] []. split; congruence. Qed.

Definition report {X} (q : port X) : bool :=
  plain q || match q with AuditAppend _ | EscalationSave _ | PhaseDecisionSave _ => true | _ => false end.

(** The answers a clean oracle gives. *)
Definition answers {X} (q : port X) : X → Prop :=
  match q in port X return X → Prop with TimeNow => λ t, t ≠ 0%Z | _ => λ _, True end.

Fixpoint quiet {A} (p : proc A) (Q : A → Prop) : Prop :=
  match p with
  | Ret a => Q a
  | Panic => False
  | Call q k => report q = true ∧ ∀ x, answers q x → quiet (k x) Q
  end.

Lemma db_write_same_core ctx f W r :
  (∀ W', r = Some W' → same_core W W') → same_core W (db_write ctx f W r).2.
Proof. intros H. destruct f, r; simpl; auto; reflexivity. Qed.

Lemma report_same_core {X} (q : port X) c W :
  report q = true → good c → same_core W (exec c q W).2 ∧ answers q (exec c q W).1.
Proof.
  intros R G. split; [|by destruct q]. destruct q; try discriminate; simpl; try done.
  - case_match; [|done]. apply db_write_same_core. intros W' HW. by apply fmap_Some in HW as (? & _ & ->).
  - case_match; [|done]. apply db_write_same_core. intros W' HW. by case_match; simplify_eq.
  - apply db_write_same_core. intros W' HW. by apply fmap_Some in HW as (? & _ & ->).
  - by destruct (Registry_Observe _ _ _ _ _ _).
Qed.

Lemma run_quiet {A} (p : proc A) Q o W :
  quiet p Q → clean o →
  ∃ a W' o', run p o W = (Returned a, W', o') ∧ Q a ∧ same_core W W' ∧ clean o'.
Proof.
  revert o W. induction p as [a|X q k IH|]; intros o W Hq C; [|destruct Hq as [R Hk]|done].
  - by exists a, W, o.
  - destruct (report_same_core q (o 0) W R (proj2 (C 0))) as [S An].
    simpl. destruct (exec (o 0) q W) as [x W1]. simpl in *.
    destruct (IH x (rest o) W1 (Hk x An) (clean_rest _ C)) as (a & W' & o' & E & HQ & S' & C').
    exists a, W', o'. split_and!; [done..|by etrans|done].
Qed.

Lemma quiet_bind {A B} (p : proc A) (f : A → proc B) P Q :
  quiet p P → (∀ a, P a → quiet (f a) Q) → quiet (p ≫= f) Q.
Proof.
  intros Hp Hf. revert Hp. induction p as [a|X q k IH|]; intros Hp; [by apply Hf| |done].
  destruct Hp as [R Hk]. split; [done|]. intros x An. by apply IH, Hk.
Qed.

Definition whatever {A} (a : A) : Prop := True.

Lemma quiet_call {X} (q : port X) : report q = true → quiet (call q) whatever.
Proof. by split. Qed.

Lemma quiet_clock {B} (f : Timestamp → proc B) Q : (∀ t, quiet (f t) Q) → quiet (clock_Now ≫= f) Q.
Proof.
  intros H. eapply (quiet_bind _ _ whatever); [|by auto]. unfold clock_Now.
  eapply (quiet_bind _ _ (λ t, t ≠ 0%Z)); [by split|]. intros t Ht.
  unfold MustTimestamp, NewTimestamp, IsZero. by rewrite (proj2 (Z.eqb_neq _ _) Ht).
Qed.

Lemma quiet_Record actor action outcome ctx tid wid : quiet (Record_ actor action outcome ctx tid wid) whatever.
Proof.
  unfold Record_. eapply quiet_bind; [by apply quiet_call|]. intros span _.
  eapply quiet_bind; [by apply quiet_call|]. intros id _. apply quiet_clock. intros now.
  destruct (NewAuditEntry _ _ _ _ _ _); [|done]. by apply quiet_call.
Qed.

Lemma quiet_notify n : quiet (call (Notify n)) whatever.
Proof. by apply quiet_call. Qed.

Lemma quiet_ms_since t : quiet (ms_since t) whatever.
Proof. unfold ms_since. eapply quiet_bind; [by apply quiet_call|]. done. Qed.

Lemma quiet_emitTerminal `{Wiring} s d : quiet (emitTerminal s d) whatever.
Proof.
  unfold emitTerminal. destruct has_metrics; [|done].
  eapply quiet_bind; [by apply quiet_call|]. intros. by apply quiet_call.
Qed.

Lemma quiet_emitFailure `{Wiring} s c r : quiet (emitFailure s c r) whatever.
Proof. unfold emitFailure. destruct has_metrics; [by apply quiet_call|done]. Qed.

Lemma quiet_emitAll ms : quiet (emitAll ms) whatever.
Proof.
  induction ms as [|[i a] ms IH]; [done|]. cbn [emitAll]. eapply quiet_bind; [by apply quiet_call|]. done.
Qed.

Lemma quiet_observeBreaker `{Wiring} a now : quiet (observeBreaker a now) whatever.
Proof.
  unfold observeBreaker. destruct has_breakers; [|done].
  destruct (arToolName a), (arAgentRole a); try done.
  eapply quiet_bind; [by apply quiet_call|]. intros [t|] _; [|done]. unfold onTransition.
  destruct (AuditListener t) as [[x y] z]. eapply quiet_bind; [apply quiet_Record|]. intros _ _.
  destruct has_metrics; [apply quiet_emitAll|done].
Qed.

(** A report after which a fixed value is returned. *)
Lemma quiet_then {A B} (p : proc A) (q : proc B) Q : quiet p whatever → quiet q Q → quiet (p ≫= λ _, q) Q.
Proof. intros Hp Hq. eapply quiet_bind; [exact Hp|]. done. Qed.

Lemma quiet_reportAttempt `{Wiring} w a ctx now :
  Validate a = Ok () → quiet (reportAttempt w a ctx now) (λ r, r = Ok w).
Proof.
  intros V. unfold reportAttempt. apply quiet_then; [apply quiet_Record|].
  apply quiet_then. { case_decide; [apply quiet_Record|done]. }
  apply quiet_then. { destruct (Workflow.IsTerminal _); [apply quiet_notify|done]. }
  apply quiet_then.
  { destruct (Workflow.IsTerminal _); [|done]. eapply quiet_bind; [apply quiet_ms_since|].
    intros. apply quiet_emitTerminal. }
  apply quiet_then.
  { destruct (arFailureStage a) as [s|] eqn:E; [|done].
    destruct (Validate_fields _ _ V E) as [[? ->] [? ->]]. apply quiet_emitFailure. }
  apply quiet_then; [apply quiet_observeBreaker|done].
Qed.

(** * Calls on rows that are known *)

Lemma query_row_found {R A} (P : R → bool) (scan : R → result A) nf pick (tbl : gmap string R) id r :
  tbl !! id = Some r → P r = true →
  ∃ id' r', tbl !! id' = Some r' ∧ P r' = true ∧ query_row P scan nf pick tbl = scan r'.
Proof.
  intros H HP. unfold query_row.
  assert (N : select P tbl ≠ []).
  { intros N. assert (Hin : r ∈ select P tbl).
    { unfold select. apply list_elem_of_In, List.filter_In. split; [|done]. apply list_elem_of_In.
      apply list_elem_of_fmap. exists (id, r). split; [done|]. by apply elem_of_map_to_list. }
    rewrite N in Hin. by apply not_elem_of_nil in Hin. }
  destruct (lookup_lt_is_Some_2 (select P tbl) (pick mod length (select P tbl))) as [r' Hr'].
  { apply Nat.mod_upper_bound. by destruct (select P tbl). }
  rewrite Hr'. apply list_elem_of_lookup_2 in Hr'. unfold select in Hr'.
  apply list_elem_of_In, List.filter_In in Hr' as [Hr' HP'].
  apply list_elem_of_In, list_elem_of_fmap in Hr' as ([id' x] & -> & Hx%elem_of_map_to_list).
  by exists id', x.
Qed.

Lemma query_row_unique {R A} (P : R → bool) (scan : R → result A) nf pick (tbl : gmap string R) id r :
  tbl !! id = Some r → P r = true →
  (∀ id' r', tbl !! id' = Some r' → P r' = true → id' = id) →
  query_row P scan nf pick tbl = scan r.
Proof.
  intros H HP U. destruct (query_row_found P scan nf pick _ _ _ H HP) as (id' & r' & H' & HP' & ->).
  f_equal. pose proof (U _ _ H' HP'). congruence.
Qed.

(** The run and the lease stored for it. *)
Definition run_at (W : World) (id : string) (w : WorkflowRun) : Prop :=
  ∃ r, w_workflows W !! id = Some r ∧ scanWorkflowRun r = Ok w.
Definition lease_at (W : World) (lid wfid : string) (l : ExecutionLease) : Prop :=
  ∃ r, w_leases W !! lid = Some r ∧ lease_workflow_run_id r = wfid ∧ scanExecutionLease r = l.

Lemma run_at_view W id w : inv W → run_at W id w → run_view W w ∧ wfID w = id.
Proof.
  intros I (r & H & Hs). destruct (inv_workflows _ I _ _ H) as (_ & w' & Hs' & Hi & Ht & F).
  rewrite Hs in Hs'. injection Hs' as <-. subst id. split; [|done]. split; [done|]. eauto.
Qed.

Lemma lease_at_view W lid id l : inv W → lease_at W lid id l → lease_view id W l ∧ elID l = lid.
Proof.
  intros I (r & H & E & <-). destruct (inv_leases _ I _ _ H) as (<- & F & _).
  split; [|done]. split; [done|]. eauto.
Qed.

Lemma exec_WfFindByID W c id w :
  ch_fault c = NoFault → run_at W id w → exec c (WfFindByID id) W = (Ok w, W).
Proof. intros F (r & H & Hs). step_call. by rewrite F, H, <- Hs. Qed.

Lemma exec_LeaseFind W c lid id l :
  inv W → ch_fault c = NoFault → lease_at W lid id l →
  exec c (LeaseFindByWorkflowRunID id) W = (Ok l, W).
Proof.
  intros I F (r & H & E & <-). simpl. rewrite F. simpl. f_equal.
  rewrite (query_row_unique _ _ _ _ _ lid r); [done|done|by apply bool_decide_eq_true|].
  intros lid' r' H' E'%bool_decide_eq_true. eapply (inv_unique _ I); [done..|congruence].
Qed.

Lemma exec_WfUpdate W c w :
  inv W → ch_fault c = NoFault → run_view W w →
  ∃ r, exec c (WfUpdate w) W = (Ok tt, with_workflows W (<[wfID w := r]> (w_workflows W))) ∧
    ∃ w', scanWorkflowRun r = Ok w' ∧ wfStatus w' = wfStatus w ∧ wfTransitions w' = wfTransitions w.
Proof.
  intros I Fa [F (old & Ho & Et)]. destruct (inv_workflows _ I _ _ Ho) as (_ & w0 & Hs & Hi & _).
  step_call. rewrite Ho. unfold updateWorkflowRow.
  rewrite (rf_index _ _ F). simpl. rewrite (rf_routing _ _ F), (rf_policy _ _ F), Fa.
  eexists. split; [reflexivity|]. eexists.
  split; [apply (scan_stored w); [apply F|apply F|reflexivity..]|]. split; reflexivity.
Qed.

Lemma exec_LeaseUpdate W c l old :
  ch_fault c = NoFault → lease_fine l → w_leases W !! elID l = Some old →
  ∃ r, exec c (LeaseUpdate l) W = (Ok tt, with_leases W (<[elID l := r]> (w_leases W))) ∧
    lease_workflow_run_id r = lease_workflow_run_id old ∧
    elStatus (scanExecutionLease r) = elStatus l ∧
    elAttemptsUsed (scanExecutionLease r) = elAttemptsUsed l.
Proof.
  intros Fa F Ho. step_call. rewrite Ho. pose proof (lease_fine_storable _ F) as S.
  destruct (updateLeaseRow_ok l old S) as (r & -> & C & _ & E & _). rewrite Fa. cbn [db_write].
  exists r. destruct (scan_lease _ _ S C) as [-> _]. simpl. split; [reflexivity|]. split; [exact E|]. split; reflexivity.
Qed.

(** A sequential execution keeps the invariant. *)
Lemma run_safe {A} (p : proc A) Q o W :
  safe p Q W → inv W → clean o →
  ∃ a W' o', run p o W = (Returned a, W', o') ∧ inv W' ∧ ext W W' ∧ clean o'.
Proof.
  revert o W. induction p as [a|X q k IH|]; intros o W S I C.
  - by exists a, W, o.
  - destruct (S W ltac:(done) I (o 0) (proj2 (C 0))) as (X1 & I1 & S1). simpl.
    destruct (exec (o 0) q W) as [x W1]. simpl in *.
    destruct (IH x (rest o) W1 S1 I1 (clean_rest _ C)) as (a & W' & o' & E & I' & X' & C').
    exists a, W', o'. split_and!; [done..|by etrans|done].
  - by destruct (S W).
Qed.

(** * RegisterAttempt *)

(** The status of a run after an attempt, or [None] when the attempt is refused: [used] is the
    number of attempts before. *)
Definition attempt_outcome (st : WorkflowStatus) (l : ExecutionLease) (a : AttemptResult)
    : option WorkflowStatus :=
  if Workflow.IsTerminal st then None
  else match Validate a with
  | Err _ => None
  | Ok _ =>
      if decide (elStatus l = LeaseStatusActive) then
        match arStatus a with
        | AttemptStatusSuccess =>
            if decide (st = StatusRunning) then Some Workflow.StatusCompleted else None
        | AttemptStatusFailure =>
            if (elAttemptsUsed l + 1 <? defaultMaxRetries)%Z then Some st
            else if decide (st = StatusRunning) then Some StatusQuarantined else None
        | _ => Some st
        end
      else None
  end.

Lemma transition_from_running_only st target :
  target = Workflow.StatusCompleted ∨ target = StatusQuarantined →
  IsValidTransition st target = bool_decide (st = StatusRunning).
Proof. by intros [-> | ->]; destruct st. Qed.

Lemma transition_result w target reason actor now :
  if negb (Workflow.IsTerminal (wfStatus w)) && IsValidTransition (wfStatus w) target
  then ∃ w', transitionTo w target reason actor now = Ok w' ∧ wfStatus w' = target ∧
             wfTransitions w `prefix_of` wfTransitions w'
  else ∃ e, transitionTo w target reason actor now = Err e.
Proof.
  unfold transitionTo. destruct (Workflow.IsTerminal _), (IsValidTransition _ _); simpl; eauto.
  eexists. split; [reflexivity|]. split; [done|]. simpl. by apply prefix_app_r.
Qed.

Lemma recorded_lease id W l :
  lease_view id W l → elStatus l = LeaseStatusActive →
  ∃ l', RecordAttempt l = Ok l' ∧ elID l' = elID l ∧ elAttemptsUsed l' = (elAttemptsUsed l + 1)%Z ∧
    elStatus l' = (if (elAttemptsUsed l + 1 <? defaultMaxRetries)%Z
                   then LeaseStatusActive else LeaseStatusExhausted) ∧
    HasRetryBudget l' = (elAttemptsUsed l + 1 <? defaultMaxRetries)%Z.
Proof.
  intros [(Hi & Hb & _) _] A. destruct Hi as (_ & U & M & _). unfold RecordAttempt.
  rewrite decide_True by done. rewrite Hb in *.
  rewrite wrap64_id by (unfold minInt64, maxInt64, defaultMaxRetries in *; lia).
  eexists. split; [reflexivity|]. unfold HasRetryBudget. simpl. rewrite Hb, A.
  destruct (_ <? _)%Z eqn:E, (_ <=? _)%Z eqn:E'; boolify; try lia; simpl; split_and!; try done.
Qed.

(** The transition of an attempt agrees with [attempt_outcome]. *)
Lemma attemptTransition_outcome w l l' a now :
  Workflow.IsTerminal (wfStatus w) = false → Validate a = Ok () → elStatus l = LeaseStatusActive →
  HasRetryBudget l' = (elAttemptsUsed l + 1 <? defaultMaxRetries)%Z →
  match attempt_outcome (wfStatus w) l a with
  | Some st => ∃ w', attemptTransition w l' (arStatus a) now = Ok w' ∧ wfStatus w' = st ∧
                     wfTransitions w `prefix_of` wfTransitions w'
  | None => ∃ e, attemptTransition w l' (arStatus a) now = Err e
  end.
Proof.
  intros T V A B. unfold attempt_outcome, attemptTransition. rewrite T, V, B, decide_True by done.
  destruct (arStatus a); [| |by exists w|by exists w].
  - pose proof (transition_result w Workflow.StatusCompleted "attempt succeeded" systemActor now) as H.
    rewrite T, transition_from_running_only in H by auto. unfold Complete.
    case_decide as D; [rewrite bool_decide_eq_true_2 in H by done|rewrite bool_decide_eq_false_2 in H by done];
      simpl in H; [destruct H as (? & -> & ?)|destruct H as (? & ->)]; simpl; eauto.
  - destruct (_ <? _)%Z; [by exists w|].
    pose proof (transition_result w StatusQuarantined "retry budget exhausted" systemActor now) as H.
    rewrite T, transition_from_running_only in H by auto. unfold Quarantine.
    case_decide as D; [rewrite bool_decide_eq_true_2 in H by done|rewrite bool_decide_eq_false_2 in H by done];
      simpl in H; [destruct H as (? & -> & ?)|destruct H as (? & ->)]; simpl; eauto.
Qed.

Lemma attemptTransition_id w l st now w' : attemptTransition w l st now = Ok w' → wfID w' = wfID w.
Proof.
  assert (T : ∀ tg r, transitionTo w tg r systemActor now = Ok w' → wfID w' = wfID w).
  { intros tg r H. by apply transitionTo_Ok in H as (_ & _ & ->). }
  unfold attemptTransition. destruct st; try (by intros [= <-]).
  - rewrite wrap_Ok. apply T.
  - destruct (HasRetryBudget l); [by intros [= <-]|]. rewrite wrap_Ok. apply T.
Qed.

(** The rows an attempt or a kill leaves: one run and the leases of that run may change. *)
Record only_run (W W' : World) (id : string) : Prop := {
  or_tasks : w_tasks W' = w_tasks W;
  or_routing : w_routing W' = w_routing W;
  or_policy : w_policy W' = w_policy W;
  or_approvals : w_approvals W' = w_approvals W;
  or_workflows : delete id (w_workflows W') = delete id (w_workflows W);
  or_leases : ∀ lid r, w_leases W !! lid = Some r → lease_workflow_run_id r ≠ id →
                       w_leases W' !! lid = Some r;
}.

Lemma only_run_refl W id : only_run W W id.
Proof. by split. Qed.
#[local] Hint Resolve only_run_refl : core.

Lemma only_run_core W W1 W' id : only_run W W1 id → same_core W1 W' → only_run W W' id.
Proof. intros [] []. split; try congruence. intros lid r H E. rewrite sc_leases0. eauto. Qed.

Lemma run_at_core W W' id w : same_core W W' → run_at W id w → run_at W' id w.
Proof. intros [] (r & ? & ?). exists r. split; [congruence|done]. Qed.

Lemma lease_at_same W W' lid id l : w_leases W' = w_leases W → lease_at W lid id l → lease_at W' lid id l.
Proof. intros E (r & ? & ?). exists r. split; [congruence|done]. Qed.

(** A run is stored and reported. *)
Lemma run_stored_clean {B} ctx w (k : unit → proc (result B)) b o W W0 :
  inv W → clean o → run_view W w → quiet (k tt) (λ r, r = b) → only_run W0 W (wfID w) →
  ∃ W' o' w', run (try ctx (call (WfUpdate w)) k) o W = (Returned b, W', o') ∧
    run_at W' (wfID w) w' ∧ wfStatus w' = wfStatus w ∧ wfTransitions w' = wfTransitions w ∧
    w_leases W' = w_leases W ∧ w_approvals W' = w_approvals W ∧ only_run W0 W' (wfID w) ∧ clean o'.
Proof.
  intros I C V K O. destruct (exec_WfUpdate W (o 0) w I (proj1 (C 0)) V) as (r & E & w' & Hs & Es & Et).
  rewrite run_call, E.
  set (W1 := with_workflows W (<[wfID w:=r]> (w_workflows W))).
  destruct (run_quiet (k tt) (λ r, r = b) (rest o) W1 K (clean_rest _ C)) as (b' & W' & o' & E' & -> & S & C').
  exists W', o', w'. split; [done|]. split.
  { apply (run_at_core W1); [done|]. exists r. split; [apply lookup_insert_eq|done]. }
  split_and!; [done|done|by rewrite (sc_leases _ _ S)|by rewrite (sc_approvals _ _ S)| |done].
  - apply (only_run_core _ W1); [|done]. destruct O as [O1 O2 O3 O4 O5 O6]. split; try done.
    simpl. by rewrite delete_insert_eq.
Qed.

Lemma run_stored {B} ctx w (k : unit → proc (result B)) b o W W0 :
  inv W → clean o → run_view W w → quiet (k tt) (λ r, r = b) → only_run W0 W (wfID w) →
  ∃ W' o' w', run (try ctx (call (WfUpdate w)) k) o W = (Returned b, W', o') ∧
    run_at W' (wfID w) w' ∧ wfStatus w' = wfStatus w ∧ wfTransitions w' = wfTransitions w ∧
    w_leases W' = w_leases W ∧ w_approvals W' = w_approvals W ∧ only_run W0 W' (wfID w).
Proof.
  intros I C V K O. destruct (run_stored_clean ctx w k b o W W0 I C V K O)
    as (W' & o' & w' & H1 & H2 & H3 & H4 & H5 & H6 & H7 & _).
  exists W', o', w'. auto 10.
Qed.

(** A lease is stored. *)
Lemma lease_stored c l W lid id l0 :
  inv W → ch_fault c = NoFault → good c → lease_at W lid id l0 → elID l = lid → lease_fine l →
  ∃ W', exec c (LeaseUpdate l) W = (Ok tt, W') ∧ inv W' ∧ ext W W' ∧ only_run W W' id ∧
    w_workflows W' = w_workflows W ∧
    ∃ l', lease_at W' lid id l' ∧ elStatus l' = elStatus l ∧ elAttemptsUsed l' = elAttemptsUsed l.
Proof.
  intros I NF G (old & Ho & Eo & _) <- F.
  destruct (exec_LeaseUpdate W c l old NF F Ho) as (r & E & E1 & E2 & E3).
  destruct (LeaseUpdate_ok id l W (conj F (ex_intro _ old (conj Ho Eo))) W c ltac:(done) I G)
    as (X & I' & _). rewrite E in X, I'.
  eexists. split; [exact E|]. split_and!; try done.
  - split; try done. intros i s Hs Ne. simpl. rewrite lookup_insert_ne; [done|].
    intros <-. congruence.
  - exists (scanExecutionLease r). split; [|done]. exists r.
    split; [apply lookup_insert_eq|]. split; [congruence|done].
Qed.

Lemma RegisterAttempt_does `{Wiring} W o id lid w l a :
  inv W → clean o → run_at W id w → lease_at W lid id l →
  match attempt_outcome (wfStatus w) l a with
  | None => ∃ e o', run (RegisterAttempt id a) o W = (Returned (Err e), W, o')
  | Some st =>
      ∃ w0 W' o', run (RegisterAttempt id a) o W = (Returned (Ok w0), W', o') ∧
        wfStatus w0 = st ∧ only_run W W' id ∧
        (∃ w', run_at W' id w' ∧ wfStatus w' = st ∧ wfTransitions w `prefix_of` wfTransitions w') ∧
        (∃ l', lease_at W' lid id l' ∧ elAttemptsUsed l' = (elAttemptsUsed l + 1)%Z ∧
           elStatus l' = if (elAttemptsUsed l + 1 <? defaultMaxRetries)%Z
                         then LeaseStatusActive else LeaseStatusExhausted)
  end.
Proof.
  intros I C Hw Hl.
  destruct (run_at_view _ _ _ I Hw) as [V Hid]. destruct (lease_at_view _ _ _ _ I Hl) as [L Hlid].
  pose proof (clean_rest _ C) as C1. pose proof (clean_rest _ C1) as C2.
  unfold RegisterAttempt. rewrite run_call, (exec_WfFindByID _ _ _ w (proj1 (C 0)) Hw).
  destruct (Workflow.IsTerminal (wfStatus w)) eqn:T.
  { unfold attempt_outcome. rewrite T. do 2 eexists. reflexivity. }
  rewrite run_pure.
  destruct (Validate a) as [[]|e] eqn:Va.
  2: { unfold attempt_outcome. rewrite T, Va. do 2 eexists. reflexivity. }
  rewrite run_call, (exec_LeaseFind _ _ lid _ l I (proj1 (C1 0)) Hl).
  rewrite run_pure. destruct (decide (elStatus l = LeaseStatusActive)) as [A|A].
  2: { unfold attempt_outcome, RecordAttempt. rewrite T, Va, !decide_False by done. do 2 eexists. reflexivity. }
  destruct (recorded_lease _ _ _ L A) as (l' & El & Eid & Eu & Es & Eb). rewrite El, run_clock by done.
  set (now := {| ts_Time := _ |}).
  pose proof (attemptTransition_outcome w l l' a now T Va A Eb) as O.
  destruct (attempt_outcome _ _ _) as [st|]; [|destruct O as [e ->]; do 2 eexists; reflexivity].
  destruct O as (w0 & Ew & Est & P). rewrite Ew.
  pose proof (attemptTransition_view _ _ _ _ now _ V (proj2 (C2 0)) Ew) as V0.
  pose proof (attemptTransition_id _ _ _ _ _ Ew) as Hid0.
  destruct (lease_stored (rest (rest (rest o)) 0) l' W lid id l I (proj1 (C2 1)) (proj2 (C2 1)) Hl
    ltac:(congruence) (proj1 (RecordAttempt_view id W l l' L El)))
    as (W1 & E1 & I1 & X1 & O1 & _ & l1 & Hl1 & Hs & Hu).
  rewrite run_call, E1.
  destruct (run_stored "persisting workflow: %w" w0
    (λ _, match attemptContext l' a with None => Panic | Some c => reportAttempt w0 a c now end)
    (Ok w0) (rest (rest (rest (rest o)))) W1 W)
    as (W' & o' & w' & E2 & Rw & Sw & Tw & K & _ & O2).
  { done. } { by do 2 apply clean_rest. } { exact (run_view_stable _ _ _ X1 V0). }
  { destruct (attemptContext_Some l' a Va) as [c ->]. by apply quiet_reportAttempt. }
  { by rewrite Hid0, Hid. }
  rewrite E2. exists w0, W', o'. rewrite Hid0, Hid in *.
  split_and!; [done..| |].
  - exists w'. split_and!; [done|congruence|by rewrite Tw].
  - exists l1. split; [by apply (lease_at_same W1)|]. by rewrite Hu, Hs, Eu, Es.
Qed.


(** * KillWorkflow *)

Definition revoked_status (st : LeaseStatus) : LeaseStatus :=
  if decide (st = LeaseStatusActive) then LeaseStatusRevoked else st.

Lemma Revoke_view id W l l' : lease_view id W l → Revoke l = Ok l' →
  lease_view id W l' ∧ elID l' = elID l ∧ elStatus l' = LeaseStatusRevoked.
Proof.
  intros [((Hp & Hu & Hm & Hs) & Hb & Ht & He) Hr] E. unfold Revoke in E. case_decide as D; [|done].
  rewrite D in Hs. injection E as <-. done.
Qed.

Lemma exec_LeaseFind_none W c id e :
  ch_fault c = NoFault → (exec c (LeaseFindByWorkflowRunID id) W).1 = Err e → inv W →
  ∀ lid l, ¬ lease_at W lid id l.
Proof.
  intros F H I lid l Hl. by rewrite (exec_LeaseFind _ _ _ _ _ I F Hl) in H.
Qed.

(** Revoking: the lease of the run, if it has one and it is active, is revoked; the other leases and
    tables are as before. *)
Lemma run_revokeLease id o W :
  inv W → clean o →
  ∃ W' o', run (revokeLease id) o W = (Returned tt, W', o') ∧ clean o' ∧ inv W' ∧ ext W W' ∧
    only_run W W' id ∧ w_workflows W' = w_workflows W ∧
    ∀ lid l, lease_at W lid id l →
      ∃ l', lease_at W' lid id l' ∧ elStatus l' = revoked_status (elStatus l) ∧
            elAttemptsUsed l' = elAttemptsUsed l.
Proof.
  intros I C. pose proof (clean_rest _ C) as C1.
  assert (Same : ∀ lid l, lease_at W lid id l → elStatus l ≠ LeaseStatusActive →
    ∃ l', lease_at W lid id l' ∧ elStatus l' = revoked_status (elStatus l) ∧
          elAttemptsUsed l' = elAttemptsUsed l).
  { intros lid l Hl N. exists l. unfold revoked_status. by rewrite decide_False. }
  unfold revokeLease. rewrite run_bind_call.
  destruct (exec (o 0) (LeaseFindByWorkflowRunID id) W) as [r W0] eqn:E.
  assert (W0 = W) as -> by (by injection E). destruct r as [l|e].
  2: { exists W, (rest o). split_and!; [reflexivity|done|done|done|apply only_run_refl|done|]. intros lid l Hl.
       pose proof (exec_LeaseFind_none W (o 0) id e (proj1 (C 0)) ltac:(by rewrite E) I lid l). done. }
  assert (Hl : ∃ lid, lease_at W lid id l).
  { simpl in E. rewrite (proj1 (C 0)) in E. injection E as E. unfold db_read in E.
    apply query_row_ok in E as (lid & r & Hr & P%bool_decide_eq_true & [= E]). by exists lid, r. }
  destruct Hl as [lid Hl]. destruct (lease_at_view _ _ _ _ I Hl) as [L Hlid].
  assert (U : ∀ lid' l', lease_at W lid' id l' → lid' = lid ∧ l' = l).
  { intros lid' l' (r' & Hr' & Er' & Es'). destruct Hl as (r & Hr & Er & Es).
    pose proof (inv_unique _ I _ _ _ _ Hr' Hr ltac:(congruence)). subst lid'. split; congruence. }
  destruct (Revoke l) as [l'|e] eqn:Rv.
  2: { exists W, (rest o). split_and!; [done..|]. intros lid' l' Hl'. apply Same; [done|].
       destruct (U _ _ Hl') as [-> ->]. intros A. unfold Revoke in Rv. by rewrite decide_True in Rv. }
  destruct (Revoke_view _ _ _ _ L Rv) as ([F' _] & Ei & Er).
  destruct (lease_stored (rest o 0) l' W lid id l I (proj1 (C1 0)) (proj2 (C1 0)) Hl ltac:(congruence) F')
    as (W' & E1 & I1 & X1 & O1 & Ew & l1 & Hl1 & Hs & Hu).
  rewrite run_bind_call, E1.
  exists W', (rest (rest o)). split_and!; [done|by apply clean_rest|done..|].
  intros lid' l'' Hl''. destruct (U _ _ Hl'') as [-> ->]. exists l1. split; [done|].
  unfold Revoke in Rv. unfold revoked_status. case_decide; [|done]. injection Rv as <-. by rewrite Hs, Hu.
Qed.

Definition kill_report `{Wiring} (w : WorkflowRun) (actor reason : string) : proc (result unit) :=
  _ ← Record_ actor "workflow_killed" "killed" NewAuditContext None (Some (wfID w));
  _ ← call (Notify (OnWorkflowTerminated w reason));
  durationMs ← ms_since (wfCreatedAt w);
  _ ← emitTerminal "killed" durationMs;
  Ret (Ok ()).

Lemma quiet_kill_report `{Wiring} w actor reason :
  quiet (kill_report w actor reason) (λ r, r = Ok ()).
Proof.
  unfold kill_report. apply quiet_then; [apply quiet_Record|]. apply quiet_then; [apply quiet_notify|].
  eapply quiet_bind; [apply quiet_ms_since|]. intros d _. apply quiet_then; [apply quiet_emitTerminal|done].
Qed.


(** * The gates *)

Lemma db_read_Ok {A} ctx f (r : result A) a : db_read ctx f r = Ok a → r = Ok a.
Proof. by destruct f. Qed.

(** A row found by task, whatever the scan. *)
Lemma found_by_task {R A} (col : R → string) (scan : R → result A) nf ctx f pick tbl taskID a :
  db_read ctx f (query_row (λ r, bool_decide (col r = taskID)) scan nf pick tbl) = Ok a →
  ∃ id r, tbl !! id = Some r ∧ col r = taskID.
Proof.
  intros H%db_read_Ok. apply query_row_ok in H as (id & r & H & E%bool_decide_eq_true & _). eauto.
Qed.

Lemma run_sentinel {A B} sentinel (q : port (result A)) (k : A → proc (result B)) o W :
  run (try_sentinel sentinel (call q) k) o W =
  match exec (o 0) q W with
  | (Ok a, W') => run (k a) (rest o) W'
  | (Err e, W') => (Returned (Err (Wrapv "%w: %v" sentinel e)), W', rest o)
  end.
Proof. unfold try_sentinel. rewrite run_bind_call. by destruct (exec (o 0) q W) as [[a|e] W']. Qed.

(** C5: the governance sequence cannot be skipped.  On every database, whatever the choices
    of the environment (faults included): starting or policy checking a task that has no routing
    decision fails and writes nothing, and so does starting a task that has no policy decision or
    no workflow run. *)
Theorem governance_gates `{Wiring} W o taskID action :
  let refused {A} (p : proc (result A)) := ∃ e o', run p o W = (Returned (Err e), W, o') in
  let routed := ∃ id r, w_routing W !! id = Some r ∧ rd_task_id r = taskID in
  let decided := ∃ id r, w_policy W !! id = Some r ∧ pd_task_id r = taskID in
  let has_run := ∃ id r, w_workflows W !! id = Some r ∧ wf_task_id r = taskID in
  (¬ routed → refused (PolicyEval.EvaluatePolicy taskID action)) ∧
  (¬ (routed ∧ decided ∧ has_run) → refused (StartWorkflow taskID)).
Proof.
  intros refused routed decided has_run. split; intros N; red.
  - unfold PolicyEval.EvaluatePolicy. rewrite run_call. step_call.
    destruct (db_read _ _ _); [|by do 2 eexists]. rewrite run_call. step_call.
    destruct (db_read "scanning routing decision: %w" _ _) eqn:E; [|by do 2 eexists].
    exfalso. apply N. by eapply found_by_task.
  - unfold StartWorkflow. rewrite run_call. step_call.
    destruct (db_read _ _ _); [|by do 2 eexists]. rewrite run_sentinel. step_call.
    destruct (db_read "scanning routing decision: %w" _ _) eqn:E1; [|by do 2 eexists].
    rewrite run_sentinel. step_call.
    destruct (db_read "scanning policy decision: %w" _ _) eqn:E2; [|by do 2 eexists].
    rewrite run_sentinel. step_call.
    destruct (db_read "scanning workflow run: %w" _ _) eqn:E3; [|by do 2 eexists].
    exfalso. apply N. split_and!; by eapply found_by_task.
Qed.
End effects.
