(* ===== verification/StartEffects.v ===== *)
(** What starting a workflow does, by the outcome of the policy decision, when nothing fails and
    nothing interferes. *)

From stdpp Require Import options.
From S2P Require Import Prelude GoLib Shared Task Workflow Execution Approval Escalation Policy.
From S2P Require Import Routing AuditLog Resilience Persistence Ports AuditService WorkflowService.
From S2P Require Import PolicyEval ApprovalService ProgramLogic PortSpecs Runs ServiceSpecs System.
From S2P Require Import TimeFormat Handlers.
From S2P Require Import ServiceEffects.

Section start.
Context {PG : Postgres} {Zn : Zone} {Ul : ULID} {Ch : Chi}.

(** The status a policy outcome leads to. *)
Definition start_status (outcome : PolicyOutcome) : WorkflowStatus :=
  if decide (outcome = OutcomeDeny) then Workflow.StatusFailed
  else if decide (outcome = OutcomeRequireApproval) then Workflow.StatusAwaitingApproval
  else StatusRunning.

(** What a start leaves: [fresh] is the identifier generated for the lease or the request. *)
Record started_as (W W' : World) (wid fresh : string) (w w0 : WorkflowRun) (st : WorkflowStatus) : Prop := {
  sa_status : wfStatus w0 = st;
  sa_run : ∃ w', run_at W' wid w' ∧ wfStatus w' = st ∧ wfTransitions w `prefix_of` wfTransitions w';
  sa_tables : w_tasks W' = w_tasks W ∧ w_routing W' = w_routing W ∧ w_policy W' = w_policy W;
  sa_runs : delete wid (w_workflows W') = delete wid (w_workflows W);
  sa_lease : if decide (st = StatusRunning)
    then ∃ r, w_leases W' = <[fresh := r]> (w_leases W) ∧ lease_workflow_run_id r = wid ∧
              elStatus (scanExecutionLease r) = LeaseStatusActive ∧
              elAttemptsUsed (scanExecutionLease r) = 0%Z ∧ lease_fine (scanExecutionLease r)
    else w_leases W' = w_leases W;
  sa_approval : if decide (st = Workflow.StatusAwaitingApproval)
    then ∃ r, w_approvals W' = <[fresh := r]> (w_approvals W) ∧ ar_workflow_run_id r = wid ∧
              ar_status r = "pending"
    else w_approvals W' = w_approvals W;
}.

Lemma checked_transition w target reason actor now :
  wfStatus w = StatusPolicyChecked →
  target ∈ [StatusRunning; Workflow.StatusAwaitingApproval; Workflow.StatusFailed] →
  ∃ w0, transitionTo w target reason actor now = Ok w0 ∧ wfStatus w0 = target ∧ wfID w0 = wfID w ∧
        wfTaskID w0 = wfTaskID w ∧ wfTransitions w `prefix_of` wfTransitions w0.
Proof.
  intros E Ht. unfold transitionTo. rewrite E.
  assert (V : IsValidTransition StatusPolicyChecked target = true) by (set_unfold in Ht; naive_solver).
  rewrite V. eexists. split; [reflexivity|]. split_and!; try done. simpl. by apply prefix_app_r.
Qed.

Lemma quiet_denied `{Wiring} tk w w0 :
  quiet (_ ← Record_ systemActor "workflow_started" "denied" NewAuditContext (Some tk) (Some (wfID w));
         _ ← call (Notify (OnWorkflowTerminated w0 "policy denied"));
         durationMs ← ms_since (wfCreatedAt w0);
         _ ← emitTerminal "failed" durationMs;
         Ret (Ok w0)) (λ r : result WorkflowRun, r = Ok w0).
Proof.
  apply quiet_then; [apply quiet_Record|]. apply quiet_then; [apply quiet_notify|].
  eapply quiet_bind; [apply quiet_ms_since|]. intros. by apply quiet_then; [apply quiet_emitTerminal|].
Qed.

Lemma quiet_started tk w n (w0 : WorkflowRun) outcome :
  quiet (_ ← Record_ systemActor "workflow_started" outcome NewAuditContext (Some tk) (Some (wfID w));
         _ ← call (Notify n); Ret (Ok w0)) (λ r : result WorkflowRun, r = Ok w0).
Proof. by apply quiet_then; [apply quiet_Record|apply quiet_then; [apply quiet_notify|]]. Qed.

(** Every report after the run is stored. *)
Lemma run_last {B} w (p : proc (result B)) b o W :
  inv W → clean o → run_view W w → quiet p (λ r, r = b) →
  ∃ W' o' w', run (try "persisting workflow: %w" (call (WfUpdate w)) (λ _, p)) o W = (Returned b, W', o') ∧
    run_at W' (wfID w) w' ∧ wfStatus w' = wfStatus w ∧ wfTransitions w' = wfTransitions w ∧
    w_leases W' = w_leases W ∧ w_approvals W' = w_approvals W ∧ only_run W W' (wfID w).
Proof. intros. by apply run_stored with (W0 := W). Qed.

Lemma run_startDenied `{Wiring} tk pd w now o W :
  inv W → clean o → run_view W w → ts_Time now ≠ 0%Z → wfStatus w = StatusPolicyChecked →
  ∃ W' o' w0, run (startDenied tk pd w now) o W = (Returned (Ok w0), W', o') ∧
    ∀ fresh, started_as W W' (wfID w) fresh w w0 Workflow.StatusFailed.
Proof.
  intros I C V Hz Hs. unfold startDenied, Workflow.Fail. rewrite run_pure.
  destruct (checked_transition w Workflow.StatusFailed ("policy denied: " +:+ pdReason pd) systemActor now)
    as (w0 & E0 & St & Hid & _ & P); [done|set_solver|]. rewrite E0.
  destruct (run_view_free _ _ _ _ _ now _ V E0 Hz eq_refl) as (V0 & _).
  destruct (run_last w0 _ _ o W I C V0 (quiet_denied (tkID tk) w w0))
    as (W' & o' & w' & E & Rw & Sw & Tw & L & A & O).
  exists W', o', w0. split; [exact E|]. intros fresh. rewrite Hid in *. destruct O.
  split; try done. exists w'. by rewrite Sw, Tw.
Qed.

Lemma exec_ApprovalSave W c a :
  ch_fault c = NoFault → w_approvals W !! apID a = None → has (w_tasks W) (apTaskID a) = true →
  has (w_workflows W) (apWorkflowRunID a) = true →
  exec c (ApprovalSave a) W = (Ok tt, with_approvals W (<[apID a := approvalToRow a]> (w_approvals W))).
Proof.
  intros F N T R. step_call. unfold insert_row. simpl. by rewrite N, T, R, F.
Qed.

Lemma run_view_has W w : run_view W w → has (w_workflows W) (wfID w) = true.
Proof. intros [_ (r & H & _)]. apply bool_decide_eq_true. by exists r. Qed.

Lemma run_startAwaitingApproval tk pd w now o W :
  inv W → clean o → run_view W w → policy_row W (wfTaskID w) [OutcomeRequireApproval] →
  ts_Time now ≠ 0%Z → wfStatus w = StatusPolicyChecked →
  has (w_tasks W) (tkID tk) = true → TrimSpace (pdReason pd) ≠ "" →
  w_approvals W !! ch_id (o 0) = None →
  ∃ W' o' w0, run (startAwaitingApproval tk pd w now) o W = (Returned (Ok w0), W', o') ∧
    started_as W W' (wfID w) (ch_id (o 0)) w w0 Workflow.StatusAwaitingApproval.
Proof.
  intros I C V Pol Hz Hs Tk Re Fr. unfold startAwaitingApproval, TransitionTo. rewrite run_pure.
  destruct (checked_transition w Workflow.StatusAwaitingApproval ("approval required: " +:+ pdReason pd) systemActor now)
    as (w0 & E0 & St & Hid & _ & P); [done|set_solver|]. rewrite E0.
  destruct (run_view_transition _ _ _ _ _ now _ V E0 Hz) as (V0 & _).
  { intros t _ Ht. apply justified_cases. by rewrite Ht. }
  pose proof (clean_rest _ C) as C1. pose proof (clean_rest _ C1) as C2.
  rewrite run_bind_call. step_call. unfold NewApprovalRequest. rewrite decide_False by done.
  set (req := Build_ApprovalRequest _ _ _ _ _ _ _ _ _). rewrite run_pure, run_call.
  assert (Hw : has (w_workflows W) (wfID w0) = true) by (rewrite Hid; by apply run_view_has).
  pose proof (ApprovalSave_ok req W) as Sv.
  destruct (Sv ltac:(by split) W (rest o 0) ltac:(done) I (proj2 (C1 0))) as (X1 & I1 & _). clear Sv.
  rewrite (exec_ApprovalSave W (rest o 0) req (proj1 (C1 0)) Fr Tk Hw) in X1, I1 |- *.
  cbn [fst snd] in X1, I1. set (W1 := with_approvals W _) in *.
  destruct (run_last w0 _ _ (rest (rest o)) W1 I1 C2 (run_view_stable _ _ _ X1 V0)
    (quiet_started (tkID tk) w (OnApprovalRequired w0 req) w0 "awaiting_approval"))
    as (W' & o' & w' & E & Rw & Sw & Tw & L & A & O).
  exists W', o', w0. split; [exact E|]. rewrite Hid in Rw, O. destruct O. split; try done.
  - exists w'. by rewrite Sw, Tw.
  - simpl. exists (approvalToRow req). by rewrite A.
Qed.

Lemma exec_LeaseSave W c l r :
  ch_fault c = NoFault → leaseToRow l = Ok r → lease_id r = elID l →
  w_leases W !! elID l = None → has (w_workflows W) (lease_workflow_run_id r) = true →
  (∀ id s, w_leases W !! id = Some s → lease_workflow_run_id s ≠ lease_workflow_run_id r) →
  exec c (LeaseSave l) W = (Ok tt, with_leases W (<[elID l := r]> (w_leases W))).
Proof.
  intros F E Ei N R U. step_call. rewrite E. unfold insert_row. rewrite Ei, N, R, F.
  assert (A : forallb (λ r', bool_decide (lease_workflow_run_id r' ≠ lease_workflow_run_id r))
                (map_to_list (w_leases W)).*2 = true).
  { apply forallb_forall. intros s Hs%list_elem_of_In. apply list_elem_of_fmap in Hs as ([i s'] & -> & Hs).
    apply bool_decide_eq_true. by eapply U, elem_of_map_to_list. }
  by rewrite A.
Qed.

Lemma run_newLease w now o W :
  ∃ l, run (newLease w now) o W = (Returned (Ok l), W, rest o) ∧ elID l = ch_id (o 0) ∧
    elWorkflowRunID l = wfID w ∧ elStatus l = LeaseStatusActive ∧ elAttemptsUsed l = 0%Z ∧ lease_fine l.
Proof.
  eexists. split; [reflexivity|]. split_and!; try done.
Qed.

(** A lease is stored for a run that has none. *)
Lemma run_LeaseSave {B} ctx l (k : unit → proc (result B)) o W :
  inv W → clean o → lease_fine l → authorized W (elWorkflowRunID l) →
  w_leases W !! elID l = None →
  (∀ id s, w_leases W !! id = Some s → lease_workflow_run_id s ≠ elWorkflowRunID l) →
  ∃ r, let W1 := with_leases W (<[elID l := r]> (w_leases W)) in
    run (try ctx (call (LeaseSave l)) k) o W = run (k tt) (rest o) W1 ∧
    inv W1 ∧ ext W W1 ∧ lease_workflow_run_id r = elWorkflowRunID l ∧
    elStatus (scanExecutionLease r) = elStatus l ∧
    elAttemptsUsed (scanExecutionLease r) = elAttemptsUsed l ∧ lease_fine (scanExecutionLease r).
Proof.
  intros I C F A N U. pose proof (lease_fine_storable _ F) as S.
  destruct (leaseToRow_ok l S) as (r & E & Cl & Ei & Ew & _).
  assert (Hw : has (w_workflows W) (lease_workflow_run_id r) = true).
  { rewrite Ew. destruct A as (rw & Hr & _). apply bool_decide_eq_true. by exists rw. }
  exists r. rewrite run_call.
  destruct (LeaseSave_ok l W F A W (o 0) ltac:(done) I (proj2 (C 0))) as (X & I' & _).
  rewrite (exec_LeaseSave W (o 0) l r (proj1 (C 0)) E Ei N Hw) in X, I' |- * by (by rewrite Ew).
  destruct (scan_lease _ _ S Cl) as [Es _].
  pose proof (lease_fine_scan _ _ F Cl) as Fs. rewrite Es in *. by split_and!.
Qed.

Lemma run_startRunning tk w now o W :
  inv W → clean o → run_view W w → policy_row W (wfTaskID w) allowing_outcomes →
  ts_Time now ≠ 0%Z → wfStatus w = StatusPolicyChecked →
  w_leases W !! ch_id (o 0) = None →
  (∀ id s, w_leases W !! id = Some s → lease_workflow_run_id s ≠ wfID w) →
  ∃ W' o' w0, run (startRunning tk w now) o W = (Returned (Ok w0), W', o') ∧
    started_as W W' (wfID w) (ch_id (o 0)) w w0 StatusRunning.
Proof.
  intros I C V Pol Hz Hs Fr No. unfold startRunning, TransitionTo. rewrite run_pure.
  destruct (checked_transition w StatusRunning "policy allowed" systemActor now)
    as (w0 & E0 & St & Hid & Htk & P); [done|set_solver|]. rewrite E0.
  destruct (run_view_transition _ _ _ _ _ now _ V E0 Hz) as (V0 & _).
  { intros t _ Ht. apply justified_cases. rewrite Ht. intros _. by left. }
  pose proof (clean_rest _ C) as C1. pose proof (clean_rest _ C1) as C2. rewrite run_bind.
  destruct (run_newLease w0 now o W) as (l & El & Ei & Ew & Es & Eu & F). rewrite El.
  rewrite Hid in Ew. rewrite <- Ei in Fr |- *.
  edestruct (run_LeaseSave (B := WorkflowRun) "persisting lease: %w" l) as (r & E1 & I1 & X1 & Rw & Rs & Ru & Rf);
    [exact I|exact C1|done| |done|by rewrite Ew|].
  { rewrite Ew. by apply run_view_authorized_policy. }
  rewrite E1. set (W1 := with_leases W _) in *.
  destruct (run_last w0 _ _ (rest (rest o)) W1 I1 C2 (run_view_stable _ _ _ X1 V0)
    (quiet_started (tkID tk) w (OnExecutionReady w0 l) w0 "running"))
    as (W' & o' & w' & E & Rn & Sw & Tw & L & A & O).
  exists W', o', w0. split; [exact E|]. rewrite Hid in Rn, O. destruct O. split; try done.
  - exists w'. by rewrite Sw, Tw.
  - rewrite decide_True by done. exists r. by rewrite L, Rw, Rs, Ru, Ew, Es, Eu.
Qed.

Lemma routing_found W c taskID :
  ch_fault c = NoFault → routed W taskID → ∃ rd, exec c (RoutingFindByTaskID taskID) W = (Ok rd, W).
Proof.
  intros F (id & r & H & E). step_call. rewrite F. cbn [db_read].
  destruct (query_row_found (λ r, bool_decide (rd_task_id r = taskID)) (λ r, Ok (scanRoutingDecision r))
    "routing decision not found" (ch_pick c) _ _ _ H) as (id' & r' & _ & _ & ->); [by apply bool_decide_eq_true|].
  eauto.
Qed.

Lemma exec_WfFindByTaskID W c wid w taskID :
  inv W → ch_fault c = NoFault → run_at W wid w → wfTaskID w = taskID →
  (∀ id r, w_workflows W !! id = Some r → wf_task_id r = taskID → id = wid) →
  exec c (WfFindByTaskID taskID) W = (Ok w, W).
Proof.
  intros I F (r & H & Hs) Et U. step_call. rewrite F. cbn [db_read]. f_equal.
  rewrite (query_row_unique _ _ _ _ _ wid r); [done|done| |].
  - apply bool_decide_eq_true. by rewrite <- (proj2 (scan_fine _ _ Hs)).
  - intros id' r' H' E%bool_decide_eq_true. by eapply U.
Qed.

End start.
