(* ===== verification/ResolveEffects.v ===== *)
(** What resolving an approval request does, on every branch, when nothing fails and nothing
    interferes. *)

From stdpp Require Import options.
From S2P Require Import Prelude GoLib Shared Task Workflow Execution Approval Escalation Policy.
From S2P Require Import Routing AuditLog Resilience Persistence Ports AuditService WorkflowService.
From S2P Require Import PolicyEval ApprovalService ProgramLogic PortSpecs Runs ServiceSpecs System.
From S2P Require Import TimeFormat Handlers ServiceEffects StartEffects.

Section resolve.
Context {PG : Postgres} {Zn : Zone} {Ul : ULID} {Ch : Chi}.

(** The status a resolution leads a run to, or [None] when the run does not admit it. *)
Definition resolution_status (approved : bool) (st : WorkflowStatus) : option WorkflowStatus :=
  if approved then if decide (st = Workflow.StatusAwaitingApproval) then Some StatusRunning else None
  else if decide (st ∈ [StatusPolicyChecked; Workflow.StatusAwaitingApproval; StatusRunning])
       then Some Workflow.StatusFailed else None.

Definition resolved_status (approved : bool) : ApprovalStatus :=
  if approved then StatusApproved else StatusDenied.

(** The request after its resolution: its row, and the tables that stay as they are. *)
Record request_resolved (W W' : World) (input : ResolveApprovalInput) (now : Timestamp) : Prop := {
  rr_request : ∃ r', w_approvals W' = <[raApprovalRequestID input := r']> (w_approvals W) ∧
    ar_status r' = to_string (resolved_status (raApproved input)) ∧
    ar_resolution r' = Some {| resResolvedBy := raResolvedBy input; resResolvedAt := now;
                               resReason := raReason input;
                               resStatus := resolved_status (raApproved input) |};
  rr_tables : w_tasks W' = w_tasks W ∧ w_routing W' = w_routing W ∧ w_policy W' = w_policy W;
}.

(** The run after a resolution it admits; [fresh] is the identifier of its lease. *)
Record run_resolved (W W' : World) (wid fresh : string) (w : WorkflowRun) (approved : bool)
    (st : WorkflowStatus) : Prop := {
  rn_run : ∃ w', run_at W' wid w' ∧ wfStatus w' = st ∧ wfTransitions w `prefix_of` wfTransitions w';
  rn_runs : delete wid (w_workflows W') = delete wid (w_workflows W);
  rn_lease : if approved
    then ∃ r, w_leases W' = <[fresh := r]> (w_leases W) ∧ lease_workflow_run_id r = wid ∧
              elStatus (scanExecutionLease r) = LeaseStatusActive ∧
              elAttemptsUsed (scanExecutionLease r) = 0%Z ∧ lease_fine (scanExecutionLease r)
    else w_leases W' = w_leases W;
}.

(** * The request is stored *)

Lemma exec_ApprovalUpdate W c a :
  inv W → ch_fault c = NoFault → good c → approval_view W a → Approval.IsTerminal (apStatus a) = true →
  ∃ r', let W1 := with_approvals W (<[apID a := r']> (w_approvals W)) in
    exec c (ApprovalUpdate a) W = (Ok tt, W1) ∧ inv W1 ∧ ext W W1 ∧
    approval_resolved W1 (apWorkflowRunID a) ∧
    ar_status r' = to_string (apStatus a) ∧ ar_resolution r' = apResolution a.
Proof.
  intros I F G V T. destruct (ApprovalUpdate_ok a W V T W c ltac:(done) I G) as (X & I' & R).
  destruct V as [_ (old & Ho & _)]. exists (updateApprovalRow old a).
  assert (E : exec c (ApprovalUpdate a) W =
    (Ok tt, with_approvals W (<[apID a := updateApprovalRow old a]> (w_approvals W))))
    by (step_call; by rewrite Ho, F).
  rewrite E in X, I', R. by split_and!.
Qed.

(** * The run follows *)

Lemma transition_cases w target reason actor now :
  if IsValidTransition (wfStatus w) target && negb (Workflow.IsTerminal (wfStatus w))
  then ∃ w0, transitionTo w target reason actor now = Ok w0 ∧ wfStatus w0 = target ∧ wfID w0 = wfID w ∧
             wfTransitions w `prefix_of` wfTransitions w0
  else ∃ e, transitionTo w target reason actor now = Err e.
Proof.
  unfold transitionTo. destruct (Workflow.IsTerminal _), (IsValidTransition _ _); simpl; eauto.
  eexists. split; [reflexivity|]. split_and!; try done. simpl. by apply prefix_app_r.
Qed.

Lemma approved_from st :
  IsValidTransition st Workflow.StatusApproved && negb (Workflow.IsTerminal st)
  = bool_decide (st = Workflow.StatusAwaitingApproval).
Proof. by destruct st. Qed.

Lemma failed_from st :
  IsValidTransition st Workflow.StatusFailed && negb (Workflow.IsTerminal st)
  = bool_decide (st ∈ [StatusPolicyChecked; Workflow.StatusAwaitingApproval; StatusRunning]).
Proof. by destruct st. Qed.

Lemma run_refuse w by_ reason now o W :
  inv W → clean o → run_view W w → ts_Time now ≠ 0%Z →
  match resolution_status false (wfStatus w) with
  | None => ∃ e, run (refuse w by_ reason now) o W = (Returned (Err e), W, o)
  | Some st => ∃ w0 W' o', run (refuse w by_ reason now) o W = (Returned (Ok w0), W', o') ∧ clean o' ∧
      run_resolved W W' (wfID w) "" w false st ∧ only_run W W' (wfID w)
  end.
Proof.
  intros I C V Hz. unfold refuse, Fail, resolution_status. rewrite run_pure.
  pose proof (transition_cases w Workflow.StatusFailed ("approval denied: " +:+ reason) by_ now) as T.
  rewrite failed_from in T. case_decide as D; [rewrite bool_decide_eq_true_2 in T by done|
    rewrite bool_decide_eq_false_2 in T by done; destruct T as [e ->]; by eexists].
  destruct T as (w0 & E0 & St & Hid & P). rewrite E0.
  destruct (run_view_free _ _ _ _ _ now _ V E0 Hz eq_refl) as (V0 & _).
  destruct (run_stored_clean "persisting workflow: %w" w0
    (λ _, _ ← call (Notify (OnWorkflowTerminated w0 "approval denied")); Ret (Ok w0)) (Ok w0) o W W)
    as (W' & o' & w' & E & Rw & Sw & Tw & L & A & O & C'); [done..| |done|].
  { by apply quiet_then; [apply quiet_notify|]. }
  exists w0, W', o'. rewrite Hid in *. split; [exact E|]. split; [done|]. split; [|done].
  split; [|by destruct O|done]. exists w'. by rewrite Sw, Tw, St.
Qed.

Lemma run_grant w by_ now o W :
  inv W → clean o → run_view W w → approval_resolved W (wfID w) → ts_Time now ≠ 0%Z →
  w_leases W !! ch_id (o 0) = None →
  (∀ id s, w_leases W !! id = Some s → lease_workflow_run_id s ≠ wfID w) →
  match resolution_status true (wfStatus w) with
  | None => ∃ e, run (grant w by_ now) o W = (Returned (Err e), W, o)
  | Some st => ∃ w0 W' o', run (grant w by_ now) o W = (Returned (Ok w0), W', o') ∧ clean o' ∧
      run_resolved W W' (wfID w) (ch_id (o 0)) w true st ∧ only_run W W' (wfID w)
  end.
Proof.
  intros I C V R Hz Fr No. unfold grant, TransitionTo, resolution_status. rewrite run_pure.
  pose proof (transition_cases w Workflow.StatusApproved "approval granted" by_ now) as T.
  rewrite approved_from in T. case_decide as D; [rewrite bool_decide_eq_true_2 in T by done|
    rewrite bool_decide_eq_false_2 in T by done; destruct T as [e ->]; by eexists].
  destruct T as (w1 & E1 & St1 & Hid1 & P1). rewrite E1, run_pure.
  destruct (run_view_transition _ _ _ _ _ now _ V E1 Hz) as (V1 & _).
  { intros t _ Ht. apply justified_cases. by rewrite Ht. }
  pose proof (transition_cases w1 StatusRunning "starting execution" by_ now) as T. rewrite St1 in T.
  destruct T as (w2 & E2 & St2 & Hid2 & P2). rewrite E2.
  destruct (run_view_transition _ _ _ _ _ now _ V1 E2 Hz) as (V2 & _).
  { intros t _ Ht. apply justified_cases. rewrite Ht. intros _. right. by rewrite Hid1. }
  rewrite run_bind. destruct (run_newLease w2 now o W) as (l & El & Ei & Ew & Es & Eu & F). rewrite El.
  rewrite Hid2, Hid1 in Ew. rewrite <- Ei in Fr |- *. pose proof (clean_rest _ C) as C1.
  edestruct (run_LeaseSave (B := WorkflowRun) "persisting lease: %w" l) as (r & Er & I1 & X1 & Rw & Rs & Ru & Rf);
    [exact I|exact C1|done| |done|by rewrite Ew|].
  { rewrite Ew. by apply run_view_authorized_approval. }
  rewrite Er. set (W1 := with_leases W _) in *.
  destruct (run_stored_clean "persisting workflow: %w" w2
    (λ _, _ ← call (Notify (OnExecutionReady w2 l)); Ret (Ok w2)) (Ok w2) (rest (rest o)) W1 W)
    as (W' & o' & w' & E & Rn & Sw & Tw & L & A & O & C'); [done|by apply clean_rest|exact (run_view_stable _ _ _ X1 V2)| | |].
  { by apply quiet_then; [apply quiet_notify|]. }
  { split; try done. intros lid s Hs _. cbn [W1 with_leases w_leases]. rewrite lookup_insert_ne; [done|]. congruence. }
  exists w2, W', o'. rewrite Hid2, Hid1 in *. split; [exact E|]. split; [done|]. split; [|done].
  split; [|by destruct O|].
  - exists w'. rewrite Sw, Tw, St2. split_and!; [done..|by etrans].
  - exists r. by rewrite L, Rw, Rs, Ru, Ew, Es, Eu.
Qed.
(** * The resolution *)

(** The request an operation makes of a pending one. *)
Definition resolved_request (req : ApprovalRequest) (input : ResolveApprovalInput) (now : Timestamp)
    : result ApprovalRequest :=
  resolve req (raResolvedBy input) (raReason input) (resolved_status (raApproved input)) now.

Lemma resolve_branches req input now :
  (if raApproved input
   then wrap "approving request: %w" (Approve req (raResolvedBy input) (raReason input) now)
   else wrap "denying request: %w" (Deny req (raResolvedBy input) (raReason input) now))
  = wrap (if raApproved input then "approving request: %w" else "denying request: %w")
      (resolved_request req input now).
Proof. unfold resolved_request, Approve, Deny. by destruct (raApproved input). Qed.

Lemma pending_row r : apStatus (scanApprovalRequest r) = Approval.StatusPending ↔ ar_status r = "pending".
Proof.
  pose proof (to_of_string (A := ApprovalStatus) (ar_status r)) as E.
  change (apStatus (scanApprovalRequest r)) with (of_string (ar_status r) : ApprovalStatus).
  split; [intros H; rewrite H in E; by rewrite <- E|by intros ->].
Qed.

(** A pending request can be resolved, and is still the request of its run. *)
Lemma resolved_pending W r input now :
  inv W → w_approvals W !! raApprovalRequestID input = Some r → ar_status r = "pending" →
  ∃ req, resolved_request (scanApprovalRequest r) input now = Ok req ∧
    apID req = raApprovalRequestID input ∧ apWorkflowRunID req = ar_workflow_run_id r ∧
    approval_view W req ∧ Approval.IsTerminal (apStatus req) = true ∧
    apStatus req = resolved_status (raApproved input) ∧
    apResolution req = Some {| resResolvedBy := raResolvedBy input; resResolvedAt := now;
                               resReason := raReason input;
                               resStatus := resolved_status (raApproved input) |}.
Proof.
  intros I Hr D%pending_row. destruct (inv_approvals _ I _ _ Hr) as [Ei Hinv].
  assert (E : ∃ req, resolved_request (scanApprovalRequest r) input now = Ok req)
    by (unfold resolved_request, resolve; rewrite decide_True by done; by eexists).
  destruct E as [req E]. exists req. split; [done|].
  destruct (resolve_view W (scanApprovalRequest r) (raResolvedBy input) (raReason input)
    (resolved_status (raApproved input)) now req) as (V & T & Ew); [|by destruct (raApproved input)|done|].
  { split; [done|]. exists r. by rewrite <- Ei in Hr. }
  apply resolve_Ok in E as (_ & Es & Er & Eid & _). rewrite Eid, Ew. by split_and!.
Qed.

(** Reports keep what was stored. *)
Lemma resolved_core W W2 W3 wid fresh w approved st :
  same_core W2 W3 → run_resolved W W2 wid fresh w approved st → run_resolved W W3 wid fresh w approved st.
Proof.
  intros S [(w' & Hw' & H) R L]. pose proof (run_at_core _ _ _ _ S Hw') as Hw3. destruct S. split.
  - by exists w'.
  - congruence.
  - destruct approved; [destruct L as (r & L & ?); exists r; split; [congruence|done]|congruence].
Qed.

(** What follows the run: reports only. *)
Lemma quiet_resolution_report `{Wiring} req w (input : ResolveApprovalInput) :
  quiet (let outcome := if raApproved input then "approved" else "denied" in
         _ ← Record_ (raResolvedBy input) "approval_resolved" outcome NewAuditContext None (Some (wfID w));
         waitMs ← ms_since (apCreatedAt req);
         _ ← emitApprovalWait waitMs outcome;
         _ ← (if negb (raApproved input) then
                durationMs ← ms_since (wfCreatedAt w); emitTerminal "failed" durationMs
              else Ret tt);
         Ret (Ok req)) (λ r : result ApprovalRequest, r = Ok req).
Proof.
  apply quiet_then; [apply quiet_Record|]. eapply quiet_bind; [apply quiet_ms_since|]. intros d _.
  apply quiet_then. { unfold emitApprovalWait. destruct has_metrics; [by apply quiet_call|done]. }
  apply quiet_then; [|done]. destruct (negb _); [|done].
  eapply quiet_bind; [apply quiet_ms_since|]. intros. apply quiet_emitTerminal.
Qed.

(** The run of a request, whichever way it is resolved. *)
Lemma run_follow (input : ResolveApprovalInput) w now o W :
  inv W → clean o → run_view W w → approval_resolved W (wfID w) → ts_Time now ≠ 0%Z →
  w_leases W !! ch_id (o 0) = None →
  (raApproved input = true → ∀ id s, w_leases W !! id = Some s → lease_workflow_run_id s ≠ wfID w) →
  let p := if raApproved input then grant w (raResolvedBy input) now
           else refuse w (raResolvedBy input) (raReason input) now in
  match resolution_status (raApproved input) (wfStatus w) with
  | None => ∃ e, run p o W = (Returned (Err e), W, o)
  | Some st => ∃ w0 W' o', run p o W = (Returned (Ok w0), W', o') ∧ clean o' ∧
      run_resolved W W' (wfID w) (ch_id (o 0)) w (raApproved input) st ∧ only_run W W' (wfID w)
  end.
Proof.
  intros I C V R Hz Fr No p. subst p. destruct (raApproved input); [apply run_grant; try done; by apply No|].
  pose proof (run_refuse w (raResolvedBy input) (raReason input) now o W I C V Hz) as H.
  destruct (resolution_status false (wfStatus w)); [|done].
  destruct H as (v & W' & o' & E & C' & [] & O). exists v, W', o'.
  split; [exact E|]. split; [done|]. split; [by split|done].
Qed.

Lemma ResolveApproval_does `{Wiring} W o input r w :
  let wid := ar_workflow_run_id r in
  let now := {| ts_Time := ch_now (o 1) |} in
  inv W → clean o → w_approvals W !! raApprovalRequestID input = Some r → run_at W wid w →
  w_leases W !! ch_id (o 4) = None →
  (raApproved input = true → ∀ id l, w_leases W !! id = Some l → lease_workflow_run_id l ≠ wid) →
  if decide (ar_status r = "pending") then
    ∃ x W' o', run (ResolveApproval input) o W = (Returned x, W', o') ∧ request_resolved W W' input now ∧
      match resolution_status (raApproved input) (wfStatus w) with
      | None => (∃ e, x = Err e) ∧ w_workflows W' = w_workflows W ∧ w_leases W' = w_leases W
      | Some st => (∃ req, x = Ok req ∧ apStatus req = resolved_status (raApproved input)) ∧
                   run_resolved W W' wid (ch_id (o 4)) w (raApproved input) st
      end
  else ∃ e o', run (ResolveApproval input) o W = (Returned (Err e), W, o') ∧ errors_Is e Approval.ErrNotPending = true.
Proof.
  intros wid now I C Hr Hw Fr No.
  destruct (run_at_view _ _ _ I Hw) as [V Hid]. rewrite <- Hid in No.
  pose proof (clean_rest _ (clean_rest _ C)) as C2. pose proof (clean_rest _ (clean_rest _ C2)) as C4.
  unfold ResolveApproval. rewrite run_call. step_call. rewrite (proj1 (C 0)), Hr. cbn [db_read].
  rewrite run_clock, resolve_branches by (by apply clean_rest).
  change {| ts_Time := ch_now (rest o 0) |} with now. case_decide as D.
  2: { unfold resolved_request, resolve. rewrite decide_False by (by intros ?%pending_row).
       do 2 eexists. split; [reflexivity|]. apply errors_Is_wrap, errors_Is_wrap, errors_Is_refl. }
  destruct (resolved_pending W r input now I Hr D) as (req & -> & Ei & Ew & Va & T & Es & Er). cbn [wrap].
  destruct (exec_ApprovalUpdate W (rest (rest o) 0) req I (proj1 (C2 0)) (proj2 (C2 0)) Va T)
    as (r' & E1 & I1 & X1 & Rs & Sr & Rr).
  rewrite Ei, Ew, Es, Er in *. fold wid in Rs |- *. rewrite run_call, E1. set (W1 := with_approvals W _) in *.
  rewrite run_call, (exec_WfFindByID W1 _ wid w (proj1 (C2 1)) Hw), run_bind. rewrite <- Hid in Rs.
  pose proof (run_follow input w now _ W1 I1 C4 (run_view_stable _ _ _ X1 V) Rs (proj2 (C 1)) Fr No) as K.
  destruct (resolution_status _ _) as [st|].
  - destruct K as (w0 & W2 & o2 & E2 & C2' & Rn & O). rewrite E2.
    destruct (run_quiet _ _ o2 W2 (quiet_resolution_report req w0 input) C2') as (x & W3 & o3 & E3 & -> & S & _).
    exists (Ok req), W3, o3. split; [exact E3|]. split; [|split; [by exists req|]].
    + split; [exists r'; by rewrite (sc_approvals _ _ S), (or_approvals _ _ _ O)|].
      by rewrite (sc_tasks _ _ S), (sc_routing _ _ S), (sc_policy _ _ S), (or_tasks _ _ _ O),
        (or_routing _ _ _ O), (or_policy _ _ _ O).
    + rewrite <- Hid. apply (resolved_core _ _ _ _ _ _ _ _ S). by destruct Rn.
  - destruct K as [e E2]. rewrite E2. eexists _, W1, _. split; [reflexivity|].
    split; [split; [by exists r'|done]|]. split; [by eexists|done].
Qed.

End resolve.
