(* ===== verification/Success.v ===== *)
(** What a service that runs alone has done when it answers, and when it answers a success.

    The judgement [alone] comes in two modes.  With [tot = false] any fault may hit any
    statement, and the judgement tells what a successful answer means.  With [tot = true] no fault
    occurs and the identifiers generated are new, and the judgement tells that the answer is a
    success as well.  One derivation serves both. *)

From stdpp Require Import options.
From S2P Require Import Prelude GoLib Shared Task Workflow Execution Approval Escalation Policy.
From S2P Require Import Routing RoutingSpec AuditLog Resilience Persistence Ports AuditService.
From S2P Require Import WorkflowService ProgramLogic PortSpecs Runs ServiceSpecs ServiceEffects.

(** The clock is never the zero instant; faults are not excluded. *)
Definition timely (o : nat → choice) : Prop := ∀ n, good (o n).

Section success.
Context {PG : Postgres} (tot : bool).

(** * Identifiers that are not used yet *)

Definition fresh_id (W : World) (i : string) : Prop :=
  i ≠ "" ∧ w_tasks W !! i = None ∧ w_routing W !! i = None ∧ w_policy W !! i = None ∧
  w_workflows W !! i = None ∧ w_leases W !! i = None ∧ w_approvals W !! i = None ∧
  Forall (λ r, ae_id r ≠ i) (w_audit W).

(** No row has an identifier of [F]. *)
Definition unused (F : string → Prop) (W : World) : Prop := tot = true → ∀ i, F i → fresh_id W i.

(** The answers of the memory engine that [exact_score] speaks of. *)
Definition tame (m : result (option MemoryContext)) : Prop :=
  match m with Ok m => ∃ k, m = memory_of k | Err _ => True end.

Definition allows (F : string → Prop) (c : choice) : Prop :=
  good c ∧ (tot = true → ch_fault c = NoFault ∧ F (ch_id c) ∧ tame (ch_memory c)).

Definition spent (F : string → Prop) (c : choice) (F' : string → Prop) : Prop :=
  ∀ i, F' i → F i ∧ i ≠ ch_id c.

(** * The judgement *)

Fixpoint alone {A} (p : proc A) (Q : World → A → Prop) (F : string → Prop) (W : World) : Prop :=
  inv W → unused F W →
  match p with
  | Ret a => Q W a
  | Panic => tot = false
  | Call q k => ∀ c F', allows F c → spent F c F' → ext W (exec c q W).2 → inv (exec c q W).2 →
      unused F' (exec c q W).2 ∧ alone (k (exec c q W).1) Q F' (exec c q W).2
  end.

(** Successful, unless a fault may have occurred. *)
Definition answer {A} (Q : World → A → Prop) (W : World) (x : result A) : Prop :=
  match x with Ok a => Q W a | Err _ => tot = false end.

(** An oracle of the mode: a clock that is set; and no fault, and new identifiers. *)
Record oracle (F : string → Prop) (o : nat → choice) : Prop := {
  or_allows : ∀ n, allows F (o n);
  or_distinct : tot = true → ∀ m n, ch_id (o m) = ch_id (o n) → m = n;
}.

Lemma oracle_rest F o : oracle F o → oracle (λ i, F i ∧ i ≠ ch_id (o 0)) (rest o).
Proof.
  intros [A D]. split.
  - intros n. destruct (A (S n)) as [G T]. split; [exact G|]. intros E. destruct (T E) as (?&?&?).
    split_and!; try done. intros Eq. by apply (D E (S n) 0) in Eq.
  - intros E m n Eq. apply (D E) in Eq. by injection Eq.
Qed.

Lemma run_alone {A} (p : proc A) R Q F o W :
  safe p R W → inv W → unused F W → oracle F o → alone p Q F W →
  ∃ a W' o', run p o W = (Returned a, W', o') ∧ Q W' a ∧ inv W' ∧ ext W W'.
Proof.
  revert F o W. induction p as [a|X q k IH|]; intros F o W Sf I U O H.
  - exists a, W, o. split_and!; [done|by apply H|done|done].
  - destruct (or_allows _ _ O 0) as [G T].
    destruct (Sf W ltac:(done) I (o 0) G) as (X1 & I1 & S1).
    destruct (H I U (o 0) (λ i, F i ∧ i ≠ ch_id (o 0)) (conj G T) ltac:(by intros i) X1 I1) as [U1 H1].
    simpl. destruct (exec (o 0) q W) as [x W1]. simpl in *.
    destruct (IH x _ (rest o) W1 S1 I1 U1 (oracle_rest _ _ O) H1) as (a & W' & o' & E & HQ & I' & X').
    exists a, W', o'. split_and!; [done..|by etrans].
  - by destruct (Sf W).
Qed.

(** * Rules *)

Lemma unused_sub F F' W : unused F W → (∀ i, F' i → F i) → unused F' W.
Proof. intros U S E i Hi. apply U; auto. Qed.

Lemma alone_ret {A} (a : A) (Q : World → A → Prop) F W : (inv W → Q W a) → alone (Ret a) Q F W.
Proof. intros H I _. by apply H. Qed.

Lemma alone_inv {A} (p : proc A) Q F W : (inv W → unused F W → alone p Q F W) → alone p Q F W.
Proof. destruct p; intros H I U; by apply H. Qed.

Lemma alone_mono {A} (p : proc A) (R Q : World → A → Prop) F W :
  alone p R F W → (∀ W' a, inv W' → R W' a → Q W' a) → alone p Q F W.
Proof.
  revert F W. induction p as [a|X q k IH|]; intros F W H HQ I U; [by apply HQ, H| |by apply H].
  intros c F' Al Sp X1 I1. destruct (H I U c F' Al Sp X1 I1) as [U1 H1]. split; [done|]. by apply IH.
Qed.

Lemma alone_bind {A B} (p : proc A) (f : A → proc B) R Q F W :
  alone p R F W →
  (∀ F' W' a, (∀ i, F' i → F i) → ext W W' → inv W' → R W' a → alone (f a) Q F' W') →
  alone (p ≫= f) Q F W.
Proof.
  revert F W. induction p as [a|X q k IH|]; intros F W Hp Hf.
  - change (alone (f a) Q F W). apply alone_inv. intros I U. by apply Hf; [| | |apply Hp].
  - intros I U c F' Al Sp X1 I1. destruct (Hp I U c F' Al Sp X1 I1) as [U1 H1]. split; [done|].
    apply IH; [done|]. intros F2 W2 a S2 X2 I2 HR. apply Hf; [|by etrans|done|done].
    intros i Hi. by apply S2, Sp in Hi as [? _].
  - exact Hp.
Qed.

Lemma alone_tryf {A B} ctx args (p : proc (result A)) (k : A → proc (result B)) R Q F W :
  alone p (answer R) F W →
  (∀ F' W' a, (∀ i, F' i → F i) → ext W W' → inv W' → R W' a → alone (k a) (answer Q) F' W') →
  alone (tryf ctx args p k) (answer Q) F W.
Proof.
  intros Hp Hk. eapply alone_bind; [exact Hp|]. intros F' W' [a|e] S X I H; [by apply Hk|].
  by apply alone_ret.
Qed.

Lemma alone_pure {A B} ctx args (r : result A) (k : A → proc (result B)) Q F W :
  (tot = true → ∃ a, r = Ok a) → (∀ a, r = Ok a → alone (k a) (answer Q) F W) →
  alone (tryf ctx args (Ret r) k) (answer Q) F W.
Proof.
  intros T H. destruct r as [a|e]; [by apply (H a)|]. apply alone_ret. intros _.
  unfold answer. destruct tot; [|done]. by destruct (T eq_refl).
Qed.

(** A call whose error ends the service; [wrapped] is that error. *)
Lemma alone_call_or {A B} (q : port (result A)) (wrapped : error → error) (k : A → proc (result B)) Q F W :
  (tot = true → inv W → unused F W → ∀ c, ch_fault c = NoFault → ∃ a, (exec c q W).1 = Ok a) →
  (∀ c F' W' a, inv W → unused F W → good c → exec c q W = (Ok a, W') → (∀ i, F' i → F i) → ext W W' →
     inv W' → unused F' W' ∧ alone (k a) (answer Q) F' W') →
  alone (Call q (λ x, match x with Ok a => k a | Err e => Ret (Err (wrapped e)) end)) (answer Q) F W.
Proof.
  intros T H I U c F' [G Al] Sp X I'. destruct (exec c q W) as [[a|e] W'] eqn:E; simpl in *.
  - eapply H; [done..| |done|done]. intros i Hi. by apply Sp in Hi as [? _].
  - assert (tot = false) as Ht.
    { destruct tot; [|done]. destruct (Al eq_refl) as [NF _].
      destruct (T eq_refl I U c NF) as [a Ha]. by rewrite E in Ha. }
    split; [intros ?; congruence|by intros _ _].
Qed.

Lemma alone_try {A B} ctx args (q : port (result A)) (k : A → proc (result B)) Q F W :
  (tot = true → inv W → unused F W → ∀ c, ch_fault c = NoFault → ∃ a, (exec c q W).1 = Ok a) →
  (∀ c F' W' a, inv W → unused F W → good c → exec c q W = (Ok a, W') → (∀ i, F' i → F i) → ext W W' →
     inv W' → unused F' W' ∧ alone (k a) (answer Q) F' W') →
  alone (tryf ctx args (call q) k) (answer Q) F W.
Proof. apply (alone_call_or q (Wrapf ctx args) k). Qed.

Lemma alone_sentinel {A B} s (q : port (result A)) (k : A → proc (result B)) Q F W :
  (tot = true → inv W → unused F W → ∀ c, ch_fault c = NoFault → ∃ a, (exec c q W).1 = Ok a) →
  (∀ c F' W' a, inv W → unused F W → good c → exec c q W = (Ok a, W') → (∀ i, F' i → F i) → ext W W' →
     inv W' → unused F' W' ∧ alone (k a) (answer Q) F' W') →
  alone (try_sentinel s (call q) k) (answer Q) F W.
Proof. apply (alone_call_or q (Wrapv "%w: %v" s) k). Qed.

(** A query. *)
Lemma alone_read_or {A B} (q : port (result A)) (wrapped : error → error) (k : A → proc (result B)) Q F W :
  (∀ c, (exec c q W).2 = W) →
  (tot = true → inv W → unused F W → ∀ c, ch_fault c = NoFault → ∃ a, (exec c q W).1 = Ok a) →
  (∀ c F' a, inv W → unused F' W → (exec c q W).1 = Ok a → (∀ i, F' i → F i) →
     alone (k a) (answer Q) F' W) →
  alone (Call q (λ x, match x with Ok a => k a | Err e => Ret (Err (wrapped e)) end)) (answer Q) F W.
Proof.
  intros Rd T H. apply alone_call_or; [done|]. intros c F' W' a I U G E S X I'.
  pose proof (Rd c) as E2. rewrite E in E2. simpl in E2. subst W'.
  pose proof (unused_sub _ _ _ U S) as U'. split; [done|]. eapply H; try done. by rewrite E.
Qed.

Lemma alone_read {A B} ctx args (q : port (result A)) (k : A → proc (result B)) Q F W :
  (∀ c, (exec c q W).2 = W) →
  (tot = true → inv W → unused F W → ∀ c, ch_fault c = NoFault → ∃ a, (exec c q W).1 = Ok a) →
  (∀ c F' a, inv W → unused F' W → (exec c q W).1 = Ok a → (∀ i, F' i → F i) →
     alone (k a) (answer Q) F' W) →
  alone (tryf ctx args (call q) k) (answer Q) F W.
Proof. apply (alone_read_or q (Wrapf ctx args) k). Qed.

Lemma alone_read_sentinel {A B} s (q : port (result A)) (k : A → proc (result B)) Q F W :
  (∀ c, (exec c q W).2 = W) →
  (tot = true → inv W → unused F W → ∀ c, ch_fault c = NoFault → ∃ a, (exec c q W).1 = Ok a) →
  (∀ c F' a, inv W → unused F' W → (exec c q W).1 = Ok a → (∀ i, F' i → F i) →
     alone (k a) (answer Q) F' W) →
  alone (try_sentinel s (call q) k) (answer Q) F W.
Proof. apply (alone_read_or q (Wrapv "%w: %v" s) k). Qed.

(** A query whose error does not end the service. *)
Lemma alone_ask {X B} (q : port X) (f : X → proc B) Q F W :
  (∀ c, (exec c q W).2 = W) →
  (∀ c F', (∀ i, F' i → F i) → alone (f (exec c q W).1) Q F' W) → alone (call q ≫= f) Q F W.
Proof.
  intros Rd H I U c F' Al Sp X' I'. change (unused F' (exec c q W).2 ∧ alone (f (exec c q W).1) Q F' (exec c q W).2).
  rewrite Rd. assert (S : ∀ i, F' i → F i) by (intros i Hi; by apply Sp).
  split; [by eapply unused_sub|by apply H].
Qed.

(** An identifier just generated: no row has it, and it will not be generated again. *)
Definition new_id (F : string → Prop) (W : World) (i : string) : Prop :=
  (tot = true → fresh_id W i) ∧ ¬ F i.

Lemma alone_id {B} (f : string → proc B) Q F W :
  (∀ i F', (∀ j, F' j → F j) → new_id F' W i → alone (f i) Q F' W) → alone (call NewID ≫= f) Q F W.
Proof.
  intros H I U c F' [G Al] Sp X I'. simpl in *.
  assert (S : ∀ j, F' j → F j) by (intros j Hj; by apply Sp).
  split; [by eapply unused_sub|]. apply H; [done|]. split; [|by intros [_ ?]%Sp].
  intros E. destruct (Al E) as (_ & Fi & _). by apply U.
Qed.

Lemma alone_clock {B} (f : Timestamp → proc B) Q F W :
  (∀ t F', (∀ i, F' i → F i) → ts_Time t ≠ 0%Z → alone (f t) Q F' W) → alone (clock_Now ≫= f) Q F W.
Proof.
  intros H I U c F' [G Al] Sp X I'. simpl in *. unfold MustTimestamp, NewTimestamp, IsZero.
  assert (S : ∀ i, F' i → F i) by (intros i Hi; by apply Sp).
  split; [by eapply unused_sub|]. rewrite (proj2 (Z.eqb_neq _ _) G). by apply H.
Qed.

(** Calls that leave every table alone. *)
Record same_tables (W W' : World) : Prop := {
  st_core : same_core W W';
  st_audit : w_audit W' = w_audit W;
}.

#[export] Instance same_tables_preorder : PreOrder same_tables.
Proof. split; [by split|]. intros W1 W2 W3 [] []. split; [by etrans|congruence]. Qed.

Lemma fresh_same W W' i : same_tables W W' → fresh_id W i → fresh_id W' i.
Proof. intros [[] E]. unfold fresh_id. by rewrite E, sc_tasks, sc_routing, sc_policy, sc_workflows, sc_leases, sc_approvals. Qed.

Lemma unused_same F W W' : same_tables W W' → unused F W → unused F W'.
Proof. intros S U E i Hi. by eapply fresh_same, U. Qed.

Lemma new_id_same F F' W W' i :
  new_id F W i → (∀ j, F' j → F j) → same_tables W W' → new_id F' W' i.
Proof.
  intros [Fr N] S T. split; [|by intros ?%S]. intros E. by eapply fresh_same, Fr.
Qed.

(** What such a call answers when the mode allows it. *)
Definition tame_answer {X} (q : port X) : X → Prop :=
  match q in port X return X → Prop with
  | TimeNow => λ t, t ≠ 0%Z
  | GetRelevantContext _ _ => λ m, tot = true → tame m
  | _ => λ _, True
  end.

Fixpoint calm {A} (p : proc A) (Q : A → Prop) : Prop :=
  match p with
  | Ret a => Q a
  | Panic => False
  | Call q k => plain q = true ∧ ∀ x, tame_answer q x → calm (k x) Q
  end.

Lemma plain_same {X} (q : port X) F c W :
  plain q = true → allows F c → same_tables W (exec c q W).2 ∧ tame_answer q (exec c q W).1.
Proof.
  intros P [G Al]. split.
  - split; [by apply report_same_core; [unfold report; by rewrite P|]|].
    destruct q; try discriminate; try done. step_call. by destruct (Registry_Observe _ _ _ _ _ _).
  - destruct q; try done. intros E. by destruct (Al E) as (?&?&?).
Qed.

Lemma calm_bind {A B} (p : proc A) (f : A → proc B) P Q :
  calm p P → (∀ a, P a → calm (f a) Q) → calm (p ≫= f) Q.
Proof.
  intros Hp Hf. induction p as [a|X q k IH|]; [by apply Hf| |done].
  destruct Hp as [R Hk]. split; [done|]. intros x An. by apply IH, Hk.
Qed.

Lemma alone_calm {A} (p : proc A) Q F W : calm p Q → alone p (λ W' a, Q a ∧ same_tables W W') F W.
Proof.
  enough (H : ∀ W0, same_tables W0 W → calm p Q → alone p (λ W' a, Q a ∧ same_tables W0 W') F W)
    by (intros; by apply H).
  intros W0. revert F W. induction p as [a|X q k IH|]; intros F W S Hq I U; [done| |done].
  destruct Hq as [P Hk]. intros c F' Al Sp _ _. destruct (plain_same q F c W P Al) as [S' An]. split.
  - eapply unused_same; [exact S'|]. eapply unused_sub; [exact U|]. intros i Hi. by apply Sp.
  - apply IH; [by etrans|by apply Hk].
Qed.

Lemma alone_drop {A B} (p : proc A) (f : A → proc B) P Q F W :
  calm p P →
  (∀ F' W' a, (∀ i, F' i → F i) → same_tables W W' → inv W' → P a → alone (f a) Q F' W') →
  alone (p ≫= f) Q F W.
Proof.
  intros Hp Hf. eapply alone_bind; [by apply alone_calm|]. intros F' W' a S _ I [Pa E]. by apply Hf.
Qed.

(** * Writing *)

(** A row was added or replaced under an identifier that is no longer generated. *)
Lemma unused_put F F' W W' i :
  unused F W → ¬ F i → (∀ j, F' j → F j) →
  (∀ j, j ≠ i → fresh_id W j → fresh_id W' j) → unused F' W'.
Proof. intros U N S H E j Hj%S. apply H; [by intros ->|by apply U]. Qed.

Lemma fresh_put W W' i j :
  (w_tasks W' = w_tasks W ∨ ∃ r, w_tasks W' = <[i := r]> (w_tasks W)) →
  (w_routing W' = w_routing W ∨ ∃ r, w_routing W' = <[i := r]> (w_routing W)) →
  (w_policy W' = w_policy W ∨ ∃ r, w_policy W' = <[i := r]> (w_policy W)) →
  (w_workflows W' = w_workflows W ∨ ∃ r, w_workflows W' = <[i := r]> (w_workflows W)) →
  (w_leases W' = w_leases W ∨ ∃ r, w_leases W' = <[i := r]> (w_leases W)) →
  (w_approvals W' = w_approvals W ∨ ∃ r, w_approvals W' = <[i := r]> (w_approvals W)) →
  (w_audit W' = w_audit W ∨ ∃ r, ae_id r = i ∧ w_audit W' = w_audit W ++ [r]) →
  j ≠ i → fresh_id W j → fresh_id W' j.
Proof.
  intros H1 H2 H3 H4 H5 H6 H7 N (?&?&?&?&?&?&?&?).
  assert (L : ∀ R (m m' : gmap string R), m' = m ∨ (∃ r, m' = <[i := r]> m) → m !! j = None → m' !! j = None).
  { intros R m m' [->|[r ->]] E; [done|]. by rewrite lookup_insert_ne. }
  unfold fresh_id. split_and!; eauto.
  destruct H7 as [->|(r & Ei & ->)]; [done|]. apply Forall_app_2; [done|]. constructor; [congruence|constructor].
Qed.

Definition jsonable (m : gmap string any) : Prop := map_Forall (λ _ v, is_Some (json_value v)) m.

Lemma json_map_jsonable m : jsonable m → ∃ m', json_map m = Some m'.
Proof. unfold json_map. intros J. rewrite decide_True by done. eauto. Qed.

Lemma jsonable_empty : jsonable ∅.
Proof. apply map_Forall_empty. Qed.
Lemma jsonable_string m k s : jsonable m → jsonable (<[k := AString s]> m).
Proof. intros J. apply map_Forall_insert_2; [by eexists|done]. Qed.

Lemma jsonable_traced m span : jsonable m → jsonable (WithTraceInfo m span).
Proof. intros J. destruct span as [[x y]|]; [|done]. simpl. by do 2 apply jsonable_string. Qed.

Lemma auditToRow_Ok e : jsonable (aeContext e) → ∃ r, auditToRow e = Ok r ∧ ae_id r = aeID e.
Proof. intros J. destruct (json_map_jsonable _ J) as [m E]. unfold auditToRow. rewrite E. by eexists. Qed.

(** One audit entry, recorded without fail when its fields are fit. *)
Definition recordable (action outcome : string) (ctx : gmap string any) : Prop :=
  TrimSpace action ≠ "" ∧ TrimSpace outcome ≠ "" ∧ jsonable ctx.

Lemma alone_append e F W :
  new_id F W (aeID e) →
  alone (call (AuditAppend e))
    (λ W' x, same_core W W' ∧ (tot = true → jsonable (aeContext e) → x = Ok tt)) F W.
Proof.
  intros [Fr Nf] I U c F' [G Al] Sp X I'. revert X I'. step_call.
  assert (S' : ∀ j, F' j → F j) by (intros j Hj; by apply Sp).
  assert (U' : unused F' W) by (by eapply unused_sub).
  destruct (auditToRow e) as [r|er] eqn:Er.
  2: { intros _ _. split; [done|]. intros _ _. split; [done|]. intros _ J.
       destruct (auditToRow_Ok e J) as (r & Er' & _). congruence. }
  assert (Ei : ae_id r = aeID e) by (unfold auditToRow in Er; case_match; by simplify_eq).
  set (new := if forallb _ _ then Some _ else None).
  assert (Put : ∀ W', new = Some W' → same_core W W' ∧ unused F' W').
  { intros W' E. unfold new in E. case_match; [|done]. injection E as <-. split; [done|].
    apply (unused_put F F' W _ (aeID e)); [done..|].
    intros j. apply fresh_put; eauto. }
  assert (Ok_ : tot = true → new ≠ None).
  { intros E. destruct (Fr E) as (_&_&_&_&_&_&_&Fa). unfold new. rewrite (proj2 (forallb_forall _ _)); [done|].
    intros x Hx. apply bool_decide_eq_true. rewrite Ei. rewrite Forall_forall in Fa.
    apply Fa. by apply list_elem_of_In. }
  intros _ _. destruct new as [W'|] eqn:En; [|destruct (ch_fault c); simpl; (split; [done|]);
    intros _ _; (split; [done|]); intros E _; by destruct (Ok_ E)].
  destruct (Put W' eq_refl) as [Sc Uw].
  destruct (ch_fault c) eqn:Ef; simpl; (split; [done|]); intros _ _; (split; [done|]); try done;
    intros E _; destruct (Al E) as [NoF _]; congruence.
Qed.

Lemma alone_Record actor action outcome ctx tid wid F W :
  alone (Record_ actor action outcome ctx tid wid)
    (λ W' x, same_core W W' ∧ (tot = true → recordable action outcome ctx → x = Ok tt)) F W.
Proof.
  unfold Record_. eapply (alone_drop _ _ (λ _, True)); [by split|]. intros F1 W1 span _ S1 _ _.
  apply alone_id. intros id F2 _ N2. apply alone_clock. intros now F3 S3 _.
  destruct (NewAuditEntry id actor action outcome (WithTraceInfo ctx span) now) as [e|er] eqn:En.
  - apply NewAuditEntry_Ok in En as (_ & _ & ->). eapply alone_mono.
    { apply alone_append. eapply (new_id_same F2 F3 W1 W1 id) in N2; [|done..]. by destruct tid, wid. }
    intros W' x _ [Sc Hx]. split; [etrans; [apply (st_core _ _ S1)|done]|].
    intros E (_ & _ & J). apply (Hx E). destruct tid, wid; by apply jsonable_traced.
  - apply alone_ret. intros _. split; [apply (st_core _ _ S1)|]. intros _ (A1 & A2 & _).
    unfold NewAuditEntry in En. by rewrite !decide_False in En.
Qed.

Lemma alone_record {B} ctx args actor action outcome actx tid wid (k : unit → proc (result B)) Q F W :
  (tot = true → recordable action outcome actx) →
  (∀ F' W', (∀ i, F' i → F i) → same_core W W' → inv W' → alone (k tt) (answer Q) F' W') →
  alone (tryf ctx args (Record_ actor action outcome actx tid wid) k) (answer Q) F W.
Proof.
  intros Hr Hk. eapply alone_bind; [apply alone_Record|]. intros F' W' [[]|e] S _ I [Sc Hx]; [by apply Hk|].
  apply alone_ret. intros _. unfold answer. destruct tot; [|done]. by specialize (Hx eq_refl (Hr eq_refl)).
Qed.

Lemma alone_record_drop {B} actor action outcome actx tid wid (p : proc B) Q F W :
  (∀ F' W', (∀ i, F' i → F i) → same_core W W' → inv W' → alone p Q F' W') →
  alone (Record_ actor action outcome actx tid wid ≫= λ _, p) Q F W.
Proof. intros Hk. eapply alone_bind; [apply alone_Record|]. intros F' W' x S _ I [Sc _]. by apply Hk. Qed.

(** * Statements *)

Lemma db_write_Ok ctx f W r u W' : db_write ctx f W r = (Ok u, W') → f = NoFault ∧ r = Some W'.
Proof. destruct f, r; simpl; naive_solver. Qed.

Lemma insert_Ok {R} ctx f W (put : gmap string R → World) tbl i row ok u W' :
  db_write ctx f W (put <$> insert_row tbl i row ok) = (Ok u, W') →
  tbl !! i = None ∧ W' = put (<[i := row]> tbl).
Proof.
  intros [_ H]%db_write_Ok. apply fmap_Some in H as (t & H & ->).
  apply insert_row_Some in H as (N & _ & ->). by split.
Qed.

Lemma insert_done {R} ctx W (put : gmap string R → World) tbl i row ok :
  tbl !! i = None → ok = true →
  ∃ a, (db_write ctx NoFault W (put <$> insert_row tbl i row ok)).1 = Ok a.
Proof. intros N ->. unfold insert_row. rewrite N. by exists tt. Qed.

(** One row added under a new identifier. *)
Lemma alone_insert {B} ctx args (q : port (result unit)) i (added : World → Prop) (k : unit → proc (result B)) Q F W :
  new_id F W i →
  (tot = true → inv W → fresh_id W i → ∀ c, ch_fault c = NoFault → ∃ a, (exec c q W).1 = Ok a) →
  (∀ c W', inv W → good c → exec c q W = (Ok tt, W') → inv W' →
     added W' ∧ (∀ j, j ≠ i → fresh_id W j → fresh_id W' j)) →
  (∀ F' W', (∀ j, F' j → F j) → ext W W' → inv W' → added W' → alone (k tt) (answer Q) F' W') →
  alone (tryf ctx args (call q) k) (answer Q) F W.
Proof.
  intros [Fr N] T A K. apply alone_try.
  - intros E I U. by apply T; [|done|apply Fr].
  - intros c F' W' [] I U G E S X I'. destruct (A c W' I G E I') as [Ad Fp]. split; [|by apply K].
    by eapply unused_put.
Qed.

Ltac put i := intros j; apply (fresh_put _ _ i); simpl; eauto.

Lemma alone_TaskSave {B} ctx args t (k : unit → proc (result B)) Q F W :
  new_id F W (tkID t) →
  (tot = true → jsonable (tkMetadata t) ∧ has_opt (w_tasks W) (tkParentTaskID t) = true) →
  (∀ F' r, let W' := with_tasks W (<[tkID t := r]> (w_tasks W)) in
     (∀ j, F' j → F j) → inv W' → taskToRow t = Ok r → w_tasks W !! tkID t = None →
     alone (k tt) (answer Q) F' W') →
  alone (tryf ctx args (call (TaskSave t)) k) (answer Q) F W.
Proof.
  intros N T K. apply alone_insert with (i := tkID t) (added := λ W', ∃ r, taskToRow t = Ok r ∧
    w_tasks W !! tkID t = None ∧ W' = with_tasks W (<[tkID t := r]> (w_tasks W))); [done| | |].
  - intros E _ Fr c NF. destruct (T E) as [J P]. destruct (json_map_jsonable _ J) as [m Em].
    step_call. unfold taskToRow. rewrite Em, NF. apply insert_done; [apply Fr|done].
  - intros c W' _ _ E _. revert E. step_call. case_match eqn:Er; [|done]. intros [Nr ->]%insert_Ok.
    assert (Ei : tasks_id a = tkID t) by (unfold taskToRow in Er; case_match; by simplify_eq).
    rewrite Ei in *. split; [eauto|]. put (tkID t).
  - intros F' W' S _ I (r & Er & Nr & ->). by apply K.
Qed.

Lemma alone_RoutingSave {B} ctx args rd (k : unit → proc (result B)) Q F W :
  new_id F W (rdID rd) →
  (tot = true → (∃ r, routingToRow rd = Ok r) ∧ has (w_tasks W) (rdTaskID rd) = true) →
  (∀ F' r, let W' := with_routing W (<[rdID rd := r]> (w_routing W)) in
     (∀ j, F' j → F j) → inv W' → routingToRow rd = Ok r → rd_task_id r = rdTaskID rd →
     w_routing W !! rdID rd = None → alone (k tt) (answer Q) F' W') →
  alone (tryf ctx args (call (RoutingSave rd)) k) (answer Q) F W.
Proof.
  intros N T K.
  assert (Er : ∀ r, routingToRow rd = Ok r → rd_id r = rdID rd ∧ rd_task_id r = rdTaskID rd)
    by (intros r E; unfold routingToRow in E; case_match; by simplify_eq).
  apply alone_insert with (i := rdID rd) (added := λ W', ∃ r, routingToRow rd = Ok r ∧
    w_routing W !! rdID rd = None ∧ W' = with_routing W (<[rdID rd := r]> (w_routing W))); [done| | |].
  - intros E _ Fr c NF. destruct (T E) as [[r E'] P]. destruct (Er r E') as [Ei Et].
    step_call. rewrite E', NF, Ei, Et. apply insert_done; [apply Fr|done].
  - intros c W' _ _ E _. revert E. step_call. case_match eqn:E'; [|done]. intros [Nr ->]%insert_Ok.
    destruct (Er _ eq_refl) as [Ei Et]. rewrite Ei in *. split; [eauto|]. put (rdID rd).
  - intros F' W' S _ I (r & E' & Nr & ->). apply K; try done. by apply Er.
Qed.

Lemma alone_PolicySave {B} ctx args pd (k : unit → proc (result B)) Q F W :
  new_id F W (pdID pd) → (tot = true → has (w_tasks W) (pdTaskID pd) = true) →
  (∀ F', let W' := with_policy W (<[pdID pd := policyToRow pd]> (w_policy W)) in
     (∀ j, F' j → F j) → inv W' → w_policy W !! pdID pd = None → alone (k tt) (answer Q) F' W') →
  alone (tryf ctx args (call (PolicySave pd)) k) (answer Q) F W.
Proof.
  intros N T K. apply alone_insert with (i := pdID pd) (added := λ W', w_policy W !! pdID pd = None ∧
    W' = with_policy W (<[pdID pd := policyToRow pd]> (w_policy W))); [done| | |].
  - intros E _ Fr c NF. step_call. rewrite NF. apply insert_done; [apply Fr|by apply T].
  - intros c W' _ _ E _. revert E. step_call. intros [Nr ->]%insert_Ok. split; [done|]. put (pdID pd).
  - intros F' W' S _ I [Nr ->]. by apply K.
Qed.

Lemma alone_ApprovalSave {B} ctx args a (k : unit → proc (result B)) Q F W :
  new_id F W (apID a) →
  (tot = true → has (w_tasks W) (apTaskID a) = true ∧ has (w_workflows W) (apWorkflowRunID a) = true) →
  (∀ F', let W' := with_approvals W (<[apID a := approvalToRow a]> (w_approvals W)) in
     (∀ j, F' j → F j) → ext W W' → inv W' → w_approvals W !! apID a = None →
     alone (k tt) (answer Q) F' W') →
  alone (tryf ctx args (call (ApprovalSave a)) k) (answer Q) F W.
Proof.
  intros N T K. apply alone_insert with (i := apID a) (added := λ W', w_approvals W !! apID a = None ∧
    W' = with_approvals W (<[apID a := approvalToRow a]> (w_approvals W))); [done| | |].
  - intros E _ Fr c NF. step_call. rewrite NF. destruct (T E) as [T1 T2].
    apply insert_done; [apply Fr|]. simpl. by rewrite T1, T2.
  - intros c W' _ _ E _. revert E. step_call. intros [Nr ->]%insert_Ok. split; [done|]. put (apID a).
  - intros F' W' S X I [Nr ->]. by apply K.
Qed.

Lemma alone_LeaseSave {B} ctx args l (k : unit → proc (result B)) Q F W :
  new_id F W (elID l) → lease_fine l →
  (tot = true → has (w_workflows W) (elWorkflowRunID l) = true ∧
     ∀ id r, w_leases W !! id = Some r → lease_workflow_run_id r ≠ elWorkflowRunID l) →
  (∀ F' r, let W' := with_leases W (<[elID l := r]> (w_leases W)) in
     (∀ j, F' j → F j) → ext W W' → inv W' → w_leases W !! elID l = None →
     lease_workflow_run_id r = elWorkflowRunID l → elStatus (scanExecutionLease r) = elStatus l →
     elAttemptsUsed (scanExecutionLease r) = elAttemptsUsed l → lease_fine (scanExecutionLease r) →
     alone (k tt) (answer Q) F' W') →
  alone (tryf ctx args (call (LeaseSave l)) k) (answer Q) F W.
Proof.
  intros N Fi T K. pose proof (lease_fine_storable _ Fi) as S.
  destruct (leaseToRow_ok l S) as (r & Er & Cl & Ei & Ew & _).
  apply alone_insert with (i := elID l) (added := λ W', w_leases W !! elID l = None ∧
    W' = with_leases W (<[elID l := r]> (w_leases W))); [done| | |].
  - intros E _ Fr c NF. step_call. rewrite Er, NF, Ei, Ew. destruct (T E) as [T1 T2].
    apply insert_done; [apply Fr|]. rewrite T1. simpl. apply forallb_forall.
    intros x Hx%list_elem_of_In. apply list_elem_of_fmap in Hx as ([i x'] & -> & Hx).
    apply bool_decide_eq_true. by eapply T2, elem_of_map_to_list.
  - intros c W' _ _ E _. revert E. step_call. rewrite Er, Ei. intros [Nr ->]%insert_Ok.
    split; [done|]. put (elID l).
  - intros F' W' Sb X I [Nr ->]. pose proof (lease_fine_scan _ _ Fi Cl) as Fs.
    destruct (scan_lease _ _ S Cl) as [Es _]. apply K; try done; by rewrite Es.
Qed.

Lemma alone_WfSave {B} ctx args id tk now (k : unit → proc (result B)) Q F W :
  let w := NewWorkflowRun id tk now in
  new_id F W id → (tot = true → has (w_tasks W) tk = true) →
  (∀ F' r, let W' := with_workflows W (<[id := r]> (w_workflows W)) in
     (∀ j, F' j → F j) → inv W' → run_view W' w → w_workflows W !! id = None →
     alone (k tt) (answer Q) F' W') →
  alone (tryf ctx args (call (WfSave w)) k) (answer Q) F W.
Proof.
  intros w N T K. apply alone_insert with (i := id) (added := λ W', w_workflows W !! id = None ∧
    run_view W' w ∧ ∃ r, W' = with_workflows W (<[id := r]> (w_workflows W))); [done| | |].
  - intros E _ Fr c NF. step_call. simpl workflowToRow. rewrite NF. apply insert_done; [apply Fr|].
    simpl. by rewrite T.
  - intros c W' I G E I'.
    destruct (WfSave_ok w W ltac:(apply newRun_fine) W c ltac:(done) I G) as (_ & _ & V).
    rewrite E in V. simpl in V. revert E. step_call. simpl workflowToRow. intros [Nr ->]%insert_Ok.
    split; [eauto|]. put id.
  - intros F' W' S _ I (Nr & V & r & ->). by apply K.
Qed.

(** What the UPDATE of a run leaves. *)
Lemma alone_WfUpdate {B} ctx args w (k : unit → proc (result B)) Q F W :
  run_view W w →
  (∀ F' r w', let W' := with_workflows W (<[wfID w := r]> (w_workflows W)) in
     (∀ j, F' j → F j) → inv W' → scanWorkflowRun r = Ok w' → wfStatus w' = wfStatus w →
     wfTransitions w' = wfTransitions w → wfTaskID w' = wfTaskID w → alone (k tt) (answer Q) F' W') →
  alone (tryf ctx args (call (WfUpdate w)) k) (answer Q) F W.
Proof.
  intros V K. apply alone_try.
  - intros _ I _ c NF. destruct (exec_WfUpdate W c w I NF V) as (r & -> & _). eauto.
  - intros c F' W' [] I U G E S X I'.
    assert (NF : ch_fault c = NoFault).
    { revert E. step_call. case_match; (case_match; [|done]); by intros [? _]%db_write_Ok. }
    destruct (exec_WfUpdate W c w I NF V) as (r & E' & w' & Hs & Es & Et). rewrite E' in E.
    injection E as <-. destruct (id V) as [Fi (old & Ho & Eo)]. split.
    + intros Ht j Hj. pose proof (U Ht j (S j Hj)) as Fr. revert Fr. apply (fresh_put _ _ (wfID w)); eauto.
      intros ->. destruct (U Ht (wfID w) (S _ Hj)) as (_&_&_&_&N&_). congruence.
    + apply (K F' r w' S I' Hs Es Et). rewrite (proj2 (scan_fine _ _ Hs)), <- Eo.
      revert E'. step_call. rewrite Ho. unfold updateWorkflowRow. rewrite (rf_index _ _ Fi). simpl.
      rewrite (rf_routing _ _ Fi), (rf_policy _ _ Fi), NF. intros [= E'].
      assert (Er := lookup_insert_eq (w_workflows W) (wfID w) r). rewrite <- E', lookup_insert_eq in Er.
      by injection Er as <-.
Qed.

(** * Reports after the work *)

Lemma calm_call {X} (q : port X) : plain q = true → calm (call q) (λ _, True).
Proof. by split. Qed.

Lemma calm_then {A B} (p : proc A) (f : A → proc B) Q :
  calm p (λ _, True) → (∀ a, calm (f a) Q) → calm (p ≫= f) Q.
Proof. intros Hp Hf. eapply calm_bind; [exact Hp|]. auto. Qed.

Lemma calm_ms_since t : calm (ms_since t) (λ _, True).
Proof. unfold ms_since. apply calm_then; [by apply calm_call|]. done. Qed.

Lemma calm_emitTerminal `{Wiring} st d : calm (emitTerminal st d) (λ _, True).
Proof.
  unfold emitTerminal. destruct has_metrics; [|done].
  apply calm_then; [by apply calm_call|]. intros. by apply calm_call.
Qed.

Lemma calm_memory `{Wiring} id query :
  calm (if has_memory then call (GetRelevantContext id query) else Ret (Ok None)) (λ m, tot = true → tame m).
Proof. destruct has_memory; [by split|]. intros _. by exists None. Qed.
End success.
