(* ===== verification/PipelineEffects.v ===== *)
(** What the intake pipeline does: submit, route, policy check and start, composed.  Every lemma
    holds in the two modes of [Success]: on a database on which faults may hit any statement, for
    a run that succeeds; and without faults, where the run succeeds. *)

From stdpp Require Import options.
From S2P Require Import Prelude GoLib Shared Task Workflow Execution Approval Escalation Policy.
From S2P Require Import Routing RoutingSpec AuditLog Resilience Persistence Ports AuditService Intake.
From S2P Require Import RouteTask.
From S2P Require Import PolicyEval WorkflowService ApprovalService ProcessTask ProgramLogic PortSpecs.
From S2P Require Import TimeFormat Handlers Runs ServiceSpecs System ServiceEffects StartEffects Success.

Section pipeline.
Context {PG : Postgres} {Zn : Zone} {Ul : ULID} {Ch : Chi} (tot : bool).
#[local] Abbreviation alone := (Success.alone tot).
#[local] Abbreviation answer := (Success.answer tot).

(** * What the stages leave *)

(** Tasks may be added, as subtasks of [parent]; nothing else changes. *)
Record grown (parent : string) (W W' : World) : Prop := {
  gr_tasks : w_tasks W ⊆ w_tasks W';
  gr_new : ∀ id r, w_tasks W' !! id = Some r →
    w_tasks W !! id = Some r ∨ tasks_parent_task_id r = Some parent;
  gr_routing : w_routing W' = w_routing W;
  gr_policy : w_policy W' = w_policy W;
  gr_workflows : w_workflows W' = w_workflows W;
  gr_leases : w_leases W' = w_leases W;
  gr_approvals : w_approvals W' = w_approvals W;
}.

#[export] Instance grown_preorder parent : PreOrder (grown parent).
Proof.
  split; [intros W; split; auto|]. intros W1 W2 W3 [] []. split; [by etrans| |congruence..].
  intros id r [H|H]%gr_new1; [by apply gr_new0|by right].
Qed.

Lemma same_grown parent W W' : same_core W W' → grown parent W W'.
Proof. intros []. split; try done; rewrite sc_tasks; auto. Qed.

(** A task accepted for submission. *)
Record submitted (input : SubmitTaskInput) (W W' : World) (t : Task) : Prop := {
  su_task : ∃ now, NewTask (tkID t) None (inType input) (inTitle input) (inScope input)
    (inPriority input) (classifyRisk (inType input) (inScope input)) (inMetadata input) now = Ok t;
  su_row : ∃ r, taskToRow t = Ok r ∧ w_tasks W' = <[tkID t := r]> (w_tasks W);
  su_fresh : w_tasks W !! tkID t = None;
  su_tables : w_routing W' = w_routing W ∧ w_policy W' = w_policy W ∧
    w_workflows W' = w_workflows W ∧ w_leases W' = w_leases W ∧ w_approvals W' = w_approvals W;
}.

(** The run [w] of the task was created, and took the transitions to [path] so far. *)
Record new_run (W W' : World) (taskID wid : string) (w : WorkflowRun) (path : list WorkflowStatus)
    (st : WorkflowStatus) : Prop := {
  nr_fresh : w_workflows W !! wid = None;
  nr_others : delete wid (w_workflows W') = w_workflows W;
  nr_run : run_at W' wid w;
  nr_task : wfTaskID w = taskID;
  nr_path : trTo <$> wfTransitions w = path;
  nr_status : wfStatus w = st;
}.

(** A routing decision: that of the evaluator on the task as stored. *)
Record decided_route (W W' : World) (taskID : string) (t : Task) (rd : RoutingDecision) : Prop := {
  dr_decision : ∃ mem stats res,
    Evaluate {| eiTask := t; eiMemoryContext := mem; eiFailureStats := stats |} = Some res ∧
    rdSelectedStrategy rd = erSelectedStrategy res ∧ rdSelectedAgentRole rd = erSelectedRole res ∧
    rdTaskID rd = taskID;
  dr_row : ∃ r, routingToRow rd = Ok r ∧ w_routing W' = <[rdID rd := r]> (w_routing W);
  dr_fresh : w_routing W !! rdID rd = None;
}.

(** A policy decision: that of the evaluator on the task as stored. *)
Record decided_policy (W W' : World) (taskID action : string) (t : Task) (pd : PolicyDecision) : Prop := {
  dp_outcome : pdOutcome pd = Policy.erOutcome (Policy.EvaluatePolicy DefaultRules {| pxTask := t; pxAction := action |});
  dp_task : pdTaskID pd = taskID;
  dp_row : w_policy W' = <[pdID pd := policyToRow pd]> (w_policy W);
  dp_fresh : w_policy W !! pdID pd = None;
}.

(** * Submission *)

(** What an input must be for the submission to be accepted. *)
Definition submittable (input : SubmitTaskInput) : Prop :=
  TrimSpace (inTitle input) ≠ "" ∧ jsonable (inMetadata input).

Lemma NewTask_fields id parent ty title sc pr risk meta now t :
  NewTask id parent ty title sc pr risk meta now = Ok t →
  tkID t = id ∧ tkParentTaskID t = parent ∧ tkMetadata t = meta.
Proof. unfold NewTask. case_decide; [done|]. by intros [= <-]. Qed.

Lemma NewTask_accepts id parent ty title sc pr risk meta now :
  TrimSpace title ≠ "" → ∃ t, NewTask id parent ty title sc pr risk meta now = Ok t.
Proof. intros B. unfold NewTask. rewrite decide_False by done. eauto. Qed.

Lemma taskToRow_fields t r :
  taskToRow t = Ok r → tasks_id r = tkID t ∧ tasks_parent_task_id r = tkParentTaskID t.
Proof. unfold taskToRow. case_match; [|done]. by intros [= <-]. Qed.

Lemma SubmitTask_does `{Wiring} input F W :
  (tot = true → submittable input) →
  alone (SubmitTask input)
    (answer (λ W' t, submitted input W W' t ∧ (tot = true → tkID t ≠ ""))) F W.
Proof.
  intros T. unfold SubmitTask. apply alone_id. intros id F1 _ N1. apply alone_clock. intros now F2 S2 _.
  eapply alone_drop; [apply calm_memory|]. intros F3 W3 _ S3 St _ _.
  apply alone_pure; [intros E; by apply NewTask_accepts, T|]. intros t Et.
  destruct (NewTask_fields _ _ _ _ _ _ _ _ _ _ Et) as (<- & Ep & Em).
  assert (N3 : new_id tot F3 W3 (tkID t)) by (eapply new_id_same; [exact N1|intros j Hj; by apply S2, S3|done]).
  apply alone_TaskSave; [exact N3| |].
  { intros E. rewrite Ep, Em. split; [by apply T|done]. }
  intros F4 r W4 S4 I4 Er Nr. apply alone_record.
  { intros _. split_and!; [vm_compute; discriminate..|apply jsonable_empty]. }
  intros F5 W5 S5 Sc _. apply alone_ret. intros _. unfold Success.answer.
  destruct St as [[] _], Sc. simpl in *. split.
  - split; [by exists now| |congruence|split_and!; congruence]. exists r. split; [done|congruence].
  - intros E. apply (proj1 N3 E).
Qed.

(** * Subtasks *)

Lemma createSubtask_grown parent now suffix F W :
  (tot = true → TrimSpace suffix ≠ "" ∧ has (w_tasks W) (tkID parent) = true) →
  alone (createSubtask parent now suffix) (answer (λ W' _, grown (tkID parent) W W')) F W.
Proof.
  intros T. unfold createSubtask. apply alone_id. intros id F1 _ N1. apply alone_pure.
  { intros _. apply NewTask_accepts. by apply (TrimSpace_visible "["%char). }
  intros sub Es. destruct (NewTask_fields _ _ _ _ _ _ _ _ _ _ Es) as (<- & Ep & Em).
  apply alone_TaskSave; [exact N1| |].
  { intros E. rewrite Ep, Em. split; [apply jsonable_empty|]. simpl. by apply T. }
  intros F2 r W2 _ _ Er Nr. apply alone_record.
  { intros E. split_and!; [vm_compute; discriminate|by apply T|apply jsonable_string, jsonable_empty]. }
  intros F3 W3 _ Sc _. apply alone_ret. intros _. simpl. etrans; [|by apply same_grown].
  split; try done; simpl.
  - by apply insert_subseteq.
  - intros i x. rewrite lookup_insert_Some. intros [[_ <-]|[_ ?]]; [right|by left].
    destruct (taskToRow_fields _ _ Er) as [_ ->]. exact Ep.
Qed.

Lemma createSubtasks_grown parent now suffixes F W :
  (tot = true → Forall (λ x, TrimSpace x ≠ "") suffixes ∧ has (w_tasks W) (tkID parent) = true) →
  alone (createSubtasks parent now suffixes) (answer (λ W' _, grown (tkID parent) W W')) F W.
Proof.
  revert F W. induction suffixes as [|s suffixes IH]; intros F W T; [intros _ _; simpl; reflexivity|].
  cbn [createSubtasks]. eapply alone_bind.
  { apply createSubtask_grown. intros E. destruct (T E) as [Fa P]. split; [by inversion Fa|done]. }
  intros F1 W1 [[]|e] _ _ I G; [|by apply alone_ret]. eapply alone_mono.
  - apply IH. intros E. destruct (T E) as [Fa P]. split; [by inversion Fa|].
    eapply has_ext; [apply G|exact P].
  - intros W2 [[]|e] _ G'; [|done]. simpl in *. by etrans.
Qed.

(** * The run of the task *)

Lemma new_run_core W W' W2 tk wid w path st :
  w_workflows W2 = w_workflows W' → new_run W W' tk wid w path st → new_run W W2 tk wid w path st.
Proof.
  intros E []. split; try done; [congruence|]. destruct nr_run0 as (r & ? & ?). exists r. by rewrite E.
Qed.

Lemma new_run_id W W' tk wid w path st :
  inv W' → new_run W W' tk wid w path st → run_view W' w ∧ wfID w = wid.
Proof. intros I []. by apply run_at_view. Qed.

(** The run of a task that had none is found by its task. *)
Lemma new_run_found W W' tk wid w path st c :
  (∀ id r, w_workflows W !! id = Some r → wf_task_id r ≠ tk) → new_run W W' tk wid w path st →
  query_row (λ r, bool_decide (wf_task_id r = tk)) scanWorkflowRun "workflow run not found"
    (ch_pick c) (w_workflows W') = Ok w.
Proof.
  intros N []. destruct nr_run0 as (r0 & H0 & Hs0).
  rewrite (query_row_unique _ _ _ _ _ wid r0); [done|done| |].
  - apply bool_decide_eq_true. rewrite <- (proj2 (scan_fine _ _ Hs0)). done.
  - intros i r Hi P%bool_decide_eq_true. destruct (decide (i = wid)) as [->|Ne]; [done|].
    exfalso. apply (N i r); [|done]. by rewrite <- nr_others0, lookup_delete_ne.
Qed.

Lemma alone_find_run {B} W W' tk wid w path st ctx args (k : WorkflowRun → proc (result B)) Q F :
  (∀ id r, w_workflows W !! id = Some r → wf_task_id r ≠ tk) → new_run W W' tk wid w path st →
  (∀ F', (∀ i, F' i → F i) → alone (k w) (answer Q) F' W') →
  alone (tryf ctx args (call (WfFindByTaskID tk)) k) (answer Q) F W'.
Proof.
  intros N Nr K. apply alone_read; [done| |].
  - intros _ _ _ c NF. step_call; cbn [fst]. rewrite NF, (new_run_found _ _ _ _ _ _ _ c N Nr). by exists w.
  - intros c F' a _ _ E S. step_call in E; cbn [fst] in E. apply db_read_Ok in E.
    rewrite (new_run_found _ _ _ _ _ _ _ c N Nr) in E. injection E as <-. by apply K.
Qed.

Lemma alone_find_run_sentinel {B} W W' tk wid w path st s (k : WorkflowRun → proc (result B)) Q F :
  (∀ id r, w_workflows W !! id = Some r → wf_task_id r ≠ tk) → new_run W W' tk wid w path st →
  (∀ F', (∀ i, F' i → F i) → alone (k w) (answer Q) F' W') →
  alone (try_sentinel s (call (WfFindByTaskID tk)) k) (answer Q) F W'.
Proof.
  intros N Nr K. apply alone_read_sentinel; [done| |].
  - intros _ _ _ c NF. step_call; cbn [fst]. rewrite NF, (new_run_found _ _ _ _ _ _ _ c N Nr). by exists w.
  - intros c F' a _ _ E S. step_call in E; cbn [fst] in E. apply db_read_Ok in E.
    rewrite (new_run_found _ _ _ _ _ _ _ c N Nr) in E. injection E as <-. by apply K.
Qed.

(** The run, written back. *)
Lemma alone_run_update {B} W W1 tk wid w1 path st1 ctx args (k : unit → proc (result B)) Q F :
  w_workflows W !! wid = None → delete wid (w_workflows W1) = w_workflows W →
  run_view W1 w1 → wfID w1 = wid → wfTaskID w1 = tk → wfStatus w1 = st1 →
  trTo <$> wfTransitions w1 = path →
  (∀ F' w2 r, (∀ i, F' i → F i) →
     let W2 := with_workflows W1 (<[wid := r]> (w_workflows W1)) in
     new_run W W2 tk wid w2 path st1 → alone (k tt) (answer Q) F' W2) →
  alone (tryf ctx args (call (WfUpdate w1)) k) (answer Q) F W1.
Proof.
  intros Fr Ot V <- Htk Hst Hp K. apply alone_WfUpdate; [done|].
  intros F' r w2 W2 S I Hs Es Et Ek. apply (K F' w2 r S). split; try congruence.
  - simpl. by rewrite delete_insert_eq.
  - exists r. split; [apply lookup_insert_eq|done].
Qed.

Lemma transition_path w target reason actor now w' :
  transitionTo w target reason actor now = Ok w' →
  wfStatus w' = target ∧ trTo <$> wfTransitions w' = (trTo <$> wfTransitions w) ++ [target].
Proof. intros (_ & _ & ->)%transitionTo_Ok. split; [done|]. simpl. by rewrite fmap_app. Qed.

Lemma MarkRouted_path w rdID reason actor now w' :
  MarkRouted w rdID reason actor now = Ok w' → wfStatus w' = Workflow.StatusRouted ∧
  trTo <$> wfTransitions w' = (trTo <$> wfTransitions w) ++ [Workflow.StatusRouted].
Proof.
  unfold MarkRouted. intros Hm. apply result_bind_Ok in Hm as (w0 & H0 & [= <-]).
  by apply transition_path in H0.
Qed.

Lemma MarkPolicyChecked_path w pdID actor now w' :
  MarkPolicyChecked w pdID actor now = Ok w' → wfStatus w' = StatusPolicyChecked ∧
  trTo <$> wfTransitions w' = (trTo <$> wfTransitions w) ++ [StatusPolicyChecked].
Proof.
  unfold MarkPolicyChecked. intros Hm. apply result_bind_Ok in Hm as (w0 & H0 & [= <-]).
  by apply transition_path in H0.
Qed.

(** * Routing *)

Record routed_as (W W' : World) (taskID : string) (t : Task) (rd : RoutingDecision) : Prop := {
  ra_decision : decided_route W W' taskID t rd;
  ra_tasks : w_tasks W ⊆ w_tasks W';
  ra_new : ∀ id r, w_tasks W' !! id = Some r →
    w_tasks W !! id = Some r ∨ tasks_parent_task_id r = Some taskID;
  ra_run : ∃ wid w, new_run W W' taskID wid w [Workflow.StatusRouted] Workflow.StatusRouted;
  ra_tables : w_policy W' = w_policy W ∧ w_leases W' = w_leases W ∧ w_approvals W' = w_approvals W;
}.

Lemma routed_as_grown W W' W2 tk t rd :
  routed_as W W' tk t rd → grown tk W' W2 → routed_as W W2 tk t rd.
Proof.
  intros [[] ???(?&?&?)] []. split; [|by etrans| | |split_and!; congruence].
  - split; [done| |done]. by rewrite gr_routing0.
  - intros id r [Hi|Hi]%gr_new0; [by apply ra_new0|by right].
  - destruct ra_run0 as (wid & w & ?). exists wid, w. by eapply new_run_core.
Qed.

(** A task without a run gets one. *)
Lemma loadOrCreateRun_does tk now F W :
  (tot = true → has (w_tasks W) tk = true) →
  (∀ id r, w_workflows W !! id = Some r → wf_task_id r ≠ tk) →
  alone (loadOrCreateRun tk now)
    (answer (λ W' w, (∃ r, W' = with_workflows W (<[wfID w := r]> (w_workflows W))) ∧
       w_workflows W !! wfID w = None ∧ run_view W' w ∧ wfTaskID w = tk ∧ wfTransitions w = [] ∧
       wfStatus w = Workflow.StatusCreated)) F W.
Proof.
  intros T N. unfold loadOrCreateRun. apply alone_ask; [done|]. intros c F1 _. step_call; cbn [fst].
  destruct (db_read _ _ _) as [w|e] eqn:E.
  { exfalso. apply db_read_Ok, query_row_ok in E as (i & r & Hi & P%bool_decide_eq_true & _).
    by apply (N i r). }
  apply alone_id. intros wid F2 _ N2. apply alone_WfSave; [exact N2|exact T|].
  intros F3 r W3 _ I V Nw. apply alone_ret. intros _. split_and!; try done. by exists r.
Qed.

Lemma alone_find_task {B} W tk r ctx args (k : Task → proc (result B)) Q F :
  w_tasks W !! tk = Some r → (∀ F', (∀ i, F' i → F i) → alone (k (scanTask r)) (answer Q) F' W) →
  alone (tryf ctx args (call (TaskFindByID tk)) k) (answer Q) F W.
Proof.
  intros Ht K. apply alone_read; [done| |].
  - intros _ _ _ c NF. step_call; cbn [fst]. rewrite NF, Ht. by exists (scanTask r).
  - intros c F' a _ _ E S. step_call in E; cbn [fst] in E. apply db_read_Ok in E. rewrite Ht in E.
    injection E as <-. by apply K.
Qed.

(** A decision of the evaluator on a task of the domain, without statistics, can be stored. *)
Lemma routing_storable t k res rd :
  task_known t = true →
  Evaluate {| eiTask := t; eiMemoryContext := memory_of k; eiFailureStats := None |} = Some res →
  rdEvaluatedStrategies rd = erEvaluations res → ∃ r, routingToRow rd = Ok r.
Proof.
  intros K E Hr. unfold routingToRow. rewrite (proj2 (forallb_forall _ _)); [eauto|].
  intros e He%list_elem_of_In. rewrite Hr in He. unfold task_known in K. boolify.
  destruct (Evaluate_finite t k res e) as (F1 & F2 & F3 & F4); try done.
  apply forallb_forall. intros x Hx%list_elem_of_In. unfold evaluation_floats in Hx. rewrite F3, app_nil_r in Hx.
  rewrite !elem_of_cons in Hx. destruct Hx as [->|[->|Hx]]; [done..|]. by apply F4.
Qed.

Lemma NewRoutingDecision_fields id tk evals st role reason cs now rd :
  NewRoutingDecision id tk evals st role reason cs now = Ok rd →
  rdTaskID rd = tk ∧ rdID rd = id ∧ rdSelectedStrategy rd = st ∧ rdSelectedAgentRole rd = role ∧
  rdEvaluatedStrategies rd = evals.
Proof. unfold NewRoutingDecision. intros Hn. by split_guards. Qed.

Lemma NewRoutingDecision_Ok id tk input res now :
  tk ≠ "" → Evaluate input = Some res →
  ∃ rd, NewRoutingDecision id tk (erEvaluations res) (erSelectedStrategy res) (erSelectedRole res)
          (erReason res) [] now = Ok rd.
Proof.
  intros N E. destruct (Evaluate_shape input) as (r & E' & He & Hr & _).
  assert (r = res) as -> by congruence. unfold NewRoutingDecision.
  rewrite !decide_False; [eauto|done| |done]. by destruct (erEvaluations res).
Qed.

Lemma strategy_visible (s : RoutingStrategy) : known s = true → TrimSpace (to_string s) ≠ "".
Proof. destruct s; try done; intros _; vm_compute; discriminate. Qed.

Lemma MarkRouted_Ok w rid reason actor now :
  wfStatus w = Workflow.StatusCreated → ∃ w', MarkRouted w rid reason actor now = Ok w'.
Proof. intros E. unfold MarkRouted, transitionTo. rewrite E. eexists. reflexivity. Qed.

Lemma MarkPolicyChecked_Ok w pid actor now :
  wfStatus w = Workflow.StatusRouted → ∃ w', MarkPolicyChecked w pid actor now = Ok w'.
Proof. intros E. unfold MarkPolicyChecked, transitionTo. rewrite E. eexists. reflexivity. Qed.

Lemma RouteTask_does `{Wiring} tk r F W :
  w_tasks W !! tk = Some r → tasks_id r = tk →
  (∀ id r, w_workflows W !! id = Some r → wf_task_id r ≠ tk) →
  (tot = true → has_stats = false ∧ tk ≠ "" ∧ task_known (scanTask r) = true) →
  alone (RouteTask tk) (answer (λ W', routed_as W W' tk (scanTask r))) F W.
Proof.
  intros Ht Eid N T. unfold RouteTask. apply (alone_find_task _ _ r); [done|]. intros F0 _.
  eapply (alone_drop _ _ _ (λ m, tot = true → ∃ k, m = memory_of k)).
  { destruct has_memory; [|intros _; by exists None]. split; [done|]. intros [m|e] Hm; [exact Hm|].
    intros _. by exists None. }
  intros F1 W1 mem _ S1 _ Hmem. eapply (alone_drop _ _ _ (λ st, tot = true → st = None)).
  { destruct has_stats eqn:Hs; [|done]. split; [done|]. intros x _ E. destruct (T E) as [? _]. congruence. }
  intros F2 W2 stats _ S2 _ Hst.
  destruct (Evaluate _) as [res|] eqn:Ev; [|by destruct (Evaluate_shape {| eiTask := scanTask r;
    eiMemoryContext := mem; eiFailureStats := stats |}) as (? & ? & _); congruence].
  apply alone_clock. intros now F3 _ Hz. apply alone_id. intros rid F4 _ N4.
  apply alone_pure; [intros E; eapply NewRoutingDecision_Ok; [apply (T E)|exact Ev]|]. intros rd Hrd.
  destruct (NewRoutingDecision_fields _ _ _ _ _ _ _ _ _ Hrd) as (Dt & <- & Ds & Da & De).
  destruct S1 as [[] _], S2 as [[] _]. apply alone_RoutingSave; [exact N4| |].
  { intros E. destruct (T E) as (_ & _ & K). destruct (Hmem E) as [k ->]. rewrite (Hst E) in Ev. split.
    - by eapply routing_storable.
    - apply bool_decide_eq_true. exists r. congruence. }
  intros F5 row W3 _ I3 Er Et Nr. eapply alone_bind.
  { apply (loadOrCreateRun_does tk now F5 W3).
    - intros _. apply bool_decide_eq_true. exists r. simpl. congruence.
    - intros id x. simpl. rewrite sc_workflows0, sc_workflows. apply N. }
  intros F6 W4 [w|e] _ _ I4 Hw; [|by apply alone_ret].
  destruct Hw as ([row4 ->] & Nw & V & Hk & Hp & Hs).
  apply alone_pure; [intros _; by apply MarkRouted_Ok|]. intros w1 Hm.
  pose proof (MarkRouted_path _ _ _ _ _ _ Hm) as [St Pa]. rewrite Hp in Pa. set (W4 := with_workflows _ _) in *.
  assert (Rt : w_routing W4 !! rdID rd = Some row) by apply lookup_insert_eq.
  destruct (MarkRouted_view W4 w (rdID rd) (erReason res) systemActor now w1 V) as (V1 & Hid & Hk1); try done.
  { exists (rdID rd), row. split; [exact Rt|congruence]. }
  { apply bool_decide_eq_true. by exists row. }
  eapply (alone_run_update W W4 tk (wfID w)); [simpl in Nw; congruence| |exact V1|exact Hid|congruence|exact St|exact Pa|].
  { simpl. rewrite delete_insert_id by done. congruence. }
  intros F7 w2 row5 _ W5 Nr5.
  assert (R5 : routed_as W W5 tk (scanTask r) rd).
  { split; simpl.
    - split; [by exists mem, stats, res| |congruence]. exists row. split; [done|]. simpl. congruence.
    - by rewrite sc_tasks0, sc_tasks.
    - rewrite sc_tasks0, sc_tasks. auto.
    - by exists (wfID w), w2.
    - split_and!; congruence. }
  apply alone_record.
  { intros _. split_and!; [vm_compute; discriminate|by eapply strategy_visible, Evaluate_known|].
    do 2 apply jsonable_string. apply jsonable_empty. }
  intros F8 W6 _ S6%(same_grown tk) _. pose proof (routed_as_grown _ _ _ _ _ _ R5 S6) as R6.
  case_decide; [|by apply alone_ret]. eapply alone_tryf.
  { unfold createDecomposeSubtasks. destruct (subtaskSuffixes _) as [x y] eqn:Sx. apply createSubtasks_grown.
    intros _. split.
    - unfold subtaskSuffixes in Sx. case_match; injection Sx as <- <-; repeat constructor; vm_compute; discriminate.
    - apply bool_decide_eq_true. exists r. simpl. rewrite Eid. eapply lookup_weaken; [exact Ht|apply R6]. }
  intros F9 W7 [] _ _ _ G7. apply alone_ret. intros _. simpl in *. rewrite Eid in G7.
  by eapply routed_as_grown.
Qed.
(** * Policy *)

Record checked_as (W0 W W' : World) (taskID wid action : string) (t : Task) (pd : PolicyDecision) : Prop := {
  ca_decision : decided_policy W W' taskID action t pd;
  ca_run : ∃ w, new_run W0 W' taskID wid w [Workflow.StatusRouted; StatusPolicyChecked] StatusPolicyChecked;
  ca_tables : w_tasks W' = w_tasks W ∧ w_routing W' = w_routing W ∧ w_leases W' = w_leases W ∧
    w_approvals W' = w_approvals W;
}.

Lemma checked_as_core W0 W W' W2 tk wid action t pd :
  checked_as W0 W W' tk wid action t pd → same_core W' W2 → checked_as W0 W W2 tk wid action t pd.
Proof.
  intros [[] (w & R) (?&?&?&?)] []. split; [|exists w; by eapply new_run_core|split_and!; congruence].
  split; [done..| |done]. congruence.
Qed.

Lemma NewPolicyDecision_fields id tk action oc cs ar rs reason now pd :
  NewPolicyDecision id tk action oc cs ar rs reason now = Ok pd →
  pdTaskID pd = tk ∧ pdID pd = id ∧ pdOutcome pd = oc ∧ pdReason pd = reason.
Proof. unfold NewPolicyDecision. intros Hn. by split_guards. Qed.

Lemma NewPolicyDecision_Ok id tk t action now :
  let r := Policy.EvaluatePolicy DefaultRules {| pxTask := t; pxAction := action |} in
  action ≠ "" → ∃ pd, NewPolicyDecision id tk action (Policy.erOutcome r) (Policy.erConstraints r)
    (Policy.erApprovalRequirement r) (Policy.erRulesEvaluated r) (Policy.erReason r) now = Ok pd.
Proof.
  intros r Ha. destruct (default_policy_decision_valid id tk {| pxTask := t; pxAction := action |} now Ha)
    as (pd & E & _). by exists pd.
Qed.

Lemma outcome_visible o : is_outcome o = true → TrimSpace (Outcome_String o) ≠ "".
Proof.
  intros O%outcome_any. unfold any_outcome in O.
  repeat (apply elem_of_cons in O as [->|O]; [vm_compute; discriminate|]). by apply elem_of_nil in O.
Qed.

Lemma EvaluatePolicy_does tk r action F W0 W wid w :
  w_tasks W !! tk = Some r → (∀ id r, w_workflows W0 !! id = Some r → wf_task_id r ≠ tk) →
  new_run W0 W tk wid w [Workflow.StatusRouted] Workflow.StatusRouted →
  (tot = true → action ≠ "" ∧ routed W tk) →
  alone (PolicyEval.EvaluatePolicy tk action)
    (answer (λ W' pd, checked_as W0 W W' tk wid action (scanTask r) pd ∧
       TrimSpace (pdReason pd) ≠ "")) F W.
Proof.
  intros Ht N Nr T. unfold PolicyEval.EvaluatePolicy. apply (alone_find_task _ _ r); [done|]. intros F0 _.
  apply alone_read; [done| |].
  { intros E _ _ c NF. destruct (routing_found W c tk NF (proj2 (T E))) as [x ->]. by exists x. }
  intros c1 F1 rd _ _ _ _. apply alone_clock. intros now F2 _ Hz. apply alone_id. intros pid F3 _ N3.
  apply alone_pure; [intros E; apply NewPolicyDecision_Ok, (T E)|]. intros pd Hpd.
  apply NewPolicyDecision_fields in Hpd as (Dt & <- & Do & Dr).
  apply alone_PolicySave; [exact N3| |].
  { intros _. apply bool_decide_eq_true. exists r. congruence. }
  intros F4 W2 _ I2 Np.
  assert (Nr2 : new_run W0 W2 tk wid w [Workflow.StatusRouted] Workflow.StatusRouted)
    by (by eapply new_run_core; [|exact Nr]).
  eapply alone_find_run; [exact N|exact Nr2|]. intros F5 _.
  destruct (new_run_id _ _ _ _ _ _ _ I2 Nr2) as [V Hid]. destruct Nr2.
  apply alone_pure; [intros _; by apply MarkPolicyChecked_Ok|]. intros w1 Hm.
  pose proof (MarkPolicyChecked_path _ _ _ _ _ Hm) as [St Pa].
  assert (Hrow : w_policy W2 !! pdID pd = Some (policyToRow pd)) by apply lookup_insert_eq.
  destruct (MarkPolicyChecked_view W2 w (pdID pd) systemActor now w1 V) as (V1 & Hid1 & Hk1); try done.
  { exists (pdID pd), (policyToRow pd). split_and!; [done|simpl; congruence|].
    apply outcome_any, (proj1 (inv_policy _ I2 _ _ Hrow)). }
  { apply bool_decide_eq_true. by exists (policyToRow pd). }
  eapply (alone_run_update W0 W2 tk wid w1 [Workflow.StatusRouted; StatusPolicyChecked]);
    [exact nr_fresh0|exact nr_others0|exact V1|congruence|congruence|exact St|by rewrite Pa, nr_path0|].
  intros F6 w2 row _ W4 Nr4. apply alone_record.
  { intros _. split_and!; [vm_compute; discriminate|apply outcome_visible, default_outcome|].
    do 2 apply jsonable_string. apply jsonable_empty. }
  intros F7 W6 _ S6 _. apply alone_ret. intros _. split.
  - eapply checked_as_core; [|exact S6]. split; [by split|by exists w2|done].
  - rewrite Dr. apply DefaultRules_result.
Qed.

(** * Start *)

Definition started_path (st : WorkflowStatus) : list WorkflowStatus :=
  [Workflow.StatusRouted; StatusPolicyChecked; st].

(** What a start that leads to [st] does beside moving the run: a lease, an approval request. *)
Record start_side (W W' : World) (taskID wid : string) (st : WorkflowStatus) : Prop := {
  ss_lease : if decide (st = StatusRunning)
    then ∃ lid r, w_leases W !! lid = None ∧ w_leases W' = <[lid := r]> (w_leases W) ∧
           lease_workflow_run_id r = wid ∧ elStatus (scanExecutionLease r) = LeaseStatusActive ∧
           elAttemptsUsed (scanExecutionLease r) = 0%Z ∧ lease_fine (scanExecutionLease r)
    else w_leases W' = w_leases W;
  ss_approval : if decide (st = Workflow.StatusAwaitingApproval)
    then ∃ aid r, w_approvals W !! aid = None ∧ w_approvals W' = <[aid := r]> (w_approvals W) ∧
           ar_workflow_run_id r = wid ∧ ar_task_id r = taskID ∧ ar_status r = "pending"
    else w_approvals W' = w_approvals W;
}.

Record launched (W0 W W' : World) (taskID wid : string) (st : WorkflowStatus) (w : WorkflowRun) : Prop := {
  la_status : wfStatus w = st ∧ wfID w = wid;
  la_run : ∃ w', new_run W0 W' taskID wid w' (started_path st) st;
  la_side : start_side W W' taskID wid st;
  la_tables : w_tasks W' = w_tasks W ∧ w_routing W' = w_routing W ∧ w_policy W' = w_policy W;
}.

Lemma start_side_same W W' W2 tk wid st :
  start_side W W' tk wid st → w_leases W2 = w_leases W' → w_approvals W2 = w_approvals W' →
  start_side W W2 tk wid st.
Proof. intros [L A] E1 E2. split; [by rewrite E1|by rewrite E2]. Qed.

(** The run takes its transition to [st], is written back and reported. *)
Lemma alone_launch W0 W W1 tk wid w w0 st ctx F (report : proc (result WorkflowRun)) :
  new_run W0 W tk wid w [Workflow.StatusRouted; StatusPolicyChecked] StatusPolicyChecked →
  wfStatus w0 = st → wfID w0 = wid → wfTaskID w0 = tk → trTo <$> wfTransitions w0 = started_path st →
  run_view W1 w0 → w_workflows W1 = w_workflows W → start_side W W1 tk wid st →
  w_tasks W1 = w_tasks W ∧ w_routing W1 = w_routing W ∧ w_policy W1 = w_policy W →
  (∀ F' W', alone report (λ W'' x, x = Ok w0 ∧ same_core W' W'') F' W') →
  alone (try ctx (call (WfUpdate w0)) (λ _, report)) (answer (λ W', launched W0 W W' tk wid st)) F W1.
Proof.
  intros [] St Hid Hk Pa V Ew Sd (Et & Er & Ep) Rp.
  apply (alone_run_update W0 W1 tk wid w0 (started_path st) st); [done|congruence|done..|].
  intros F' w2 row _ W2 Nr. eapply alone_mono; [apply Rp|]. intros W3 x _ [-> S3]. simpl. split; [done| | |].
  - exists w2. by eapply new_run_core; [apply (sc_workflows _ _ S3)|].
  - destruct S3. eapply start_side_same; [exact Sd|done..].
  - destruct S3. simpl in *. split_and!; congruence.
Qed.

(** The reports: an audit entry, a notification, the metrics of an end. *)
Lemma report_calm {B} (x : B) p F W W0 : same_core W0 W → calm tot p (λ y, y = x) →
  alone p (λ W' y, y = x ∧ same_core W0 W') F W.
Proof.
  intros S C. eapply alone_mono; [by apply alone_calm|]. intros W' y _ [-> [S' _]].
  split; [done|by etrans].
Qed.

Lemma alone_denied_report `{Wiring} tk w w0 F W :
  alone (_ ← Record_ systemActor "workflow_started" "denied" NewAuditContext (Some tk) (Some (wfID w));
         _ ← call (Notify (OnWorkflowTerminated w0 "policy denied"));
         durationMs ← ms_since (wfCreatedAt w0);
         _ ← emitTerminal "failed" durationMs;
         Ret (Ok w0)) (λ W' x, x = Ok w0 ∧ same_core W W') F W.
Proof.
  apply alone_record_drop. intros F1 W1 _ S1 _. apply report_calm; [done|].
  apply calm_then; [by apply calm_call|]. intros _. apply calm_then; [apply calm_ms_since|]. intros d.
  by apply calm_then; [apply calm_emitTerminal|].
Qed.

Lemma alone_started_report tk w n (w0 : WorkflowRun) outcome F W :
  alone (_ ← Record_ systemActor "workflow_started" outcome NewAuditContext (Some tk) (Some (wfID w));
         _ ← call (Notify n); Ret (Ok w0)) (λ W' x, x = Ok w0 ∧ same_core W W') F W.
Proof.
  apply alone_record_drop. intros F1 W1 _ S1 _. apply report_calm; [done|].
  by apply calm_then; [apply calm_call|].
Qed.

Lemma launch_transition w target reason now w0 :
  transitionTo w target reason systemActor now = Ok w0 →
  trTo <$> wfTransitions w = [Workflow.StatusRouted; StatusPolicyChecked] →
  wfStatus w0 = target ∧ trTo <$> wfTransitions w0 = started_path target.
Proof. intros E Pa. apply transition_path in E as [? E]. by rewrite E, Pa. Qed.

(** Every way out of policy_checked that a start takes is open. *)
Lemma launch_Ok w target reason now :
  wfStatus w = StatusPolicyChecked →
  target ∈ [StatusRunning; Workflow.StatusAwaitingApproval; Workflow.StatusFailed] →
  ∃ w0, transitionTo w target reason systemActor now = Ok w0.
Proof. intros E Ht. destruct (checked_transition w target reason systemActor now E Ht) as (w0 & ? & _). by exists w0. Qed.

Lemma start_side_denied W tk wid : start_side W W tk wid Workflow.StatusFailed.
Proof. by split. Qed.

(** The lease of a run that starts. *)
Definition lease_of (w : WorkflowRun) (now : Timestamp) (id : string) : ExecutionLease :=
  {| elID := id; elWorkflowRunID := wfID w; elTimeoutBudget := defaultTimeout;
     elRetryBudget := {| rbMaxAttempts := defaultMaxRetries |}; elAttemptsUsed := 0;
     elTimeElapsed := 0; elStatus := LeaseStatusActive; elCreatedAt := now |}.

Lemma alone_newLease {B} w now (k : result ExecutionLease → proc B) Q F W :
  (∀ id F', (∀ j, F' j → F j) → new_id tot F' W id → alone (k (Ok (lease_of w now id))) Q F' W) →
  alone (newLease w now ≫= k) Q F W.
Proof. intros K. exact (alone_id tot (λ id, k (Ok (lease_of w now id))) Q F W K). Qed.

Section branches.
Context {W0 W : World} {tk wid : string} {w : WorkflowRun} (now : Timestamp).
Hypothesis Nr : new_run W0 W tk wid w [Workflow.StatusRouted; StatusPolicyChecked] StatusPolicyChecked.
Hypothesis Hz : ts_Time now ≠ 0%Z.
Hypothesis V : run_view W w.
Hypothesis Hid : wfID w = wid.

Lemma startDenied_does `{Wiring} t pd F :
  alone (startDenied t pd w now) (answer (λ W', launched W0 W W' tk wid Workflow.StatusFailed)) F W.
Proof using Nr Hz V Hid.
  unfold startDenied, Workflow.Fail. apply alone_pure; [intros _; apply launch_Ok; [apply Nr|set_solver]|].
  intros w0 E0. destruct (launch_transition _ _ _ _ _ E0 (nr_path _ _ _ _ _ _ _ Nr)) as [St Pa].
  destruct (run_view_free _ _ _ _ _ now _ V E0 Hz eq_refl) as (V0 & Hi & Hk).
  eapply alone_launch; [exact Nr|done|congruence|rewrite Hk; apply Nr|done|done|done| |done|].
  - apply start_side_denied.
  - intros F' W'. apply alone_denied_report.
Qed.

Lemma startAwaitingApproval_does t pd F :
  policy_row W (wfTaskID w) [OutcomeRequireApproval] → tkID t = tk →
  (tot = true → TrimSpace (pdReason pd) ≠ "" ∧ has (w_tasks W) tk = true) →
  alone (startAwaitingApproval t pd w now)
    (answer (λ W', launched W0 W W' tk wid Workflow.StatusAwaitingApproval)) F W.
Proof using Nr Hz V Hid.
  intros Pol Et T. unfold startAwaitingApproval, TransitionTo.
  apply alone_pure; [intros _; apply launch_Ok; [apply Nr|set_solver]|]. intros w0 E0.
  destruct (launch_transition _ _ _ _ _ E0 (nr_path _ _ _ _ _ _ _ Nr)) as [St Pa].
  destruct (run_view_transition _ _ _ _ _ now _ V E0 Hz) as (V0 & Hi & Hk).
  { intros t' _ Ht. apply justified_cases. by rewrite Ht. }
  apply alone_id. intros aid F1 _ N1. apply alone_pure.
  { intros E. unfold NewApprovalRequest. rewrite decide_False by apply (T E). eauto. }
  intros a Ha.
  assert (D : apID a = aid ∧ apTaskID a = tk ∧ apWorkflowRunID a = wid ∧ apStatus a = Approval.StatusPending).
  { unfold NewApprovalRequest in Ha. case_decide; simplify_eq. simpl. split_and!; congruence. }
  destruct D as (<- & Dt & Dw & Ds). apply alone_ApprovalSave; [exact N1| |].
  { intros E. rewrite Dt, Dw. split; [apply (T E)|]. rewrite <- Hid. by apply run_view_has. }
  intros F2 W1 _ X I1 Na.
  eapply alone_launch; [exact Nr|done|congruence|rewrite Hk; apply Nr|done|
    by eapply run_view_stable|done| |done|intros F' W'; apply alone_started_report].
  split; [done|]. simpl. exists (apID a), (approvalToRow a). simpl. rewrite Ds. by split_and!.
Qed.

Lemma startRunning_does t F :
  policy_row W (wfTaskID w) allowing_outcomes →
  (tot = true → ∀ id r, w_leases W !! id = Some r → lease_workflow_run_id r ≠ wid) →
  alone (startRunning t w now) (answer (λ W', launched W0 W W' tk wid StatusRunning)) F W.
Proof using Nr Hz V Hid.
  intros Pol T. unfold startRunning, TransitionTo.
  apply alone_pure; [intros _; apply launch_Ok; [apply Nr|set_solver]|]. intros w0 E0.
  destruct (launch_transition _ _ _ _ _ E0 (nr_path _ _ _ _ _ _ _ Nr)) as [St Pa].
  destruct (run_view_transition _ _ _ _ _ now _ V E0 Hz) as (V0 & Hi & Hk).
  { intros t' _ Ht. apply justified_cases. rewrite Ht. intros _. by left. }
  apply alone_newLease. intros lid F1 _ N1.
  assert (Fi : lease_fine (lease_of w0 now lid)) by (by split_and!).
  apply alone_LeaseSave; [exact N1|exact Fi| |].
  { intros E. simpl. rewrite Hi, Hid. split; [|by apply T]. rewrite <- Hid. by apply run_view_has. }
  intros F2 r W1 _ X I1 Nl R. simpl elWorkflowRunID in R. rewrite Hi, Hid in R. intros Rs Ru Rf.
  eapply alone_launch; [exact Nr|done|congruence|rewrite Hk; apply Nr|done|
    by eapply run_view_stable|done| |done|intros F' W'; apply alone_started_report].
  split; [|done]. simpl. by exists lid, r.
Qed.
End branches.

Lemma StartWorkflow_does `{Wiring} tk r F W0 W wid w pid pr :
  w_tasks W !! tk = Some r → tasks_id r = tk →
  (∀ id r, w_workflows W0 !! id = Some r → wf_task_id r ≠ tk) →
  new_run W0 W tk wid w [Workflow.StatusRouted; StatusPolicyChecked] StatusPolicyChecked →
  w_policy W !! pid = Some pr → pd_task_id pr = tk →
  (∀ id r, w_policy W !! id = Some r → pd_task_id r = tk → id = pid) →
  (tot = true → routed W tk ∧ TrimSpace (pdReason (scanPolicyDecision pr)) ≠ "" ∧
     ∀ id r, w_leases W !! id = Some r → lease_workflow_run_id r ≠ wid) →
  alone (StartWorkflow tk)
    (answer (λ W', launched W0 W W' tk wid (start_status (pdOutcome (scanPolicyDecision pr))))) F W.
Proof.
  intros Ht Eid N Nr Hp Ep Up T. apply alone_inv. intros I _. unfold StartWorkflow.
  assert (Fp : ∀ c, query_row (λ r, bool_decide (pd_task_id r = tk)) (λ r, Ok (scanPolicyDecision r))
    "policy decision not found" (ch_pick c) (w_policy W) = Ok (scanPolicyDecision pr)).
  { intros c. rewrite (query_row_unique _ _ _ _ _ pid pr); [done|done|by apply bool_decide_eq_true|].
    intros i x Hi E%bool_decide_eq_true. eauto. }
  apply (alone_find_task _ _ r); [done|]. intros F0 _.
  apply alone_read_sentinel; [done| |].
  { intros E _ _ c NF. destruct (routing_found W c tk NF (proj1 (T E))) as [x ->]. by exists x. }
  intros c1 F1 rd _ _ _ _. apply alone_read_sentinel; [done| |].
  { intros _ _ _ c NF. step_call; cbn [fst]. rewrite NF, Fp. eexists. reflexivity. }
  intros c2 F2 pd _ _ E2 _. step_call in E2; cbn [fst] in E2. apply db_read_Ok in E2. rewrite Fp in E2. injection E2 as <-.
  eapply alone_find_run_sentinel; [exact N|exact Nr|]. intros F3 _.
  destruct (new_run_id _ _ _ _ _ _ _ I Nr) as [V Hid]. apply alone_clock. intros now F4 _ Hz.
  set (pd := scanPolicyDecision pr) in *. unfold start_status.
  assert (Pol : policy_row W (wfTaskID w) [pdOutcome pd]).
  { exists pid, pr. split_and!; [done|by destruct Nr; congruence|apply list_elem_of_here]. }
  pose proof (proj1 (inv_policy _ I _ _ Hp) : is_outcome (pdOutcome pd) = true) as O%outcome_any.
  case_decide as D1; [|case_decide as D2; [|rewrite decide_True]].
  - by apply startDenied_does.
  - rewrite D2 in Pol. eapply startAwaitingApproval_does; try done. intros E. split; [apply (T E)|].
    apply bool_decide_eq_true. by exists r.
  - eapply startRunning_does; [done..| |intros E; apply (T E)]. eapply policy_row_mono; [|exact Pol].
    intros x. unfold allowing_outcomes, any_outcome in *. set_unfold. naive_solver.
  - unfold any_outcome in O. set_unfold in O. naive_solver.
Qed.

(** * The pipeline *)

(** What the pipeline leaves when it returns [res]: [W] is the database before. *)
Record processed (input : SubmitTaskInput) (action : string) (W W' : World) (res : ProcessTaskResult)
    : Prop := {
  pc_task : ∃ now, NewTask (tkID (ptTask res)) None (inType input) (inTitle input) (inScope input)
    (inPriority input) (classifyRisk (inType input) (inScope input)) (inMetadata input) now = Ok (ptTask res);
  pc_stored : ∃ r, taskToRow (ptTask res) = Ok r ∧ w_tasks W' !! tkID (ptTask res) = Some r;
  pc_fresh : w_tasks W !! tkID (ptTask res) = None;
  pc_tasks : w_tasks W ⊆ w_tasks W' ∧ ∀ id r, w_tasks W' !! id = Some r →
    w_tasks W !! id = Some r ∨ id = tkID (ptTask res) ∨ tasks_parent_task_id r = Some (tkID (ptTask res));
  pc_route : decided_route W W' (tkID (ptTask res)) (ptTask res) (ptRoutingDecision res);
  pc_policy : decided_policy W W' (tkID (ptTask res)) action (ptTask res) (ptPolicyDecision res);
  pc_status : wfStatus (ptWorkflowRun res) = start_status (pdOutcome (ptPolicyDecision res));
  pc_run : ∃ w, new_run W W' (tkID (ptTask res)) (wfID (ptWorkflowRun res)) w
    (started_path (wfStatus (ptWorkflowRun res))) (wfStatus (ptWorkflowRun res));
  pc_side : start_side W W' (tkID (ptTask res)) (wfID (ptWorkflowRun res)) (wfStatus (ptWorkflowRun res));
}.

Definition input_known (input : SubmitTaskInput) : bool :=
  known (inType input) && known (inScope input) && known (inPriority input).

Lemma scan_outcome pd : is_outcome (pdOutcome pd) = true →
  pdOutcome (scanPolicyDecision (policyToRow pd)) = pdOutcome pd.
Proof. apply outcome_roundtrip. Qed.

(** Nothing refers to a task that does not exist. *)
Lemma no_dangling W tk : inv W → w_tasks W !! tk = None →
  (∀ id r, w_workflows W !! id = Some r → wf_task_id r ≠ tk) ∧
  (∀ id r, w_policy W !! id = Some r → pd_task_id r ≠ tk).
Proof.
  intros I N. assert (D : ∀ t, has (w_tasks W) t = true → t ≠ tk).
  { intros t Ht%bool_decide_eq_true ->. destruct Ht as [x Hx]. congruence. }
  split; intros id r Hr; apply D.
  - apply (inv_workflows _ I _ _ Hr).
  - apply (inv_policy _ I _ _ Hr).
Qed.

Lemma submitted_known input W W' t : submitted input W W' t → input_known input = true → task_known t = true.
Proof.
  intros [[now Hn] _ _ _] K. unfold NewTask in Hn. case_decide; [done|]. injection Hn as <-.
  unfold input_known in K. unfold task_known. simpl. boolify. rewrite !andb_true_iff.
  split_and!; try done. unfold classifyRisk. by repeat case_decide.
Qed.


(** What the pipeline needs to succeed when no fault occurs. *)
Definition processable `{Wiring} (input : SubmitTaskInput) (action : string) : Prop :=
  submittable input ∧ action ≠ "" ∧ has_stats = false.

Lemma ProcessTask_does `{Wiring} input action F W :
  inv W → input_known input = true → (tot = true → processable input action) →
  alone (ProcessTask input action) (answer (λ W', processed input action W W')) F W.
Proof.
  intros I K T. unfold ProcessTask.
  eapply alone_tryf; [apply SubmitTask_does; intros E; apply (T E)|]. intros F1 W1 t _ _ _ [Su Ne].
  pose proof (submitted_known _ _ _ _ Su K) as Kt. destruct Su as [Tn (r & Er & T1) Fr (R1 & P1 & L1 & Le1 & A1)].
  destruct (no_dangling W (tkID t) I Fr) as [Nw Np]. destruct (taskToRow_fields _ _ Er) as [Eid _].
  assert (Kr : task_known (scanTask r) = true).
  { destruct (scanTask_taskToRow _ _ Kt Er) as (m & _ & ->). exact Kt. }
  eapply alone_tryf.
  { apply (RouteTask_does (tkID t) r); [by rewrite T1, lookup_insert_eq|done|by rewrite L1|].
    intros E. split_and!; [apply (T E)|by apply Ne|done]. }
  intros F2 W2 rd _ _ I2 [Dr S2 C2 (wid & w & Nr2) (P2 & Le2 & A2)].
  assert (Ht2 : w_tasks W2 !! tkID t = Some r).
  { eapply lookup_weaken; [|exact S2]. by rewrite T1, lookup_insert_eq. }
  assert (Rt : routed W2 (tkID t)).
  { destruct Dr as [(mem & st & x & _ & _ & _ & Dt) (row & Erow & Dr) _]. exists (rdID rd), row.
    rewrite Dr, lookup_insert_eq. split; [done|]. unfold routingToRow in Erow. case_match; simplify_eq. done. }
  eapply alone_tryf.
  { apply (EvaluatePolicy_does _ r action F2 W1 W2 wid w); [done|by rewrite L1|done|].
    intros E. split; [apply (T E)|done]. }
  intros F3 W3 pd _ X3 I3 [[[Do Dt Dw Df] (w3 & Nr3) (T3 & R3 & Le3 & A3)] Vr].
  eapply alone_tryf.
  { apply (StartWorkflow_does _ r F3 W1 W3 wid w3 (pdID pd) (policyToRow pd));
      [by rewrite T3|done|by rewrite L1|done|by rewrite Dw, lookup_insert_eq|done| |].
    - intros id x. rewrite Dw, P2, P1, lookup_insert_Some. intros [[<- _]|[_ Hx]] Ex; [done|by destruct (Np id x)].
    - intros _. split_and!; [by eapply routed_ext|done|]. intros id x. rewrite Le3, Le2, Le1. intros Hx Ex.
      destruct (inv_leases _ I _ _ Hx) as (_ & _ & y & Hy & _). destruct Nr2. congruence. }
  intros F4 W4 wf _ _ _ [[Sw Iw] (w4 & Nr4) Sd (T4 & R4 & P4)]. apply alone_ret. intros _. simpl in *.
  rewrite <- Sw, <- Iw in Nr4, Sd.
  assert (N4 : new_run W W4 (tkID t) (wfID wf) w4 (started_path (wfStatus wf)) (wfStatus wf))
    by (destruct Nr4; split; congruence || (rewrite <- L1; done)).
  split; simpl.
  - exact Tn.
  - exists r. split; [done|]. by rewrite T4, T3.
  - exact Fr.
  - rewrite T4, T3. split; [by etrans; [apply (insert_subseteq _ (tkID t) r), Fr|rewrite <- T1]|].
    intros id x [Hx|Hx]%C2; [|by right; right]. rewrite T1, lookup_insert_Some in Hx.
    destruct Hx as [[<- _]|[_ Hx]]; [by right; left|by left].
  - destruct Dr as [(mem & stats & x & Ev & D) (row & Erow & Dr) Frd].
    rewrite (stored_routing t r) in Ev by done. split; [by exists mem, stats, x| |congruence].
    exists row. split; [done|]. congruence.
  - rewrite (stored_policy t r) in Do by done. split; congruence.
  - rewrite Sw. f_equal. apply scan_outcome. rewrite Do. apply default_outcome.
  - by exists w4.
  - destruct Sd as [L A]. rewrite Le3, Le2, Le1 in L. rewrite A3, A2, A1 in A. by split.
Qed.
End pipeline.

(** A supply of identifiers: each is new, and none comes twice. *)
Definition new_supply {PG : Postgres} (o : nat → choice) (W : World) : Prop :=
  (∀ m n, ch_id (o m) = ch_id (o n) → m = n) ∧ ∀ n, fresh_id W (ch_id (o n)).

Section theorems.
Context {PG : Postgres} {Zn : Zone} {Ul : ULID} {Ch : Chi}.

(** C6: what the intake pipeline does.  From every reachable state, whatever faults hit the
    statements of the pipeline, if processing a task submitted with declared constants succeeds,
    then: the task is new, stored, with the risk level of its type and scope, and the only other
    tasks added are its subtasks; one routing decision was added, with the strategy and role the
    evaluator selects for the task; one policy decision was added, with the outcome of the default
    rules for the task and the action; one run was added, whose stored history is routed,
    policy_checked, and then failed, awaiting_approval or running as that outcome says; one active
    lease with no attempt used was added for the run if it is running, one pending approval request
    if it waits, and neither otherwise. *)
Theorem ProcessTask_effect `{Wiring} s o input action res W' o' :
  sys_reachable s → timely o → input_known input = true →
  run (ProcessTask input action) o (sys_world s) = (Returned (Ok res), W', o') →
  processed input action (sys_world s) W' res.
Proof.
  intros R T K E. apply sys_reachable_inv in R as [I _].
  destruct (run_alone false (ProcessTask input action) anything (answer false (λ W', processed input action (sys_world s) W'))
    (λ _, False) o (sys_world s)) as (a & W'' & o'' & E' & Q & _); [apply ProcessTask_safe|done|done| | |].
  - by split; [intros n; split|].
  - by apply ProcessTask_does.
  - rewrite E in E'. by injection E' as <- <- _.
Qed.

Lemma ProcessTask_runs `{Wiring} W o input action :
  inv W → clean o → new_supply o W → (∀ n, tame (ch_memory (o n))) →
  input_known input = true → processable input action →
  ∃ res W' o', run (ProcessTask input action) o W = (Returned (Ok res), W', o') ∧
    processed input action W W' res ∧ inv W'.
Proof.
  intros I C [D N] M K Pr.
  destruct (run_alone true (ProcessTask input action) anything (answer true (λ W', processed input action W W'))
    (λ i, ∃ n, i = ch_id (o n)) o W) as (a & W' & o' & E & Q & I' & _); [apply ProcessTask_safe|done| | | |].
  - intros _ i [n ->]. apply N.
  - split; [|done]. intros n. split; [apply C|]. intros _. split_and!; [apply C|by exists n|apply M].
  - by apply ProcessTask_does.
  - destruct a as [res|e]; [|done]. by exists res, W', o'.
Qed.

(** The intake pipeline works.  From every reachable state, when no fault occurs, the
    generated identifiers are new, the memory engine answers as the stub does or fails, and adaptive
    routing is off, processing a task with a title, an action, declared constants and metadata that
    JSON can hold always succeeds, with the effect of [processed]: no guard, constraint or foreign key
    between the four use cases gets in the way, whichever strategy and policy outcome result. *)
Theorem ProcessTask_succeeds `{Wiring} s o input action :
  sys_reachable s → clean o → new_supply o (sys_world s) → (∀ n, tame (ch_memory (o n))) →
  input_known input = true → processable input action →
  ∃ res W' o', run (ProcessTask input action) o (sys_world s) = (Returned (Ok res), W', o') ∧
    processed input action (sys_world s) W' res.
Proof.
  intros R C N M K Pr. apply sys_reachable_inv in R as [I _].
  destruct (ProcessTask_runs _ o input action I C N M K Pr) as (res & W' & o' & E & Q & _). by exists res, W', o'.
Qed.
End theorems.
