(* ===== verification/EndToEnd.v ===== *)
(** From a task to the end of its run: the intake pipeline, the resolution of its approval and the
    attempts of the agent, each run alone, composed. *)

From stdpp Require Import options.
From S2P Require Import Prelude GoLib Shared Task Workflow Execution Approval Escalation Policy.
From S2P Require Import Routing RoutingSpec AuditLog Resilience Persistence Ports AuditService Intake.
From S2P Require Import RouteTask PolicyEval WorkflowService ApprovalService ProcessTask ProgramLogic PortSpecs.
From S2P Require Import TimeFormat Handlers Runs ServiceSpecs System ServiceEffects StartEffects.
From S2P Require Import ResolveEffects Success PipelineEffects.

Section end_to_end.
Context {PG : Postgres} {Zn : Zone} {Ul : ULID} {Ch : Chi} `{Wiring}.

(** The attempt is refused and nothing changes. *)
Definition refused (wid : string) (att : AttemptResult) (W : World) : Prop :=
  ∀ o, clean o → ∃ e o', run (RegisterAttempt wid att) o W = (Returned (Err e), W, o').

(** The attempt is recorded and completes the run, and only that. *)
Definition completes (wid : string) (att : AttemptResult) (W : World) : Prop :=
  ∀ o, clean o → ∃ w W' o', run (RegisterAttempt wid att) o W = (Returned (Ok w), W', o') ∧
    only_run W W' wid ∧ (∃ w', run_at W' wid w' ∧ wfStatus w' = Workflow.StatusCompleted) ∧
    (∃ lid l, lease_at W' lid wid l ∧ elAttemptsUsed l = 1%Z).

Lemma refused_terminal W wid w att :
  run_at W wid w → Workflow.IsTerminal (wfStatus w) = true → refused wid att W.
Proof.
  intros Hw T o C. unfold RegisterAttempt. rewrite run_call, (exec_WfFindByID _ _ _ w (proj1 (C 0)) Hw), T.
  do 2 eexists. reflexivity.
Qed.

Lemma refused_unleased W wid w att :
  run_at W wid w → (∀ lid r, w_leases W !! lid = Some r → lease_workflow_run_id r ≠ wid) → refused wid att W.
Proof.
  intros Hw N o C. destruct (Workflow.IsTerminal (wfStatus w)) eqn:T; [by eapply refused_terminal|].
  unfold RegisterAttempt. rewrite run_call, (exec_WfFindByID _ _ _ w (proj1 (C 0)) Hw), T, run_pure.
  destruct (Validate att); [|do 2 eexists; reflexivity]. rewrite run_call. step_call.
  destruct (db_read _ _ _) as [l|e] eqn:E; [|do 2 eexists; reflexivity].
  apply db_read_Ok, query_row_ok in E as (lid & r & Hr & P%bool_decide_eq_true & _). by destruct (N lid r).
Qed.

Lemma completes_active W wid w lid l att :
  inv W → run_at W wid w → wfStatus w = StatusRunning → lease_at W lid wid l →
  elStatus l = LeaseStatusActive → elAttemptsUsed l = 0%Z →
  Validate att = Ok tt → arStatus att = AttemptStatusSuccess → completes wid att W.
Proof.
  intros I Hw Sw Hl Sl U V S o C. pose proof (RegisterAttempt_does W o wid lid w l att I C Hw Hl) as A.
  unfold attempt_outcome in A. rewrite Sw, V, Sl, S in A. rewrite !decide_True in A by done. cbn in A.
  destruct A as (w0 & W' & o' & E & _ & O & (w' & Hw' & Sw' & _) & (l' & Hl' & U' & _)).
  exists w0, W', o'. split; [exact E|]. split_and!; [done|by exists w'|]. exists lid, l'. split; [done|].
  rewrite U', U. done.
Qed.
(** What a request of a waiting run leads to: either resolution succeeds, and the agent can then
    complete the run, or no longer work on it. *)
Definition resolvable (wid rid : string) (att : AttemptResult) (W : World) : Prop :=
  ∀ o approved actor reason, clean o → w_leases W !! ch_id (o 4) = None →
  ∃ req W' o',
    run (ResolveApproval {| raApprovalRequestID := rid; raApproved := approved; raResolvedBy := actor;
                            raReason := reason |}) o W = (Returned (Ok req), W', o') ∧
    apStatus req = (if approved then StatusApproved else StatusDenied) ∧
    if approved then completes wid att W' else refused wid att W'.

Lemma resolvable_waiting W wid w rid r att :
  inv W → run_at W wid w → wfStatus w = Workflow.StatusAwaitingApproval →
  w_approvals W !! rid = Some r → ar_workflow_run_id r = wid → ar_status r = "pending" →
  (∀ lid r, w_leases W !! lid = Some r → lease_workflow_run_id r ≠ wid) →
  Validate att = Ok tt → arStatus att = AttemptStatusSuccess → resolvable wid rid att W.
Proof.
  intros I Hw Sw Hr <- Pd N V S o approved actor reason C Fr.
  set (input := {| raApprovalRequestID := rid; raApproved := approved; raResolvedBy := actor; raReason := reason |}).
  pose proof (ResolveApproval_does W o input r w I C Hr Hw Fr (λ _, N)) as A. rewrite decide_True in A by done.
  destruct (run_safe (ResolveApproval input) anything o W) as (x' & W2 & o2 & E2 & I2 & _ & _);
    [apply ResolveApproval_safe|done|done|].
  destruct A as (x & W' & o' & E & _ & A). rewrite E in E2. injection E2 as <- <- <-. rewrite Sw in A.
  unfold resolution_status in A. destruct approved; cbn [raApproved input] in A; cbn in A.
  - destruct A as ((req & -> & Sr) & [(w' & Hw' & Sw' & _) _ (r' & El & Er & As & Us & _)]).
    exists req, W', o'. split_and!; [exact E|done|].
    eapply (completes_active W' _ w' (ch_id (o 4)) (scanExecutionLease r')); try done.
    exists r'. by rewrite El, lookup_insert_eq.
  - destruct A as ((req & -> & Sr) & [(w' & Hw' & Sw' & _) _ _]). exists req, W', o'. split_and!; [exact E|done|].
    eapply refused_terminal; [exact Hw'|by rewrite Sw'].
Qed.
End end_to_end.

Section theorems.
Context {PG : Postgres} {Zn : Zone} {Ul : ULID} {Ch : Chi}.

(** C7: governed execution gets to its end, and only as governed.  From every reachable state, when
    no fault occurs, identifiers are new and the memory engine answers as specified, an acceptable
    task is processed; then, for a valid successful attempt of the agent: if policy denied the
    task the attempt is refused; if it requires an approval the attempt is refused as long as there is
    none, one pending request was made, approving it succeeds and lets the attempt complete the run, and
    denying it succeeds and has the attempt refused; otherwise the attempt completes the run at once. *)
Theorem governed_execution `{Wiring} s o input action att :
  sys_reachable s → clean o → new_supply o (sys_world s) → (∀ n, tame (ch_memory (o n))) →
  input_known input = true → processable input action →
  Validate att = Ok tt → arStatus att = AttemptStatusSuccess →
  ∃ res W o', run (ProcessTask input action) o (sys_world s) = (Returned (Ok res), W, o') ∧
    let wid := wfID (ptWorkflowRun res) in
    if decide (pdOutcome (ptPolicyDecision res) = OutcomeDeny) then refused wid att W
    else if decide (pdOutcome (ptPolicyDecision res) = OutcomeRequireApproval) then
      refused wid att W ∧
      ∃ rid r, w_approvals W = <[rid := r]> (w_approvals (sys_world s)) ∧ ar_status r = "pending" ∧
        resolvable wid rid att W
    else completes wid att W.
Proof.
  intros R C N M K Pr V S. apply sys_reachable_inv in R as [I _].
  destruct (ProcessTask_runs _ o input action I C N M K Pr) as (res & W & o' & E & Q & I').
  exists res, W, o'. split; [exact E|]. intros wid.
  destruct Q as [_ _ _ _ _ _ St (w & Nr) [L A]]. rewrite St in L, A, Nr. destruct Nr as [Fr _ Hw _ _ Sw].
  assert (Nl : ∀ lid r, w_leases (sys_world s) !! lid = Some r → lease_workflow_run_id r ≠ wid).
  { intros lid r Hl Eq. destruct (inv_leases _ I _ _ Hl) as (_ & _ & x & Hx & _). rewrite Eq in Hx.
    unfold wid in Hx. congruence. }
  unfold start_status in *. destruct (decide (pdOutcome (ptPolicyDecision res) = OutcomeDeny)) as [Dn|Dn];
    [|destruct (decide (pdOutcome (ptPolicyDecision res) = OutcomeRequireApproval)) as [Rq|Rq]].
  - eapply refused_terminal; [exact Hw|by rewrite Sw].
  - rewrite decide_False in L by done. rewrite decide_True in A by done.
    destruct A as (rid & r & Nr & Ea & Ew & _ & Pd).
    assert (Nl' : ∀ lid x, w_leases W !! lid = Some x → lease_workflow_run_id x ≠ wid) by (by rewrite L).
    split; [by eapply refused_unleased|]. exists rid, r. split_and!; [done..|].
    eapply (resolvable_waiting W _ w rid r); try done. by rewrite Ea, lookup_insert_eq.
  - rewrite decide_True in L by done. destruct L as (lid & r & Nr & El & Er & As & Us & _).
    eapply (completes_active W _ w lid (scanExecutionLease r)); try done.
    exists r. by rewrite El, lookup_insert_eq.
Qed.
End theorems.
