(* ===== verification/Scenarios.v ===== *)
(** Concrete executions of the system: the witnesses of its theorems, and two interleavings
    that unsynchronised read-modify-write cycles allow. *)

From stdpp Require Import options.
From S2P Require Import Prelude GoLib Shared Task Workflow Execution Approval Escalation Policy.
From S2P Require Import Routing AuditLog Resilience FailureStatsCollector Persistence Queries.
From S2P Require Import Ports AuditService Intake RouteTask PolicyEval WorkflowService ApprovalService.
From S2P Require Import EscalationService GovDecisions ProcessTask ProgramLogic PortSpecs Runs ServiceSpecs.
From S2P Require Import TimeFormat Handlers System ServiceEffects StartEffects ResolveEffects.
From S2P Require Import Config Success PipelineEffects EndToEnd.

(** * Executable schedules *)

(** A request arrives, at the head of the pool; or the i-th request of the pool makes one call. *)
Inductive event := EvRequest (r : request) | EvCall (i : nat) (c : choice).

Section schedule.
Context {PG : Postgres} {Wi : Wiring} {Zn : Zone} {U : ULID} {Ch : Chi}.

Definition apply_event (s : System) (e : event) : System :=
  match e with
  | EvRequest r => {| sys_world := sys_world s; sys_pool := serve r :: sys_pool s |}
  | EvCall i c =>
      match sys_pool s !! i with
      | Some p => {| sys_world := (step c p (sys_world s)).2;
                     sys_pool := <[i := (step c p (sys_world s)).1]> (sys_pool s) |}
      | None => s
      end
  end.

Definition play (es : list event) (s : System) : System := foldl apply_event s es.

Definition good_event (e : event) : bool :=
  match e with EvRequest _ => true | EvCall _ c => negb (ch_now c =? 0)%Z end.

Lemma apply_event_step s e : good_event e = true → rtc sys_step s (apply_event s e).
Proof.
  destruct s as [W pool], e as [r|i c]; simpl; intros G; [by apply rtc_once, step_request|].
  destruct (pool !! i) as [p|] eqn:E; [|done]. apply rtc_once.
  rewrite <- (take_drop_middle _ _ _ E) at 1. rewrite insert_take_drop by (by eapply lookup_lt_Some).
  apply step_call. unfold good. by boolify.
Qed.

Lemma play_steps es s : forallb good_event es = true → rtc sys_step s (play es s).
Proof.
  revert s. induction es as [|e es IH]; intros s G; [done|]. simpl in *. boolify.
  etrans; [by apply apply_event_step|]. by apply IH.
Qed.

Lemma rtc_reachable s s' : sys_reachable s → rtc sys_step s s' → sys_reachable s'.
Proof. intros R H. induction H; [done|]. apply IHrtc. by eapply sys_next. Qed.

Lemma play_reachable es s : forallb good_event es = true → sys_reachable s → sys_reachable (play es s).
Proof. intros G R. eapply rtc_reachable; [done|]. by apply play_steps. Qed.
End schedule.

(** * The setting of the scenarios *)

(** Every call succeeds; the n-th has its own identifier and time. *)
Definition fine_choice (n : nat) : choice :=
  {| ch_fault := NoFault; ch_id := "id" +:+ pretty n; ch_now := (1000 * (1 + Z.of_nat n))%Z;
     ch_pick := 0; ch_memory := Ok None; ch_span := None; ch_notify := Ok tt |}.

(** Request [i] makes the calls numbered [from], ..., [from + n - 1]. *)
Definition calls (i from n : nat) : list event := (λ k, EvCall i (fine_choice k)) <$> seq from n.

#[local] Instance demo_pg : Postgres := micro_pg.
#[local] Instance demo_wiring : Wiring :=
  {| has_memory := true; has_stats := true; has_metrics := true; has_breakers := true |}.

#[local] Instance demo_zone : Zone := {| zone_offset _ := 0%Z |}.
#[local] Instance demo_ulid : ULID := {| ParseStrict _ := true |}.
#[local] Instance demo_chi : Chi := {| chi_match _ _ _ := inl StatusNotFound |}.

Definition empty_system : System := {| sys_world := empty_world; sys_pool := [] |}.

Definition demo_input (ty : TaskType) (sc : TaskScope) : SubmitTaskInput :=
  {| inType := ty; inTitle := "demo"; inScope := sc; inPriority := PriorityNormal; inMetadata := ∅ |}.

(** A bug fix in a file runs at once; a review of the system needs an approval. *)
Definition started : System :=
  play (EvRequest (ReqProcessTask (demo_input TypeBugfix ScopeFile) "code_edit") :: calls 0 0 60)
    empty_system.
Definition waiting : System :=
  play (EvRequest (ReqProcessTask (demo_input TypeReview ScopeSystem) "code_edit") :: calls 0 0 60)
    empty_system.

(** The statuses of runs, leases and approval requests, in key order. *)
Definition statuses (s : System) : list string * list string * list string :=
  ((λ r, wf_status r) <$> (map_to_list (w_workflows (sys_world s))).*2,
   (λ r, lease_status r) <$> (map_to_list (w_leases (sys_world s))).*2,
   (λ r, ar_status r) <$> (map_to_list (w_approvals (sys_world s))).*2).

(** Two clients resolve the same pending request at once: both read it, both write their
    resolution, both read the run while it waits. *)
Definition approve_and_deny : list event :=
  [EvRequest (ReqResolveApproval {| raApprovalRequestID := "id51"; raApproved := true;
                                    raResolvedBy := "alice"; raReason := "fine" |});
   EvRequest (ReqResolveApproval {| raApprovalRequestID := "id51"; raApproved := false;
                                    raResolvedBy := "bob"; raReason := "no" |})] ++
  calls 1 100 3 ++ calls 0 110 3 ++ calls 1 120 1 ++ calls 0 130 1 ++ calls 1 140 1 ++
  calls 0 150 30 ++ calls 1 200 30.

(** An attempt is registered while the run is killed: the attempt reads the run and the
    lease, the kill runs to its end, the attempt writes back what it read. *)
Definition retry_attempt : AttemptResult :=
  {| arStatus := AttemptStatusRetry; arFailureStage := Some FailureStageExecution;
     arFailureCode := Some "tool/timeout"; arRetryable := Some true; arToolName := Some "shell";
     arStrategyUsed := Some "direct"; arAgentRole := Some "implementer"; arDetail := None |}.

Definition attempt_meets_kill : list event :=
  [EvRequest (ReqRegisterAttempt "id16" retry_attempt)] ++ calls 0 100 3 ++
  [EvRequest (ReqKillWorkflow "id16" "stop" "alice")] ++ calls 0 110 40.

Definition finish_attempt : list event := calls 1 200 60.

Lemma init_reachable : sys_reachable empty_system.
Proof. apply sys_init. Qed.

Lemma started_reachable : sys_reachable started.
Proof. apply play_reachable; [vm_compute; reflexivity|apply init_reachable]. Qed.

Lemma waiting_reachable : sys_reachable waiting.
Proof. apply play_reachable; [vm_compute; reflexivity|apply init_reachable]. Qed.



(** * Witnesses of the theorems of System *)

Lemma no_unauthorized_execution_witness :
  ∃ r, w_leases (sys_world started) !! "id39" = Some r ∧
       authorized (sys_world started) (lease_workflow_run_id r) ∧
       lease_workflow_run_id r = "id16".
Proof.
  destruct (w_leases (sys_world started) !! "id39") as [r|] eqn:E; [|vm_compute in E; discriminate].
  exists r. split; [reflexivity|].
  split; [apply (no_unauthorized_execution started "id39" r started_reachable E)|].
  vm_compute in E. injection E as <-. reflexivity.
Defined.

Lemma stored_runs_legal_witness :
  ∃ r w, w_workflows (sys_world waiting) !! "id16" = Some r ∧ scanWorkflowRun r = Ok w ∧
         Forall (justified (sys_world waiting) "id16" (wf_task_id r)) (wfTransitions w).
Proof.
  destruct (w_workflows (sys_world waiting) !! "id16") as [r|] eqn:E; [|vm_compute in E; discriminate].
  destruct (stored_runs_legal waiting "id16" r waiting_reachable E)
    as (_ & w & Hs & _ & _ & _ & J).
  exists r, w. split; [reflexivity|]. split; [exact Hs|exact J].
Defined.



(** * Witnesses of the effect theorems *)

Lemma later_clean : clean (λ n, fine_choice (100 + n)).
Proof. intros n. split; [reflexivity|]. unfold good, fine_choice; cbn [ch_now]. lia. Qed.

Definition find_run (s : System) (id : string) : option WorkflowRun :=
  r ← w_workflows (sys_world s) !! id;
  match scanWorkflowRun r with Ok w => Some w | Err _ => None end.

Lemma find_run_at s id w : find_run s id = Some w → run_at (sys_world s) id w.
Proof.
  unfold find_run, run_at. destruct (w_workflows (sys_world s) !! id) as [r|]; [|done]. cbn [mbind option_bind].
  destruct (scanWorkflowRun r) as [w'|] eqn:E; [|done]. intros [= <-]. by exists r.
Qed.

Definition find_lease (s : System) (lid : string) : option (string * ExecutionLease) :=
  (λ r, (lease_workflow_run_id r, scanExecutionLease r)) <$> w_leases (sys_world s) !! lid.

Lemma find_lease_at s lid id l : find_lease s lid = Some (id, l) → lease_at (sys_world s) lid id l.
Proof.
  unfold find_lease, lease_at. destruct (w_leases (sys_world s) !! lid) as [r|]; [|done].
  intros [= <- <-]. by exists r.
Qed.

(** The keys of a table with at most one row. *)
Lemma only_key {R} (m : gmap string R) k0 k r :
  m !! k = Some r → (map_to_list m).*1 = [k0] → k = k0.
Proof.
  intros H%elem_of_map_to_list E. apply list_elem_of_singleton. rewrite <- E.
  apply list_elem_of_fmap. by exists (k, r).
Qed.

Lemma no_key {R} (m : gmap string R) k r : m !! k = Some r → (map_to_list m).*1 = [] → False.
Proof.
  intros H%elem_of_map_to_list E. apply (not_elem_of_nil k). rewrite <- E.
  apply list_elem_of_fmap. by exists (k, r).
Qed.



(** A deployment of the whole system, processed while the first task runs. *)
Definition deployment_run :=
  run (ProcessTask (demo_input TypeDeployment ScopeSystem) "deployment") (λ n, fine_choice (100 + n))
    (sys_world started).

Lemma ProcessTask_effect_witness :
  ∃ res W' o', deployment_run = (Returned (Ok res), W', o') ∧
    processed (demo_input TypeDeployment ScopeSystem) "deployment" (sys_world started) W' res ∧
    wfStatus (ptWorkflowRun res) = Workflow.StatusAwaitingApproval.
Proof.
  assert (C : match deployment_run with
              | (Returned (Ok res), _, _) => wfStatus (ptWorkflowRun res) = Workflow.StatusAwaitingApproval
              | _ => False end) by (vm_compute; reflexivity).
  destruct deployment_run as [[[[res|e]|] W'] o'] eqn:E; try contradiction.
  exists res, W', o'. split; [reflexivity|]. split; [|exact C].
  eapply ProcessTask_effect; [apply started_reachable| |vm_compute; reflexivity|exact E].
  intros n. apply later_clean.
Defined.

Lemma fine_id_inj m n : ch_id (fine_choice m) = ch_id (fine_choice n) → m = n.
Proof. unfold fine_choice, ch_id. intros E. injection E. apply (inj pretty). Qed.

Lemma first_supply : new_supply fine_choice (sys_world empty_system).
Proof. split; [apply fine_id_inj|]. intros n. by split_and!. Qed.

(** The program as it is configured when no environment variable is set. *)
Definition default_wiring : Wiring := wiring_of (Load (λ _, "")).

Lemma ProcessTask_succeeds_witness :
  let W := sys_world empty_system in
  let input := demo_input TypeDeployment ScopeRepo in
  ∃ res W' o', run (@ProcessTask (@governance_pipeline default_wiring) input "deployment") fine_choice W
                 = (Returned (Ok res), W', o') ∧
    processed input "deployment" W W' res.
Proof.
  intros W input. apply (ProcessTask_succeeds empty_system fine_choice).
  - apply sys_init.
  - intros n. split; [reflexivity|]. unfold good, fine_choice; cbn [ch_now]. lia.
  - apply first_supply.
  - intros n. exists None. reflexivity.
  - vm_compute. reflexivity.
  - split; [split; [vm_compute; discriminate|apply jsonable_empty]|]. split; [discriminate|reflexivity].
Defined.

(** The same deployment, to its end: it waits for an approval, which lets the agent complete it. *)
Lemma governed_execution_witness :
  let W := sys_world empty_system in
  let input := demo_input TypeDeployment ScopeRepo in
  ∃ res W' o', run (@ProcessTask (@governance_pipeline default_wiring) input "deployment") fine_choice W
                 = (Returned (Ok res), W', o') ∧
    @refused _ default_wiring (wfID (ptWorkflowRun res)) NewSuccessResult W' ∧
    ∃ rid, @resolvable _ default_wiring (wfID (ptWorkflowRun res)) rid NewSuccessResult W'.
Proof.
  intros W input.
  assert (C : match run (@ProcessTask (@governance_pipeline default_wiring) input "deployment") fine_choice W with
              | (Returned (Ok res), _, _) => pdOutcome (ptPolicyDecision res) = OutcomeRequireApproval
              | _ => False end) by (vm_compute; reflexivity).
  destruct (governed_execution (H := default_wiring) empty_system fine_choice input "deployment" NewSuccessResult)
    as (res & W' & o' & E & G); [apply sys_init| |apply first_supply|by intros n; exists None|reflexivity| |done|done|].
  - intros n. split; [reflexivity|]. unfold good, fine_choice; cbn [ch_now]. lia.
  - split; [split; [vm_compute; discriminate|apply jsonable_empty]|]. split; [discriminate|reflexivity].
  - exists res, W', o'. split; [exact E|]. fold W in E. rewrite E in C.
    rewrite decide_False, decide_True in G by (rewrite C; done).
    destruct G as (Rf & rid & r & _ & _ & Rs). split; [exact Rf|]. exists rid. exact Rs.
Defined.

(** The bug fix of [started] just before its workflow is started. *)
Definition checked : System :=
  play (EvRequest (ReqProcessTask (demo_input TypeBugfix ScopeFile) "code_edit") :: calls 0 0 34)
    empty_system.

Lemma checked_reachable : sys_reachable checked.
Proof. apply play_reachable; [vm_compute; reflexivity|apply init_reachable]. Qed.


Definition approve_input : ResolveApprovalInput :=
  {| raApprovalRequestID := "id51"; raApproved := true; raResolvedBy := "alice"; raReason := "ok" |}.

